(* ===== verification/_CoqProject ===== *)
-Q . S2P
Prelude.v
CString.v
MeterData.v
SysFs.v
CFloat.v
Pid.v
Cdev.v
CdevLimits.v
CdevControl.v
CdevDevices.v
CdevCpufreq.v
PowerMeter.v
CdevRapl.v
Machine.v
Preference.v
TripPoint.v
TripTheorems.v
Xml.v
Parse.v
ParseTheorems.v
ParseCodec.v
Zone.v
ZoneKinds.v
ZoneTheorems.v
ZoneKindsTheorems.v
ZoneFrame.v
SensorTheorems.v
Engine.v
EngineUser.v
EngineTheorems.v
UserTheorems.v
Witnesses.v
Emergency.v
Gddv.v
GddvTheorems.v
GddvCodec.v
GddvConditions.v
GddvWitnesses.v
InputDevices.v
EngineAdaptive.v
EngineAdaptiveTheorems.v
KobjUevent.v
EngineStart.v
EngineStartTheorems.v
Devices.v
EngineDefault.v
EngineDefaultTheorems.v
EngineAdaptiveInit.v
EngineInitTheorems.v
AcpiRel.v
AcpiRelTheorems.v
Platform.v
EngineCalm.v
DBus.v
DBusTheorems.v
DBusServer.v
Pointers.v
PointersEngine.v
DefaultBinding.v
DefaultBindingTheorems.v
PointersStart.v
PointersAdaptive.v
Daemon.v
Main.v
AndroidMain.v
AndroidConditions.v
