(* ===== verification/Prelude.v ===== *)
(** * Thermal Daemon: a verification library

    The thermal daemon (src/src) keeps a machine cool.  It reads temperatures
    from sensors, compares them with the trip points of thermal zones, and
    drives cooling devices: fans, P-states, CPU frequency limits, the display
    backlight, RAPL power limits.  One engine thread waits for events with a
    timeout, reads the zones, and obeys the messages that other parts (D-Bus
    requests, trip points, sensors) put on a pipe.

    The model is a shallow embedding.  A class is a record of its members, a
    method is a function in the state monad [State] of this file over the
    object and the world, and an assignment is the record update
    [r <| f := v |>].  Integers are [Z] with the wrap-around of their C type
    written out ([u32], [i32], ...); where the code computes in [float] or
    [double] the model uses IEEE binary32 and binary64 (CFloat).  The operating
    system is a parameter: the class [Kernel] of SysFs lists the system calls
    the daemon makes, [KernelLaws] the documented behaviour that a theorem may
    rely on, and [sim] is a simulated kernel that satisfies the laws and on
    which the concrete runs are evaluated.  libxml2 is the class [LibXml] of
    Xml: a document read from a path, as a list of nodes.

    ** Files and what they model (paths under src/src)

    - Prelude: integers, the state monad, record update, [std::sort], the
      relations [preserves], [returns] and [steps] that lift facts about steps
      of code along its structure, and the automation [steps_tac].
    - CString: the C and C++ string functions used, and thd_util.cpp.
    - MeterData: the record of the power meter; there is one in the process, so
      the world of SysFs holds it.
    - SysFs: [csys_fs] of thd_sys_fs.cpp with its cache of descriptors, over
      the class [Kernel].
    - CFloat: [float] and [double], and the class [Arith] which lets the PID
      controller run in IEEE arithmetic or in exact rationals.
    - Pid: [cthd_pid] of thd_pid.cpp.
    - Cdev: [cthd_cdev] of thd_cdev.cpp and thd_cdev.h.  The virtual methods
      are the class [CdevMethods]; [CdevLaws] (a subclass does not touch the
      base class's bookkeeping) and [CdevTracks] (the state set is the state
      read) are what the base class asks of a subclass.  CdevLimits and
      CdevControl hold its theorems.
    - CdevDevices: thd_cdev_therm_sys_fs.cpp, thd_cdev_gen_sysfs.cpp,
      thd_cdev_intel_pstate_driver.cpp, thd_cdev_backlight.cpp; CdevCpufreq:
      thd_cdev_cpufreq.cpp; CdevRapl: thd_cdev_rapl.cpp and
      thd_cdev_rapl_dram.cpp.  Each gives an instance of [CdevMethods] and,
      where it has them, of the laws.
    - PowerMeter: [cthd_rapl_power_meter] of thd_rapl_power_meter.cpp.
    - Machine: the objects zones and trips share (the engine's vectors of
      devices and sensors, the message pipe) with thd_sensor.cpp,
      thd_sensor_virtual.cpp and thd_sensor_rapl_power.cpp; a pointer is a position in a vector, so two trips
      that point to one device see each other's changes.
    - Preference: thd_preference.cpp.
    - TripPoint: thd_trip_point.cpp; TripTheorems: its theorems.
    - Xml: the tree of libxml2, thd_features_parse.cpp and
      thd_cdev_order_parser.cpp; Parse: thd_parse.cpp and the records of
      thd_parse.h, one function per function of the parser.  [None] is undefined
      behaviour (a null text assigned, a read outside a string).  ParseTheorems:
      when it is defined, what it builds, which platform is matched; ParseCodec:
      a printer and the round trip.
    - ZoneKinds: the subclasses of zones, thd_zone_therm_sys_fs.cpp,
      thd_zone_cpu.cpp, thd_zone_generic.cpp and thd_zone_rapl_power.cpp;
      ZoneKindsTheorems: theirs.
    - Zone: thd_zone.cpp; ZoneTheorems: its theorems; ZoneFrame: what checking
      a zone never touches; SensorTheorems: the sampling thread of a virtual
      sensor.
    - Engine: the thread, the messages and the take-over of the kernel's
      policies (thd_engine.cpp, thd_int3400.cpp); EngineUser: the requests of
      users (thd_engine.cpp, thd_zone_dynamic.cpp) and the discovery of sensors,
      zones and devices; EngineTheorems, UserTheorems: their theorems.
    - Witnesses: concrete runs of the theorems on the simulated kernel.
    - Emergency: the power-off of a zone that stays hot, from the sensor to the
      thread; [EngineStill] is what it asks of a subclass of the engine.
    - Gddv: the data vault of thd_gddv.cpp (typed readers, tables, keys, nested
      and compressed repositories, look-ups) with the wrapper of
      thd_lzma_dec.cpp.  A parse has an [outcome]: it returns, throws, or reads
      outside its buffer.  GddvTheorems: what it promises on untrusted bytes;
      GddvCodec: an encoder and round trips.
    - GddvConditions: the conditions of the adaptive policy, with their
      theorems; GddvWitnesses: concrete vaults and platforms.
    - InputDevices: the switches and the connections the conditions listen to
      (thd_gddv.cpp) and their release, with the theorem; libevdev and GLib are
      the class [Evdev].
    - EngineAdaptive: thd_engine_adaptive.cpp from the selected target to the
      trips and power limits it installs; EngineAdaptiveTheorems.
    - KobjUevent: thd_kobj_uevent.cpp, the decoder of events and, over the class
      [Netlink], the socket, with their theorems.
    - EngineStart: [thd_engine_init], [thd_engine_start] and the power floor
      event of thd_engine.cpp; EngineStartTheorems.
    - Devices: the classes of devices as one sum, on which a virtual call is
      dispatched; it has the laws of [CdevLaws].
    - EngineDefault: thd_engine_default.cpp, how sensors, zones and devices are
      gathered from sysfs and the configuration; EngineDefaultTheorems.
    - EngineAdaptiveInit: loading the data vault (thd_gddv.cpp) and the
      initialization and creation of the adaptive engine; EngineInitTheorems.
    - AcpiRel: thd_trt_art_reader.cpp, the configuration generated from the
      firmware's tables; the requests to the driver are the class [AcpiDriver].
      AcpiRelTheorems: the generated text is a document that Parse reads as the
      tables.
    - Platform: thd_platform.cpp, thd_platform_intel.cpp and
      thd_platform_arm.cpp with their theorems; the processor and the physical
      memory are the class [Hardware].
    - EngineCalm: reading the zones again, the periodic update of the adaptive
      engine and the workarounds keep to the contract of the thread
      ([EngineLaws]); Daemon makes the instances of it.
    - DBus: the method calls of thd_dbus_interface.cpp; DBusTheorems: that they
      keep to thd_dbus_interface.xml.  DBusServer: the set up of the service with
      GDBus and with dbus-glib and the callbacks, over the class [Bus].
    - Pointers, PointersEngine, PointersStart, PointersAdaptive: a judgement that
      code keeps the pointers between objects valid, proved for every operation of
      the sensors, trips, zones, the engines, their start and the D-Bus calls.
    - DefaultBinding: thd_cpu_default_binding.cpp, zones bound to the processor's
      devices between two gates, and the file of counters; streams opened for
      update are the class [InPlace].  DefaultBindingTheorems: its theorems.  No
      engine creates this class at present.
    - Daemon: the daemon with the default or the adaptive engine as a transition
      system, whose steps are iterations of the thread, method calls and samples, and its
      invariant.
    - Main: main.cpp, from the command line to the engine, and the theorems about
      it; what the operating system answers is the class [Process].
    - AndroidMain: android_main.cpp, over the classes [Bionic] of system calls and
      [Engines], which the engines of Daemon discharge ([daemon_engines]);
      AndroidConditions: the conditions thd_gddv.cpp evaluates differently there.

    ** How the parts meet

    [thd_engine_create_default_engine] parses the feature file, runs
    [thd_engine_init], which calls the readers of EngineDefault (sensors, then
    devices, then zones, each first from sysfs and then from the configuration
    that Parse reads), and [thd_engine_start].  The adaptive engine reads the
    data vault first and then does the same.  The thread of Engine then reads
    the zones, whose trips (TripPoint) call [thd_cdev_set_state] (Cdev) on the
    devices, and sensors put messages on the pipe the thread reads.

    ** What the theorems show

    - The whole daemon: in every state a started daemon reaches, by iterations,
      calls and samples in any order, no pointer from a zone, a trip or a virtual
      sensor dangles ([no_dangling_pointer]); the defaults the model has for a
      pointer that leads nowhere are therefore never used.
    - Process: when [main] serves, root called it and the engine is such a state
      ([main_hands_over]); the lock is held in the foreground and lost in the
      background ([lock_until_engine]); the exit code tells an unsupported
      platform from a failure and the lock file is removed ([engine_exit_code]);
      an option of a one-byte flag clears the flags behind it ([flag_set_spec]).
      On Android the lock is held in the background, unless init is the parent
      ([android_start]), and a signal before the engine exists is lost
      ([early_signal_is_lost]).
    - Emergency: a zone whose sensor stays at or above its critical trip powers the
      system off within five polls, whatever other zones, trips and messages do
      between ([hot_zone_powers_off]); deleting the trips of a zone takes that
      away, except on Android ([deletion_and_emergency]).
    - Cooling devices, for every subclass: the list of trips that hold a device
      is exactly an abstract registry ([set_state_registry]), its last entry is
      the most restrictive ([activation_last_is_most_restrictive]), and on a
      device that tracks its state the base class refines an arbiter which
      holds the most restrictive target asked for ([set_state_refines_arbiter]).
      The exponential controller doubles its step on repeats
      ([exponential_escalation]) and never leaves the range
      ([exponential_command_in_range]); repeats are debounced and one trip
      cannot release what another holds.  The laws are proved for the sum of all
      classes ([device_laws]), so all this holds in a machine that mixes them.
    - Devices: RAPL stays in its power range, the P-state percentages are exact
      although computed in [float], the frequency table is fastest first.
    - The PID controller follows the textbook law in exact arithmetic.
    - The power meter follows a counter that wraps around; its power figure
      does not.
    - Trips: hysteresis, the power-off after five consecutive critical
      readings, parallel and sequential cooling.
    - Configuration: the parser is defined on every document with texts where it
      needs them ([parse_is_defined]), what it builds is well typed whatever the
      document ([parse_well_typed]), printing and parsing is the identity
      ([configuration_round_trip]), and the UUID goes before the product name
      and a wildcard ([platform_matched_preferred]).  The configuration that is
      generated from the _TRT and _ART tables is an XML document which the
      parser reads as the relationships of the tables, every entry under its
      target ([generated_conf_is_read]); [xml_text] is the grammar of elements
      and texts it is written in, and relates a text to the nodes libxml2 gives.
    - Kinds of zones: the trips of a sysfs zone are numbered, positive and have
      a sane hysteresis ([sysfs_trips_well_formed]); the CPU zone orders its
      passive, maximum and critical temperatures ([cpu_init_temperatures]).
    - Zones: the polling trip lies below every other trip, correlated sensors
      count by their maximum, a device is bound to the first trip that matches.
    - Engine: the polling masks and the timeout refine a specification over
      finite sets ([polling_refines]); an enabled daemon obeys a request to
      terminate within a bounded number of iterations; a disabled one processes
      nothing more; a user's zone is added completely or not at all; set points
      and preferences are round trips through the files they are stored in.
    - Data vault: every table parser ends on all bytes and stays inside its
      buffer, and the parse of a key leaves it exactly when a length overflows
      the check ([parse_gddv_key_outcome]); a plain repository is parsed in
      bounded work ([parse_gddv_terminates]), one with a zero header size never
      ends ([self_header]); targets and condition sets are round trips
      ([apat_round_trip], [apct_round_trip]).
    - Conditions: the target of the first set that holds is selected
      ([evaluate_conditions_first]), a FOR condition waits its time
      ([condition_waits]), and waiting does not unseat the selected target
      ([matched_target_stays]).  The devices and connections they listen to are
      released exactly, each once ([sources_released]).
    - Default binding: the file of counters is a map from zones to counts
      ([zone_stat_roundtrip]), a zone is given up at its fifth exit
      ([given_up_at_fifth_exit], [exit_gate_counts]), no trip is left with a
      pointer to a destroyed gate ([default_binding_keeps_gates]); the load test
      is exact below 71.58 W ([load_is_sixty_percent]), and the gates stand
      behind the coolers they should guard ([gates_behind_coolers]).
    - Adaptive engine: consolidation rewrites trips one by one
      ([consolidation_is_pointwise]), the default policy leaves nothing of an
      earlier one ([default_policy_replaces]), the fallback target is chosen and
      never executed ([fallback_is_never_used]), and a vault without conditions
      leaves the daemon without anything to manage
      ([bare_vault_manages_nothing]).
    - Default engine: a configured device changes only a device it names
      ([add_replace_touches_one]); the processor's passive trip stays below the
      critical temperature ([processor_trip_below_critical]).
    - Start: the timeout is that of the interval, of the polling fallback or
      none ([start_polling_mode]); without a trusted feature file the start is
      undefined ([start_needs_feature_file]).
    - Platform: a processor is supported exactly when its signature is in the
      table ([intel_supported]); the RAPL workaround changes one bit of one
      register and nothing else ([workaround_one_bit]).
    - D-Bus: a call returns values of the declared types or nothing
      ([calls_conform]); requests whose result is ignored and calls without an
      answer are shown as the code has them.  With dbus-glib a successful set up
      owns the name ([glib_init_owns]); with GDBus it decides nothing
      ([gdbus_init_decides_nothing]).
    - Kernel events: the decoder ends and reports exactly the events of the
      registered path ([check_for_event_exact]); a socket that cannot be set up
      leaves no descriptor behind ([uevent_open_balanced]).

    ** Bounds and fuel

    The loops of the code are structural recursions over the vectors they
    traverse.  Besides those of the data vault
    three bounds are explicit.  [read_temperature] takes the depth
    of links between virtual sensors, [rapl_read_domains] the depth of nested
    RAPL directories (a package and its domains: two), and the read loop of
    [csys_fs] the number of bytes still wanted, each of its rounds consuming at
    least one, so the bound is never reached ([read_buf_total_and_exact]).
    Theorems about the engine hold for every depth of links.  The engine thread
    runs over the list of results that [poll] gave; theorems quantify over it.
    The loops over a table of the data vault have [rounds] of fuel, one per
    byte, and every row consumes a byte, so they never run out; the fuel of
    [parse_gddv] bounds the nesting and the items, and the size of a plain
    repository is enough.  The scan of a kernel event has a round per byte of
    the buffer (512 in the code), the scan of the file of counters one per byte, 56
    of which a round consumes.  The limits of the code are kept: 50 trips and
    50 devices of a kernel zone, 16 sensors of the CPU zone, 32 sensors in the
    polling masks, 4 KB of a data vault file.

    ** Conventions

    [std::sort] is an insertion sort: the theorems use that the result is a
    sorted permutation, which [std::sort] promises too.  Logging has no effect
    on the model.  One type of device extension [X] is used for all devices of
    a machine; theorems about trips, zones and the engine are proved for every
    [X] that satisfies the laws they name.

    Arguments of the model stand for what is outside the repository or not
    modelled: the operating system's answers at the start ([os_answers]), the
    states of switches and power source ([platform] of GddvConditions), the
    LZMA decoder.  The platform check ([check_cpu_id]), the generator of an
    automatic configuration ([generate_conf]) and the platform's RAPL workaround
    are arguments of the engine too: its theorems hold for any, and
    [checked_cpu], [auto_conf] and [workaround_rapl_mmio_power] are the code's.

    ** Not modelled

    GLib's option parser and main loop, the bus behind [Bus] and the dumps, which
    only log.  The LZMA SDK is vendored; its decoder is an argument of Gddv.  Of
    the Android build the start, the conditions and the deletion of trips are
    modelled; the other parts under ANDROID (the power-off by a property, no
    workarounds, another configuration file) are modelled as the Linux build has
    them.  Tables that a failed parse leaves behind are not tracked: [gddv_init]
    reports it as fatal.  The threads share the engine under its lock, so that the
    steps of Daemon are atomic; a data race of a sampling thread, which does not
    take the lock, is not a state of the model.  What the destructors of global
    objects do at the exit of the process is not followed. *)
From stdpp Require Import base gmap strings list.
From Stdlib Require Import ZArith Lia Sorted Ascii.
From Stdlib Require String.

Open Scope Z_scope.

(** * Field update

    [r <| f := v |>] is the record [r] with its field [f] replaced by [v],
    the model of the assignment [r.f = v].  A record type opts in with an
    [Eta] instance that lists its fields; the setter of a field is computed
    from that list when the notation is elaborated. *)

Class Eta (R : Type) := { eta_of : R -> R }.
Class FieldSetter {R T : Type} (proj : R -> T) := { field_set : (T -> T) -> R -> R }.
Arguments field_set {R T} proj {_} _ _ : assert.

Ltac build_setter :=
  match goal with
  | |- @FieldSetter ?R ?T ?proj =>
      let e := constr:(@eta_of R _) in
      let h := eval hnf in e in
      let body := constr:(fun (upd_fn__ : T -> T) (upd_rec__ : R) =>
        ltac:(let t := eval cbv beta in (h upd_rec__) in
              let p := eval pattern (proj upd_rec__) in t in
              match p with
              | ?k _ => let q := eval cbv beta in (k (upd_fn__ (proj upd_rec__))) in exact q
              end)) in
      exact {| field_set := body |}
  end.
#[global] Hint Extern 1 (FieldSetter _) => build_setter : typeclass_instances.

Declare Scope thd_scope.
Delimit Scope thd_scope with thd.
Open Scope thd_scope.

Notation "x <| proj := v |>" := (field_set proj (fun _ => v) x)
  (at level 1, left associativity, proj constr at level 200,
   v constr at level 200) : thd_scope.

(** * Machine integers *)

(** Wrap-around of a mathematical integer to the C types of the source.  A
    signed overflow is undefined in C++; the model gives it the two's
    complement result that the compiled code computes. *)
Definition u8 (z : Z) : Z := z mod 2 ^ 8.
Definition u16 (z : Z) : Z := z mod 2 ^ 16.
Definition u32 (z : Z) : Z := z mod 2 ^ 32.
Definition u64 (z : Z) : Z := z mod 2 ^ 64.
Definition i32 (z : Z) : Z := (z + 2 ^ 31) mod 2 ^ 32 - 2 ^ 31.
Definition i64 (z : Z) : Z := (z + 2 ^ 63) mod 2 ^ 64 - 2 ^ 63.

Definition INT_MAX : Z := 2147483647.
Definition INT_MIN : Z := -2147483648.
Definition UINT_MAX : Z := 4294967295.

Definition is_i32 (z : Z) : Prop := INT_MIN <= z <= INT_MAX.
Definition is_u32 (z : Z) : Prop := 0 <= z <= UINT_MAX.

#[export] Instance is_i32_dec z : Decision (is_i32 z).
Proof. unfold is_i32. apply _. Defined.
#[export] Instance is_u32_dec z : Decision (is_u32 z).
Proof. unfold is_u32. apply _. Defined.

(** C division and remainder truncate toward zero. *)
Definition cdiv (a b : Z) : Z := Z.quot a b.

(** The truth value of a C integer. *)
Definition truthy (z : Z) : bool := negb (z =? 0).
Definition b2z (b : bool) : Z := if b then 1 else 0.

(** [THD_SUCCESS], [THD_ERROR] and [THD_FATAL_ERROR] of thermald.h. *)
Definition THD_SUCCESS : Z := 0.
Definition THD_ERROR : Z := -1.
Definition THD_FATAL_ERROR : Z := -2.

Lemma i32_id z : is_i32 z -> i32 z = z.
Proof. unfold is_i32, i32, INT_MIN, INT_MAX. intros. rewrite Z.mod_small; lia. Qed.

Lemma u32_id z : is_u32 z -> u32 z = z.
Proof. unfold is_u32, u32, UINT_MAX. intros. apply Z.mod_small. lia. Qed.

Lemma i32_range z : is_i32 (i32 z).
Proof.
  unfold is_i32, i32, INT_MIN, INT_MAX.
  pose proof (Z.mod_pos_bound (z + 2 ^ 31) (2 ^ 32)). lia.
Qed.

Lemma u32_range z : is_u32 (u32 z).
Proof.
  unfold is_u32, u32, UINT_MAX. pose proof (Z.mod_pos_bound z (2 ^ 32)). lia.
Qed.

Lemma u64_range z : 0 <= u64 z < 2 ^ 64.
Proof. apply Z.mod_pos_bound. lia. Qed.

Lemma u64_id z : 0 <= z < 2 ^ 64 -> u64 z = z.
Proof. apply Z.mod_small. Qed.

Lemma is_i32_0 : is_i32 0.
Proof. unfold is_i32, INT_MIN, INT_MAX. lia. Qed.
Lemma is_i32_1 : is_i32 1.
Proof. unfold is_i32, INT_MIN, INT_MAX. lia. Qed.

Lemma i32_i32 z : i32 (i32 z) = i32 z.
Proof. apply i32_id, i32_range. Qed.

(** Converting an unsigned 32-bit value to [int] and adding modulo 2^32 agree
    with [int] arithmetic. *)
Lemma i32_u32 z : i32 (u32 z) = i32 z.
Proof.
  unfold i32, u32. rewrite Zplus_mod_idemp_l. reflexivity.
Qed.

Lemma truthy_true z : truthy z = true <-> z <> 0.
Proof. unfold truthy. rewrite negb_true_iff, Z.eqb_neq. reflexivity. Qed.

Lemma truthy_false z : truthy z = false <-> z = 0.
Proof. unfold truthy. rewrite negb_false_iff, Z.eqb_eq. reflexivity. Qed.

Create HintDb thd.
#[global] Create Rewrite HintDb thd.
#[export] Hint Resolve i32_range u32_range is_i32_0 is_i32_1 : thd.
#[export] Hint Rewrite i32_i32 i32_u32 : thd.

(** Turns boolean tests of the code into propositions about integers. *)
Ltac b2p :=
  repeat match goal with
  | H : negb _ = true |- _ => apply negb_true_iff in H
  | H : negb _ = false |- _ => apply negb_false_iff in H
  | H : truthy _ = true |- _ => apply truthy_true in H
  | H : truthy _ = false |- _ => apply truthy_false in H
  | H : (_ && _)%bool = true |- _ => apply andb_true_iff in H; destruct H
  | H : (_ || _)%bool = false |- _ => apply orb_false_iff in H; destruct H
  | H : (_ && _)%bool = false |- _ => apply andb_false_iff in H
  | H : (_ || _)%bool = true |- _ => apply orb_true_iff in H
  | H : (_ <? _) = true |- _ => apply Z.ltb_lt in H
  | H : (_ <? _) = false |- _ => apply Z.ltb_ge in H
  | H : (_ <=? _) = true |- _ => apply Z.leb_le in H
  | H : (_ <=? _) = false |- _ => apply Z.leb_gt in H
  | H : (_ >? _) = true |- _ => rewrite Z.gtb_ltb in H
  | H : (_ >? _) = false |- _ => rewrite Z.gtb_ltb in H
  | H : (_ >=? _) = true |- _ => rewrite Z.geb_leb in H
  | H : (_ >=? _) = false |- _ => rewrite Z.geb_leb in H
  | H : (_ =? _) = true |- _ => apply Z.eqb_eq in H
  | H : (_ =? _) = false |- _ => apply Z.eqb_neq in H
  end.

(** Splits every test the goal branches on. *)
Ltac split_if :=
  repeat match goal with
  | |- context [if ?b then _ else _] =>
      lazymatch b with
      | context [if _ then _ else _] => fail
      | _ => match type of b with
             | bool => let E := fresh "E" in destruct b eqn:E
             end
      end
  end; b2p.

(** * Lists *)

(** A test that does not hold of all elements fails on one. *)
Lemma forallb_false {A} (f : A -> bool) l : forallb f l = false -> exists x, In x l /\ f x = false.
Proof.
  induction l as [|x l IH]; [done|]. cbn. intros Hf. apply andb_false_iff in Hf as [Hf|Hf]; [by eauto|].
  destruct (IH Hf) as (y & Hy & E). eauto.
Qed.

(** * The state monad of the stateful code *)

Definition State (S A : Type) : Type := S -> A * S.

Section state.
Context {S : Type}.

Definition ret {A} (a : A) : State S A := fun s => (a, s).
Definition bind {A B} (m : State S A) (k : A -> State S B) : State S B :=
  fun s => let '(a, s') := m s in k a s'.
Definition get : State S S := fun s => (s, s).
Definition put (s : S) : State S unit := fun _ => (tt, s).
Definition gets {A} (f : S -> A) : State S A := fun s => (f s, s).
Definition modify (f : S -> S) : State S unit := fun s => (tt, f s).
Definition when (b : bool) (m : State S unit) : State S unit :=
  if b then m else ret tt.
End state.

Notation "x <- c1 ;; c2" := (bind c1 (fun x => c2))
  (at level 100, c1 at next level, c2 at level 200, right associativity) : thd_scope.
Notation "'let*' pat ':=' c1 'in' c2" :=
  (bind c1 (fun x => match x with pat => c2 end))
  (at level 10, pat pattern, c1 at level 200, c2 at level 200) : thd_scope.
Notation "c1 ;; c2" := (bind c1 (fun _ => c2))
  (at level 100, c2 at level 200, right associativity) : thd_scope.

(** A loop over a vector, front to back. *)
Fixpoint mfor {S A} (l : list A) (body : A -> State S unit) : State S unit :=
  match l with
  | [] => ret tt
  | a :: l' => body a ;; mfor l' body
  end.

Section state_lemmas.
Context {S : Type}.

Lemma bind_eq {A B} (m : State S A) (k : A -> State S B) s a s' :
  m s = (a, s') -> bind m k s = k a s'.
Proof. unfold bind. intros ->. reflexivity. Qed.

Lemma bind_ret {A B} (a : A) (k : A -> State S B) s : bind (ret a) k s = k a s.
Proof. reflexivity. Qed.

(** A relation that every iteration preserves is preserved by the loop. *)
Lemma mfor_inv {A} (I : S -> Prop) (l : list A) (body : A -> State S unit) s :
  (forall a s, In a l -> I s -> I (snd (body a s))) ->
  I s -> I (snd (mfor l body s)).
Proof.
  revert s. induction l as [|a l IH]; intros s Hb Hs; [exact Hs|].
  cbn. unfold bind. destruct (body a s) as [[] s'] eqn:E.
  apply IH.
  - intros b t Hin Ht. apply Hb; [right; exact Hin|exact Ht].
  - specialize (Hb a s (or_introl eq_refl) Hs). rewrite E in Hb. exact Hb.
Qed.
End state_lemmas.

(** [m] leaves the view [f] of the state unchanged. *)
Definition preserves {S A B} (f : S -> B) (m : State S A) : Prop :=
  forall s, f (snd (m s)) = f s.

(** Every result of [m] satisfies [P]. *)
Definition returns {S A} (P : A -> Prop) (m : State S A) : Prop := forall s, P (fst (m s)).

Section views.
Context {S B : Type} (f : S -> B).

Lemma preserves_ret {A} (a : A) : preserves f (ret a).
Proof. intros s. reflexivity. Qed.

Lemma preserves_gets {A} (g : S -> A) : preserves f (gets g).
Proof. intros s. reflexivity. Qed.

Lemma preserves_bind {A C} (m : State S A) (k : A -> State S C) :
  preserves f m -> (forall a, preserves f (k a)) -> preserves f (bind m k).
Proof.
  intros Hm Hk s. unfold bind. specialize (Hm s). destruct (m s) as [a s1].
  cbn in Hm. by rewrite Hk.
Qed.

Lemma preserves_if {A} (b : bool) (m1 m2 : State S A) :
  preserves f m1 -> preserves f m2 -> preserves f (if b then m1 else m2).
Proof. by destruct b. Qed.

Lemma preserves_modify g : (forall s, f (g s) = f s) -> preserves f (modify g).
Proof. intros Hg s. apply Hg. Qed.
End views.

Section results.
Context {S : Type}.

Lemma returns_ret {A} (P : A -> Prop) a : P a -> returns P (ret (S := S) a).
Proof. intros Ha s. exact Ha. Qed.

Lemma returns_bind {A C} (P : C -> Prop) (m : State S A) (k : A -> State S C) :
  (forall a, returns P (k a)) -> returns P (bind m k).
Proof. intros Hk s. unfold bind. destruct (m s) as [a s1]. apply Hk. Qed.

Lemma returns_bind_l {A C} (Q : A -> Prop) (P : C -> Prop) (m : State S A) (k : A -> State S C) :
  returns Q m -> (forall a, Q a -> returns P (k a)) -> returns P (bind m k).
Proof.
  intros Hm Hk s. unfold bind. specialize (Hm s). destruct (m s) as [a s1]. by apply Hk.
Qed.
End results.

(** Every step of [m] is in the relation [R]. *)
Definition steps {S A} (R : S -> S -> Prop) (m : State S A) : Prop := forall s, R s (snd (m s)).

Section step_relations.
Context {S : Type} (R : S -> S -> Prop) `{!PreOrder R}.

Lemma steps_ret {A} (a : A) : steps R (ret a).
Proof. intros s. reflexivity. Qed.

Lemma steps_gets {A} (g : S -> A) : steps R (gets g).
Proof. intros s. reflexivity. Qed.

Lemma steps_get : steps R get.
Proof. intros s. reflexivity. Qed.

Lemma steps_bind {A C} (m : State S A) (k : A -> State S C) :
  steps R m -> (forall a, steps R (k a)) -> steps R (bind m k).
Proof.
  intros Hm Hk s. unfold bind. specialize (Hm s). destruct (m s) as [a s1].
  transitivity s1; [exact Hm|apply Hk].
Qed.

Lemma steps_if {A} (b : bool) (m1 m2 : State S A) :
  steps R m1 -> steps R m2 -> steps R (if b then m1 else m2).
Proof. by destruct b. Qed.

Lemma steps_mfor {A} (l : list A) (body : A -> State S unit) :
  (forall a, steps R (body a)) -> steps R (mfor l body).
Proof. intros Hb. induction l as [|a l IH]; cbn; [apply steps_ret|by apply steps_bind]. Qed.

Lemma steps_modify g : (forall s, R s (g s)) -> steps R (modify g).
Proof. intros Hg s. apply Hg. Qed.
End step_relations.

(** From a state with [P], [m] gives a result and a state with [Q]. *)
Definition hoare {S A} (P : S -> Prop) (m : State S A) (Q : A -> S -> Prop) : Prop :=
  forall s, P s -> Q (fst (m s)) (snd (m s)).

Section triples.
Context {S : Type}.

Lemma hoare_ret {A} (P : S -> Prop) (Q : A -> S -> Prop) a :
  (forall s, P s -> Q a s) -> hoare P (ret a) Q.
Proof. intros HQ s Hs. by apply HQ. Qed.

Lemma hoare_bind {A B} P (m : State S A) R (k : A -> State S B) Q :
  hoare P m R -> (forall a, hoare (R a) (k a) Q) -> hoare P (bind m k) Q.
Proof.
  intros Hm Hk s Hs. unfold bind. specialize (Hm s Hs). destruct (m s) as [a s1]. by apply Hk.
Qed.

Lemma hoare_if {A} P (b : bool) (m1 m2 : State S A) Q :
  (b = true -> hoare P m1 Q) -> (b = false -> hoare P m2 Q) -> hoare P (if b then m1 else m2) Q.
Proof. destruct b; auto. Qed.

Lemma hoare_conseq {A} (P P' : S -> Prop) (m : State S A) (Q Q' : A -> S -> Prop) :
  hoare P' m Q' -> (forall s, P s -> P' s) -> (forall a s, Q' a s -> Q a s) -> hoare P m Q.
Proof. intros Hm HP HQ s Hs. by apply HQ, Hm, HP. Qed.

(** A fact that does not depend on the state may be used. *)
Lemma hoare_pure {A} (F : Prop) P (m : State S A) Q :
  (F -> hoare P m Q) -> hoare (fun s => F /\ P s) m Q.
Proof. intros Hm s [Hf Hs]. by apply Hm. Qed.
End triples.

#[export] Hint Resolve preserves_ret preserves_gets returns_ret : thd.

(** Discharges a [steps] goal along the structure of the code. *)
Ltac steps_tac :=
  repeat first
    [ progress intros
    | solve [auto with thd]
    | solve [first [apply steps_ret | apply steps_gets | apply steps_get]; typeclasses eauto]
    | apply steps_bind; [typeclasses eauto|..]
    | apply steps_if
    | apply steps_mfor; [typeclasses eauto|..]
    | match goal with |- steps _ (match ?x with _ => _ end) => destruct x end ].

(** Exposes the steps of a monadic body whose state is a known term. *)
Ltac msimpl :=
  unfold bind, ret, get, put, gets, modify, when in *; cbn in *.

(** Runs the first step of a body and names its result and state. *)
Tactic Notation "bstep" ident(r) ident(s) :=
  unfold bind at 1;
  match goal with |- context [match ?m with (_, _) => _ end] => destruct m as [r s] end.

(** * [std::sort]

    libstdc++ sorts a vector of at most 16 elements by insertion; the order of
    elements that compare equal is then the original one.  The theorems use
    only that the result is a sorted permutation. *)
Section sort.
Context {A : Type} (comp : A -> A -> bool).

Fixpoint sort_insert (x : A) (l : list A) : list A :=
  match l with
  | [] => [x]
  | y :: l' => if comp x y then x :: y :: l' else y :: sort_insert x l'
  end.

Definition std_sort (l : list A) : list A :=
  fold_left (fun acc x => sort_insert x acc) l [].
End sort.

Section sort_lemmas.
Context {A : Type}.

(** [comp] orders by an integer key, the only use the source makes of it. *)
Context (comp : A -> A -> bool) (key : A -> Z).
Context (comp_key : forall x y, comp x y = (key x <? key y)).

Definition sorted_by (l : list A) : Prop :=
  StronglySorted (fun x y => key x <= key y) l.

Lemma sort_insert_perm x l : Permutation (x :: l) (sort_insert comp x l).
Proof.
  induction l as [|y l IH]; cbn; [done|].
  destruct (comp x y); [done|]. rewrite <- IH. constructor.
Qed.

Lemma sort_fold_perm l acc :
  Permutation (l ++ acc) (fold_left (fun a x => sort_insert comp x a) l acc).
Proof.
  revert acc. induction l as [|x l IH]; intros acc; cbn; [done|].
  rewrite <- IH, <- sort_insert_perm. apply Permutation_middle.
Qed.

Lemma std_sort_perm l : Permutation l (std_sort comp l).
Proof.
  unfold std_sort. rewrite <- sort_fold_perm, app_nil_r. reflexivity.
Qed.

Lemma sort_insert_sorted x l : sorted_by l -> sorted_by (sort_insert comp x l).
Proof.
  unfold sorted_by. induction 1 as [|y l Hs IH Hf]; cbn.
  - repeat constructor.
  - rewrite comp_key. destruct (Z.ltb_spec (key x) (key y)).
    + constructor; [constructor; assumption|]. constructor; [lia|].
      eapply List.Forall_impl; [|exact Hf]. cbn. lia.
    + constructor; [exact IH|].
      eapply Permutation_Forall; [apply sort_insert_perm|].
      constructor; [lia|exact Hf].
Qed.

Lemma std_sort_sorted l : sorted_by (std_sort comp l).
Proof.
  unfold std_sort. assert (H : sorted_by []) by constructor. revert H.
  generalize (@nil A). induction l as [|x l IH]; intros acc H; cbn; [exact H|].
  apply IH, sort_insert_sorted, H.
Qed.

Lemma sorted_by_last l x : sorted_by (l ++ [x]) -> Forall (fun y => key y <= key x) l.
Proof.
  unfold sorted_by. induction l as [|y l IH]; cbn; intros H; [constructor|].
  inversion H as [|? ? Hs Hf]; subst. constructor; [|apply IH, Hs].
  rewrite List.Forall_forall in Hf. apply Hf, in_or_app. right. left. done.
Qed.

Lemma std_sort_nil : std_sort comp [] = [].
Proof. reflexivity. Qed.

Lemma std_sort_length l : length (std_sort comp l) = length l.
Proof. symmetry. apply Permutation_length, std_sort_perm. Qed.

(** Sorting an already sorted vector changes nothing. *)
Lemma sort_insert_last x l :
  Forall (fun y => key y <= key x) l -> sort_insert comp x l = l ++ [x].
Proof.
  induction 1 as [|y l Hy _ IH]; cbn; [done|].
  rewrite comp_key. destruct (Z.ltb_spec (key x) (key y)); [lia|].
  rewrite IH. done.
Qed.

Lemma std_sort_id l : sorted_by l -> std_sort comp l = l.
Proof.
  induction l as [|x l IH] using rev_ind; intros H; [done|].
  assert (Hl : sorted_by l).
  { clear IH. unfold sorted_by in *. induction l as [|y l IHl]; [constructor|].
    cbn in H. inversion H as [|? ? Hs Hf]; subst.
    constructor; [apply IHl, Hs|]. apply Forall_app in Hf. apply Hf. }
  unfold std_sort in *. rewrite fold_left_app. cbn.
  rewrite (IH Hl). apply sort_insert_last, sorted_by_last, H.
Qed.
End sort_lemmas.

(** Sorting commutes with a map that preserves the comparison. *)
Lemma sort_insert_map {A B} (c1 : A -> A -> bool) (c2 : B -> B -> bool) (f : A -> B) x l :
  (forall x y, c2 (f x) (f y) = c1 x y) ->
  map f (sort_insert c1 x l) = sort_insert c2 (f x) (map f l).
Proof.
  intros Hc. induction l as [|y l IH]; cbn; [done|].
  rewrite Hc. destruct (c1 x y); cbn; [done|]. by rewrite IH.
Qed.

Lemma std_sort_map {A B} (c1 : A -> A -> bool) (c2 : B -> B -> bool) (f : A -> B) l :
  (forall x y, c2 (f x) (f y) = c1 x y) ->
  map f (std_sort c1 l) = std_sort c2 (map f l).
Proof.
  intros Hc. unfold std_sort. change (@nil B) with (map f []). generalize (@nil A).
  induction l as [|x l IH]; intros acc; cbn; [done|].
  rewrite IH. by rewrite (sort_insert_map _ _ _ _ _ Hc).
Qed.
