(* ===== verification/CString.v ===== *)
(** C and C++ string primitives the daemon uses, and the helpers of
    src/thd_util.cpp: number parsing and printing, prefix tests and the
    bounded comparisons [thd_strcmp_n] and [thd_strcasecmp_n]. *)
From stdpp Require Import base strings list.
From Stdlib Require Import ZArith Lia Ascii.
From Stdlib Require String.
From S2P Require Import Prelude.

Open Scope string_scope.
Open Scope Z_scope.

(** * Characters *)

Definition char_code (c : ascii) : Z := Z.of_N (N_of_ascii c).
Definition char_of (z : Z) : ascii := ascii_of_N (Z.to_N z).
(** The [n] bytes of an integer in memory. *)
Fixpoint store_le (n : nat) (v : Z) : string :=
  match n with O => EmptyString | S n' => String (char_of (v mod 256)) (store_le n' (v / 256)) end.

(** [isspace] and [isdigit] of the C locale. *)
Definition isspace (c : ascii) : bool :=
  let z := char_code c in ((9 <=? z) && (z <=? 13)) || (z =? 32).
Definition isdigit (c : ascii) : bool :=
  let z := char_code c in (48 <=? z) && (z <=? 57).
Definition digit_val (c : ascii) : Z := char_code c - 48.
Definition digit_char (d : Z) : ascii := char_of (48 + d).
Definition tolower (c : ascii) : ascii :=
  let z := char_code c in if (65 <=? z) && (z <=? 90) then char_of (z + 32) else c.
Definition toupper (c : ascii) : ascii :=
  let z := char_code c in if (97 <=? z) && (z <=? 122) then char_of (z - 32) else c.

Fixpoint smap (f : ascii -> ascii) (s : string) : string :=
  match s with
  | EmptyString => EmptyString
  | String c s' => String (f c) (smap f s')
  end.

(** * Numbers *)

(** The value of the leading digits, accumulated from the left. *)
Fixpoint digits_val (acc : Z) (s : string) : Z :=
  match s with
  | String c s' => if isdigit c then digits_val (acc * 10 + digit_val c) s' else acc
  | EmptyString => acc
  end.

Fixpoint skip_space (s : string) : string :=
  match s with
  | String c s' => if isspace c then skip_space s' else s
  | EmptyString => EmptyString
  end.

(** The signed number a string starts with, after white space. *)
Definition signed_val (s : string) : Z :=
  match skip_space s with
  | String "-"%char s' => - digits_val 0 s'
  | String "+"%char s' => digits_val 0 s'
  | s' => digits_val 0 s'
  end.

(** glibc's [atoi] is [(int) strtol(s, NULL, 10)] with a 64-bit [long]. *)
Definition strtol (s : string) : Z :=
  Z.max (- 2 ^ 63) (Z.min (2 ^ 63 - 1) (signed_val s)).
Definition atoi (s : string) : Z := i32 (strtol s).

(** [stream >> int_variable]: at end of input the variable keeps its value;
    text that is no number stores 0; a number out of range stores the limit. *)
Definition starts_number (s : string) : bool :=
  match s with
  | String c s' =>
      if isdigit c then true
      else if (Ascii.eqb c "-" || Ascii.eqb c "+")%char
      then match s' with String d _ => isdigit d | _ => false end
      else false
  | EmptyString => false
  end.
Definition istream_int (s : string) (old : Z) : Z :=
  match skip_space s with
  | EmptyString => old
  | s' => if starts_number s' then Z.max INT_MIN (Z.min INT_MAX (signed_val s')) else 0
  end.

(** Decimal printing, [os << z]. *)
Fixpoint dec_digits (fuel : nat) (n : Z) (acc : string) : string :=
  match fuel with
  | O => acc
  | S f =>
      let acc' := String (digit_char (n mod 10)) acc in
      if n <? 10 then acc' else dec_digits f (n / 10) acc'
  end.
Definition string_of_nonneg (n : Z) : string :=
  dec_digits (S (Z.to_nat (Z.log2 n))) n EmptyString.
Definition string_of_Z (n : Z) : string :=
  if n <? 0 then String "-"%char (string_of_nonneg (- n)) else string_of_nonneg n.

Lemma digit_char_spec d : 0 <= d < 10 ->
  isdigit (digit_char d) = true /\ digit_val (digit_char d) = d
  /\ isspace (digit_char d) = false
  /\ digit_char d <> "-"%char /\ digit_char d <> "+"%char.
Proof.
  intros H.
  assert (d = 0 \/ d = 1 \/ d = 2 \/ d = 3 \/ d = 4 \/ d = 5 \/ d = 6 \/ d = 7
          \/ d = 8 \/ d = 9) as Hd by lia.
  repeat (destruct Hd as [-> | Hd]; [by vm_compute|]). subst. by vm_compute.
Qed.

(** Printing then reading the digits gives the number back, whatever digits
    already follow it. *)
Lemma digits_val_dec fuel n s a :
  0 <= n < 2 ^ Z.of_nat fuel ->
  exists k, 0 <= k /\ digits_val a (dec_digits fuel n s) = digits_val (a * 10 ^ k + n) s
       /\ (fuel <> O -> 1 <= k).
Proof.
  revert n s. induction fuel as [|f IH]; intros n s Hn.
  - exists 0. cbn in Hn. split; [lia|]. split; [|done]. cbn. f_equal; lia.
  - assert (0 <= n mod 10 < 10) as Hm by (apply Z.mod_pos_bound; lia).
    destruct (digit_char_spec _ Hm) as (Hd & Hv & _).
    cbn [dec_digits]. destruct (Z.ltb_spec n 10).
    + exists 1. split; [lia|]. split; [|lia]. cbn. rewrite Hd, Hv.
      rewrite (Z.mod_small n 10) by lia. f_equal; lia.
    + assert (0 <= n / 10 < 2 ^ Z.of_nat f) as Hq.
      { split; [apply Z.div_pos; lia|]. apply Z.div_lt_upper_bound; [lia|].
        rewrite Nat2Z.inj_succ, Z.pow_succ_r in Hn by lia. lia. }
      destruct (IH (n / 10) (String (digit_char (n mod 10)) s) Hq) as (k & Hk & Hkv & _).
      exists (k + 1). split; [lia|]. split; [|lia].
      rewrite Hkv. cbn. rewrite Hd, Hv. f_equal.
      rewrite Z.pow_add_r by lia. pose proof (Z.div_mod n 10). lia.
Qed.

Lemma digits_val_string_of_nonneg n :
  0 <= n -> digits_val 0 (string_of_nonneg n) = n.
Proof.
  intros Hn. unfold string_of_nonneg.
  destruct (digits_val_dec (S (Z.to_nat (Z.log2 n))) n EmptyString 0)
    as (k & _ & E & _).
  - split; [lia|]. rewrite Nat2Z.inj_succ, Z2Nat.id by apply Z.log2_nonneg.
    destruct (Z.eq_dec n 0) as [->|]; [cbn; lia|]. apply Z.log2_spec. lia.
  - rewrite E. cbn. lia.
Qed.

(** The first character of a printed number is one of its digits. *)
Lemma dec_digits_head fuel n s : exists d s',
  0 <= d < 10 /\ dec_digits (S fuel) n s = String (digit_char d) s'.
Proof.
  revert n s. induction fuel as [|f IH]; intros n s.
  - exists (n mod 10). cbn. eexists. split; [apply Z.mod_pos_bound; lia|].
    destruct (n <? 10); reflexivity.
  - change (dec_digits (S (S f)) n s) with
      (if n <? 10 then String (digit_char (n mod 10)) s
       else dec_digits (S f) (n / 10) (String (digit_char (n mod 10)) s)).
    destruct (n <? 10).
    + do 2 eexists. split; [|reflexivity]. apply Z.mod_pos_bound. lia.
    + apply IH.
Qed.

Lemma string_of_nonneg_head n : exists d s',
  0 <= d < 10 /\ string_of_nonneg n = String (digit_char d) s'.
Proof. apply dec_digits_head. Qed.

Lemma signed_val_digit_head d s :
  0 <= d < 10 -> signed_val (String (digit_char d) s) = digits_val 0 (String (digit_char d) s)
  /\ skip_space (String (digit_char d) s) = String (digit_char d) s
  /\ starts_number (String (digit_char d) s) = true.
Proof.
  intros Hd. destruct (digit_char_spec d Hd) as (H1 & _ & H2 & H3 & H4).
  unfold signed_val. cbn [skip_space starts_number]. rewrite H1, H2.
  split; [|done]. generalize dependent (digit_char d). intros c.
  destruct c as [[] [] [] [] [] [] [] []]; intros; try reflexivity; congruence.
Qed.

Lemma signed_val_string_of_Z n : signed_val (string_of_Z n) = n.
Proof.
  unfold string_of_Z. destruct (Z.ltb_spec n 0) as [H|H].
  - change (signed_val (String "-" (string_of_nonneg (- n))))
      with (- digits_val 0 (string_of_nonneg (- n))).
    rewrite digits_val_string_of_nonneg; lia.
  - destruct (string_of_nonneg_head n) as (d & s' & Hd & E). rewrite E.
    rewrite (proj1 (signed_val_digit_head d s' Hd)), <- E.
    apply digits_val_string_of_nonneg, H.
Qed.

(** Printing then parsing is the identity on [int]. *)
Lemma atoi_string_of_Z n : is_i32 n -> atoi (string_of_Z n) = n.
Proof.
  intros H. unfold atoi, strtol. rewrite signed_val_string_of_Z.
  rewrite Z.min_r, Z.max_r, i32_id by (unfold is_i32, INT_MIN, INT_MAX in *; lia).
  reflexivity.
Qed.

Lemma string_of_Z_number n :
  skip_space (string_of_Z n) = string_of_Z n /\ starts_number (string_of_Z n) = true
  /\ string_of_Z n <> EmptyString.
Proof.
  unfold string_of_Z. destruct (n <? 0).
  - destruct (string_of_nonneg_head (- n)) as (d & s' & Hd & E). rewrite E.
    destruct (digit_char_spec d Hd) as (H1 & _).
    split; [done|]. split; [|done]. cbn. exact H1.
  - destruct (string_of_nonneg_head n) as (d & s' & Hd & E). rewrite E.
    destruct (signed_val_digit_head d s' Hd) as (_ & H1 & H2). done.
Qed.

Lemma istream_string_of_Z n old : is_i32 n -> istream_int (string_of_Z n) old = n.
Proof.
  intros H. destruct (string_of_Z_number n) as (H1 & H2 & H3).
  unfold istream_int. rewrite H1. destruct (string_of_Z n) eqn:E; [done|].
  rewrite H2, <- E, signed_val_string_of_Z. unfold is_i32 in H. lia.
Qed.

(** * Substrings *)

(** [s.compare(0, n, p) == 0] for a literal [p]. *)
Definition compare_prefix (s : string) (n : nat) (p : string) : bool :=
  String.eqb (String.substring 0 n s) p.

(** [s.find_last_of(c)] and the part after it; the whole string when the
    character does not occur. *)
Fixpoint after_last (c : ascii) (s : string) : option string :=
  match s with
  | EmptyString => None
  | String d s' =>
      match after_last c s' with
      | Some r => Some r
      | None => if Ascii.eqb c d then Some s' else None
      end
  end.
Definition substr_after_last (c : ascii) (s : string) : string :=
  default s (after_last c s).

(** [while (!s.empty() && s.back() == c) s.pop_back();] *)
Fixpoint pop_back_while (c : ascii) (s : string) : string :=
  match s with
  | EmptyString => EmptyString
  | String d s' =>
      match pop_back_while c s' with
      | EmptyString => if Ascii.eqb c d then EmptyString else String d EmptyString
      | r => String d r
      end
  end.

(** * Lines *)

(** [getline]: the first line and the rest; a file's lines. *)
Fixpoint getline (s : string) : string * string :=
  match s with
  | EmptyString => (EmptyString, EmptyString)
  | String c s' =>
      if Ascii.eqb c (char_of 10) then (EmptyString, s')
      else let '(l, rest) := getline s' in (String c l, rest)
  end.

Fixpoint lines (fuel : nat) (s : string) : list string :=
  match fuel, s with
  | O, _ => []
  | _, EmptyString => []
  | S f, _ => let '(l, rest) := getline s in l :: lines f rest
  end.
Definition file_lines (s : string) : list string := lines (String.length s) s.

(** * src/thd_util.cpp *)

(** [starts_with]: size check, then comparison of the first [len] characters. *)
Definition starts_with (s prefix : string) : bool :=
  let len := String.length prefix in
  (len <=? String.length s)%nat && compare_prefix s len prefix.

Definition THD_MAX_STR_CMP_LEN : nat := 4096.

Definition strnlen (s : string) (n : nat) : nat := Nat.min (String.length s) n.

(** A [char *] argument is an option; [None] is [nullptr]. *)
Definition or_empty (p : option string) : string := default EmptyString p.

Definition thd_cmp_len (param1 param2 : option string) : nat :=
  let l1 := strnlen (or_empty param1) THD_MAX_STR_CMP_LEN in
  let l2 := strnlen (or_empty param2) THD_MAX_STR_CMP_LEN in
  if (l2 <? l1)%nat then l1 else l2.

(** [strncmp]: the difference of the first characters that differ; a string
    that ends reads as a zero byte. *)
Fixpoint strncmp (a b : string) (n : nat) : Z :=
  match n with
  | O => 0
  | S n' =>
      match a, b with
      | EmptyString, EmptyString => 0
      | EmptyString, String d _ => - char_code d
      | String c _, EmptyString => char_code c
      | String c a', String d b' =>
          if Ascii.eqb c d then strncmp a' b' n' else char_code c - char_code d
      end
  end.
Definition strncasecmp (a b : string) (n : nat) : Z :=
  strncmp (smap tolower a) (smap tolower b) n.

Definition thd_strcmp_n (param1 param2 : option string) : Z :=
  strncmp (or_empty param1) (or_empty param2) (thd_cmp_len param1 param2).
Definition thd_strcasecmp_n (param1 param2 : option string) : Z :=
  strncasecmp (or_empty param1) (or_empty param2) (thd_cmp_len param1 param2).

Lemma char_code_inj c d : char_code c = char_code d -> c = d.
Proof.
  unfold char_code. intros H%N2Z.inj. rewrite <- (ascii_N_embedding c), H.
  apply ascii_N_embedding.
Qed.

(** No text contains the zero byte that ends a C string. *)
Fixpoint no_nul (s : string) : bool :=
  match s with
  | EmptyString => true
  | String c s' => negb (char_code c =? 0) && no_nul s'
  end.

Lemma strncmp_zero a b n :
  no_nul a = true -> no_nul b = true ->
  (strncmp a b n = 0 <-> String.substring 0 n a = String.substring 0 n b).
Proof.
  revert a b. induction n as [|n IH]; intros a b Ha Hb.
  { destruct a, b; cbn; done. }
  destruct a as [|c a], b as [|d b]; cbn in *; b2p; try (split; [lia|discriminate]);
    [done|].
  destruct (Ascii.eqb_spec c d) as [->|Hne].
  - rewrite IH by assumption. split; congruence.
  - split; [intros E; exfalso; apply Hne, char_code_inj; lia|congruence].
Qed.

Lemma substring_full s n : (String.length s <= n)%nat -> String.substring 0 n s = s.
Proof.
  revert n. induction s as [|c s IH]; intros [|n] H; cbn in *; try done; [lia|].
  rewrite IH; [done|lia].
Qed.

(** [thd_strcmp_n] decides equality of two C strings of less than 4096
    characters. *)
Theorem thd_strcmp_n_eq (a b : string) :
  no_nul a = true -> no_nul b = true ->
  (String.length a <= THD_MAX_STR_CMP_LEN)%nat ->
  (String.length b <= THD_MAX_STR_CMP_LEN)%nat ->
  (thd_strcmp_n (Some a) (Some b) = 0 <-> a = b).
Proof.
  intros Ha Hb La Lb. unfold thd_strcmp_n. cbn.
  rewrite strncmp_zero by assumption.
  assert (thd_cmp_len (Some a) (Some b) = Nat.max (String.length a) (String.length b)) as ->.
  { unfold thd_cmp_len, strnlen, or_empty, default. cbv beta iota.
    unfold from_option, id. rewrite !Nat.min_l by assumption.
    destruct (Nat.ltb_spec (String.length b) (String.length a)); lia. }
  rewrite !substring_full by lia. done.
Qed.

Lemma compare_prefix_app p s : compare_prefix (p +:+ s) (String.length p) p = true.
Proof.
  unfold compare_prefix. apply String.eqb_eq.
  induction p as [|c p IH]; [destruct s; reflexivity|].
  change (String c (String.substring 0 (String.length p) (p +:+ s)) = String c p).
  rewrite IH. reflexivity.
Qed.

Lemma substring_split n s :
  s = String.substring 0 n s +:+ String.substring n (String.length s - n) s.
Proof.
  revert n. induction s as [|c s IH]; intros [|n]; try reflexivity.
  - change (String c s = String c (String.substring 0 (String.length s) s)).
    rewrite substring_full; [reflexivity|lia].
  - change (String c s = String c (String.substring 0 n s
              +:+ String.substring n (String.length s - n) s)).
    rewrite <- IH. reflexivity.
Qed.

(** [starts_with] holds exactly of the strings that extend the prefix. *)
Theorem starts_with_spec s p : starts_with s p = true <-> exists r, s = p +:+ r.
Proof.
  unfold starts_with. split.
  - intros H. b2p. unfold compare_prefix in *.
    match goal with H : String.eqb _ _ = true |- _ => apply String.eqb_eq in H;
      rewrite (substring_split (String.length p) s), H end. eauto.
  - intros [r ->]. rewrite compare_prefix_app, andb_true_r. apply Nat.leb_le.
    induction p as [|c p IH]; [apply Nat.le_0_l|]. apply le_n_S, IH.
Qed.
