(* ===== verification/MeterData.v ===== *)
(** The data of the RAPL power meter (src/thd_rapl_power_meter.h).  The engine
    owns one meter, which its thread samples and which power sensors and RAPL
    devices reach through the global [thd_engine]: the world all of them share
    (SysFs.v) holds it. *)
From stdpp Require Import base strings list.
From Stdlib Require Import ZArith.
From S2P Require Import Prelude.

Open Scope Z_scope.

(** [domain_type], an enumeration of bits. *)
Definition INVALID : Z := 0.
Definition PACKAGE : Z := 1.
Definition DRAM : Z := 2.
Definition CORE : Z := 4.
Definition UNCORE : Z := 8.

Record rapl_domain_t := mk_domain {
  dom_type : Z;
  dom_name : string;
  dom_path : string;
  max_energy_range : Z;
  max_energy_range_threshold : Z;
  half_way : Z;
  energy_cumulative_counter : Z;
  energy_counter : Z;
  power : Z;
  max_power : Z;
  min_power : Z;
}.
#[export] Instance eta_domain : Eta rapl_domain_t := {| eta_of := fun x =>
  mk_domain (dom_type x) (dom_name x) (dom_path x) (max_energy_range x)
    (max_energy_range_threshold x) (half_way x) (energy_cumulative_counter x)
    (energy_counter x) (power x) (max_power x) (min_power x) |}.

Record power_meter := mk_meter {
  rapl_present : bool;
  domain_list : list rapl_domain_t;
  pm_last_time : Z;
  measure_mask : Z;
  enable_measurement : bool;
}.
#[export] Instance eta_meter : Eta power_meter := {| eta_of := fun x =>
  mk_meter (rapl_present x) (domain_list x) (pm_last_time x) (measure_mask x)
    (enable_measurement x) |}.

(** The meter of a machine without RAPL. *)
Definition no_meter : power_meter := mk_meter false [] 0 0 false.
