(* ===== verification/SysFs.v ===== *)
(** The kernel interface the daemon runs on, and [csys_fs]
    (src/thd_sys_fs.cpp), the sysfs accessor every device and sensor owns:
    a base path, a cache of open descriptors, reads and writes. *)
From stdpp Require Import base gmap strings list.
From Stdlib Require Import ZArith Lia Ascii.
From Stdlib Require String.
From S2P Require Import Prelude CString MeterData.

Open Scope string_scope.
Open Scope Z_scope.

(** * The kernel

    System calls are not code of this repository: they are the operations of a
    class over an abstract machine state [W].  A failed call carries its
    [errno].  The state also holds the power meter, the one object of the engine
    that sensors, devices and the thread share outside their own members. *)

Record stat_t := { st_mode : Z; st_uid : Z; st_size : Z }.

Class Kernel (W : Type) := {
  k_stat : string -> W -> option stat_t;
  k_lstat : string -> W -> Z + stat_t;
  k_open_rd : string -> W -> (Z + Z) * W;
  k_open_wr : string -> W -> (Z + Z) * W;
  k_open_rw : string -> W -> (Z + Z) * W;
  k_creat : string -> W -> (Z + Z) * W;          (* O_WRONLY|O_CREAT|O_TRUNC|O_NOFOLLOW *)
  k_create : string -> W -> (Z + Z) * W;         (* O_WRONLY|O_CREAT|O_TRUNC *)
  k_ofstream : string -> string -> W -> bool * W; (* a std::ofstream written and closed *)
  k_pread : Z -> Z -> Z -> W -> Z * string;
  k_write : Z -> string -> W -> (Z + Z) * W;
  k_close : Z -> W -> W;
  k_ifstream : string -> W -> option string;
  k_readlink : string -> W -> Z + string;
  k_readdir : string -> W -> option (list string);
  k_time : W -> Z * W;
  k_sleep : Z -> W -> W;
  k_meter : W -> power_meter;                    (* the power meter of the process *)
  k_set_meter : power_meter -> W -> W;
}.

Definition EIO : Z := 5.
Definition EINVAL : Z := 22.
Definition ENODATA : Z := 61.
Definition S_IWUSR : Z := 128.
Definition S_IWGRP : Z := 16.
Definition S_IWOTH : Z := 2.
Definition S_IFMT : Z := 61440.
Definition S_IFLNK : Z := 40960.
Definition S_ISLNK (mode : Z) : bool := Z.land mode S_IFMT =? S_IFLNK.

(** [f >> word]: white space, then the characters up to the next white space. *)
Fixpoint take_word (s : string) : string :=
  match s with
  | EmptyString => EmptyString
  | String c s' => if isspace c then EmptyString else String c (take_word s')
  end.
Definition istream_word (s old : string) : string :=
  match skip_space s with EmptyString => old | s' => take_word s' end.

(** * csys_fs *)

Record csys_fs := mk_csys_fs { base_path : string; fd_cache : gmap string Z }.
#[export] Instance eta_csys_fs : Eta csys_fs := {| eta_of := fun x =>
  mk_csys_fs (base_path x) (fd_cache x) |}.

Definition new_csys_fs (path : string) : csys_fs := mk_csys_fs path ∅.

Definition update_path (path : string) (fs : csys_fs) : csys_fs :=
  fs <| base_path := path |>.

(** [lseek(fd, position, SEEK_CUR)] on a descriptor that was just opened. *)
Class Seek (W : Type) := { k_lseek : Z -> Z -> W -> (Z + Z) * W }.

Section csys_fs.
Context {W : Type} `{Kernel W}.

Local Abbreviation FS := (State (csys_fs * W)).

Definition lift_w {A} (f : W -> A * W) : FS A :=
  fun '(fs, w) => let '(a, w') := f w in (a, (fs, w')).

Definition full_path (path : string) : FS string :=
  gets (fun '(fs, _) => base_path fs +:+ path).

(** The cached descriptor, or a fresh [open] that is remembered when it
    succeeds. *)
Definition get_cached_fd (full : string) : FS (Z + Z) :=
  let* (fs, w) := get in
  match fd_cache fs !! full with
  | Some fd => ret (inr fd)
  | None =>
      let '(r, w') := k_open_rd full w in
      match r with
      | inr fd => put (fs <| fd_cache := <[full := fd]> (fd_cache fs) |>, w') ;; ret (inr fd)
      | inl e => put (fs, w') ;; ret (inl e)
      end
  end.

Arguments get_cached_fd : simpl never.

Definition check_non_symbolic_path (path : string) (w : W) : Z :=
  match k_lstat path w with
  | inl e => - e
  | inr st => if S_ISLNK (st_mode st) then THD_ERROR else THD_SUCCESS
  end.

(** [write(path, buf)]: the bytes written, or the negated [errno]. *)
Definition write_str (path buf : string) : FS Z :=
  p <- full_path path ;;
  r <- lift_w (k_open_wr p) ;;
  match r with
  | inl e => ret (- e)
  | inr fd =>
      wr <- lift_w (k_write fd buf) ;;
      lift_w (fun w => (tt, k_close fd w)) ;;
      ret (match wr with inl e => - e | inr n => n end)
  end.

(** [write(path, position, data)]: eight bytes at a position.  Unlike the write
    of a string it does not turn a failed write into [errno]. *)
Definition write_at `{!Seek W} (path : string) (position data : Z) : FS Z :=
  p <- full_path path ;;
  r <- lift_w (k_open_wr p) ;;
  match r with
  | inl e => ret (- e)
  | inr fd =>
      sk <- lift_w (k_lseek fd (u32 position)) ;;
      match sk with
      | inl e => lift_w (fun w => (tt, k_close fd w)) ;; ret (- e)
      | inr _ =>
          wr <- lift_w (k_write fd (store_le 8 (u64 data))) ;;
          lift_w (fun w => (tt, k_close fd w)) ;;
          ret (match wr with inl _ => -1 | inr n => n end)
      end
  end.

(** [write(path, unsigned int)]: an [int] argument converts to unsigned. *)
Definition write_uint (path : string) (data : Z) : FS Z :=
  write_str path (string_of_Z (u32 data)).

(** [read(path, buf, len)]: repeated [pread] until [len] bytes arrived. *)
Fixpoint read_loop (fuel : nat) (fd len curr_len offset : Z) (buf : string) (w : W)
  : option (Z * string) :=
  match fuel with
  | O => None
  | S f =>
      if curr_len <=? 0 then Some (len, buf)
      else
        let '(r, data) := k_pread fd curr_len offset w in
        if (r <=? 0) || (len <? r) || (INT_MAX <=? r) then Some (-1, buf)
        else read_loop f fd len (curr_len - r) (offset + r) (buf +:+ data) w
  end.

Definition read_buf (path : string) (len : Z) : FS (option (Z * string)) :=
  p <- full_path path ;;
  r <- get_cached_fd p ;;
  match r with
  | inl e => ret (Some (- e, EmptyString))
  | inr fd => gets (fun '(_, w) => read_loop (S (Z.to_nat len)) fd len len 0 EmptyString w)
  end.

(** [read(path, position, buf, len)]: one [pread]. *)
Definition read_at (path : string) (position len : Z) : FS (Z * string) :=
  p <- full_path path ;;
  r <- get_cached_fd p ;;
  match r with
  | inl e => ret (- e, EmptyString)
  | inr fd => gets (fun '(_, w) => k_pread fd len (u32 position) w)
  end.

(** [read(path, int&)]: the first 15 bytes through [atoi].  The pointed-to
    variable is assigned only when the returned count is positive. *)
Definition read_int (path : string) (old : Z) : FS (Z * Z) :=
  p <- full_path path ;;
  r <- get_cached_fd p ;;
  match r with
  | inl e => ret (- e, old)
  | inr fd =>
      gets (fun '(_, w) =>
        let '(n, str) := k_pread fd 15 0 w in
        (n, if 0 <? n then atoi str else old))
  end.

(** [read(path, unsigned long&)]: the first 31 bytes through [atol]. *)
Definition read_ulong (path : string) (old : Z) : FS (Z * Z) :=
  p <- full_path path ;;
  r <- get_cached_fd p ;;
  match r with
  | inl e => ret (- e, old)
  | inr fd =>
      gets (fun '(_, w) =>
        let '(n, str) := k_pread fd 31 0 w in
        (n, if 0 <? n then u64 (strtol str) else old))
  end.

(** [read(path, std::string &)]: the first word of the file; never through a
    symbolic link.  A file that opens is assumed readable: the [-EIO] of a
    stream that turns bad is not distinguished from a failure to open. *)
Definition read_string (path old : string) : FS (Z * string) :=
  p <- full_path path ;;
  gets (fun '(_, w) =>
    if check_non_symbolic_path p w =? THD_ERROR then (- EINVAL, old)
    else match k_ifstream p w with
         | None => (- EINVAL, old)
         | Some content => (0, istream_word content old)
         end).

Definition exists_path (path : string) : FS bool :=
  gets (fun '(fs, w) => match k_stat (base_path fs +:+ path) w with Some _ => true | None => false end).

Definition size_of (path : string) : FS Z :=
  gets (fun '(fs, w) => match k_stat (base_path fs +:+ path) w with Some st => st_size st | None => 0 end).

Definition get_mode (path : string) : FS Z :=
  gets (fun '(fs, w) => match k_stat (base_path fs +:+ path) w with Some st => st_mode st | None => 0 end).

Definition read_symbolic_link_value (path : string) (len : nat) : FS (Z * string) :=
  gets (fun '(fs, w) =>
    match k_readlink (base_path fs +:+ path) w with
    | inl e => (- e, EmptyString)
    | inr target => (0, String.substring 0 len target)
    end).

(** [create]: no directory of the path may be a symbolic link.  [O_NOFOLLOW] is
    added to the permissions, not to the flags: the last component is checked
    before it is opened, and only then. *)
Fixpoint split_slash (s : string) : list string :=
  match s with
  | EmptyString => [EmptyString]
  | String c s' =>
      match split_slash s' with
      | w :: rest => if Ascii.eqb c "/" then EmptyString :: w :: rest else String c w :: rest
      | [] => []
      end
  end.
Fixpoint any_symbolic (prefix : string) (words : list string) (w : W) : bool :=
  match words with
  | [] => false
  | word :: rest =>
      if String.eqb word "" then any_symbolic prefix rest w else
      let path := prefix +:+ "/" +:+ word in
      (check_non_symbolic_path path w =? THD_ERROR) || any_symbolic path rest w
  end.
Definition create : FS Z :=
  p <- full_path "" ;;
  if negb (starts_with p "/") then ret (-1) else
  sym <- gets (fun '(_, w) => any_symbolic "" (split_slash p) w) ;;
  if sym : bool then ret (-1) else
  r <- lift_w (k_create p) ;;
  match r with
  | inl e => ret (- e)
  | inr fd => lift_w (fun w => (tt, k_close fd w)) ;; ret 0
  end.

(** The destructor closes the cached descriptors. *)
Definition destroy_csys_fs (fs : csys_fs) (w : W) : W :=
  foldr (fun '(_, fd) w => k_close fd w) w (map_to_list (fd_cache fs)).

(** A local [csys_fs]: constructed, used and destroyed. *)
Definition with_fs {A} (path : string) (m : FS A) : State W A := fun w =>
  let '(a, (fs, w')) := m (new_csys_fs path, w) in (a, destroy_csys_fs fs w').

(** ** Properties *)

(** The descriptor cache only grows, and an entry never changes. *)
Definition cache_grows (fs fs' : csys_fs) : Prop :=
  base_path fs' = base_path fs /\ fd_cache fs ⊆ fd_cache fs'.

Lemma get_cached_fd_grows full fs w r fs' w' :
  get_cached_fd full (fs, w) = (r, (fs', w')) ->
  cache_grows fs fs' /\ (forall fd, r = inr fd -> fd_cache fs' !! full = Some fd).
Proof.
  unfold get_cached_fd, cache_grows. msimpl.
  destruct (fd_cache fs !! full) as [fd|] eqn:E; intros X; simplify_eq.
  - split; [done|]. intros fd' X. by simplify_eq.
  - destruct (k_open_rd full w) as [[e|fd] w1] eqn:E1; cbn in X; simplify_eq; cbn.
    + done.
    + split; [split; [done|]; by apply insert_subseteq|].
      intros fd' X. simplify_eq. by rewrite lookup_insert_eq.
Qed.

(** A second lookup of a path that opened is answered from the cache: no
    system call, no state change. *)
Lemma get_cached_fd_hit full fs w fd :
  fd_cache fs !! full = Some fd ->
  get_cached_fd full (fs, w) = (inr fd, (fs, w)).
Proof. unfold get_cached_fd. msimpl. by intros ->. Qed.

Lemma read_int_grows path old fs w n v fs' w' :
  read_int path old (fs, w) = ((n, v), (fs', w')) -> cache_grows fs fs'.
Proof.
  unfold read_int. msimpl.
  destruct (get_cached_fd (base_path fs +:+ path) (fs, w)) as [r [fs1 w1]] eqn:E.
  apply get_cached_fd_grows in E as [Hg _].
  destruct r as [e|fd]; [intros X; by simplify_eq|].
  destruct (k_pread fd 15 0 w1). intros X. by simplify_eq.
Qed.

Lemma read_loop_fuel fuel fd len curr_len offset buf w :
  (Z.to_nat curr_len < fuel)%nat -> read_loop fuel fd len curr_len offset buf w <> None.
Proof.
  revert curr_len offset buf. induction fuel as [|f IH]; intros curr_len offset buf Hf; [lia|].
  cbn. destruct (Z.leb_spec curr_len 0); [done|].
  destruct (k_pread fd curr_len offset w) as [r data].
  destruct (_ || _ || _) eqn:E; [done|]. b2p. apply IH. lia.
Qed.
End csys_fs.

#[global] Arguments get_cached_fd : simpl never.
#[global] Arguments write_str : simpl never.
#[global] Arguments read_int : simpl never.
#[global] Arguments read_ulong : simpl never.
#[global] Arguments read_string : simpl never.
#[global] Arguments exists_path : simpl never.

(** What POSIX documents of [pread]: the count is at most the requested one
    and is the length of the data. *)
Class KernelLaws (W : Type) `{Kernel W} := {
  k_pread_len : forall fd len off w n data,
    k_pread fd len off w = (n, data) -> 0 < n ->
    n = Z.of_nat (String.length data) /\ n <= len;
}.

Section read_buf_spec.
Context {W : Type} `{KernelLaws W}.

Lemma string_length_app (a b : string) :
  String.length (a +:+ b) = (String.length a + String.length b)%nat.
Proof.
  induction a as [|c a IH]; [done|].
  change (S (String.length (a +:+ b)) = S (String.length a + String.length b)).
  rewrite IH. done.
Qed.

Lemma read_loop_spec fuel fd len curr_len offset buf w n data :
  curr_len = len - Z.of_nat (String.length buf) -> 0 <= curr_len ->
  read_loop fuel fd len curr_len offset buf w = Some (n, data) ->
  n = -1 \/ (n = len /\ Z.of_nat (String.length data) = len).
Proof.
  revert curr_len offset buf.
  induction fuel as [|f IH]; intros curr_len offset buf Hc Hpos E; [done|].
  cbn in E. destruct (Z.leb_spec curr_len 0).
  { simplify_eq. right. split; [done|lia]. }
  destruct (k_pread fd curr_len offset w) as [r d] eqn:Er.
  destruct (_ || _ || _) eqn:Eb; b2p; [simplify_eq; by left|].
  destruct (k_pread_len _ _ _ _ _ _ Er) as [Hr Hle]; [lia|].
  eapply IH; [| |exact E]; [rewrite string_length_app|]; lia.
Qed.

(** [csys_fs::read(path, buf, len)] always ends, and it reports [len]
    exactly when it delivered [len] bytes; every other outcome is a negative
    count. *)
Theorem read_buf_total_and_exact path len fs (w : W) :
  0 <= len -> (forall p e, fst (k_open_rd p w) = inl e -> 0 < e) ->
  exists n data fs' w',
    read_buf path len (fs, w) = (Some (n, data), (fs', w')) /\
    (n < 0 \/ (n = len /\ Z.of_nat (String.length data) = len)).
Proof.
  intros Hlen Herr. unfold read_buf, bind, full_path, gets.
  set (p := base_path fs +:+ path).
  assert (Hloop : forall fd (w1 : W), exists n data,
    read_loop (S (Z.to_nat len)) fd len len 0 EmptyString w1 = Some (n, data) /\
    (n < 0 \/ (n = len /\ Z.of_nat (String.length data) = len))).
  { intros fd w1.
    destruct (read_loop (S (Z.to_nat len)) fd len len 0 EmptyString w1)
      as [[n data]|] eqn:E; [|exfalso; revert E; apply read_loop_fuel; lia].
    exists n, data. split; [done|].
    apply read_loop_spec in E; [destruct E as [->|]; [left; lia|by right]|cbn; lia|lia]. }
  unfold get_cached_fd, bind, get, put, ret.
  destruct (fd_cache fs !! p) as [fd|];
    [|specialize (Herr p); destruct (k_open_rd p w) as [[e|fd] w1]; cbn in Herr].
  2: { do 4 eexists. split; [reflexivity|]. left. specialize (Herr e eq_refl). lia. }
  all: match goal with |- context [read_loop _ ?d _ _ _ _ ?x] =>
         destruct (Hloop d x) as (n & data & -> & Hn) end.
  all: do 4 eexists; split; [reflexivity|exact Hn].
Qed.
End read_buf_spec.

(** A machine that carries more state runs the same kernel. *)
#[export] Instance pair_kernel {W D} `{Kernel W} : Kernel (W * D) := {
  k_stat := fun p w => k_stat p (fst w);
  k_lstat := fun p w => k_lstat p (fst w);
  k_open_rd := fun p w => let '(r, w') := k_open_rd p (fst w) in (r, (w', snd w));
  k_open_wr := fun p w => let '(r, w') := k_open_wr p (fst w) in (r, (w', snd w));
  k_open_rw := fun p w => let '(r, w') := k_open_rw p (fst w) in (r, (w', snd w));
  k_creat := fun p w => let '(r, w') := k_creat p (fst w) in (r, (w', snd w));
  k_create := fun p w => let '(r, w') := k_create p (fst w) in (r, (w', snd w));
  k_ofstream := fun p c w => let '(r, w') := k_ofstream p c (fst w) in (r, (w', snd w));
  k_pread := fun fd n off w => k_pread fd n off (fst w);
  k_write := fun fd s w => let '(r, w') := k_write fd s (fst w) in (r, (w', snd w));
  k_close := fun fd w => (k_close fd (fst w), snd w);
  k_ifstream := fun p w => k_ifstream p (fst w);
  k_readlink := fun p w => k_readlink p (fst w);
  k_readdir := fun p w => k_readdir p (fst w);
  k_time := fun w => let '(t, w') := k_time (fst w) in (t, (w', snd w));
  k_sleep := fun n w => (k_sleep n (fst w), snd w);
  k_meter := fun w => k_meter (fst w);
  k_set_meter := fun pm w => (k_set_meter pm (fst w), snd w);
}.

(** * A simulated kernel

    Plain files kept in memory: what a write stores, a later read returns.
    The witnesses run on it. *)
Record sim := mk_metered_sim {
  sim_files : gmap string string; sim_fds : list string; sim_clock : Z; sim_meter : power_meter;
}.
Abbreviation mk_sim f fds t := (mk_metered_sim f fds t no_meter).
#[export] Instance eta_sim : Eta sim := {| eta_of := fun x =>
  mk_metered_sim (sim_files x) (sim_fds x) (sim_clock x) (sim_meter x) |}.

Definition sim_open (p : string) (w : sim) : (Z + Z) * sim :=
  match sim_files w !! p with
  | None => (inl 2, w)
  | Some _ => (inr (Z.of_nat (length (sim_fds w))), w <| sim_fds := (sim_fds w ++ [p])%list |>)
  end.
Definition sim_pread (fd len off : Z) (w : sim) : Z * string :=
  match sim_fds w !! Z.to_nat fd with
  | None => (-1, EmptyString)
  | Some p =>
      let s := default EmptyString (sim_files w !! p) in
      let d := String.substring (Z.to_nat off) (Z.to_nat len) s in
      (Z.of_nat (String.length d), d)
  end.
Definition sim_write (fd : Z) (data : string) (w : sim) : (Z + Z) * sim :=
  match sim_fds w !! Z.to_nat fd with
  | None => (inl 9, w)
  | Some p => (inr (Z.of_nat (String.length data)),
               w <| sim_files := <[p := data]> (sim_files w) |>)
  end.
Definition sim_creat (p : string) (w : sim) : (Z + Z) * sim :=
  (inr (Z.of_nat (length (sim_fds w))),
   w <| sim_files := <[p := EmptyString]> (sim_files w) |> <| sim_fds := (sim_fds w ++ [p])%list |>).
Definition sim_stat (p : string) (w : sim) : option stat_t :=
  match sim_files w !! p with
  | None => None
  | Some s => Some {| st_mode := 33152; st_uid := 0; st_size := Z.of_nat (String.length s) |}
  end.

(** The names directly below a directory, one per file path under it. *)
Definition as_directory (p : string) : string :=
  if String.eqb (String.substring (String.length p - 1) 1 p) "/" then p else p +:+ "/".
Definition sim_readdir (dir : string) (w : sim) : option (list string) :=
  let p := as_directory dir in
  let names := omap (fun '(f, _) =>
    if starts_with f p then
      let rest := String.substring (String.length p) (String.length f - String.length p) f in
      match String.index 0 "/" rest with
      | Some n => Some (String.substring 0 n rest)
      | None => Some rest
      end
    else None) (map_to_list (sim_files w)) in
  match names with [] => None | _ => Some (remove_dups names) end.

#[export] Instance sim_kernel : Kernel sim := {
  k_stat := sim_stat;
  k_lstat := fun p w => match sim_stat p w with Some st => inr st | None => inl 2 end;
  k_open_rd := sim_open;
  k_open_wr := sim_open;
  k_open_rw := sim_open;
  k_creat := sim_creat;
  k_create := sim_creat;
  k_ofstream := fun p c w => (true, w <| sim_files := <[p := c]> (sim_files w) |>);
  k_pread := sim_pread;
  k_write := sim_write;
  k_close := fun _ w => w;
  k_ifstream := fun p w => sim_files w !! p;
  k_readlink := fun _ _ => inl EINVAL;
  k_readdir := sim_readdir;
  k_time := fun w => (sim_clock w, w);
  k_sleep := fun n w => w <| sim_clock := sim_clock w + n |>;
  k_meter := sim_meter;
  k_set_meter := fun pm w => w <| sim_meter := pm |>;
}.

Lemma substring_length n m s : (String.length (String.substring n m s) <= m)%nat.
Proof.
  revert n m. induction s as [|c s IH]; intros [|n] [|m]; cbn; try lia.
  - specialize (IH O m). lia.
  - apply (IH n O).
  - apply (IH n (S m)).
Qed.

#[export] Instance sim_kernel_laws : KernelLaws sim.
Proof.
  split. intros fd len off w n data. cbn. unfold sim_pread.
  destruct (sim_fds w !! _) as [p|]; [|intros X; simplify_eq; lia].
  intros X. simplify_eq. intros Hpos. split; [done|].
  pose proof (substring_length (Z.to_nat off) (Z.to_nat len)
                (default EmptyString (sim_files w !! p))). lia.
Qed.

Definition sim0 : sim := mk_sim {[ "/sys/x/temp" := "45000" ]} [] 1000.

Lemma read_buf_total_and_exact_witness :
  exists n data fs' w',
    read_buf "temp" 5 (new_csys_fs "/sys/x/", sim0) = (Some (n, data), (fs', w')) /\
    (n < 0 \/ (n = 5 /\ Z.of_nat (String.length data) = 5)).
Proof.
  apply read_buf_total_and_exact; [lia|]. intros p e. cbn. unfold sim_open.
  destruct (sim_files sim0 !! p); cbn; intros X; simplify_eq; lia.
Defined.
