(* ===== verification/CFloat.v ===== *)
(** Floating point: [double] and [float] of the source as IEEE binary64 and
    binary32 with round-to-nearest-even, and the exact rationals beside them. *)
From stdpp Require Import base list.
From Stdlib Require Import ZArith Lia QArith SpecFloat.
From S2P Require Import Prelude.

Open Scope Z_scope.

(** * An arithmetic

    What the floating-point code of the source uses. *)

Class Arith (F : Type) := {
  a_of_Z : Z -> F;
  a_add : F -> F -> F;
  a_sub : F -> F -> F;
  a_mul : F -> F -> F;
  a_div : F -> F -> F;
  a_is_zero : F -> bool;
  a_trunc : F -> Z;
}.

(** ** double *)

Definition double : Type := spec_float.
Definition d_prec : Z := 53.
Definition d_emax : Z := 1024.

Definition double_of_Z (z : Z) : double := binary_normalize d_prec d_emax z 0 false.

(** Conversion to [int] truncates; a value no [int] represents gives the
    "integer indefinite" value of cvttsd2si. *)
Definition int_of_double (d : double) : Z :=
  match d with
  | S754_zero _ => 0
  | S754_infinity _ | S754_nan => INT_MIN
  | S754_finite s m e =>
      let a := if 0 <=? e then Zpos m * 2 ^ e else Zpos m / 2 ^ (- e) in
      let v := if s then - a else a in
      if (INT_MIN <=? v) && (v <=? INT_MAX) then v else INT_MIN
  end.

Definition double_is_zero (d : double) : bool :=
  match d with S754_zero _ => true | _ => false end.

(** ** float *)

Definition float : Type := spec_float.
Definition f_prec : Z := 24.
Definition f_emax : Z := 128.

Definition float_of_Z (z : Z) : float := binary_normalize f_prec f_emax z 0 false.
Definition float_add : float -> float -> float := SFadd f_prec f_emax.
Definition float_sub : float -> float -> float := SFsub f_prec f_emax.
Definition float_mul : float -> float -> float := SFmul f_prec f_emax.
Definition float_div : float -> float -> float := SFdiv f_prec f_emax.

(** A [double] stored in a [float] rounds again; conversion to [int]
    truncates as for [double]. *)
Definition float_of_double (d : double) : float :=
  match d with
  | S754_finite s m e => binary_normalize f_prec f_emax (if s then Zneg m else Zpos m) e s
  | _ => d
  end.
Definition int_of_float (f : float) : Z := int_of_double f.

#[export] Instance double_arith : Arith double := {
  a_of_Z := double_of_Z;
  a_add := SFadd d_prec d_emax;
  a_sub := SFsub d_prec d_emax;
  a_mul := SFmul d_prec d_emax;
  a_div := SFdiv d_prec d_emax;
  a_is_zero := double_is_zero;
  a_trunc := int_of_double;
}.

(** The literals [0.0005] and [0.0001] of the source, rounded to nearest. *)
Definition double_0_0005 : double := S754_finite false 4611686018427388 (-63).
Definition double_0_0001 : double := S754_finite false 7378697629483821 (-66).

(** ** Exact rationals *)

Definition Qtrunc (q : Q) : Z := Z.quot (Qnum q) (QDen q).

#[export] Instance q_arith : Arith Q := {
  a_of_Z := inject_Z;
  a_add := Qplus;
  a_sub := Qminus;
  a_mul := Qmult;
  a_div := Qdiv;
  a_is_zero := fun q => Qeq_bool q 0;
  a_trunc := Qtrunc;
}.

#[export] Instance Qtrunc_proper : Proper (Qeq ==> eq) Qtrunc.
Proof.
  intros [n1 d1] [n2 d2]. unfold Qeq, Qtrunc. cbn. intros E.
  rewrite <- (Z.quot_mul_cancel_r n1 (Zpos d1) (Zpos d2)) by lia.
  rewrite E, (Z.mul_comm (Zpos d1)).
  apply Z.quot_mul_cancel_r; lia.
Qed.

Lemma Qtrunc_inject_Z z : Qtrunc (inject_Z z) = z.
Proof. unfold Qtrunc. cbn. apply Z.quot_1_r. Qed.
