(* ===== verification/Pid.v ===== *)
(** The PID controller, [cthd_pid] (src/thd_pid.cpp, src/thd_pid.h).

    The controller is written once over an arithmetic [Arith F]: the daemon
    runs it at [double], IEEE binary64 with the rounding of the hardware; the
    theorems about the control law are about the exact instance at [Q], which
    has no rounding error. *)
From stdpp Require Import base list.
From Stdlib Require Import ZArith Lia QArith.
From S2P Require Import Prelude CFloat.

Open Scope Z_scope.

(** * The controller *)

Section pid.
Context {F : Type} `{Arith F}.

Record cthd_pid := mk_pid {
  kp : F; ki : F; kd : F;
  err_sum : F; last_err : F;
  last_time : Z;          (* time_t *)
  target_temp : Z;        (* unsigned int *)
}.

Definition set_pid_param (_kp _ki _kd : F) (p : cthd_pid) : cthd_pid :=
  mk_pid _kp _ki _kd (err_sum p) (last_err p) (last_time p) (target_temp p).

Definition set_target_temp (temp : Z) (p : cthd_pid) : cthd_pid :=
  mk_pid (kp p) (ki p) (kd p) (err_sum p) (last_err p) (last_time p) (u32 temp).

Definition pid_reset (p : cthd_pid) : cthd_pid :=
  mk_pid (kp p) (ki p) (kd p) (a_of_Z 0) (a_of_Z 0) 0 (target_temp p).

(** The error of a sample: an unsigned difference stored in an [int]. *)
Definition pid_error (p : cthd_pid) (curr_temp : Z) : Z := i32 (curr_temp - target_temp p).

(** [pid_output(curr_temp, initial_value)] at time [now]. *)
Definition pid_output (now curr_temp initial_value : Z) (p : cthd_pid) : Z * cthd_pid :=
  let error := pid_error p curr_temp in
  let err := a_of_Z error in
  let first := last_time p =? 0 in
  let last := if first then now else last_time p in
  let sum0 :=
    if first then
      if negb (a_is_zero (ki p))
      then a_div (a_sub (a_of_Z initial_value) (a_mul (kp p) err)) (ki p)
      else a_of_Z 0
    else err_sum p in
  let timeChange := i64 (now - last) in
  let sum := a_add sum0 (a_of_Z (i64 (error * timeChange))) in
  let d_err :=
    if truthy timeChange then a_div (a_sub err (last_err p)) (a_of_Z timeChange)
    else a_of_Z 0 in
  let output :=
    a_add (a_add (a_mul (kp p) err) (a_mul (ki p) sum)) (a_mul (kd p) d_err) in
  (a_trunc output,
   mk_pid (kp p) (ki p) (kd p) sum err now (target_temp p)).

(** The derivative term of a sample. *)
Definition d_term (p : cthd_pid) (now curr_temp : Z) : F :=
  let timeChange := i64 (now - (if last_time p =? 0 then now else last_time p)) in
  if truthy timeChange
  then a_div (a_sub (a_of_Z (pid_error p curr_temp)) (last_err p)) (a_of_Z timeChange)
  else a_of_Z 0.

(** A sequence of samples [(now, curr_temp)] after the first output. *)
Fixpoint pid_run (samples : list (Z * Z)) (p : cthd_pid) : cthd_pid :=
  match samples with
  | [] => p
  | (now, t) :: rest => pid_run rest (snd (pid_output now t 0 p))
  end.

(** The gains and the set point are never changed by a run. *)
Lemma pid_output_gains now t iv p :
  let p' := snd (pid_output now t iv p) in
  kp p' = kp p /\ ki p' = ki p /\ kd p' = kd p /\ target_temp p' = target_temp p /\
  last_time p' = now /\ last_err p' = a_of_Z (pid_error p t).
Proof. cbn. repeat split. Qed.
End pid.

Arguments cthd_pid : clear implicits.

(** [cthd_pid()]. *)
Definition new_pid : cthd_pid double :=
  mk_pid double_0_0005 double_0_0001 double_0_0001 (a_of_Z 0) (a_of_Z 0) 0 0.

(** * The control law, in exact arithmetic *)

Section exact.
Context (p : cthd_pid Q).
Open Scope Q_scope.

(** The time between samples, and the errors, fit their machine types. *)
Definition sample_ok (tgt prev now t : Z) : Prop :=
  (0 < prev /\ 0 <= now - prev < 2 ^ 31 /\ is_i32 (t - tgt))%Z.

(** The integral of the error over the samples, [Σ e_i (t_i - t_(i-1))]. *)
Fixpoint error_integral (tgt prev : Z) (samples : list (Z * Z)) : Z :=
  match samples with
  | [] => 0%Z
  | (now, t) :: rest => ((t - tgt) * (now - prev) + error_integral tgt now rest)%Z
  end.

Fixpoint samples_ok (tgt prev : Z) (samples : list (Z * Z)) : Prop :=
  match samples with
  | [] => True
  | (now, t) :: rest => sample_ok tgt prev now t /\ samples_ok tgt now rest
  end.
End exact.

Lemma i64_id z : - 2 ^ 63 <= z < 2 ^ 63 -> i64 z = z.
Proof. unfold i64. intros. rewrite Z.mod_small; lia. Qed.

Lemma pid_output_sum (p : cthd_pid Q) now t iv :
  sample_ok (target_temp p) (last_time p) now t ->
  Qeq (err_sum (snd (pid_output now t iv p)))
      (err_sum p + inject_Z ((t - target_temp p) * (now - last_time p)))%Q.
Proof.
  unfold sample_ok, is_i32, INT_MIN, INT_MAX. intros (Hp & Hd & He).
  cbn. unfold pid_error. rewrite (i32_id (t - _)) by (unfold is_i32, INT_MIN, INT_MAX; lia).
  destruct (Z.eqb_spec (last_time p) 0) as [|_]; [lia|].
  assert (- 2 ^ 62 <= (t - target_temp p) * (now - last_time p) <= 2 ^ 62) by nia.
  rewrite !i64_id by (rewrite ?i64_id; lia). reflexivity.
Qed.

Lemma pid_run_sum samples (p : cthd_pid Q) :
  samples_ok (target_temp p) (last_time p) samples ->
  Qeq (err_sum (pid_run samples p))
      (err_sum p + inject_Z (error_integral (target_temp p) (last_time p) samples))%Q.
Proof.
  revert p. induction samples as [|[now t] rest IH]; intros p; cbn [samples_ok pid_run error_integral].
  - intros _. rewrite Qplus_0_r. reflexivity.
  - intros [Hs Hr]. rewrite IH by exact Hr. rewrite pid_output_sum by exact Hs.
    cbn [target_temp last_time]. rewrite inject_Z_plus. cbn. ring.
Qed.

(** The time and the temperature of the last sample of a run. *)
Definition last_sample (t0 T0 : Z) (samples : list (Z * Z)) : Z * Z := List.last samples (t0, T0).

Lemma last_sample_cons t0 T0 now t l :
  last_sample t0 T0 ((now, t) :: l) = last_sample now t l.
Proof.
  unfold last_sample. revert t0 T0 now t.
  induction l as [|[n1 t1] l IH]; intros t0 T0 now t; [done|].
  transitivity (List.last l (n1, t1)); [apply (IH t0 T0)|symmetry; apply IH].
Qed.

Lemma samples_ok_app tgt prev T0 s1 now t :
  samples_ok tgt prev (s1 ++ [(now, t)]) <->
  samples_ok tgt prev s1 /\ sample_ok tgt (fst (last_sample prev T0 s1)) now t.
Proof.
  revert prev T0. induction s1 as [|[n1 t1] s1 IH]; intros prev T0; cbn [samples_ok app].
  - cbn. tauto.
  - rewrite (IH n1 t1), last_sample_cons. tauto.
Qed.

Lemma error_integral_app tgt prev T0 s1 now t :
  error_integral tgt prev (s1 ++ [(now, t)]) =
  error_integral tgt prev s1 + (t - tgt) * (now - fst (last_sample prev T0 s1)).
Proof.
  revert prev T0. induction s1 as [|[n1 t1] s1 IH]; intros prev T0; cbn [error_integral app].
  - cbn. lia.
  - rewrite (IH n1 t1), last_sample_cons. lia.
Qed.

Lemma pid_run_state samples (p : cthd_pid Q) T0 :
  last_err p = inject_Z (pid_error p T0) ->
  let p' := pid_run samples p in
  let '(tl, Tl) := last_sample (last_time p) T0 samples in
  kp p' = kp p /\ ki p' = ki p /\ kd p' = kd p /\ target_temp p' = target_temp p /\
  last_time p' = tl /\ last_err p' = inject_Z (pid_error p Tl).
Proof.
  revert p T0. induction samples as [|[now t] rest IH]; intros p T0 He; [cbn; auto 8|].
  cbn [pid_run]. specialize (IH (snd (pid_output now t 0 p)) t eq_refl).
  rewrite last_sample_cons.
  exact IH.
Qed.

(** The integral term the first output sets up. *)
Lemma pid_first_sum (p : cthd_pid Q) now t iv :
  ~ Qeq (ki p) 0 ->
  Qeq (err_sum (snd (pid_output now t iv (pid_reset p))))
      ((inject_Z iv - kp p * inject_Z (pid_error p t)) / ki p)%Q.
Proof.
  intros Hki. cbn -[inject_Z Qplus Qmult Qdiv Qminus].
  replace (Qeq_bool (ki p) 0) with false
    by (symmetry; apply not_true_iff_false; rewrite Qeq_bool_iff; exact Hki).
  rewrite Z.sub_diag, Z.mul_0_r. change (inject_Z (i64 0)) with 0%Q.
  rewrite Qplus_0_r. reflexivity.
Qed.

(** An output is the sum of its three terms. *)
Lemma pid_output_terms (p : cthd_pid Q) now t iv :
  fst (pid_output now t iv p) =
  Qtrunc (kp p * inject_Z (pid_error p t)
          + ki p * err_sum (snd (pid_output now t iv p)) + kd p * d_term p now t)%Q.
Proof. reflexivity. Qed.

(** * Theorems *)

(** The controller starts without a jump.  In exact arithmetic with a
    non-zero integral gain, the first output after [reset] is the
    [initial_value] the caller passes, whatever the temperature, the set
    point, the gains and the time. *)
Theorem pid_first_output_is_initial_value (p : cthd_pid Q) now curr_temp initial_value :
  ~ Qeq (ki p) 0 ->
  fst (pid_output now curr_temp initial_value (pid_reset p)) = initial_value.
Proof.
  intros Hki. rewrite pid_output_terms.
  transitivity (Qtrunc (inject_Z initial_value)); [|apply Qtrunc_inject_Z].
  apply Qtrunc_proper. rewrite pid_first_sum by exact Hki.
  unfold d_term. cbn -[inject_Z Qplus Qmult Qdiv Qminus].
  rewrite Z.sub_diag. cbn -[inject_Z Qplus Qmult Qdiv Qminus].
  change (inject_Z 0) with 0%Q. change (pid_error (pid_reset p)) with (pid_error p).
  change (truthy (i64 0)) with false. cbv iota. field. exact Hki.
Qed.

(** The PID law.  In exact arithmetic, after a first output [iv] at time
    [t0] and temperature [T0] and any further samples, the output at the next
    sample [(now, t)] is [iv + kp (e - e0) + ki Σ e_i dt_i + kd (e - e_prev)/dt],
    truncated to an integer. *)
Theorem pid_output_law (p : cthd_pid Q) t0 T0 iv samples now t :
  ~ Qeq (ki p) 0 ->
  is_i32 (T0 - target_temp p) ->
  samples_ok (target_temp p) t0 (samples ++ [(now, t)]) ->
  let tgt := target_temp p in
  let '(tl, Tl) := last_sample t0 T0 samples in
  tl < now -> is_i32 (Tl - tgt) ->
  fst (pid_output now t 0 (pid_run samples (snd (pid_output t0 T0 iv (pid_reset p))))) =
  Qtrunc (inject_Z iv + kp p * inject_Z (t - T0)
          + ki p * inject_Z (error_integral tgt t0 (samples ++ [(now, t)]))
          + kd p * (inject_Z (t - Tl) / inject_Z (now - tl)))%Q.
Proof.
  intros Hki HT0 Hok. cbn zeta.
  pose proof (pid_first_sum p t0 T0 iv Hki) as Hs0.
  pose proof (pid_output_gains t0 T0 iv (pid_reset p)) as Hg. cbn zeta in Hg.
  set (p1 := snd (pid_output t0 T0 iv (pid_reset p))) in *. clearbody p1.
  destruct Hg as (Gp & Gi & Gd & Gt & Gl & Ge). cbn in Gp, Gi, Gd, Gt.
  destruct (last_sample t0 T0 samples) as [tl Tl] eqn:El. intros Hlt HTl.
  apply (samples_ok_app _ _ T0) in Hok as [Hs Hn]. rewrite El in Hn. cbn in Hn.
  rewrite <- Gt, <- Gl in Hs. pose proof (pid_run_sum samples p1 Hs) as Hsum.
  pose proof (pid_run_state samples p1 T0) as Hst. rewrite Gl, El in Hst.
  destruct Hst as (Rp & Ri & Rd & Rt & Rl & Re).
  { rewrite Ge. unfold pid_error. by rewrite Gt. }
  set (q := pid_run samples p1) in *. clearbody q.
  assert (Eq : pid_error q t = t - target_temp p).
  { unfold pid_error. rewrite Rt, Gt. apply i32_id, Hn. }
  rewrite pid_output_terms. apply Qtrunc_proper.
  rewrite pid_output_sum, Hsum, Hs0, Eq by (rewrite Rt, Gt, Rl; exact Hn).
  unfold d_term. rewrite Rl, Re. unfold pid_error. rewrite Rt, Gt, Gl, Rp, Gp, Ri, Gi, Rd, Gd.
  destruct (Z.eqb_spec tl 0) as [->|_]; [destruct Hn; lia|].
  destruct Hn as (Hn1 & Hn2 & Hn3).
  rewrite i64_id, !i32_id by (done || lia).
  replace (truthy (now - tl)) with true by (symmetry; apply truthy_true; lia).
  rewrite (error_integral_app _ _ T0), El. cbn [a_div a_sub a_of_Z q_arith fst].
  assert (Hdt : ~ Qeq (inject_Z (now - tl)) 0) by (unfold Qeq; cbn; lia).
  set (dt := now - tl) in *. clearbody dt. unfold Z.sub.
  repeat rewrite ?inject_Z_plus, ?inject_Z_mult, ?inject_Z_opp.
  field. split; assumption.
Qed.

(** A controller with the daemon's default gains, in exact arithmetic. *)
Definition pid_q (tgt : Z) : cthd_pid Q :=
  mk_pid (5 # 10000)%Q (1 # 10000)%Q (1 # 10000)%Q 0%Q 0%Q 0 tgt.

Lemma pid_first_output_witness :
  fst (pid_output 100 45000 7 (pid_reset (pid_q 40000))) = 7.
Proof. apply pid_first_output_is_initial_value. unfold Qeq. cbn. lia. Defined.

Lemma pid_output_law_witness :
  fst (pid_output 120 46000 0 (pid_run [(110, 45500)]
    (snd (pid_output 100 45000 7 (pid_reset (pid_q 40000)))))) =
  Qtrunc (inject_Z 7 + (5 # 10000) * inject_Z (46000 - 45000)%Z
          + (1 # 10000) * inject_Z (error_integral 40000 100 ([(110, 45500)] ++ [(120, 46000)])%Z)
          + (1 # 10000) * (inject_Z (46000 - 45500) / inject_Z (120 - 110)))%Q.
Proof.
  apply (pid_output_law (pid_q 40000) 100 45000 7 [(110, 45500)] 120 46000);
    cbn; unfold sample_ok, is_i32, INT_MIN, INT_MAX, Qeq; cbn; lia.
Defined.
