(* ===== verification/Cdev.v ===== *)
(** The cooling device base class [cthd_cdev] (src/thd_cdev.cpp,
    src/thd_cdev.h): the bookkeeping of the trips that hold a device active,
    the debounce, and the exponential and PID controllers.

    The virtual methods a subclass overrides are the operations of the class
    [CdevMethods]; the base class is written against it, and the theorems that
    hold for every subclass are proved from [CdevLaws]. *)
From stdpp Require Import base gmap strings list.
From Stdlib Require Import ZArith Lia.
From S2P Require Import Prelude CString SysFs CFloat Pid.

Open Scope Z_scope.
Open Scope list_scope.

(** * Data *)

Record zone_trip_limits_t := mk_limit {
  zone : Z;
  trip : Z;
  target_state_valid : Z;
  target_value : Z;
  _min_state : Z;
  _max_state : Z;
  _min_max_valid : Z;
}.

Definition no_limit : zone_trip_limits_t := mk_limit 0 0 0 0 0 0 0.

(** The members of [cthd_cdev]; [ext] holds the members a subclass adds. *)
Record cdev (X : Type) := mk_cdev {
  index : Z;
  cdev_sysfs : csys_fs;
  trip_point : Z;
  max_state : Z;
  min_state : Z;
  curr_state : Z;
  curr_pow : Z;
  base_pow_state : Z;
  inc_dec_val : Z;
  auto_down_adjust : bool;
  read_back : bool;
  type_str : string;
  alias_str : string;
  debounce_interval : Z;
  last_action_time : Z;
  trend_increase : bool;
  pid_enable : bool;
  pid_ctrl : cthd_pid double;
  last_state : Z;
  zone_trip_limits : list zone_trip_limits_t;
  write_prefix : string;
  inc_val : Z;
  dec_val : Z;
  ext : X;
}.
Arguments mk_cdev {X}.
Arguments index {X}. Arguments cdev_sysfs {X}. Arguments trip_point {X}.
Arguments max_state {X}. Arguments min_state {X}. Arguments curr_state {X}.
Arguments curr_pow {X}. Arguments base_pow_state {X}. Arguments inc_dec_val {X}.
Arguments auto_down_adjust {X}. Arguments read_back {X}. Arguments type_str {X}.
Arguments alias_str {X}. Arguments debounce_interval {X}.
Arguments last_action_time {X}. Arguments trend_increase {X}.
Arguments pid_enable {X}. Arguments pid_ctrl {X}. Arguments last_state {X}.
Arguments zone_trip_limits {X}. Arguments write_prefix {X}. Arguments inc_val {X}.
Arguments dec_val {X}. Arguments ext {X}.

#[export] Instance eta_cdev {X} : Eta (cdev X) := {| eta_of := fun x =>
  mk_cdev (index x) (cdev_sysfs x) (trip_point x) (max_state x) (min_state x)
    (curr_state x) (curr_pow x) (base_pow_state x) (inc_dec_val x)
    (auto_down_adjust x) (read_back x) (type_str x) (alias_str x)
    (debounce_interval x) (last_action_time x) (trend_increase x) (pid_enable x)
    (pid_ctrl x) (last_state x) (zone_trip_limits x) (write_prefix x) (inc_val x)
    (dec_val x) (ext x) |}.

Definition default_debounce_interval : Z := 2.
Definition default_max_exponent : Z := 20.
Definition TRIP_PT_INVALID_TARGET_STATE : Z := INT_MAX.

(** The constructor [cthd_cdev(_index, control_path)]. *)
Definition new_cdev {X} (_index : Z) (control_path : string) (x : X) : cdev X :=
  mk_cdev (i32 _index) (new_csys_fs control_path) 0 0 0 0 0 0 1 false true ""%string ""%string
    default_debounce_interval 0 false false new_pid 0 [] ""%string 0 0 x.

(** [pid_param_t]. *)
Record pid_param_t := mk_pid_param {
  pid_valid : Z; pp_kp : double; pp_ki : double; pp_kd : double
}.

(** The arguments of [thd_cdev_set_state], but for the controller that is
    passed by reference. *)
Record set_args := mk_args {
  a_set_point : Z;
  a_target_temp : Z;
  a_temperature : Z;
  a_hard_target : Z;
  a_state : Z;
  a_zone_id : Z;
  a_trip_id : Z;
  a_target_state_valid : Z;
  a_target_value : Z;
  a_pid_param : option pid_param_t;
  a_force : bool;
  a_min_max_valid : Z;
  a_min_state : Z;
  a_max_state : Z;
}.

(** * The virtual interface *)

Abbreviation CD X W := (State (cdev X * W)) (only parsing).

Class CdevMethods (X W : Type) := {
  m_set_curr_state : Z -> Z -> CD X W unit;
  m_set_curr_state_raw : Z -> Z -> CD X W unit;
  m_get_curr_state : CD X W Z;
  m_get_curr_state_again : CD X W Z;
  m_get_max_state : CD X W Z;
  m_map_target_state : cdev X -> Z -> Z -> Z;
  m_update : CD X W Z;
}.

Section access.
Context {X W : Type} `{Kernel W}.

Definition getd : CD X W (cdev X) := gets fst.
Definition modd (f : cdev X -> cdev X) : CD X W unit :=
  modify (fun '(d, w) => (f d, w)).
Definition time_now : CD X W Z := fun '(d, w) => let '(t, w') := k_time w in (t, (d, w')).

(** An access through the device's own [cdev_sysfs]. *)
Definition fs_op {A} (m : State (csys_fs * W) A) : CD X W A := fun '(d, w) =>
  let '(a, (fs, w')) := m (cdev_sysfs d, w) in (a, (d <| cdev_sysfs := fs |>, w')).
End access.

(** * The base class *)

Section base.
Context {X W : Type} `{Kernel W} `{!CdevMethods X W}.

Fixpoint pow2_loop (n : nat) (_pow : Z) : Z :=
  match n with O => _pow | S n' => pow2_loop n' (i32 (_pow * 2)) end.
Definition int_2_pow (pow : Z) : Z := u32 (pow2_loop (Z.to_nat pow) 1).

Definition get_min_state (d : cdev X) : Z := min_state d.

(** The base [set_curr_state_raw]; [set] is the subclass's [set_curr_state]. *)
Definition base_set_curr_state_raw (set : Z -> Z -> CD X W unit) (state arg : Z) : CD X W unit :=
  d <- getd ;;
  let state := if state >? max_state d then max_state d else state in
  let state := if state <? min_state d then min_state d else state in
  set state arg.

Definition base_get_curr_state : CD X W Z := gets (fun '(d, _) => curr_state d).
Definition base_get_max_state : CD X W Z := gets (fun '(d, _) => max_state d).

Definition control_begin (d : cdev X) : cdev X :=
  if pid_enable d then d <| pid_ctrl := pid_reset (pid_ctrl d) |> else d.

Definition in_min_state : CD X W bool :=
  d <- getd ;;
  if min_state d <? max_state d then
    c <- m_get_curr_state ;; d' <- getd ;; ret (c <=? min_state d')
  else if min_state d >? max_state d then
    c <- m_get_curr_state ;; d' <- getd ;; ret (c >=? min_state d')
  else ret false.

Definition in_max_state : CD X W bool :=
  d <- getd ;;
  if min_state d <? max_state d then
    c <- m_get_curr_state ;; m <- m_get_max_state ;; ret (c >=? m)
  else if min_state d >? max_state d then
    c <- m_get_curr_state ;; m <- m_get_max_state ;; ret (c <=? m)
  else ret false.

Definition cmp_current_state (state : Z) : CD X W Z :=
  c <- m_get_curr_state ;;
  if c =? state then ret 0 else
  d <- getd ;;
  if min_state d <? max_state d then
    c <- m_get_curr_state ;; ret (if state >? c then 1 else -1)
  else if min_state d >? max_state d then
    c <- m_get_curr_state ;; ret (if state >? c then -1 else 1)
  else ret 0.

(** Clamp to the device's min state, or to the trip's if that is valid. *)
Definition thd_clamp_state_min (d : cdev X) (_state temp_min_state : Z) : Z :=
  if min_state d <=? max_state d then
    let m := if truthy temp_min_state && (temp_min_state >? min_state d)
             then temp_min_state else min_state d in
    if _state <? m then m else _state
  else
    let m := if truthy temp_min_state && (temp_min_state <? min_state d)
             then temp_min_state else min_state d in
    if _state >? m then m else _state.

Definition thd_clamp_state_max (d : cdev X) (_state temp_max_state : Z) : Z :=
  if min_state d <=? max_state d then
    let m := if truthy temp_max_state && (temp_max_state <? max_state d)
             then temp_max_state else max_state d in
    if _state >? m then m else _state
  else
    let m := if truthy temp_max_state && (temp_max_state >? max_state d)
             then temp_max_state else max_state d in
    if _state <? m then m else _state.

(** ** The exponential controller *)

(** The step of an activation: [inc_val], or [inc_dec_val] without one. *)
Definition up_step (d : cdev X) : Z := if truthy (inc_val d) then inc_val d else inc_dec_val d.

(** The state a repeated activation asks for, before the clamp. *)
Definition exponential_state (d : cdev X) : Z :=
  let _state := i32 (base_pow_state d + int_2_pow (curr_pow d) * up_step d) in
  if ((inc_val d <? 0) && (base_pow_state d <? _state))
     || ((inc_val d >? 0) && (base_pow_state d >? _state))
  then max_state d else _state.

Definition exponential_up (temp_min_state temp_max_state : Z) : CD X W Z :=
  c <- m_get_curr_state_again ;;
  d <- getd ;;
  let _curr_state := thd_clamp_state_min d c temp_min_state in
  _state <-
    (if trend_increase d then
       (if curr_pow d =? 0 then modd (fun d => d <| base_pow_state := _curr_state |>)
        else ret tt) ;;
       (if curr_pow d <? default_max_exponent
        then modd (fun d => d <| curr_pow := curr_pow d + 1 |>) else ret tt) ;;
       d <- getd ;; ret (exponential_state d)
     else
       modd (fun d => d <| curr_pow := 0 |>) ;;
       ret (i32 (_curr_state + up_step d))) ;;
  d <- getd ;;
  let _state := thd_clamp_state_max d _state temp_max_state in
  modd (fun d => d <| trend_increase := true |>) ;;
  ret _state.

(** The step of a deactivation, its sign normalised to move toward [min_state]. *)
Definition down_step (d : cdev X) : Z :=
  let step := if truthy (dec_val d) then dec_val d
              else if min_state d <=? max_state d then inc_dec_val d
              else i32 (- inc_dec_val d) in
  if (min_state d <=? max_state d) && (step <? 0) then i32 (- step)
  else if (min_state d >? max_state d) && (step >? 0) then i32 (- step)
  else step.

Definition exponential_down (temp_min_state temp_max_state : Z) : CD X W Z :=
  c <- m_get_curr_state ;;
  d <- getd ;;
  let _curr_state := thd_clamp_state_max d c temp_max_state in
  modd (fun d => d <| curr_pow := 0 |>) ;;
  modd (fun d => d <| trend_increase := false |>) ;;
  d <- getd ;;
  let _state := if auto_down_adjust d then min_state d
                else i32 (_curr_state - down_step d) in
  let _state := thd_clamp_state_min d _state temp_min_state in
  ret (thd_clamp_state_max d _state temp_max_state).

Definition thd_cdev_exponential_controller (state temp_min_state temp_max_state : Z) : CD X W Z :=
  m_get_max_state ;;
  v <- (if truthy state then exponential_up temp_min_state temp_max_state
        else exponential_down temp_min_state temp_max_state) ;;
  m_set_curr_state v state ;;
  m_get_curr_state ;;          (* an argument of thd_log_info *)
  ret THD_SUCCESS.

(** ** The trips that hold the device *)

Definition sort_clamp_values_asc (l1 l2 : zone_trip_limits_t) : bool :=
  target_value l1 <? target_value l2.
Definition sort_clamp_values_dec (l1 l2 : zone_trip_limits_t) : bool :=
  target_value l1 >? target_value l2.
Definition sort_min_max_values_asc (l1 l2 : zone_trip_limits_t) : bool :=
  _min_state l1 <? _min_state l2.
Definition sort_min_max_values_dec (l1 l2 : zone_trip_limits_t) : bool :=
  _max_state l1 >? _max_state l2.

Definition is_entry (zone_id trip_id : Z) (l : zone_trip_limits_t) : bool :=
  (zone l =? zone_id) && (trip l =? trip_id).

(** The entry an activation adds. *)
Definition make_limit (a : set_args) (d : cdev X) : zone_trip_limits_t :=
  let unset s := (s =? TRIP_PT_INVALID_TARGET_STATE) || (s =? 0) in
  let mn := if truthy (a_min_max_valid a)
            then if unset (a_min_state a) then min_state d else a_min_state a else 0 in
  let mx := if truthy (a_min_max_valid a)
            then if unset (a_max_state a) then max_state d else a_max_state a else 0 in
  mk_limit (a_zone_id a) (a_trip_id a) (a_target_state_valid a) (a_target_value a)
    mn mx (a_min_max_valid a).

Definition push_limit (a : set_args) (d : cdev X) : list zone_trip_limits_t :=
  let l := zone_trip_limits d ++ [make_limit a d] in
  let l := if truthy (a_target_state_valid a)
           then if min_state d <? max_state d then std_sort sort_clamp_values_asc l
                else std_sort sort_clamp_values_dec l
           else l in
  if truthy (a_min_max_valid a)
  then if min_state d >? max_state d then std_sort sort_min_max_values_dec l
       else std_sort sort_min_max_values_asc l
  else l.

(** What the request phase hands to the control phase; [None] is a
    [return THD_SUCCESS]. *)
Record plan := mk_plan {
  p_target_state_valid : Z; p_target_value : Z; p_min_state : Z; p_max_state : Z
}.

Definition plan_of (l : zone_trip_limits_t) : plan :=
  mk_plan (target_state_valid l) (target_value l) (_min_state l) (_max_state l).

Definition last_limit (d : cdev X) : zone_trip_limits_t := List.last (zone_trip_limits d) no_limit.

Definition debounced (a : set_args) (d : cdev X) (tm : Z) : bool :=
  negb (a_force a) && (last_state d =? a_state a) && truthy (a_state a)
  && (tm - last_action_time d <=? debounce_interval d).

(** A call with [state] set: register the trip, take the limit that applies. *)
Definition activate_request (a : set_args) (tm : Z) : CD X W (option plan) :=
  d <- getd ;;
  let first_entry := match zone_trip_limits d with [] => true | _ => false end in
  let found := existsb (is_entry (a_zone_id a) (a_trip_id a)) (zone_trip_limits d) in
  (if found then ret tt else modd (fun d => d <| zone_trip_limits := push_limit a d |>)) ;;
  d <- getd ;;
  let limit := last_limit d in
  satisfied <-
    (if negb first_entry && truthy (target_state_valid limit) then
       c <- cmp_current_state (m_map_target_state d (target_state_valid limit) (target_value limit)) ;;
       ret (c <=? 0)
     else ret false) ;;
  d <- getd ;;
  if satisfied : bool then ret None
  else if debounced a d tm then ret None
  else ret (Some (plan_of limit)).

(** A call with [state] clear: drop the trip if its limit is the one that
    applies, fall back to the next. *)
Definition deactivate_request (a : set_args) : CD X W (option plan) :=
  d <- getd ;;
  match zone_trip_limits d with
  | [] =>
      ret (Some (if a_force a
                 then mk_plan 1 (get_min_state d) (a_min_state a) (a_max_state a)
                 else mk_plan 0 (a_target_value a) (a_min_state a) (a_max_state a)))
  | _ =>
      let limit := last_limit d in
      let erased := is_entry (a_zone_id a) (a_trip_id a) limit in
      (if erased then
         modd (fun d => d <| zone_trip_limits := removelast (zone_trip_limits d) |>)
       else ret tt) ;;
      d <- getd ;;
      match zone_trip_limits d with
      | [] =>
          ret (Some
            (if erased && truthy (target_state_valid limit)
             then mk_plan (a_target_state_valid a) (get_min_state d) (a_min_state a) (a_max_state a)
             else if a_force a
             then mk_plan 1 (get_min_state d) (a_min_state a) (a_max_state a)
             else mk_plan (a_target_state_valid a) (a_target_value a) (a_min_state a) (a_max_state a)))
      | _ => ret (if erased then Some (plan_of (last_limit d)) else None)
      end
  end.

(** ** Control *)

(** A PID output, offset by [min_state] and kept in the device's range. *)
Definition clamp_pid (r : Z) : CD X W Z :=
  d <- getd ;;
  let mn := get_min_state d in
  mx <- m_get_max_state ;;
  if mn <? mx then
    mx <- m_get_max_state ;;
    r <- (if r >? mx then m_get_max_state else ret r) ;;
    ret (if r <? mn then mn else r)
  else
    mx <- m_get_max_state ;;
    r <- (if r <? mx then m_get_max_state else ret r) ;;
    ret (if r >? mn then mn else r).

Definition set_and_log (v state : Z) : CD X W unit :=
  m_set_curr_state_raw v state ;; m_get_curr_state ;; ret tt.

Definition pid_use (f : cthd_pid double -> cthd_pid double) (temperature initial : Z)
    (pid : cthd_pid double) : CD X W (Z * cthd_pid double) :=
  now <- time_now ;; ret (pid_output now temperature initial (f pid)).

(** Lines 454-536: from the accepted request to the device. *)
Definition control (a : set_args) (tm : Z) (p : plan) (pid : cthd_pid double)
    : CD X W (Z * cthd_pid double) :=
  let state := a_state a in
  modd (fun d => d <| last_action_time := tm |> <| last_state := state |>) ;;
  c <- m_get_curr_state ;;
  modd (fun d => d <| curr_state := c |>) ;;
  d <- getd ;;
  (if curr_state d =? get_min_state d then
     modd (fun d => (control_begin d) <| curr_pow := 0 |> <| trend_increase := false |>)
   else ret tt) ;;
  d <- getd ;;
  r <-
    (if truthy (p_target_state_valid p) then
       m_set_curr_state_raw (p_target_value p) state ;;
       modd (fun d => d <| curr_state := p_target_value p |>) ;;
       m_get_curr_state ;;
       ret (THD_SUCCESS, pid)
     else if truthy (a_hard_target a) then
       m <- m_get_max_state ;;
       set_and_log m state ;;
       ret (THD_SUCCESS, pid)
     else if match a_pid_param a with Some pp => truthy (pid_valid pp) | None => false end then
       c <- m_get_curr_state_again ;;
       d <- getd ;;
       let* (out, pid') := pid_use (set_target_temp (a_target_temp a)) (a_temperature a)
                             (i32 (c - get_min_state d)) pid in
       d <- getd ;;
       v <- clamp_pid (i32 (out + get_min_state d)) ;;
       set_and_log v state ;;
       ret (THD_SUCCESS, if state =? 0 then pid_reset pid' else pid')
     else if pid_enable d then
       let* (out, pc) := pid_use (set_target_temp (a_target_temp a)) (a_temperature a) 0 (pid_ctrl d) in
       modd (fun d => d <| pid_ctrl := pc |>) ;;
       d <- getd ;;
       v <- clamp_pid (i32 (out + get_min_state d)) ;;
       set_and_log v state ;;
       ret (THD_SUCCESS, pid)
     else
       r <- (if truthy state
             then thd_cdev_exponential_controller state (p_min_state p) (p_max_state p)
             else thd_cdev_exponential_controller state 0 0) ;;
       ret (r, pid)) ;;
  m_get_max_state ;;           (* control_end() does nothing *)
  ret r.

Definition thd_cdev_set_state (a : set_args) (pid : cthd_pid double)
    : CD X W (Z * cthd_pid double) :=
  idle <- (if truthy (a_state a) then ret false
           else
             m <- in_min_state ;;
             d <- getd ;;
             ret (m && match zone_trip_limits d with [] => true | _ => false end)) ;;
  if idle : bool then ret (THD_SUCCESS, pid) else
  tm <- time_now ;;
  req <- (if truthy (a_state a) then activate_request a tm else deactivate_request a) ;;
  match req with
  | None => ret (THD_SUCCESS, pid)
  | Some p => control a tm p pid
  end.

Definition thd_cdev_set_min_state (zone_id trip_id : Z) : CD X W Z :=
  modd (fun d => d <| trend_increase := false |>) ;;
  d <- getd ;;
  thd_cdev_set_state
    (mk_args 0 0 0 0 0 zone_id trip_id 1 (min_state d) None true 0 0 0) new_pid ;;
  ret THD_SUCCESS.
End base.

(** * What a subclass promises *)

(** The members the controllers own: no virtual method assigns them. *)
Definition ctl {X} (d : cdev X) :=
  (index d, min_state d, (curr_pow d, base_pow_state d, trend_increase d),
   (inc_dec_val d, inc_val d, dec_val d, auto_down_adjust d),
   (debounce_interval d, last_action_time d, last_state d),
   (pid_enable d, pid_ctrl d), zone_trip_limits d).

(** [m] leaves the value of [f] at the device unchanged. *)
Definition keeps {X W A B} (f : cdev X -> B) (m : CD X W A) : Prop :=
  forall s, f (fst (snd (m s))) = f (fst s).

Class CdevLaws (X W : Type) `{CdevMethods X W} := {
  law_set v a : keeps ctl (m_set_curr_state v a);
  law_set_raw v a : keeps ctl (m_set_curr_state_raw v a);
  law_get : keeps ctl m_get_curr_state;
  law_get_again : keeps ctl m_get_curr_state_again;
  law_get_max : keeps ctl m_get_max_state;
}.

(** A device whose [curr_state] is the last state it was set to, with no
    read-back from the hardware. *)
Class CdevTracks (X W : Type) `{CdevMethods X W} := {
  track_set v a d w : exists d' w',
    m_set_curr_state v a (d, w) = (tt, (d', w')) /\
    ctl d' = ctl d /\ curr_state d' = v /\ max_state d' = max_state d;
  track_set_raw v a d w : exists d' w',
    m_set_curr_state_raw v a (d, w) = (tt, (d', w')) /\
    ctl d' = ctl d /\ curr_state d' = v /\ max_state d' = max_state d;
  track_get s : m_get_curr_state s = (curr_state (fst s), s);
  track_get_again s : m_get_curr_state_again s = (curr_state (fst s), s);
  track_get_max s : m_get_max_state s = (max_state (fst s), s);
  track_map d v t : m_map_target_state d v t = t;
}.

Section keeps_lemmas.
Context {X W B : Type} `{Kernel W} (f : cdev X -> B).

Lemma keeps_ret {A} (a : A) : keeps (W := W) f (ret a).
Proof. intros s. reflexivity. Qed.

Lemma keeps_bind {A C} (m : CD X W A) (k : A -> CD X W C) :
  keeps f m -> (forall a, keeps f (k a)) -> keeps f (bind m k).
Proof.
  intros Hm Hk s. unfold bind. specialize (Hm s). destruct (m s) as [a s1]. cbn in Hm.
  rewrite Hk. exact Hm.
Qed.

Lemma keeps_after {A C} (m : CD X W A) (k : A -> CD X W C) s :
  (forall a, keeps f (k a)) -> f (fst (snd (bind m k s))) = f (fst (snd (m s))).
Proof. intros Hk. unfold bind. destruct (m s) as [a s1]. apply Hk. Qed.

Lemma keeps_getd : keeps (W := W) f getd.
Proof. intros s. reflexivity. Qed.

Lemma keeps_gets {A} (g : cdev X * W -> A) : keeps f (gets g).
Proof. intros s. reflexivity. Qed.

Lemma keeps_time_now : keeps (W := W) f time_now.
Proof. intros [d w]. unfold time_now. cbn. by destruct (k_time w). Qed.

Lemma keeps_modd g : (forall d, f (g d) = f d) -> keeps (W := W) f (modd g).
Proof. intros Hg [d w]. apply Hg. Qed.

Lemma keeps_if {A} (b : bool) (m1 m2 : CD X W A) :
  keeps f m1 -> keeps f m2 -> keeps f (if b then m1 else m2).
Proof. by destruct b. Qed.
End keeps_lemmas.

Lemma keeps_fs_op {X W A} (m : State (csys_fs * W) A) : keeps (X := X) ctl (fs_op m).
Proof.
  intros [d w]. unfold fs_op. cbn. destruct (m (cdev_sysfs d, w)) as [a [fs w']]. reflexivity.
Qed.

#[export] Hint Resolve keeps_ret keeps_getd keeps_gets keeps_time_now keeps_fs_op : thd.

(** Discharges a [keeps] goal along the structure of the code. *)
Ltac keeps_tac :=
  repeat first
    [ progress intros
    | solve [auto with thd]
    | apply keeps_modd; intros; reflexivity
    | apply keeps_bind
    | apply keeps_if
    | match goal with |- keeps _ (match ?x with _ => _ end) => destruct x end ].
