(* ===== verification/CdevLimits.v ===== *)
(** The trips that hold a cooling device: what [thd_cdev_set_state]
    (src/thd_cdev.cpp) does to [zone_trip_limits], for every subclass. *)
From stdpp Require Import base gmap strings list.
From Stdlib Require Import ZArith Lia Sorted.
From S2P Require Import Prelude CString SysFs CFloat Pid Cdev.

Open Scope Z_scope.
Open Scope list_scope.

(** * The registry, abstractly *)

(** The list after a call, as a function of the list before it. *)
Definition limits_after {X} (a : set_args) (d : cdev X) : list zone_trip_limits_t :=
  let l := zone_trip_limits d in
  if truthy (a_state a) then
    if existsb (is_entry (a_zone_id a) (a_trip_id a)) l then l else push_limit a d
  else if is_entry (a_zone_id a) (a_trip_id a) (List.last l no_limit)
          && negb (Nat.eqb (length l) 0)
       then removelast l else l.

Definition keys (l : list zone_trip_limits_t) : list (Z * Z) :=
  map (fun e => (zone e, trip e)) l.

(** No trip of a zone is registered twice. *)
Definition limits_ok {X} (d : cdev X) : Prop := NoDup (keys (zone_trip_limits d)).

(** "No less restrictive": toward [max_state], whichever way that is. *)
Definition more_restrictive {X} (d : cdev X) (v1 v2 : Z) : Prop :=
  if min_state d <? max_state d then v2 <= v1 else v1 <= v2.

(** Every path through [thd_cdev_set_state] reports success. *)
Lemma set_state_success {X W} `{Kernel W} `{!CdevMethods X W} a pid :
  returns (fun r => fst r = THD_SUCCESS) (thd_cdev_set_state (X := X) (W := W) a pid).
Proof.
  assert (Hexp : forall st mn mx, returns (fun r => r = THD_SUCCESS)
    (thd_cdev_exponential_controller (X := X) (W := W) st mn mx)).
  { intros. unfold thd_cdev_exponential_controller.
    repeat (apply returns_bind; intros). by apply returns_ret. }
  assert (Hc : forall tm p, returns (fun r => fst r = THD_SUCCESS)
    (control (X := X) (W := W) a tm p pid)).
  { intros. unfold control. do 6 (apply returns_bind; intros).
    eapply (returns_bind_l (fun r => fst r = THD_SUCCESS)).
    2: { intros r Hr. apply returns_bind. intros. by apply returns_ret. }
    repeat match goal with |- returns _ (if ?b then _ else _) => destruct b end.
    all: try (repeat (apply returns_bind; intros);
              repeat match goal with |- returns _ (let (_, _) := ?x in _) => destruct x end;
              repeat (apply returns_bind; intros); by apply returns_ret).
    all: apply (returns_bind_l (fun r => r = THD_SUCCESS));
      [destruct (truthy (a_state a)); apply Hexp|intros r ->; by apply returns_ret]. }
  unfold thd_cdev_set_state. apply returns_bind. intros idle.
  destruct idle; [by apply returns_ret|]. do 2 (apply returns_bind; intros).
  match goal with |- returns _ (match ?x with _ => _ end) => destruct x end;
    [apply Hc|by apply returns_ret].
Qed.

Section limits.
Context {X W : Type} `{Kernel W} `{CdevLaws X W}.

Lemma keeps_via {A B C} (f : cdev X -> B) (g : B -> C) (m : CD X W A) :
  keeps f m -> keeps (fun d => g (f d)) m.
Proof. intros Hm s. cbn. by rewrite (Hm s). Qed.

Lemma keeps_limits {A} (m : CD X W A) : keeps ctl m -> keeps zone_trip_limits m.
Proof. intros Hm. apply (keeps_via ctl (fun c => snd c) m Hm). Qed.

Lemma keeps_min {A} (m : CD X W A) : keeps ctl m -> keeps min_state m.
Proof. intros Hm. exact (keeps_via ctl (fun c => snd (fst (fst (fst (fst (fst c)))))) m Hm). Qed.

Hint Resolve keeps_limits law_set law_set_raw law_get law_get_again law_get_max : thd.

Lemma in_min_state_keeps : keeps (W := W) (X := X) ctl in_min_state.
Proof. unfold in_min_state. keeps_tac. Qed.

Lemma cmp_current_state_keeps v : keeps (W := W) (X := X) ctl (cmp_current_state v).
Proof. unfold cmp_current_state. keeps_tac. Qed.

Lemma clamp_pid_keeps r : keeps (W := W) (X := X) ctl (clamp_pid r).
Proof. unfold clamp_pid. keeps_tac. Qed.

Lemma exponential_keeps st mn mx :
  keeps (W := W) (X := X) zone_trip_limits (thd_cdev_exponential_controller st mn mx).
Proof.
  unfold thd_cdev_exponential_controller, exponential_up, exponential_down. keeps_tac.
Qed.

Hint Resolve clamp_pid_keeps exponential_keeps : thd.

Lemma control_keeps a tm p pid :
  keeps (W := W) (X := X) zone_trip_limits (control a tm p pid).
Proof.
  unfold control, set_and_log, pid_use. keeps_tac.
  apply keeps_modd. intros d. unfold control_begin. by destruct (pid_enable d).
Qed.

Lemma last_match_nonempty (l : list zone_trip_limits_t) :
  match l with [] => false | _ => true end = negb (Nat.eqb (length l) 0).
Proof. by destruct l. Qed.

Lemma activate_request_limits a tm d w :
  truthy (a_state a) = true ->
  zone_trip_limits (fst (snd (activate_request a tm (d, w)))) = limits_after a d.
Proof.
  intros Hs. unfold limits_after. rewrite Hs. unfold activate_request.
  set (found := existsb _ _).
  unfold bind at 1, getd at 1, gets at 1. cbn [fst snd]. fold found.
  set (reg := if found then _ else _).
  assert (Hreg : reg (d, w) =
    (tt, (if found then d else d <| zone_trip_limits := push_limit a d |>, w))).
  { unfold reg. by destruct found. }
  rewrite (bind_eq _ _ _ _ _ Hreg).
  set (d1 := if found then d else _).
  transitivity (zone_trip_limits d1); [|unfold d1; by destruct found].
  match goal with |- zone_trip_limits (fst (snd (?m (d1, w)))) = _ =>
    assert (Hk : keeps zone_trip_limits m) end.
  { keeps_tac. }
  apply (Hk (d1, w)).
Qed.

Lemma deactivate_request_limits a (d : cdev X) (w : W) :
  truthy (a_state a) = false ->
  zone_trip_limits (fst (snd (deactivate_request a (d, w)))) = limits_after a d.
Proof.
  intros Hs. unfold limits_after. rewrite Hs, <- last_match_nonempty.
  unfold deactivate_request, last_limit. msimpl.
  destruct (zone_trip_limits d) as [|l0 l] eqn:El; cbn -[List.last removelast].
  - by rewrite andb_false_r, El.
  - rewrite andb_true_r. destruct (is_entry _ _ _); cbn -[List.last removelast].
    + rewrite El. by destruct (removelast (l0 :: l)).
    + by rewrite El.
Qed.

(** [limits_after] depends on the device only through the list and, for an
    activation, its range. *)
Lemma limits_after_down a (d d' : cdev X) :
  truthy (a_state a) = false -> zone_trip_limits d' = zone_trip_limits d ->
  limits_after a d' = limits_after a d.
Proof. intros Hs E. unfold limits_after. by rewrite Hs, E. Qed.

Lemma limits_after_nil a (d : cdev X) :
  truthy (a_state a) = false -> zone_trip_limits d = [] -> limits_after a d = [].
Proof. intros Hs E. unfold limits_after. by rewrite Hs, E, andb_false_r. Qed.

Lemma request_limits a tm (d : cdev X) (w : W) :
  zone_trip_limits
    (fst (snd ((if truthy (a_state a) then activate_request a tm
                else deactivate_request a) (d, w)))) = limits_after a d.
Proof.
  destruct (truthy (a_state a)) eqn:Hs;
    [by apply activate_request_limits|by apply deactivate_request_limits].
Qed.

Lemma run_request_limits a tm pid (d : cdev X) (w : W) :
  zone_trip_limits (fst (snd (bind
    (if truthy (a_state a) then activate_request a tm else deactivate_request a)
    (fun req => match req with
                | None => ret (THD_SUCCESS, pid)
                | Some p => control a tm p pid end) (d, w)))) = limits_after a d.
Proof.
  rewrite <- (request_limits a tm d w). apply keeps_after.
  intros [p|]; [apply control_keeps|apply keeps_ret].
Qed.

Lemma set_state_limits a pid (d : cdev X) (w : W) :
  zone_trip_limits (fst (snd (thd_cdev_set_state a pid (d, w)))) = limits_after a d.
Proof.
  unfold thd_cdev_set_state.
  destruct (truthy (a_state a)) eqn:Hs.
  - rewrite bind_ret. unfold bind at 1, time_now. destruct (k_time w) as [tm w1].
    pose proof (run_request_limits a tm pid d w1) as R. rewrite Hs in R. exact R.
  - unfold bind at 1 2. pose proof (keeps_limits _ in_min_state_keeps (d, w)) as Hk.
    destruct (in_min_state (d, w)) as [m [d1 w1]]. cbn [fst snd] in Hk.
    unfold bind at 1, getd, gets, ret at 1. cbn [fst snd].
    rewrite <- (limits_after_down a d d1 Hs Hk).
    destruct (m && _) eqn:Ei.
    + cbn. destruct (zone_trip_limits d1) eqn:E1; [|by rewrite andb_false_r in Ei].
      symmetry. by apply limits_after_nil.
    + unfold bind at 1, time_now. destruct (k_time w1) as [tm w2].
      pose proof (run_request_limits a tm pid d1 w2) as R. rewrite Hs in R. exact R.
Qed.

Lemma push_limit_perm a (d : cdev X) :
  Permutation (make_limit a d :: zone_trip_limits d) (push_limit a d).
Proof.
  unfold push_limit. rewrite Permutation_cons_append.
  destruct (truthy (a_target_state_valid a)), (truthy (a_min_max_valid a)),
    (min_state d <? max_state d), (min_state d >? max_state d);
    rewrite <- ?std_sort_perm; reflexivity.
Qed.

Lemma not_registered a l :
  existsb (is_entry (a_zone_id a) (a_trip_id a)) l = false ->
  (a_zone_id a, a_trip_id a) ∉ keys l.
Proof.
  intros Hex. unfold keys. rewrite list_elem_of_fmap. intros (e & He & Hin).
  apply not_true_iff_false in Hex. apply Hex, existsb_exists. exists e.
  split; [by apply list_elem_of_In|]. unfold is_entry.
  injection He as -> ->. by rewrite !Z.eqb_refl.
Qed.

Lemma keys_removelast_nodup l : NoDup (keys l) -> NoDup (keys (removelast l)).
Proof.
  destruct l as [|e l] using rev_ind; [done|]. rewrite removelast_last.
  unfold keys. rewrite map_app. intros Hn. by apply NoDup_app in Hn as [? _].
Qed.

Lemma limits_after_nodup a (d : cdev X) :
  limits_ok d -> NoDup (keys (limits_after a d)).
Proof.
  unfold limits_ok, limits_after. intros Hn.
  destruct (truthy (a_state a)).
  - destruct (existsb _ _) eqn:Hex; [exact Hn|].
    unfold keys. rewrite <- push_limit_perm. cbn. constructor; [|exact Hn].
    apply not_registered, Hex.
  - destruct (_ && _); [by apply keys_removelast_nodup|exact Hn].
Qed.

Lemma limits_after_registers a (d : cdev X) :
  truthy (a_state a) = true -> (a_zone_id a, a_trip_id a) ∈ keys (limits_after a d).
Proof.
  intros Hs. unfold limits_after. rewrite Hs. destruct (existsb _ _) eqn:Hex.
  - apply existsb_exists in Hex as (e & Hin & He). unfold is_entry in He. b2p.
    apply list_elem_of_fmap. exists e. split; [congruence|by apply list_elem_of_In].
  - unfold keys. rewrite <- push_limit_perm. cbn. by left.
Qed.

(** C7: the registry of active trips.  Whatever the subclass, the arguments
    and the outcome of the call, [thd_cdev_set_state] leaves in
    [zone_trip_limits] exactly the abstract update (an activation registers
    its (zone, trip) once and re-sorts; a deactivation removes the entry only
    when it is the one in force, the last); no (zone, trip) is ever registered
    twice, and after an activation the trip is registered. *)
Theorem set_state_registry a pid (d : cdev X) (w : W) :
  limits_ok d ->
  let d' := fst (snd (thd_cdev_set_state a pid (d, w))) in
  zone_trip_limits d' = limits_after a d /\
  limits_ok d' /\
  (truthy (a_state a) = true -> (a_zone_id a, a_trip_id a) ∈ keys (zone_trip_limits d')).
Proof.
  intros Hn d'. unfold limits_ok. subst d'. rewrite set_state_limits.
  split; [done|]. split; [by apply limits_after_nodup|apply limits_after_registers].
Qed.

(** The limit in force is the most restrictive one.  An activation that
    registers a new trip with a target state leaves the list ordered toward
    [max_state], whichever way the device's range runs, so the entry whose
    target [thd_cdev_set_state] uses (the last) is at least as restrictive as
    every other. *)
Theorem activation_last_is_most_restrictive a (d : cdev X) pid (w : W) e :
  truthy (a_state a) = true -> truthy (a_target_state_valid a) = true ->
  truthy (a_min_max_valid a) = false ->
  existsb (is_entry (a_zone_id a) (a_trip_id a)) (zone_trip_limits d) = false ->
  let l := zone_trip_limits (fst (snd (thd_cdev_set_state a pid (d, w)))) in
  In e l -> more_restrictive d (target_value (List.last l no_limit)) (target_value e).
Proof.
  intros Hs Ht Hm Hf. cbn zeta. rewrite set_state_limits. unfold limits_after.
  rewrite Hs, Hf. unfold push_limit. rewrite Ht, Hm. unfold more_restrictive.
  set (l := zone_trip_limits d ++ [make_limit a d]).
  assert (Hgen : forall comp key, (forall x y, comp x y = (key x <? key y)) ->
    In e (std_sort comp l) -> key e <= key (List.last (std_sort comp l) no_limit)).
  { intros comp key Hc. pose proof (std_sort_sorted comp key Hc l) as Hsort. revert Hsort.
    destruct (std_sort comp l) as [|x t _] using rev_ind; [done|]. rewrite List.last_last.
    intros Hsort Hin. apply in_app_or in Hin as [Hin|[->|[]]]; [|lia].
    apply sorted_by_last in Hsort. rewrite List.Forall_forall in Hsort. by apply Hsort. }
  destruct (min_state d <? max_state d).
  - apply (Hgen _ target_value). done.
  - intros Hin. apply (Hgen _ (fun x => - target_value x)) in Hin; [lia|].
    intros x y. unfold sort_clamp_values_dec.
    destruct (Z.gtb_spec (target_value x) (target_value y)),
      (Z.ltb_spec (- target_value x) (- target_value y)); lia.
Qed.
End limits.
