(* ===== verification/CdevControl.v ===== *)
(** What [thd_cdev_set_state] (src/thd_cdev.cpp) does to the device: the
    ranges its controllers respect, the exponential escalation, the debounce,
    and the arbitration between trips that ask for target states. *)
From stdpp Require Import base gmap strings list.
From Stdlib Require Import ZArith Lia Sorted.
From S2P Require Import Prelude CString SysFs CFloat Pid Cdev CdevLimits.

Open Scope Z_scope.
Open Scope list_scope.

(** * Ranges *)

(** [v] lies between the device's [min_state] and [max_state]. *)
Definition in_range {X} (d : cdev X) (v : Z) : Prop :=
  if min_state d <=? max_state d then min_state d <= v <= max_state d
  else max_state d <= v <= min_state d.

(** [v] does not go past [max_state]. *)
Definition within_max {X} (d : cdev X) (v : Z) : Prop :=
  if min_state d <=? max_state d then v <= max_state d else max_state d <= v.

Lemma clamp_max_within {X} (d : cdev X) v t : within_max d (thd_clamp_state_max d v t).
Proof. unfold within_max, thd_clamp_state_max. split_if; lia. Qed.

Lemma clamp_in_range {X} (d : cdev X) v :
  in_range d (thd_clamp_state_max d (thd_clamp_state_min d v 0) 0).
Proof. unfold in_range, thd_clamp_state_max, thd_clamp_state_min. split_if; lia. Qed.

Lemma within_max_same {X} (d d' : cdev X) v :
  min_state d' = min_state d -> max_state d' = max_state d ->
  within_max d v -> within_max d' v.
Proof. unfold within_max. by intros -> ->. Qed.

Section ranges.
Context {X W : Type} `{Kernel W} `{CdevLaws X W}.

(** The exponential controller never commands a state outside the
    device's range.  For every subclass and every reading of the hardware, the
    controller issues exactly one command [v] to [set_curr_state]; [v] never
    goes past [max_state], and when it releases cooling (with the bounds
    [thd_cdev_set_state] passes) it stays inside the whole range. *)
Theorem exponential_command_in_range state tmin tmax (s : cdev X * W) :
  (truthy state = false -> tmin = 0 /\ tmax = 0) ->
  exists v s1,
    thd_cdev_exponential_controller state tmin tmax s =
      (m_set_curr_state v state ;; m_get_curr_state ;; ret THD_SUCCESS) s1 /\
    within_max (fst s1) v /\ (truthy state = false -> in_range (fst s1) v).
Proof.
  intros Hz. unfold thd_cdev_exponential_controller, bind at 1.
  destruct (m_get_max_state s) as [mx s0]. unfold bind at 1.
  destruct (truthy state) eqn:Hs.
  - unfold exponential_up, bind at 1. destruct (m_get_curr_state_again s0) as [c [d w]].
    msimpl. destruct (trend_increase d); cbn.
    + destruct (curr_pow d =? 0), (curr_pow d <? default_max_exponent); cbn;
        do 2 eexists; (split; [reflexivity|]); (split; [|done]);
        eapply within_max_same; try apply clamp_max_within; reflexivity.
    + do 2 eexists. split; [reflexivity|]. split; [|done].
      eapply within_max_same; try apply clamp_max_within; reflexivity.
  - destruct (Hz eq_refl) as [-> ->].
    unfold exponential_down, bind at 1. destruct (m_get_curr_state s0) as [c [d w]].
    msimpl. do 2 eexists. split; [reflexivity|].
    split; [apply clamp_max_within|]. intros _. apply clamp_in_range.
Qed.

(** The PID controllers stay in the range as well, whatever the gains. *)
Lemma clamp_pid_in_range r mx (d : cdev X) (w : W) :
  (forall s, m_get_max_state s = (mx, s)) ->
  exists v, clamp_pid r (d, w) = (v, (d, w)) /\
    (if min_state d <? mx then min_state d <= v <= mx else mx <= v <= min_state d).
Proof.
  intros Hmx. unfold clamp_pid, bind, getd, gets, get_min_state. rewrite !Hmx. cbn.
  destruct (min_state d <? mx) eqn:E; rewrite !Hmx.
  - destruct (r >? mx) eqn:Er; rewrite ?Hmx; eexists; (split; [reflexivity|]); split_if; lia.
  - destruct (r <? mx) eqn:Er; rewrite ?Hmx; eexists; (split; [reflexivity|]); split_if; lia.
Qed.
End ranges.

(** * Devices that track their state *)

(** The members [ctl] lists agree. *)
Lemma ctl_fields {X} (d d' : cdev X) :
  ctl d' = ctl d ->
  min_state d' = min_state d /\ curr_pow d' = curr_pow d /\
  base_pow_state d' = base_pow_state d /\ trend_increase d' = trend_increase d /\
  inc_dec_val d' = inc_dec_val d /\ inc_val d' = inc_val d /\
  debounce_interval d' = debounce_interval d /\ last_action_time d' = last_action_time d /\
  last_state d' = last_state d /\ zone_trip_limits d' = zone_trip_limits d.
Proof. unfold ctl. intros E. simplify_eq. repeat split; assumption. Qed.

Lemma int_2_pow_spec k : (k <= 20)%nat -> int_2_pow (Z.of_nat k) = 2 ^ Z.of_nat k.
Proof.
  intros Hk. unfold int_2_pow. rewrite Nat2Z.id.
  do 21 (destruct k as [|k]; [reflexivity|]). lia.
Qed.

Section tracks.
Context {X W : Type} `{Kernel W} `{CdevTracks X W}.

(** ** Escalation *)

(** The state after [n] consecutive activations of the controller. *)
Fixpoint activations (n : nat) (s : cdev X * W) : cdev X * W :=
  match n with
  | O => s
  | S n' => activations n' (snd (thd_cdev_exponential_controller 1 0 0 s))
  end.

Lemma activations_S n s :
  activations (S n) s = snd (thd_cdev_exponential_controller 1 0 0 (activations n s)).
Proof. revert s. induction n as [|n IH]; intros s; [done|]. apply IH. Qed.

(** The device before the command of an activation: the members the
    controller assigns. *)
Definition up_ctl (d : cdev X) : cdev X :=
  let c := thd_clamp_state_min d (curr_state d) 0 in
  (if trend_increase d then
     let d1 := if curr_pow d =? 0 then d <| base_pow_state := c |> else d in
     if curr_pow d <? default_max_exponent then d1 <| curr_pow := curr_pow d1 + 1 |> else d1
   else d <| curr_pow := 0 |>) <| trend_increase := true |>.

Definition up_value (d : cdev X) : Z :=
  thd_clamp_state_max d
    (if trend_increase d then exponential_state (up_ctl d)
     else i32 (thd_clamp_state_min d (curr_state d) 0 + up_step d)) 0.

Lemma exponential_up_pure (d : cdev X) (w : W) :
  exponential_up 0 0 (d, w) = (up_value d, (up_ctl d, w)).
Proof.
  unfold exponential_up, bind at 1. rewrite track_get_again. cbn [fst].
  unfold up_value, up_ctl. msimpl.
  destruct (trend_increase d); cbn;
    [destruct (curr_pow d =? 0), (curr_pow d <? default_max_exponent); cbn|]; reflexivity.
Qed.

Lemma exponential_up_tracks (d : cdev X) (w : W) :
  exists d' w',
    thd_cdev_exponential_controller 1 0 0 (d, w) = (THD_SUCCESS, (d', w')) /\
    ctl d' = ctl (up_ctl d) /\ max_state d' = max_state d /\ curr_state d' = up_value d.
Proof.
  unfold thd_cdev_exponential_controller, bind at 1. rewrite track_get_max. cbn [fst].
  change (truthy 1) with true. cbv iota.
  rewrite (bind_eq _ _ _ _ _ (exponential_up_pure d w)).
  destruct (track_set (up_value d) 1 (up_ctl d) w) as (d' & w' & Es & Hc & Hv & Hm).
  rewrite (bind_eq _ _ _ _ _ Es). unfold bind. rewrite track_get. exists d', w'.
  split; [reflexivity|]. split; [exact Hc|]. split; [|exact Hv].
  rewrite Hm. unfold up_ctl. by split_if.
Qed.

(** After one activation and [k] repeats from state [c0]. *)
Definition escalated (d0 d : cdev X) (c1 : Z) (k : nat) : Prop :=
  min_state d = min_state d0 /\ max_state d = max_state d0 /\
  inc_val d = inc_val d0 /\ inc_dec_val d = inc_dec_val d0 /\
  trend_increase d = true /\ curr_pow d = Z.of_nat k /\
  (k <> O -> base_pow_state d = c1) /\
  curr_state d = match k with
                 | O => c1
                 | _ => Z.min (max_state d0) (c1 + 2 ^ Z.of_nat k * up_step d0)
                 end.

Lemma escalated_first (d : cdev X) (w : W) :
  0 <= min_state d < max_state d -> min_state d <= curr_state d <= max_state d ->
  trend_increase d = false -> 0 < up_step d -> max_state d + up_step d <= INT_MAX ->
  escalated d (fst (activations 1 (d, w)))
    (Z.min (max_state d) (curr_state d + up_step d)) 0.
Proof.
  intros Hr Hc Ht Hs Hm. rewrite activations_S. cbn [activations].
  destruct (exponential_up_tracks d w) as (d' & w' & -> & Hctl & Hmax & Hcur). cbn [fst snd].
  apply ctl_fields in Hctl as (E1 & E2 & E3 & E4 & E5 & E6 & _).
  unfold up_ctl in *. rewrite Ht in *. cbn in *.
  unfold escalated. repeat split; try done. rewrite Hcur.
  unfold up_value, thd_clamp_state_max, thd_clamp_state_min. rewrite Ht.
  rewrite i32_id by (unfold is_i32, INT_MIN, INT_MAX in *; split_if; lia).
  split_if; cbn in *; lia.
Qed.

Lemma escalated_next (d0 d : cdev X) (w : W) c1 k :
  0 <= min_state d0 < max_state d0 -> min_state d0 <= c1 <= max_state d0 ->
  0 < up_step d0 -> (k < 20)%nat ->
  max_state d0 + 2 ^ Z.of_nat (S k) * up_step d0 <= INT_MAX ->
  escalated d0 d c1 k ->
  escalated d0 (fst (snd (thd_cdev_exponential_controller 1 0 0 (d, w)))) c1 (S k).
Proof.
  intros Hr Hc Hs Hk Hm (E1 & E2 & E3 & E4 & E5 & E6 & E7 & E8).
  destruct (exponential_up_tracks d w) as (d' & w' & -> & Hctl & Hmax & Hcur). cbn [fst snd].
  apply ctl_fields in Hctl as (F1 & F2 & F3 & F4 & F5 & F6 & _).
  unfold up_value in Hcur. rewrite E5 in Hcur.
  assert (Hst : up_step d = up_step d0) by (unfold up_step; by rewrite E3, E4).
  assert (Hbase : base_pow_state (up_ctl d) = c1 /\ curr_pow (up_ctl d) = Z.of_nat (S k) /\
    up_step (up_ctl d) = up_step d0 /\ max_state (up_ctl d) = max_state d0 /\
    inc_val (up_ctl d) = inc_val d0 /\ inc_dec_val (up_ctl d) = inc_dec_val d0 /\
    min_state (up_ctl d) = min_state d0 /\ trend_increase (up_ctl d) = true).
  { unfold up_ctl. rewrite E5, E6. unfold default_max_exponent.
    destruct (Z.ltb_spec (Z.of_nat k) 20); [|lia].
    destruct (Z.eqb_spec (Z.of_nat k) 0) as [Hk0|Hk0]; cbn.
    - assert (k = O) as -> by lia. repeat split; try done; try lia.
      unfold thd_clamp_state_min. rewrite E8. cbn. split_if; lia.
    - repeat split; try done; try lia. }
  destruct Hbase as (B1 & B2 & B3 & B4 & B5 & B6 & B7 & B8).
  unfold escalated. rewrite F1, F2, F3, F4, F5, F6, Hmax, B1, B2, B5, B6, B7, B8, E2.
  repeat split; [done..|]. rewrite Hcur. unfold exponential_state.
  rewrite B1, B2, B3, B4, B5, int_2_pow_spec by lia.
  rewrite i32_id by (unfold is_i32, INT_MIN, INT_MAX in *; nia).
  assert (Hover : (inc_val d0 <? 0) && (c1 <? c1 + 2 ^ Z.of_nat (S k) * up_step d0)
    || (inc_val d0 >? 0) && (c1 >? c1 + 2 ^ Z.of_nat (S k) * up_step d0) = false).
  { unfold up_step in *. destruct (truthy (inc_val d0)) eqn:Et.
    - destruct (Z.ltb_spec (inc_val d0) 0); [lia|]. cbn.
      destruct (Z.gtb_spec c1 (c1 + 2 ^ Z.of_nat (S k) * inc_val d0)); [nia|].
      apply andb_false_r.
    - apply truthy_false in Et. by rewrite Et. }
  rewrite Hover. unfold thd_clamp_state_max. rewrite E1, E2. cbn [truthy negb Z.eqb].
  change (truthy 0) with false. cbn [andb]. split_if; lia.
Qed.


(** ** Requests on a tracking device *)

Definition in_min_state_pure (d : cdev X) : bool :=
  if min_state d <? max_state d then curr_state d <=? min_state d
  else if min_state d >? max_state d then curr_state d >=? min_state d else false.

Definition cmp_pure (d : cdev X) (v : Z) : Z :=
  if curr_state d =? v then 0
  else if min_state d <? max_state d then if v >? curr_state d then 1 else -1
  else if min_state d >? max_state d then if v >? curr_state d then -1 else 1 else 0.

Lemma in_min_state_tracks s : in_min_state s = (in_min_state_pure (fst s), s).
Proof.
  destruct s as [d w]. unfold in_min_state, in_min_state_pure, bind, getd, gets. cbn.
  destruct (min_state d <? max_state d); [by rewrite track_get|].
  destruct (min_state d >? max_state d); [by rewrite ?track_get|done].
Qed.

Lemma cmp_tracks v s : cmp_current_state v s = (cmp_pure (fst s) v, s).
Proof.
  destruct s as [d w]. unfold cmp_current_state, cmp_pure, bind, getd, gets.
  rewrite track_get. cbn [fst snd]. destruct (curr_state d =? v); [done|]. cbn [fst snd].
  destruct (min_state d <? max_state d); [by rewrite ?track_get|].
  destruct (min_state d >? max_state d); [by rewrite ?track_get|done].
Qed.

(** The limit an activation looks at, and whether the device already meets it. *)
Definition registered (a : set_args) (d : cdev X) : cdev X :=
  if existsb (is_entry (a_zone_id a) (a_trip_id a)) (zone_trip_limits d) then d
  else d <| zone_trip_limits := push_limit a d |>.

Definition satisfied (a : set_args) (d : cdev X) : bool :=
  let limit := last_limit (registered a d) in
  negb (match zone_trip_limits d with [] => true | _ => false end)
  && truthy (target_state_valid limit) && (cmp_pure d (target_value limit) <=? 0).

Lemma activate_tracks a tm (d : cdev X) (w : W) :
  activate_request a tm (d, w) =
  (if satisfied a d || debounced a d tm then None
   else Some (plan_of (last_limit (registered a d))),
   (registered a d, w)).
Proof.
  unfold activate_request, satisfied. unfold bind at 1, getd at 1, gets at 1. cbn [fst].
  set (found := existsb _ _).
  set (reg := if found then ret tt else _).
  assert (Hreg : reg (d, w) = (tt, (registered a d, w))).
  { unfold reg, registered. fold found. by destruct found. }
  rewrite (bind_eq _ _ _ _ _ Hreg). clear reg Hreg.
  assert (Hcmp : forall v, cmp_pure (registered a d) v = cmp_pure d v)
    by (intros v; unfold registered; fold found; by destruct found).
  assert (Hdeb : debounced a (registered a d) tm = debounced a d tm)
    by (unfold registered; fold found; by destruct found).
  unfold bind at 1, getd at 1, gets at 1. cbn [fst].
  destruct (negb _ && truthy (target_state_valid (last_limit (registered a d)))) eqn:Eg.
  - rewrite track_map. unfold bind. rewrite cmp_tracks. cbn. rewrite Hcmp, Hdeb.
    destruct (cmp_pure d _ <=? 0); [done|]. by destruct (debounced a d tm).
  - cbn. rewrite Hdeb. by destruct (debounced a d tm).
Qed.

(** Debounce.  On a tracking device, repeating the activation of a
    registered trip within [debounce_interval] seconds of the last action,
    without [force], returns success and leaves the device exactly as it was:
    no state is written and no controller advances. *)
Theorem debounce_ignores_repeat a pid (d : cdev X) (w w1 : W) tm :
  truthy (a_state a) = true -> a_force a = false -> last_state d = a_state a ->
  existsb (is_entry (a_zone_id a) (a_trip_id a)) (zone_trip_limits d) = true ->
  k_time w = (tm, w1) -> tm - last_action_time d <= debounce_interval d ->
  thd_cdev_set_state a pid (d, w) = ((THD_SUCCESS, pid), (d, w1)).
Proof.
  intros Hs Hf Hl Hreg Ht Hd. unfold thd_cdev_set_state. rewrite Hs, bind_ret.
  unfold bind at 1, time_now. rewrite Ht.
  rewrite (bind_eq _ _ _ _ _ (activate_tracks a tm d w1)).
  replace (debounced a d tm) with true; [|symmetry; unfold debounced].
  - rewrite orb_true_r. unfold registered. rewrite Hreg. reflexivity.
  - rewrite Hf, Hl, Z.eqb_refl, Hs. cbn. by apply Z.leb_le.
Qed.

(** A trip cannot switch off a device another trip holds.  On a tracking
    device, the deactivation of a trip whose limit is not the one in force (the
    last of a non-empty list), forced or not, returns success and leaves the
    device exactly as it was. *)
Theorem other_trip_cannot_deactivate a pid (d : cdev X) (w w1 : W) tm :
  truthy (a_state a) = false -> zone_trip_limits d <> [] ->
  is_entry (a_zone_id a) (a_trip_id a) (last_limit d) = false ->
  k_time w = (tm, w1) ->
  thd_cdev_set_state a pid (d, w) = ((THD_SUCCESS, pid), (d, w1)).
Proof.
  intros Hs Hne Hl Ht. unfold thd_cdev_set_state. rewrite Hs.
  unfold bind at 1 2. rewrite in_min_state_tracks. cbn.
  destruct (zone_trip_limits d) as [|e l] eqn:El; [done|]. rewrite andb_false_r.
  unfold bind at 1, time_now. rewrite Ht. unfold deactivate_request, last_limit in *.
  msimpl. rewrite !El in *. rewrite Hl. cbn. by rewrite El.
Qed.

(** ** Arbitration between trips that ask for target states *)

Lemma control_target a tm p pid (d : cdev X) (w : W) :
  truthy (p_target_state_valid p) = true ->
  exists d' w',
    control a tm p pid (d, w) = ((THD_SUCCESS, pid), (d', w')) /\
    zone_trip_limits d' = zone_trip_limits d /\ curr_state d' = p_target_value p /\
    min_state d' = min_state d /\ max_state d' = max_state d.
Proof.
  intros Hp. unfold control.
  unfold bind at 1, modd at 1, modify. cbv beta iota. unfold bind at 1. rewrite track_get.
  unfold bind at 1, modd at 1, modify. unfold bind at 1, getd at 1, gets. cbn [fst snd].
  set (d1 := _ <| curr_state := _ |>).
  set (d2 := if curr_state d1 =? get_min_state d1
             then (control_begin d1) <| curr_pow := 0 |> <| trend_increase := false |> else d1).
  match goal with |- context [bind (if ?b then ?m else ret tt)] =>
    assert (Hb : (if b then m else ret tt) (d1, w) = (tt, (d2, w))) by (unfold d2; by destruct b) end.
  rewrite (bind_eq _ _ _ _ _ Hb). unfold bind at 1, getd at 1, gets. cbn [fst].
  rewrite Hp.
  assert (Hd2 : zone_trip_limits d2 = zone_trip_limits d /\ min_state d2 = min_state d /\
                max_state d2 = max_state d).
  { unfold d2, control_begin. destruct (_ =? _); [|done]. by destruct (pid_enable d1). }
  clearbody d2. destruct Hd2 as (L & M1 & M2).
  destruct (track_set_raw (p_target_value p) (a_state a) d2 w) as (d3 & w3 & Es & Hc & Hv & Hm).
  unfold bind at 1. rewrite (bind_eq _ _ _ _ _ Es).
  unfold bind, modd, modify. rewrite track_get. cbv beta iota. unfold ret.
  rewrite track_get_max. do 2 eexists. split; [reflexivity|].
  apply ctl_fields in Hc as (F1 & _ & _ & _ & _ & _ & _ & _ & _ & F2). cbn.
  repeat split; congruence.
Qed.
End tracks.

(** The arbiter: the requests in force, ((zone, trip), target), least
    restrictive first.  A request enters once; a release takes effect when it
    is the most restrictive one's. *)
Definition arb : Type := list (Z * Z * Z).

Inductive arb_op :=
| Hold (zone_id trip_id target : Z)
| Release (zone_id trip_id : Z).

Definition arb_comp (x y : Z * Z * Z) : bool := snd x <? snd y.
Definition arb_is (zone_id trip_id : Z) (x : Z * Z * Z) : bool :=
  (fst (fst x) =? zone_id) && (snd (fst x) =? trip_id).

Definition arb_step (op : arb_op) (l : arb) : arb :=
  match op with
  | Hold z t v => if existsb (arb_is z t) l then l else std_sort arb_comp (l ++ [(z, t, v)])
  | Release z t =>
      match l with
      | [] => []
      | _ => if arb_is z t (List.last l (0, 0, 0)) then removelast l else l
      end
  end.

(** The state the arbiter grants: the most restrictive target, or the
    device's resting state. *)
Definition arb_output (resting : Z) (l : arb) : Z :=
  match l with [] => resting | _ => snd (List.last l (0, 0, 0)) end.

(** The call of [thd_cdev_set_state] that carries an operation. *)
Definition carries (a : set_args) (op : arb_op) : Prop :=
  truthy (a_target_state_valid a) = true /\ truthy (a_min_max_valid a) = false /\
  match op with
  | Hold z t v => truthy (a_state a) = true /\ a_zone_id a = z /\ a_trip_id a = t /\
                  a_target_value a = v
  | Release z t => truthy (a_state a) = false /\ a_zone_id a = z /\ a_trip_id a = t
  end.

Definition limit_abs (e : zone_trip_limits_t) : Z * Z * Z := ((zone e, trip e), target_value e).

(** The device implements the arbiter. *)
Definition arbitrates {X} (d : cdev X) (l : arb) : Prop :=
  min_state d < max_state d /\
  map limit_abs (zone_trip_limits d) = l /\
  Forall (fun e => truthy (target_state_valid e) = true) (zone_trip_limits d) /\
  sorted_by (fun x => snd x) l /\
  curr_state d = arb_output (min_state d) l.

Lemma map_last {A B} (f : A -> B) l d : List.last (map f l) (f d) = f (List.last l d).
Proof. induction l as [|x l IH]; [done|]. cbn in *. rewrite IH. by destruct l. Qed.

Lemma removelast_map {A B} (f : A -> B) l : removelast (map f l) = map f (removelast l).
Proof. induction l as [|x l IH]; [done|]. cbn in *. rewrite IH. by destruct l. Qed.

Lemma arb_is_abs z t l : existsb (arb_is z t) (map limit_abs l) = existsb (is_entry z t) l.
Proof. induction l as [|e l IH]; [done|]. cbn. by rewrite IH. Qed.

Lemma arb_output_abs {X} (d : cdev X) m :
  zone_trip_limits d <> [] ->
  arb_output m (map limit_abs (zone_trip_limits d)) = target_value (last_limit d).
Proof.
  unfold arb_output, last_limit. intros Hn.
  change (0, 0, 0) with (limit_abs no_limit). rewrite map_last.
  by destruct (zone_trip_limits d).
Qed.

Lemma arb_comp_key x y : arb_comp x y = (snd x <? snd y).
Proof. done. Qed.

Lemma sorted_by_removelast {A} (key : A -> Z) l :
  sorted_by key l -> sorted_by key (removelast l).
Proof.
  unfold sorted_by. induction 1 as [|x l Hs IH Hf]; [constructor|].
  destruct l as [|y l]; [constructor|].
  change (removelast (x :: y :: l)) with (x :: removelast (y :: l)). constructor; [exact IH|].
  rewrite List.Forall_forall in *. intros z Hz. apply Hf.
  rewrite (app_removelast_last x (l := y :: l)) by done. apply in_or_app. by left.
Qed.

Lemma arb_step_sorted op l :
  sorted_by (fun x => snd x) l -> sorted_by (fun x => snd x) (arb_step op l).
Proof.
  destruct op as [z t v|z t]; cbn; intros Hs.
  - destruct (existsb _ _); [exact Hs|]. apply std_sort_sorted, arb_comp_key.
  - destruct l as [|e l]; [exact Hs|]. destruct (arb_is _ _ _); [|exact Hs].
    by apply sorted_by_removelast.
Qed.

(** The most restrictive request is not relaxed by a new one. *)
Lemma arb_hold_monotone z t v m l :
  l <> [] -> sorted_by (fun x => snd x) l ->
  arb_output m l <= arb_output m (arb_step (Hold z t v) l).
Proof.
  intros Hn Hs. cbn. destruct (existsb _ _); [lia|].
  set (L := std_sort arb_comp (l ++ [(z, t, v)])).
  assert (Hperm : Permutation (l ++ [(z, t, v)]) L) by apply std_sort_perm.
  assert (HS : sorted_by (fun x => snd x) L) by apply std_sort_sorted, arb_comp_key.
  destruct l as [|e0 l0 _] using rev_ind; [done|].
  destruct L as [|e1 l1 _] using rev_ind; [apply Permutation_length in Hperm; rewrite length_app in Hperm; cbn in Hperm; lia|].
  assert (Hout : forall a b, arb_output m (a ++ [b]) = snd b).
  { intros a b. unfold arb_output. destruct (a ++ [b]) eqn:E; [by destruct a|].
    rewrite <- E. by rewrite List.last_last. }
  rewrite !Hout. assert (Hin : In e0 (l1 ++ [e1])).
  { eapply Permutation_in; [exact Hperm|]. rewrite !in_app_iff. left. right. by left. }
  apply in_app_or in Hin as [Hin|[->|[]]]; [|lia].
  apply sorted_by_last in HS. rewrite List.Forall_forall in HS. by apply HS.
Qed.

Lemma registered_abs {X} a (d : cdev X) z t v :
  carries a (Hold z t v) -> min_state d < max_state d ->
  map limit_abs (zone_trip_limits (registered a d)) =
    arb_step (Hold z t v) (map limit_abs (zone_trip_limits d)) /\
  (Forall (fun e => truthy (target_state_valid e) = true) (zone_trip_limits d) ->
   Forall (fun e => truthy (target_state_valid e) = true) (zone_trip_limits (registered a d))) /\
  zone_trip_limits (registered a d) <> [].
Proof.
  intros (Hv & Hm & Hs & <- & <- & <-) Hr. cbn [arb_step]. rewrite arb_is_abs.
  unfold registered. destruct (existsb _ _) eqn:Hex.
  - split; [done|]. split; [done|]. intros E. by rewrite E in Hex.
  - cbn. unfold push_limit. rewrite Hv, Hm. apply Z.ltb_lt in Hr as ->.
    rewrite (std_sort_map _ arb_comp limit_abs) by done. rewrite map_app.
    split; [done|]. split.
    + intros HF. eapply Permutation_Forall; [apply std_sort_perm|].
      apply Forall_app. split; [exact HF|]. by constructor.
    + intros E. apply (f_equal length) in E. rewrite std_sort_length, length_app in E. cbn in E. lia.
Qed.

Lemma last_limit_valid {X} (d : cdev X) :
  Forall (fun e => truthy (target_state_valid e) = true) (zone_trip_limits d) ->
  zone_trip_limits d <> [] -> truthy (target_state_valid (last_limit d)) = true.
Proof.
  intros HF Hn. rewrite List.Forall_forall in HF. apply HF. unfold last_limit.
  rewrite (app_removelast_last no_limit Hn) at 2. apply in_or_app. right. by left.
Qed.

(** A deactivation on a non-empty list. *)
Lemma deactivate_run {X W} a (d : cdev X) (w : W) :
  zone_trip_limits d <> [] ->
  deactivate_request a (d, w) =
  if is_entry (a_zone_id a) (a_trip_id a) (last_limit d) then
    let d1 := d <| zone_trip_limits := removelast (zone_trip_limits d) |> in
    (Some match removelast (zone_trip_limits d) with
          | [] => if truthy (target_state_valid (last_limit d))
                  then mk_plan (a_target_state_valid a) (min_state d) (a_min_state a) (a_max_state a)
                  else if a_force a
                  then mk_plan 1 (min_state d) (a_min_state a) (a_max_state a)
                  else mk_plan (a_target_state_valid a) (a_target_value a) (a_min_state a) (a_max_state a)
          | _ => plan_of (last_limit d1)
          end, (d1, w))
  else (None, (d, w)).
Proof.
  intros Hne. unfold deactivate_request, bind at 1, getd at 1, gets. cbn [fst].
  destruct (zone_trip_limits d) as [|e l] eqn:El; [done|].
  destruct (is_entry _ _ _) eqn:Ee.
  - unfold bind, modd, modify, getd, gets. cbn -[removelast]. rewrite El. by destruct (removelast (e :: l)).
  - unfold bind, getd, gets, ret. cbn. by rewrite El.
Qed.

Section refinement.
Context {X W : Type} `{Kernel W} `{CdevTracks X W}.

Lemma set_state_hold a z t v pid (d : cdev X) (w : W) l tm w1 :
  carries a (Hold z t v) -> arbitrates d l -> k_time w = (tm, w1) ->
  a_force a = true \/ debounce_interval d < tm - last_action_time d ->
  exists d' w',
    thd_cdev_set_state a pid (d, w) = ((THD_SUCCESS, pid), (d', w')) /\
    min_state d' = min_state d /\ arbitrates d' (arb_step (Hold z t v) l).
Proof.
  intros Hc (Hr & Hl & HF & Hsort & Hcur) Ht Hsp.
  pose proof (registered_abs a d z t v Hc Hr) as (Habs & HF' & Hne).
  specialize (HF' HF). rewrite Hl in Habs.
  assert (Hmm : min_state (registered a d) = min_state d /\
                max_state (registered a d) = max_state d /\
                curr_state (registered a d) = curr_state d)
    by (unfold registered; by destruct (existsb _ _)).
  destruct Hmm as (M1 & M2 & M3).
  destruct Hc as (Hv & Hm & Hs & Hz & Htr & Htv).
  unfold thd_cdev_set_state. rewrite Hs, bind_ret. unfold bind at 1, time_now. rewrite Ht.
  rewrite (bind_eq _ _ _ _ _ (activate_tracks a tm d w1)).
  assert (Hdeb : debounced a d tm = false).
  { unfold debounced. destruct Hsp as [->|Hsp]; [done|].
    destruct (Z.leb_spec (tm - last_action_time d) (debounce_interval d)); [lia|].
    apply andb_false_r. }
  rewrite Hdeb, orb_false_r.
  pose proof (arb_output_abs (registered a d) (min_state d) Hne) as Hout. rewrite Habs in Hout.
  destruct (satisfied a d) eqn:Hsat.
  - exists (registered a d), w1. split; [done|]. split; [done|].
    unfold arbitrates. rewrite M1, M2, M3, Habs. repeat split; try done.
    { by apply arb_step_sorted. }
    unfold satisfied in Hsat. b2p.
    assert (Hne0 : l <> []) by (intros ->; destruct (zone_trip_limits d); done).
    pose proof (arb_hold_monotone z t v (min_state d) l Hne0 Hsort) as Hmono.
    rewrite Hout in *. rewrite Hcur in *.
    match goal with E : cmp_pure _ _ <= 0 |- _ => unfold cmp_pure in E; rewrite Hcur in E;
      revert E end.
    apply Z.ltb_lt in Hr as ->. split_if; lia.
  - destruct (control_target a tm (plan_of (last_limit (registered a d))) pid (registered a d) w1)
      as (d' & w' & -> & L & C & N1 & N2); [by apply last_limit_valid|].
    exists d', w'. split; [done|]. split; [congruence|].
    unfold arbitrates. rewrite L, C, N1, N2, M1, M2, Habs. repeat split; try done.
    { by apply arb_step_sorted. }
Qed.

Lemma set_state_release a z t pid (d : cdev X) (w : W) l tm w1 :
  carries a (Release z t) -> arbitrates d l -> k_time w = (tm, w1) ->
  exists d' w',
    thd_cdev_set_state a pid (d, w) = ((THD_SUCCESS, pid), (d', w')) /\
    min_state d' = min_state d /\ arbitrates d' (arb_step (Release z t) l).
Proof.
  intros (Hv & Hm & Hs & Hz & Htr) (Hr & Hl & HF & Hsort & Hcur) Ht.
  unfold thd_cdev_set_state. rewrite Hs. unfold bind at 1 2. rewrite in_min_state_tracks.
  unfold bind at 1, getd, gets. cbn [fst].
  destruct (zone_trip_limits d) as [|e0 l0] eqn:El.
  { (* nothing registered: the device rests, the call is ignored *)
    cbn in Hl. subst l. unfold in_min_state_pure. cbn in Hcur. rewrite Hcur.
    replace (min_state d <? max_state d) with true by (symmetry; by apply Z.ltb_lt).
    rewrite Z.leb_refl. exists d, w. split; [done|]. split; [done|].
    unfold arbitrates. rewrite El. repeat split; try done. }
  rewrite andb_false_r. unfold ret at 1. unfold bind at 1, time_now. rewrite Ht.
  assert (Hlast : arb_is z t (List.last l (0, 0, 0)) = is_entry z t (last_limit d)).
  { rewrite <- Hl, <- El. change (0, 0, 0) with (limit_abs no_limit). by rewrite map_last. }
  assert (Hstep : arb_step (Release z t) l =
    if is_entry z t (last_limit d) then map limit_abs (removelast (zone_trip_limits d)) else l).
  { cbn [arb_step]. rewrite Hlast, El, <- removelast_map, Hl.
    destruct l; [done|]. reflexivity. }
  rewrite <- El in HF, Hl. pose proof (arb_step_sorted (Release z t) l Hsort) as HS'.
  rewrite Hstep in *.
  assert (Hne : zone_trip_limits d <> []) by (by rewrite El).
  pose proof (deactivate_run a d w1 Hne) as Hdr. rewrite Hz, Htr in Hdr.
  destruct (is_entry z t (last_limit d)) eqn:Ee;
    cbv zeta in Hdr; rewrite (bind_eq _ _ _ _ _ Hdr); clear Hdr.
  2: { exists d, w1. split; [done|]. split; [done|]. repeat split; done. }
  set (d1 := d <| zone_trip_limits := removelast (zone_trip_limits d) |>).
  rewrite (last_limit_valid d HF Hne).
  set (p := match removelast (zone_trip_limits d) with [] => _ | _ => _ end).
  assert (HF1 : Forall (fun e => truthy (target_state_valid e) = true) (zone_trip_limits d1)).
  { rewrite (app_removelast_last no_limit Hne) in HF. by apply Forall_app in HF as [? _]. }
  assert (Hp : truthy (p_target_state_valid p) = true /\
               p_target_value p = arb_output (min_state d) (map limit_abs (zone_trip_limits d1))).
  { unfold p. pose proof (last_limit_valid d1 HF1) as Hv1.
    pose proof (arb_output_abs d1 (min_state d)) as Ho1.
    change (zone_trip_limits d1) with (removelast (zone_trip_limits d)) in *.
    destruct (removelast (zone_trip_limits d)); [done|].
    split; [by apply Hv1|]. symmetry. by apply Ho1. }
  destruct Hp as [Hp1 Hp2].
  destruct (control_target a tm p pid d1 w1 Hp1) as (d' & w' & -> & L & C & N1 & N2).
  exists d', w'. split; [done|]. split; [done|].
  unfold arbitrates. rewrite L, C, N1, N2. repeat split; try done.
Qed.

End refinement.
