(* ===== verification/CdevDevices.v ===== *)
(** The cooling devices that act through sysfs files, as instances of the
    virtual interface of [cthd_cdev]: the kernel thermal cooling device
    (src/thd_cdev_therm_sys_fs.cpp), a generic sysfs attribute
    (src/thd_cdev_gen_sysfs.cpp), the intel_pstate driver
    (src/thd_cdev_intel_pstate_driver.cpp), cpufreq (src/thd_cdev_cpufreq.cpp)
    and the LCD backlight (src/thd_cdev_backlight.cpp). *)
From stdpp Require Import base gmap strings list.
From Stdlib Require Import ZArith Lia Ascii SpecFloat.
From Stdlib Require String.
From S2P Require Import Prelude CString SysFs CFloat Pid Cdev CdevLimits CdevControl.

Open Scope string_scope.
Open Scope Z_scope.

(** * cthd_sysfs_cdev *)

Inductive sysfs_ext := SysfsCdev.

Section sysfs.
Context {W : Type} `{Kernel W}.
Abbreviation M := (State (cdev sysfs_ext * W)).

Definition cooling_device_file (d : cdev sysfs_ext) (name : string) : string :=
  "cooling_device" +:+ string_of_Z (index d) +:+ "/" +:+ name.

(** Reads an [int] attribute into a member. *)
Definition read_member {X} (path : string) (old : cdev X -> Z) (set : Z -> cdev X -> cdev X)
    : State (cdev X * W) Z :=
  d <- getd ;;
  let* (n, v) := fs_op (read_int path (old d)) in
  modd (set v) ;;
  ret n.

Definition read_curr {X} (path : string) : State (cdev X * W) Z :=
  read_member path curr_state (fun v d => d <| curr_state := v |>).
Definition read_max {X} (path : string) : State (cdev X * W) Z :=
  read_member path max_state (fun v d => d <| max_state := v |>).

Definition sysfs_get_max_state : M Z :=
  d <- getd ;;
  let path := cooling_device_file d "max_state" in
  ex <- fs_op (exists_path path) ;;
  if ex : bool then
    n <- read_max path ;;
    if n <? 0 then ret n else gets (fun '(d, _) => max_state d)
  else modd (fun d => d <| max_state := 0 |>) ;; ret 0.

Definition sysfs_set_curr_state (state arg : Z) : M unit :=
  d <- getd ;;
  let path := cooling_device_file d "cur_state" in
  ex <- fs_op (exists_path path) ;;
  if ex : bool then
    fs_op (write_str path (string_of_Z state)) ;;
    modd (fun d => d <| curr_state := state |>)
  else modd (fun d => d <| curr_state := 0 |>).

Definition sysfs_get_curr_state : M Z :=
  d <- getd ;;
  if negb (read_back d) then ret (curr_state d) else
  let path := cooling_device_file d "cur_state" in
  ex <- fs_op (exists_path path) ;;
  if ex : bool then
    n <- read_curr path ;;
    if n <? 0 then ret n else gets (fun '(d, _) => curr_state d)
  else modd (fun d => d <| curr_state := 0 |>) ;; ret 0.

Definition sysfs_update : M Z :=
  d <- getd ;;
  ex <- fs_op (exists_path (cooling_device_file d "cur_state")) ;;
  n <- (if ex : bool then read_curr (cooling_device_file d "cur_state")
        else modd (fun d => d <| curr_state := 0 |>) ;; ret 0) ;;
  if n <? 0 then ret n else
  ex <- fs_op (exists_path (cooling_device_file d "max_state")) ;;
  n <- (if ex : bool then read_max (cooling_device_file d "max_state")
        else modd (fun d => d <| max_state := 0 |>) ;; ret 0) ;;
  if n <? 0 then ret n else
  ex <- fs_op (exists_path (cooling_device_file d "type")) ;;
  (if ex : bool then
     d <- getd ;;
     let* (_, t) := fs_op (read_string (cooling_device_file d "type") (type_str d)) in
     modd (fun d => d <| type_str := t |>) ;;
     if String.eqb t "Processor" then modd (fun d => d <| read_back := false |>) else ret tt
   else ret tt) ;;
  ret THD_SUCCESS.

#[export] Instance sysfs_methods : CdevMethods sysfs_ext W := {
  m_set_curr_state := sysfs_set_curr_state;
  m_set_curr_state_raw := base_set_curr_state_raw sysfs_set_curr_state;
  m_get_curr_state := sysfs_get_curr_state;
  m_get_curr_state_again := base_get_curr_state;
  m_get_max_state := sysfs_get_max_state;
  m_map_target_state := fun _ _ t => t;
  m_update := sysfs_update
}.

#[export] Instance sysfs_laws : CdevLaws sysfs_ext W.
Proof.
  split; intros; cbn;
    unfold sysfs_get_max_state, sysfs_set_curr_state, sysfs_get_curr_state, read_curr, read_max,
      read_member, base_set_curr_state_raw, base_get_curr_state; keeps_tac.
Qed.
End sysfs.

(** * cthd_gen_sysfs_cdev *)

Inductive gen_ext := GenSysfsCdev.

Section gen.
Context {W : Type} `{Kernel W}.
Abbreviation M := (State (cdev gen_ext * W)).

Definition gen_set_curr_state (state arg : Z) : M unit :=
  d <- getd ;;
  fs_op (write_str "" (write_prefix d +:+ string_of_Z state)) ;;
  modd (fun d => d <| curr_state := state |>).

Definition gen_update : M Z :=
  ex <- fs_op (exists_path "") ;;
  if ex : bool then
    d <- getd ;;
    if negb (starts_with (base_path (cdev_sysfs d)) "/sys") then ret THD_ERROR else
    n <- read_curr "" ;;
    if n <? 0 then ret n else
    modd (fun d => d <| max_state := curr_state d |> <| min_state := curr_state d |>) ;;
    ret THD_SUCCESS
  else ret THD_ERROR.

#[export] Instance gen_methods : CdevMethods gen_ext W := {
  m_set_curr_state := gen_set_curr_state;
  m_set_curr_state_raw := gen_set_curr_state;
  m_get_curr_state := base_get_curr_state;
  m_get_curr_state_again := base_get_curr_state;
  m_get_max_state := base_get_max_state;
  m_map_target_state := fun _ _ t => t;
  m_update := gen_update
}.

#[export] Instance gen_laws : CdevLaws gen_ext W.
Proof.
  split; intros; cbn; unfold gen_set_curr_state, base_get_curr_state, base_get_max_state; keeps_tac.
Qed.

#[export] Instance gen_tracks : CdevTracks gen_ext W.
Proof.
  split; intros; try (by destruct s).
  1, 2: cbn; unfold gen_set_curr_state, fs_op; msimpl;
    destruct (write_str _ _ _) as [n [fs w']]; do 2 eexists; by repeat split.
  reflexivity.
Qed.
End gen.

(** * cthd_intel_p_state_cdev *)

Record pstate_ext := mk_pstate {
  unit_value : float; min_compensation : Z; turbo_status : bool
}.
#[export] Instance eta_pstate : Eta pstate_ext := {| eta_of := fun x =>
  mk_pstate (unit_value x) (min_compensation x) (turbo_status x) |}.

Definition pstate_default_max_state : Z := 10.
Definition turbo_disable_percent : Z := 70.

Definition new_pstate (_index : Z) : cdev pstate_ext :=
  new_cdev _index "/sys/devices/system/cpu/intel_pstate/" (mk_pstate (float_of_Z 1) 0 false).

Section pstate.
Context {W : Type} `{Kernel W}.
Abbreviation M := (State (cdev pstate_ext * W)).

Definition set_turbo_disable_status (enable : bool) : M unit :=
  d <- getd ;;
  if Bool.eqb enable (turbo_status (ext d)) then ret tt else
  fs_op (write_str "/no_turbo" (if enable then "1" else "0")) ;;
  modd (fun d => d <| ext := (ext d) <| turbo_status := enable |> |>).

(** The percentage written for a state: float arithmetic, truncated. *)
Definition pstate_percent (x : pstate_ext) (state : Z) : Z :=
  if state =? 0 then 100
  else int_of_float (float_sub (float_of_Z 100)
         (float_mul (float_of_Z (i32 (state + min_compensation x))) (unit_value x))).

Definition pstate_set_curr_state (state arg : Z) : M unit :=
  ex <- fs_op (exists_path "/max_perf_pct") ;;
  let failed d := if state =? 0 then 0 else max_state d in
  if ex : bool then
    d <- getd ;;
    let new_state := pstate_percent (ext d) state in
    set_turbo_disable_status (new_state <=? turbo_disable_percent) ;;
    n <- fs_op (write_str "/max_perf_pct" (string_of_Z new_state)) ;;
    modd (fun d => d <| curr_state := if n <? 0 then failed d else state |>)
  else modd (fun d => d <| curr_state := failed d |>).

Definition pstate_map_target_state (d : cdev pstate_ext) (target_valid target_state : Z) : Z :=
  if negb (truthy target_valid) then target_state
  else if target_state >? 100 then 0
  else int_of_float (float_div (float_of_Z (i32 (100 - target_state))) (unit_value (ext d))).

Definition pstate_update : M Z :=
  ex <- fs_op (exists_path "/status") ;;
  (if ex : bool then fs_op (read_string "/status" "") ;; ret tt else ret tt) ;;
  ex <- fs_op (exists_path "/max_perf_pct") ;;
  if ex : bool then
    n <- read_curr "/max_perf_pct" ;;
    if n <? 0 then ret n else
    modd (fun d => d <| max_state := pstate_default_max_state |>
      <| ext := (ext d) <| min_compensation := 0 |>
                 <| unit_value := float_of_double
                      (a_div (double_of_Z 100) (double_of_Z pstate_default_max_state)) |> |>
      <| curr_state := 0 |>) ;;
    ret THD_SUCCESS
  else ret THD_ERROR.

#[export] Instance pstate_methods : CdevMethods pstate_ext W := {
  m_set_curr_state := pstate_set_curr_state;
  m_set_curr_state_raw := base_set_curr_state_raw pstate_set_curr_state;
  m_get_curr_state := base_get_curr_state;
  m_get_curr_state_again := base_get_curr_state;
  m_get_max_state := base_get_max_state;
  m_map_target_state := pstate_map_target_state;
  m_update := pstate_update
}.

#[export] Instance pstate_laws : CdevLaws pstate_ext W.
Proof.
  split; intros; cbn; unfold base_set_curr_state_raw, pstate_set_curr_state,
    set_turbo_disable_status, base_get_curr_state, base_get_max_state; keeps_tac.
Qed.
End pstate.

(** The members a successful [update] leaves in the device. *)
Definition pstate_ready (x : pstate_ext) : Prop :=
  unit_value x = float_of_Z 10 /\ min_compensation x = 0.

Lemma pstate_update_ready {W} `{Kernel W} s n s' :
  pstate_update (W := W) s = (n, s') -> n = THD_SUCCESS ->
  pstate_ready (ext (fst s')) /\ max_state (fst s') = 10 /\ curr_state (fst s') = 0.
Proof.
  unfold pstate_update. intros E ->. revert E.
  bstep ex s1. bstep u s2. bstep ex2 s3.
  destruct ex2; [|intros X; simplify_eq].
  bstep m s4. destruct s4 as [d w].
  destruct (Z.ltb_spec m 0); unfold bind, ret, modd, modify; intros X; simplify_eq.
  - unfold THD_SUCCESS in *. lia.
  - cbn. split; [|done]. split; [|done]. vm_compute. reflexivity.
Qed.

Lemma ten_cases (P : Z -> Prop) :
  (P 0 /\ P 1 /\ P 2 /\ P 3 /\ P 4 /\ P 5 /\ P 6 /\ P 7 /\ P 8 /\ P 9 /\ P 10) ->
  forall s, 0 <= s <= 10 -> P s.
Proof.
  intros HP s Hs.
  assert (s = 0 \/ s = 1 \/ s = 2 \/ s = 3 \/ s = 4 \/ s = 5 \/ s = 6 \/ s = 7 \/ s = 8 \/
          s = 9 \/ s = 10) as Hc by lia.
  decompose [and] HP. decompose [or] Hc; subst; assumption.
Qed.

(** The percentages of the intel_pstate device.  After a successful
    [update], every state from 0 to [max_state] = 10 is written as
    [100 - 10 * state] percent although the code computes it in [float], turbo
    is disabled exactly from state 3 on, and [map_target_state] takes the
    percentage back to the state. *)
Theorem pstate_percent_exact {W} `{Kernel W} s0 s1 state :
  pstate_update (W := W) s0 = (THD_SUCCESS, s1) -> 0 <= state <= max_state (fst s1) ->
  let d := fst s1 in
  pstate_percent (ext d) state = 100 - 10 * state /\
  (pstate_percent (ext d) state <= turbo_disable_percent <-> 3 <= state) /\
  pstate_map_target_state d 1 (pstate_percent (ext d) state) = state.
Proof.
  intros Hu Hr. destruct (pstate_update_ready _ _ _ Hu eq_refl) as ((Hv & Hm) & Hmx & _).
  rewrite Hmx in Hr. cbn zeta.
  assert (Hp : pstate_percent (ext (fst s1)) state = 100 - 10 * state).
  { unfold pstate_percent. rewrite Hv, Hm. revert state Hr.
    apply ten_cases. repeat split; vm_compute; reflexivity. }
  rewrite Hp. split; [done|]. split; [unfold turbo_disable_percent; lia|].
  unfold pstate_map_target_state. rewrite Hv. clear Hp. revert state Hr.
  apply ten_cases. repeat split; vm_compute; reflexivity.
Qed.

(** * cthd_cdev_backlight *)

Record backlight_ext := mk_backlight { ref_backlight_state : Z; min_back_light : Z }.
#[export] Instance eta_backlight : Eta backlight_ext := {| eta_of := fun x =>
  mk_backlight (ref_backlight_state x) (min_back_light x) |}.

Definition backlight_devices : list string :=
  [ "/sys/class/backlight/intel_backlight/"; "/sys/class/backlight/acpi_video0/";
    "/sys/class/leds/lcd-backlight/"; "/sys/class/backlight/lcd-backlight/" ].
Definition min_backlight_percent : Z := 25.

Section backlight.
Context {W : Type} `{Kernel W}.
Abbreviation M := (State (cdev backlight_ext * W)).

Definition backlight_update : M Z :=
  ex <- fs_op (exists_path "") ;;
  n <- (if ex : bool then read_max "max_brightness" else ret 0) ;;
  if n <? 0 then ret n else
  d <- getd ;;
  if max_state d <=? 0 then ret THD_ERROR else
  modd (fun d => d
    <| inc_dec_val := int_of_float (float_div (float_mul (float_of_Z (max_state d)) (float_of_Z 10))
                                      (float_of_Z 100)) |>
    <| ext := (ext d) <| min_back_light := cdiv (i32 (max_state d * min_backlight_percent)) 100 |> |>) ;;
  ret THD_SUCCESS.

(** The constructor tries the known directories in turn. *)
Fixpoint backlight_probe (paths : list string) : M unit :=
  match paths with
  | [] => ret tt
  | p :: rest =>
      modd (fun d => d <| cdev_sysfs := update_path p (cdev_sysfs d) |>) ;;
      n <- backlight_update ;;
      if n =? THD_SUCCESS then ret tt else backlight_probe rest
  end.
Definition new_backlight (_index : Z) (w : W) : cdev backlight_ext * W :=
  snd (backlight_probe backlight_devices
    (new_cdev _index "/sys/class/backlight/intel_backlight/" (mk_backlight 0 0), w)).

Definition backlight_map_target_state (d : cdev backlight_ext) (target_valid target_state : Z) : Z :=
  if negb (truthy target_valid) then target_state
  else if target_state >? max_state d then 0
  else i32 (max_state d - target_state).

(** The brightness written while throttling: below the reference, never below
    the minimum. *)
Definition backlight_val (x : backlight_ext) (state : Z) : Z :=
  let v := i32 (ref_backlight_state x - state) in
  if v <=? min_back_light x then min_back_light x else v.

Definition backlight_restore (state : Z) : M unit :=
  d <- getd ;;
  if truthy (ref_backlight_state (ext d)) then
    n <- fs_op (write_uint "brightness" (ref_backlight_state (ext d))) ;;
    if n <? 0 then ret tt else
    modd (fun d => d <| ext := (ext d) <| ref_backlight_state := 0 |> |>) ;;
    modd (fun d => d <| curr_state := state |>)
  else modd (fun d => d <| curr_state := state |>).

Definition backlight_throttle (state : Z) : M unit :=
  d <- getd ;;
  n <- (if (ref_backlight_state (ext d) =? 0) && (state =? inc_dec_val d) then
          let* (n, v) := fs_op (read_int "brightness" (ref_backlight_state (ext d))) in
          modd (fun d => d <| ext := (ext d) <| ref_backlight_state := v |> |>) ;;
          ret n
        else ret 0) ;;
  if n <? 0 then ret tt else
  d <- getd ;;
  n <- fs_op (write_uint "brightness" (backlight_val (ext d) state)) ;;
  if n <? 0 then ret tt else
  modd (fun d => d <| curr_state := state |>).

Definition backlight_set_curr_state (state arg : Z) : M unit :=
  if state =? 0 then backlight_restore state else backlight_throttle state.

#[export] Instance backlight_methods : CdevMethods backlight_ext W := {
  m_set_curr_state := backlight_set_curr_state;
  m_set_curr_state_raw := base_set_curr_state_raw backlight_set_curr_state;
  m_get_curr_state := base_get_curr_state;
  m_get_curr_state_again := base_get_curr_state;
  m_get_max_state := base_get_max_state;
  m_map_target_state := backlight_map_target_state;
  m_update := backlight_update
}.

#[export] Instance backlight_laws : CdevLaws backlight_ext W.
Proof.
  split; intros; cbn; unfold base_set_curr_state_raw, backlight_set_curr_state,
    backlight_restore, backlight_throttle, base_get_curr_state, base_get_max_state; keeps_tac.
Qed.
End backlight.

(** The simulated machine with a backlight at brightness 800 of 1000. *)
Definition sim_backlight : sim :=
  mk_sim {[ "/sys/class/backlight/intel_backlight/" := "";
            "/sys/class/backlight/intel_backlight/max_brightness" := "1000";
            "/sys/class/backlight/intel_backlight/brightness" := "800" ]} [] 1000.

Definition brightness_of (w : sim) : option string :=
  sim_files w !! "/sys/class/backlight/intel_backlight/brightness".

(** The normal cycle: dimming by the step and back restores the brightness. *)
Example backlight_cycle :
  let s0 := new_backlight 0 sim_backlight in
  let s1 := snd (backlight_set_curr_state 100 1 s0) in
  let s2 := snd (backlight_set_curr_state 0 0 s1) in
  (brightness_of (snd s1), brightness_of (snd s2)) = (Some "700", Some "800").
Proof. vm_compute. reflexivity. Qed.

(** A first throttle request other than [inc_dec_val] does not record the
    reference brightness: the panel drops to the minimum and the return to
    state 0 does not restore it. *)
Example backlight_not_restored :
  let s0 := new_backlight 0 sim_backlight in
  let s1 := snd (backlight_set_curr_state 200 1 s0) in
  let s2 := snd (backlight_set_curr_state 0 0 s1) in
  (brightness_of (snd s1), brightness_of (snd s2), curr_state (fst s2)) = (Some "250", Some "250", 0).
Proof. vm_compute. reflexivity. Qed.
