(* ===== verification/CdevCpufreq.v ===== *)
(** The cpufreq cooling device, [cthd_cdev_cpufreq]
    (src/thd_cdev_cpufreq.cpp): each state is one of the available
    frequencies, fastest first. *)
From stdpp Require Import base gmap strings list.
From Stdlib Require Import ZArith Lia Ascii Sorted.
From Stdlib Require String.
From S2P Require Import Prelude CString SysFs CFloat Pid Cdev CdevLimits CdevControl CdevDevices.

Open Scope string_scope.
Open Scope list_scope.
Open Scope Z_scope.

Record cpufreq_ext := mk_cpufreq {
  cpu_start_index : Z;
  cpu_end_index : Z;
  cpufreqs : list Z;
  pstate_active_freq_index : Z;
  last_governor : string;
  cpu_index : Z;
}.
#[export] Instance eta_cpufreq : Eta cpufreq_ext := {| eta_of := fun x =>
  mk_cpufreq (cpu_start_index x) (cpu_end_index x) (cpufreqs x)
    (pstate_active_freq_index x) (last_governor x) (cpu_index x) |}.

Definition new_cpufreq (_index _cpu_index : Z) : cdev cpufreq_ext :=
  new_cdev _index "/sys/devices/system/cpu/" (mk_cpufreq 0 0 [] 0 "" _cpu_index).

(** [stream >> unsigned]. *)
Definition istream_uint (s : string) (old : Z) : Z :=
  match skip_space s with
  | EmptyString => old
  | s' => if starts_number s'
          then let v := signed_val s' in if UINT_MAX <? Z.abs v then UINT_MAX else u32 v
          else 0
  end.

(** The white-space separated words of a file. *)
Fixpoint words_aux (s cur : string) : list string :=
  match s with
  | EmptyString => match cur with EmptyString => [] | _ => [cur] end
  | String c s' =>
      if isspace c
      then match cur with EmptyString => words_aux s' "" | _ => cur :: words_aux s' "" end
      else words_aux s' (cur +:+ String c "")
  end.
Definition words (s : string) : list string := words_aux s "".

(** The indices [first], ..., [first + n - 1]. *)
Fixpoint zseq (first : Z) (n : nat) : list Z :=
  match n with O => [] | S n' => first :: zseq (first + 1) n' end.
Definition cpu_range (x : cpufreq_ext) : list Z :=
  zseq (cpu_start_index x) (Z.to_nat (cpu_end_index x - cpu_start_index x + 1)).

Definition add_frequency (freq_int : Z) (freqs : list Z) : list Z :=
  match freqs with
  | [] => [i32 freq_int]
  | f0 :: _ => if f0 >? i32 freq_int then freqs ++ [i32 freq_int] else i32 freq_int :: freqs
  end.

(** [cthd_engine::apply_cpu_operation], which no engine overrides. *)
Definition apply_cpu_operation (cpu : Z) : bool := false.

Section cpufreq.
Context {W : Type} `{Kernel W}.
Abbreviation M := (State (cdev cpufreq_ext * W)).

Definition set_ext (f : cpufreq_ext -> cpufreq_ext) : M unit :=
  modd (fun d => d <| ext := f (ext d) |>).

(** Lines 34-61: the "first-last" range of CPUs. *)
Definition cpufreq_read_cpus : M Z :=
  ex <- fs_op (exists_path "present") ;;
  if negb ex then ret THD_ERROR else
  let* (_, count_str) := fs_op (read_string "present" "") in
  match String.index 0 "-" count_str with
  | None => ret THD_ERROR
  | Some p1 =>
      let token1 := String.substring 0 p1 count_str in
      let token2 := String.substring (S p1) (String.length count_str - S p1) count_str in
      if String.eqb token1 "" then ret THD_ERROR else
      set_ext (fun x => x <| cpu_start_index := istream_int token1 (cpu_start_index x) |>) ;;
      if (String.length count_str <=? S p1)%nat then ret THD_ERROR else
      set_ext (fun x => x <| cpu_end_index := istream_int token2 (cpu_end_index x) |>) ;;
      d <- getd ;;
      let x := ext d in
      if (cpu_end_index x <=? 0) || (cpu_end_index x <? cpu_start_index x) || (63 <? cpu_end_index x)
      then ret THD_ERROR else ret THD_SUCCESS
  end.

(** Lines 94-120: the lowest (highest) limit over the CPUs.  The variable a
    failed read leaves unassigned starts at [garbage]. *)
Definition cpufreq_limit (attr : string) (better : Z -> Z -> bool) (garbage : Z) : M Z :=
  d <- getd ;;
  fold_left (fun (acc : M Z) i =>
    limit <- acc ;;
    let path := "cpu" +:+ string_of_Z i +:+ "/cpufreq/" +:+ attr in
    ex <- fs_op (exists_path path) ;;
    if ex : bool then
      let* (n, v) := fs_op (read_int path garbage) in
      let freq_int := u32 v in
      ret (if (n <? 0) || (limit =? 0) || better freq_int limit then freq_int else limit)
    else ret limit) (cpu_range (ext d)) (ret 0).

Definition cpufreq_init (garbage : Z) : M Z :=
  r <- cpufreq_read_cpus ;;
  if negb (r =? THD_SUCCESS) then ret r else
  ex <- fs_op (exists_path "cpu0/cpufreq/scaling_available_frequencies") ;;
  if negb ex then ret THD_ERROR else
  content <- gets (fun '(_, w) =>
    k_ifstream "/sys/devices/system/cpu/cpu0/cpufreq/scaling_available_frequencies" w) ;;
  match content with
  | None => ret (- EINVAL)
  | Some text =>
      scaling_min <- cpufreq_limit "scaling_min_freq" (fun f l => f <? l) garbage ;;
      scaling_max <- cpufreq_limit "scaling_max_freq" (fun f l => f >? l) garbage ;;
      mfor (words text) (fun token =>
        let freq_int := istream_uint token garbage in
        if (scaling_min <=? freq_int) && (freq_int <=? scaling_max)
        then set_ext (fun x => x <| cpufreqs := add_frequency freq_int (cpufreqs x) |>)
        else ret tt) ;;
      modd (fun d => match cpufreqs (ext d) with
                     | [] => d
                     | l => d <| max_state := Z.of_nat (length l) - 1 |>
                     end) ;;
      set_ext (fun x => x <| pstate_active_freq_index := 0 |>) ;;
      ret THD_SUCCESS
  end.

(** Writes the frequency of [state] to one CPU. *)
Definition cpufreq_write_cpu (state freq i : Z) : M unit :=
  let path := "cpu" +:+ string_of_Z i +:+ "/cpufreq/scaling_max_freq" in
  ex <- fs_op (exists_path path) ;;
  (if ex : bool then fs_op (write_str path (string_of_Z freq)) ;; ret tt else ret tt) ;;
  set_ext (fun x => x <| pstate_active_freq_index := state |>) ;;
  modd (fun d => d <| curr_state := state |>).

Definition cpufreq_set_curr_state (state arg : Z) : M unit :=
  d <- getd ;;
  let x := ext d in
  if (0 <=? state) && (state <? Z.of_nat (length (cpufreqs x))) then
    let freq := List.nth (Z.to_nat state) (cpufreqs x) 0 in
    if cpu_index x =? -1 then mfor (cpu_range x) (cpufreq_write_cpu state freq)
    else if apply_cpu_operation (cpu_index x) then cpufreq_write_cpu state freq (cpu_index x)
    else ret tt
  else ret tt.

Definition cpufreq_get_max_state : M Z :=
  gets (fun '(d, _) => i32 (Z.of_nat (length (cpufreqs (ext d))) - 1)).

Definition cpufreq_methods (garbage : Z) : CdevMethods cpufreq_ext W := {|
  m_set_curr_state := cpufreq_set_curr_state;
  m_set_curr_state_raw := base_set_curr_state_raw cpufreq_set_curr_state;
  m_get_curr_state := base_get_curr_state;
  m_get_curr_state_again := base_get_curr_state;
  m_get_max_state := cpufreq_get_max_state;
  m_map_target_state := fun _ _ t => t;
  m_update := cpufreq_init garbage
|}.

Lemma keeps_mfor {A} (l : list A) (body : A -> M unit) :
  (forall a, keeps ctl (body a)) -> keeps ctl (mfor l body).
Proof.
  intros Hb. induction l as [|a l IH]; cbn; [apply keeps_ret|].
  apply keeps_bind; [apply Hb|intros; exact IH].
Qed.

Lemma cpufreq_laws garbage : @CdevLaws cpufreq_ext W (cpufreq_methods garbage).
Proof.
  assert (Hw : forall st f i, keeps ctl (cpufreq_write_cpu st f i)).
  { intros. unfold cpufreq_write_cpu, set_ext. keeps_tac. }
  assert (Hset : forall v a, keeps ctl (cpufreq_set_curr_state v a)).
  { intros. unfold cpufreq_set_curr_state. keeps_tac; auto. apply keeps_mfor. auto. }
  split; intros; cbn; unfold base_set_curr_state_raw, base_get_curr_state, cpufreq_get_max_state;
    keeps_tac; auto.
Qed.
End cpufreq.

(** * The frequency table *)

Definition desc (l : list Z) : Prop := StronglySorted (fun x y => y <= x) l.
Definition strict_desc (l : list Z) : Prop := StronglySorted (fun x y => y < x) l.

Definition add_all (l : list Z) : list Z := fold_left (fun acc f => add_frequency f acc) l [].

Lemma add_all_app l1 l2 :
  add_all (l1 ++ l2) = fold_left (fun acc f => add_frequency f acc) l2 (add_all l1).
Proof. unfold add_all. apply fold_left_app. Qed.

Lemma strongly_sorted_app_inv {A} (R : A -> A -> Prop) l x :
  StronglySorted R (l ++ [x]) -> StronglySorted R l /\ Forall (fun y => R y x) l.
Proof.
  induction l as [|y l IH]; intros Hs; cbn in *; [by repeat constructor|].
  inversion Hs as [|? ? Hs' Hf]; subst. destruct (IH Hs') as [H1 H2].
  apply Forall_app in Hf as [Hf1 Hf2]. inversion Hf2; subst.
  split; constructor; assumption.
Qed.

Lemma add_all_desc l : Forall is_i32 l -> strict_desc l -> add_all l = l.
Proof.
  induction l as [|x l IH] using rev_ind; intros Hi Hs; [done|].
  apply Forall_app in Hi as [Hi Hx]. inversion Hx; subst.
  apply strongly_sorted_app_inv in Hs as [Hs Hf].
  rewrite add_all_app, (IH Hi Hs). cbn. unfold add_frequency. rewrite i32_id by done.
  destruct l as [|f0 l]; [done|]. inversion Hf; subst.
  replace (f0 >? x) with true; [done|]. symmetry. rewrite Z.gtb_ltb. by apply Z.ltb_lt.
Qed.

Lemma add_all_asc l :
  Forall is_i32 l -> StronglySorted (fun x y => x <= y) l -> add_all l = rev l.
Proof.
  induction l as [|x l IH] using rev_ind; intros Hi Hs; [done|].
  apply Forall_app in Hi as [Hi Hx]. inversion Hx; subst.
  apply strongly_sorted_app_inv in Hs as [Hs Hf].
  rewrite add_all_app, (IH Hi Hs), rev_app_distr. cbn. unfold add_frequency. rewrite i32_id by done.
  destruct (rev l) as [|f0 r] eqn:Er; [done|].
  assert (Hin : In f0 l) by (apply in_rev; rewrite Er; by left).
  rewrite List.Forall_forall in Hf. specialize (Hf f0 Hin).
  replace (f0 >? x) with false; [done|]. symmetry. rewrite Z.gtb_ltb. by apply Z.ltb_ge.
Qed.

Lemma strongly_sorted_impl {A} (R S : A -> A -> Prop) l :
  (forall x y, R x y -> S x y) -> StronglySorted R l -> StronglySorted S l.
Proof.
  intros HRS. induction 1 as [|x l Hs IH Hf]; constructor; [exact IH|].
  eapply List.Forall_impl; [|exact Hf]. auto.
Qed.

Lemma strongly_sorted_snoc {A} (R : A -> A -> Prop) l x :
  StronglySorted R l -> Forall (fun y => R y x) l -> StronglySorted R (l ++ [x]).
Proof.
  induction 1 as [|y l Hs IH Hf]; cbn; intros Hx; [by repeat constructor|].
  inversion Hx; subst. constructor; [by apply IH|].
  apply Forall_app. split; [exact Hf|by constructor].
Qed.

Lemma strongly_sorted_rev {A} (R : A -> A -> Prop) l :
  StronglySorted R l -> StronglySorted (fun x y => R y x) (rev l).
Proof.
  induction 1 as [|x l Hs IH Hf]; cbn; [constructor|].
  apply strongly_sorted_snoc; [exact IH|]. by apply Forall_rev.
Qed.

Lemma desc_nth l i j : desc l -> (i <= j < length l)%nat -> List.nth j l 0 <= List.nth i l 0.
Proof.
  intros Hd. revert i j. induction Hd as [|x l Hs IH Hf]; intros i j Hij; cbn in Hij; [lia|].
  destruct i as [|i], j as [|j]; cbn; try lia.
  - rewrite List.Forall_forall in Hf. apply Hf, nth_In. lia.
  - apply IH. lia.
Qed.

(** The frequency table is fastest first.  Whether the driver lists the
    available frequencies in strictly decreasing or in increasing order,
    [add_frequency] builds the table in decreasing order, so a higher state is
    never a higher frequency. *)
Theorem cpufreq_table_descending l s1 s2 :
  Forall is_i32 l ->
  strict_desc l \/ StronglySorted (fun x y => x <= y) l ->
  (s1 <= s2 < length (add_all l))%nat ->
  length (add_all l) = length l /\
  List.nth s2 (add_all l) 0 <= List.nth s1 (add_all l) 0.
Proof.
  intros Hi Hs Hlt.
  assert (Hd : desc (add_all l) /\ length (add_all l) = length l).
  { destruct Hs as [Hs|Hs].
    - rewrite (add_all_desc l Hi Hs). split; [|done].
      eapply strongly_sorted_impl; [|exact Hs]. cbn. lia.
    - rewrite (add_all_asc l Hi Hs). split; [|apply length_rev]. by apply strongly_sorted_rev in Hs. }
  destruct Hd as [Hd Hl]. split; [done|]. by apply desc_nth.
Qed.

Lemma cpufreq_table_witness :
  length (add_all [2400000; 2000000; 800000]) = 3%nat /\
  List.nth 2 (add_all [2400000; 2000000; 800000]) 0 <= List.nth 1 (add_all [2400000; 2000000; 800000]) 0.
Proof.
  apply (cpufreq_table_descending [2400000; 2000000; 800000] 1 2).
  - repeat constructor; unfold INT_MAX, INT_MIN; lia.
  - left. repeat constructor; lia.
  - vm_compute. lia.
Defined.
