(* ===== verification/PowerMeter.v ===== *)
(** The RAPL power meter, [cthd_rapl_power_meter]
    (src/thd_rapl_power_meter.cpp): energy counters per power domain, sampled
    into power figures. *)
From stdpp Require Import base gmap strings list.
From Stdlib Require Import ZArith Lia.
From Stdlib Require String.
From S2P Require Import Prelude CString MeterData SysFs.

Open Scope string_scope.
Open Scope list_scope.
Open Scope Z_scope.

Definition rapl_start_measure_power (pm : power_meter) : power_meter :=
  pm <| enable_measurement := true |>.
Definition rapl_stop_measure_power (pm : power_meter) : power_meter :=
  pm <| enable_measurement := false |>.

(** * One sample of a domain *)

(** Lines 152-161: the range of the counter, read until it is known. *)
Definition set_range (value : option Z) (d : rapl_domain_t) : rapl_domain_t :=
  if max_energy_range d =? 0 then
    let d := match value with
             | Some v => d <| max_energy_range := v / 1000 |>
             | None => d
             end in
    d <| max_energy_range_threshold := max_energy_range d / 2 |>
  else d.

Definition track_min_max (d : rapl_domain_t) : rapl_domain_t :=
  let d := if power d >? max_power d then d <| max_power := power d |> else d in
  if min_power d =? 0 then d <| min_power := power d |>
  else if power d <? min_power d then d <| min_power := power d |> else d.

(** Lines 166-193: a new counter value [energy_uj], [dt] seconds after the last. *)
Definition domain_sample (energy_uj dt : Z) (d : rapl_domain_t) : rapl_domain_t :=
  let counter := energy_counter d in
  let d := d <| energy_counter := energy_uj / 1000 |> in
  let wrapped := truthy (half_way d) && (energy_counter d <? max_energy_range_threshold d) in
  let diff := if wrapped then u64 (max_energy_range d - counter) else 0 in
  let counter := if wrapped then 0 else counter in
  let d :=
    if wrapped then
      d <| energy_cumulative_counter := u64 (energy_cumulative_counter d + max_energy_range d) |>
        <| half_way := 0 |>
    else if energy_counter d >? max_energy_range_threshold d then d <| half_way := 1 |>
    else d in
  let d :=
    if truthy counter
    then d <| power := u32 (u64 (energy_counter d - counter + diff) / u64 dt) |>
    else d in
  track_min_max d.

Section meter.
Context {W : Type} `{Kernel W}.

(** One iteration of the loop of [rapl_energy_loop]; [garbage] is what the
    uninitialised local variables hold when a read returns no data. *)
Definition domain_step (garbage dt : Z) (d : rapl_domain_t)
    : State (csys_fs * W) rapl_domain_t :=
  range <-
    (if max_energy_range d =? 0 then
       let* (n, v) := read_ulong (dom_path d +:+ "/" +:+ "max_energy_range_uj") garbage in
       ret (if n >=? 0 then Some v else None)
     else ret None) ;;
  let d := set_range range d in
  let* (n, v) := read_ulong (dom_path d +:+ "/" +:+ "energy_uj") garbage in
  ret (if n >=? 0 then domain_sample v dt d else d).

Fixpoint domains_step (garbage dt : Z) (l : list rapl_domain_t)
    : State (csys_fs * W) (list rapl_domain_t) :=
  match l with
  | [] => ret []
  | d :: rest =>
      d' <- domain_step garbage dt d ;;
      rest' <- domains_step garbage dt rest ;;
      ret (d' :: rest')
  end.

Definition rapl_energy_loop (garbage : Z) : State (power_meter * W) bool := fun '(pm, w) =>
  if negb (enable_measurement pm) then (false, (pm, w)) else
  let '(curr_time, w) := k_time w in
  if curr_time - pm_last_time pm <=? 0 then (true, (pm, w)) else
  let '(l, w) := with_fs "" (domains_step garbage (curr_time - pm_last_time pm) (domain_list pm)) w in
  (true, (pm <| domain_list := l |> <| pm_last_time := curr_time |>, w)).

Definition rapl_measure_power (garbage : Z) : State (power_meter * W) unit := fun '(pm, w) =>
  if rapl_present pm && enable_measurement pm
  then let '(_, st) := rapl_energy_loop garbage (pm, w) in (tt, st)
  else (tt, (pm, w)).

(** A call on the meter of the process. *)
Definition on_meter {A} (m : State (power_meter * W) A) : State W A := fun w =>
  let '(a, (pm, w')) := m (k_meter w, w) in (a, k_set_meter pm w').

(** The first domain of a type. *)
Definition find_domain (type : Z) (pm : power_meter) : option rapl_domain_t :=
  List.find (fun d => dom_type d =? type) (domain_list pm).

Definition rapl_action_get_energy (garbage type : Z) : State (power_meter * W) Z :=
  let* (pm, _) := get in
  match find_domain type pm with
  | None => ret 0
  | Some d =>
      let value d := u64 ((energy_counter d + energy_cumulative_counter d) * 1000) in
      if truthy (value d) then ret (value d) else
      rapl_energy_loop garbage ;;
      gets (fun '(pm, _) => match find_domain type pm with Some d => value d | None => 0 end)
  end.

(** The sampling pause of a meter that has no figure yet. *)
Definition measure_twice (garbage : Z) : State (power_meter * W) unit :=
  rapl_energy_loop garbage ;;
  modify (fun '(pm, w) => (pm, k_sleep 1 w)) ;;
  rapl_energy_loop garbage ;;
  ret tt.

Definition rapl_action_get_power (garbage type : Z) : State (power_meter * W) Z :=
  let* (pm, _) := get in
  if negb (rapl_present pm) then ret 0 else
  match find_domain type pm with
  | None => ret 0
  | Some d =>
      let value d := u32 (power d * 1000) in
      if truthy (value d) then ret (value d) else
      measure_twice garbage ;;
      gets (fun '(pm, _) => match find_domain type pm with Some d => value d | None => 0 end)
  end.

Definition rapl_action_get_last_power (type : Z) (pm : power_meter) : Z :=
  if negb (rapl_present pm) then 0 else
  match find_domain type pm with Some d => u32 (power d * 1000) | None => 0 end.

(** The overload that also stores the extremes, [(value, max_power, min_power)]. *)
Definition rapl_action_get_power_range (garbage type old_max old_min : Z)
    : State (power_meter * W) (Z * Z * Z) :=
  let* (pm, _) := get in
  if negb (rapl_present pm) then ret (0, old_max, old_min) else
  match find_domain type pm with
  | None => ret (0, old_max, old_min)
  | Some d =>
      (if truthy (u32 (power d * 1000)) then ret tt else measure_twice garbage) ;;
      gets (fun '(pm, _) =>
        match find_domain type pm with
        | Some d => (u32 (power d * 1000), u32 (max_power d * 1000), u32 (min_power d * 1000))
        | None => (0, old_max, old_min)
        end)
  end.

(** The larger of the two constraint limits of the first domain of the type
    that has one. *)
Definition constraint_value (garbage : Z) (path : string) : State (csys_fs * W) Z :=
  let* (n, v) := read_int path garbage in
  ret (if (n >=? 0) && (v >? 0) then v else 0).

Fixpoint max_power_loop (garbage type : Z) (l : list rapl_domain_t) : State W Z :=
  match l with
  | [] => ret 0
  | d :: rest =>
      if dom_type d =? type then
        value <- with_fs "" (
          c0 <- constraint_value garbage (dom_path d +:+ "/" +:+ "constraint_0_max_power_uw") ;;
          c1 <- constraint_value garbage (dom_path d +:+ "/" +:+ "constraint_1_max_power_uw") ;;
          ret (if c1 >? c0 then c1 else c0)) ;;
        if truthy value then ret value else max_power_loop garbage type rest
      else max_power_loop garbage type rest
  end.

Definition rapl_action_get_max_power (garbage type : Z) : State (power_meter * W) Z := fun '(pm, w) =>
  if negb (rapl_present pm) then (0, (pm, w)) else
  let '(v, w') := max_power_loop garbage type (domain_list pm) w in (v, (pm, w')).

(** * Discovery *)

Definition domain_type_of (name : string) : Z :=
  if starts_with name "package-" then PACKAGE
  else if String.eqb name "core" then CORE
  else if String.eqb name "uncore" then UNCORE
  else if String.eqb name "dram" then DRAM
  else INVALID.

Definition new_domain (type : Z) (name path : string) : rapl_domain_t :=
  mk_domain type name path 0 0 0 0 0 0 0 0.

(** [rapl_read_domains]: the directory and, below each package, its
    sub-domains.  [depth] bounds the nesting of directories. *)
Fixpoint rapl_read_domains (depth : nat) (dir_name : string) (fs : csys_fs)
    : State (power_meter * W) unit :=
  match depth with
  | O => ret tt
  | S depth' =>
      let* (pm, w) := get in
      if negb (rapl_present pm) then ret tt else
      match k_readdir dir_name w with
      | None => ret tt
      | Some entries =>
          mfor entries (fun name =>
            if (thd_strcmp_n (Some name) (Some ".") =? 0)
               || (thd_strcmp_n (Some name) (Some "..") =? 0) then ret tt else
            let* (pm, w) := get in
            let path := dir_name +:+ name +:+ "/" +:+ "name" in
            let '(ex, _) := exists_path path (fs, w) in
            if negb ex then ret tt else
            let '((status, buffer), (_, w')) := read_string path "" (fs, w) in
            put (pm, w') ;;
            if status <? 0 then ret tt else
            let type := domain_type_of buffer in
            (if type =? PACKAGE
             then rapl_read_domains depth' (dir_name +:+ name +:+ "/") (new_csys_fs "")
             else ret tt) ;;
            modify (fun '(pm, w) =>
              (if truthy (Z.land (measure_mask pm) type)
               then pm <| domain_list := domain_list pm ++ [new_domain type buffer (dir_name +:+ name)] |>
               else pm, w)))
      end
  end.

Definition new_power_meter (depth : nat) (mask : Z) (w : W) : power_meter * W :=
  let base := "/sys/class/powercap/intel-rapl/" in
  let pm := mk_meter true [] 0 mask false in
  match exists_path "" (new_csys_fs base, w) with
  | (true, _) =>
      let '(t, w) := k_time w in
      snd (rapl_read_domains depth base (new_csys_fs "") (pm <| pm_last_time := t |>, w))
  | (false, _) => (pm <| rapl_present := false |>, w)
  end.
End meter.

(** * The counter that wraps around *)

(** A domain that has sampled a counter whose true total, since the range was
    learned, is [total] mJ. *)
Definition meter_ok (R total : Z) (d : rapl_domain_t) : Prop :=
  max_energy_range d = R /\ max_energy_range_threshold d = R / 2 /\
  energy_counter d = total mod R /\
  (half_way d = 0 \/ half_way d = 1) /\
  (half_way d = 1 <-> R / 2 < energy_counter d).

Lemma track_min_max_fields d :
  let d' := track_min_max d in
  max_energy_range d' = max_energy_range d /\
  max_energy_range_threshold d' = max_energy_range_threshold d /\
  energy_counter d' = energy_counter d /\ half_way d' = half_way d /\
  energy_cumulative_counter d' = energy_cumulative_counter d /\ power d' = power d.
Proof. unfold track_min_max. split_if; cbn; done. Qed.

Lemma domain_sample_fields e dt d :
  let d' := domain_sample e dt d in
  let c := e / 1000 in
  let wrapped := truthy (half_way d) && (c <? max_energy_range_threshold d) in
  max_energy_range d' = max_energy_range d /\
  max_energy_range_threshold d' = max_energy_range_threshold d /\
  energy_counter d' = c /\
  half_way d' = (if wrapped then 0
                 else if c >? max_energy_range_threshold d then 1 else half_way d) /\
  energy_cumulative_counter d' =
    (if wrapped then u64 (energy_cumulative_counter d + max_energy_range d)
     else energy_cumulative_counter d) /\
  (wrapped = true -> power d' = power d) /\
  (wrapped = false -> power d' =
    if truthy (energy_counter d) then u32 (u64 (c - energy_counter d) / u64 dt) else power d).
Proof.
  cbn zeta. unfold domain_sample. set (c := e / 1000). clearbody c.
  match goal with |- context [track_min_max ?x] =>
    destruct (track_min_max_fields x) as (-> & -> & -> & -> & -> & ->) end.
  cbn -[u64 u32 truthy Z.ltb Z.gtb Z.sub Z.add].
  destruct (truthy (half_way d) && (c <? max_energy_range_threshold d)).
  - change (truthy 0) with false. cbn. repeat split; done.
  - rewrite Z.add_0_r. destruct (c >? max_energy_range_threshold d), (truthy (energy_counter d));
      cbn -[u64 u32]; rewrite ?Z.add_0_r; repeat split; done.
Qed.

(** The value the kernel shows for a true total: it wraps at [R] mJ. *)
Definition shown_uj (R total : Z) : Z := 1000 * (total mod R).

Lemma domain_sample_step R total delta dt d :
  2 <= R -> 0 <= total -> 0 <= delta < R / 2 -> meter_ok R total d ->
  0 <= energy_cumulative_counter d -> energy_cumulative_counter d + R < 2 ^ 64 ->
  let d' := domain_sample (shown_uj R (total + delta)) dt d in
  meter_ok R (total + delta) d' /\
  0 <= energy_cumulative_counter d' <= energy_cumulative_counter d + R /\
  energy_cumulative_counter d' + energy_counter d' =
    energy_cumulative_counter d + energy_counter d + delta.
Proof.
  intros HR Ht Hd (H1 & H2 & H3 & H4 & H5) Hc0 Hc. cbn zeta.
  assert (Hnew : shown_uj R (total + delta) / 1000 = (total + delta) mod R).
  { unfold shown_uj. rewrite Z.mul_comm. apply Z.div_mul. lia. }
  pose proof (Z.mod_pos_bound total R ltac:(lia)) as Hb.
  pose proof (Z.mod_pos_bound (total + delta) R ltac:(lia)) as Hb'.
  pose proof (Z.div_mod total R ltac:(lia)) as Hdm.
  pose proof (Z.div_mod R 2 ltac:(lia)) as HR2.
  pose proof (Z.mod_pos_bound R 2 ltac:(lia)) as HR2b.
  assert (Hmod : (total + delta) mod R =
    if total mod R + delta <? R then total mod R + delta else total mod R + delta - R).
  { destruct (Z.ltb_spec (total mod R + delta) R).
    - symmetry. apply Z.mod_unique with (total / R); lia.
    - symmetry. apply Z.mod_unique with (total / R + 1); lia. }
  destruct (domain_sample_fields (shown_uj R (total + delta)) dt d)
    as (F1 & F2 & F3 & F4 & F5 & _). rewrite Hnew in *.
  set (c' := (total + delta) mod R) in *. unfold meter_ok.
  rewrite F1, F2, F3, F4, F5, H1, H2. clear F1 F2 F3 F4 F5.
  destruct (truthy (half_way d) && (c' <? R / 2)) eqn:Ew.
  - b2p. rewrite u64_id by lia.
    destruct (Z.ltb_spec (total mod R + delta) R); [|split; [repeat split; lia|lia]].
    assert (half_way d = 1) as Hh by lia. apply H5 in Hh. lia.
  - assert (Hno : c' = total mod R + delta).
    { destruct (Z.ltb_spec (total mod R + delta) R); [exact Hmod|]. exfalso.
      assert (half_way d = 1) as Hh by (apply H5; lia).
      rewrite Hh in Ew. change (truthy 1) with true in Ew. cbn in Ew. b2p. lia. }
    destruct (c' >? R / 2) eqn:Eg; b2p; (split; [repeat split; lia|lia]).
Qed.

(** The samples [delta_1, delta_2, ...] (with their intervals) of a domain. *)
Fixpoint meter_run (R total : Z) (samples : list (Z * Z)) (d : rapl_domain_t) : rapl_domain_t :=
  match samples with
  | [] => d
  | (delta, dt) :: rest =>
      meter_run R (total + delta) rest (domain_sample (shown_uj R (total + delta)) dt d)
  end.

Definition consumed (samples : list (Z * Z)) : Z := foldr (fun s acc => fst s + acc) 0 samples.

(** C32: the meter follows a counter that wraps around.  If less than half of
    the counter's range is consumed between samples, then after any number of
    samples the cumulative counter plus the counter has advanced by exactly the
    energy consumed, however often the hardware counter wrapped. *)
Theorem meter_tracks_energy R total samples d :
  2 <= R -> 0 <= total -> Forall (fun s => 0 <= fst s < R / 2) samples -> meter_ok R total d ->
  0 <= energy_cumulative_counter d ->
  energy_cumulative_counter d + R * Z.of_nat (length samples) < 2 ^ 64 ->
  let d' := meter_run R total samples d in
  energy_cumulative_counter d' + energy_counter d' =
  energy_cumulative_counter d + energy_counter d + consumed samples.
Proof.
  intros HR. revert total d. induction samples as [|[delta dt] rest IH]; intros total d Ht HF Hok Hc0 Hc.
  - cbn. lia.
  - inversion HF as [|? ? Hd HF']; subst. cbn in Hd. cbn [meter_run consumed foldr].
    cbn [length] in Hc.
    destruct (domain_sample_step R total delta dt d HR Ht Hd Hok Hc0 ltac:(nia)) as (Ok & Hcb & Hsum).
    rewrite IH; try done; try lia. unfold consumed. cbn. lia.
Qed.

Definition meter_domain : rapl_domain_t :=
  mk_domain PACKAGE "package-0" "" 1000 500 1 0 900 0 0 0.

Lemma meter_tracks_energy_witness :
  let d' := meter_run 1000 900 [(300, 10); (400, 10); (450, 10)] meter_domain in
  energy_cumulative_counter d' + energy_counter d' = 0 + 900 + 1150.
Proof.
  apply (meter_tracks_energy 1000 900 [(300, 10); (400, 10); (450, 10)] meter_domain); try (cbn; lia).
  - repeat constructor; cbn; lia.
  - unfold meter_ok. cbn. repeat split; lia.
Defined.

(** The sample after a wrap-around yields no power figure.  The code
    computes the energy across the wrap in [diff] but clears [counter], the
    guard of the assignment, so [power] keeps the value of the previous
    interval whatever was consumed. *)
Theorem power_stale_after_wrap energy_uj dt d :
  half_way d = 1 -> energy_uj / 1000 < max_energy_range_threshold d ->
  power (domain_sample energy_uj dt d) = power d.
Proof.
  intros Hh Hw. apply Z.ltb_lt in Hw.
  destruct (domain_sample_fields energy_uj dt d) as (_ & _ & _ & _ & _ & Hp & _).
  apply Hp. by rewrite Hh, Hw.
Qed.

Lemma power_stale_witness : power (domain_sample 100000 10 meter_domain) = 0.
Proof. apply (power_stale_after_wrap 100000 10 meter_domain); [reflexivity|vm_compute; reflexivity]. Defined.
