(* ===== verification/CdevRapl.v ===== *)
(** The RAPL power-limit cooling device, [cthd_sysfs_cdev_rapl]
    (src/thd_cdev_rapl.cpp), and its DRAM variant
    (src/thd_cdev_rapl_dram.cpp).  Its states are power limits in microwatts,
    so the range runs downwards: [min_state] is the highest limit. *)
From stdpp Require Import base gmap strings list.
From Stdlib Require Import ZArith Lia Ascii.
From Stdlib Require String.
From S2P Require Import Prelude CString MeterData SysFs CFloat Pid Cdev CdevLimits CdevControl CdevDevices PowerMeter.

Open Scope string_scope.
Open Scope Z_scope.

(** * What the device asks of the engine *)

Record ppcc_t := mk_ppcc {
  ppcc_name : string; ppcc_valid : Z;
  power_limit_min : Z; power_limit_max : Z; time_wind_min : Z; time_wind_max : Z; step_size : Z;
  limit_1_valid : Z;
  power_limit_1_min : Z; power_limit_1_max : Z; time_wind_1_min : Z; time_wind_1_max : Z;
  step_1_size : Z;
}.

(** [struct adaptive_target]. *)
Record adaptive_target := mk_adaptive_target {
  target_id : Z; target_name : string; target_participant : string; target_domain : Z;
  target_code : string; target_argument : string;
}.

(** The engine operations the device calls. *)
Class RaplEngine (W : Type) := {
  eng_uninit : W -> Z;      (* what an unassigned local of the power meter holds *)
  eng_get_ppcc_param : string -> W -> option ppcc_t;
  eng_search_idsp : string -> W -> Z;
}.

(** * The device *)

Record rapl_ext := mk_rapl {
  phy_max : Z; package_id : Z; constraint_index : Z; pl2_index : Z;
  dynamic_phy_max_enable : bool;
  pl0_max_pwr : Z; pl0_min_pwr : Z; pl0_min_window : Z; pl0_max_window : Z; pl0_step_pwr : Z;
  pl1_max_pwr : Z; pl1_min_pwr : Z; pl1_min_window : Z; pl1_max_window : Z; pl1_step_pwr : Z;
  pl1_valid : Z;
  bios_locked : bool; constrained : bool;
  power_on_constraint_0_pwr : Z; power_on_constraint_0_time_window : Z;
  power_on_enable_status : Z;
  device_name : string;
}.
#[export] Instance eta_rapl : Eta rapl_ext := {| eta_of := fun x =>
  mk_rapl (phy_max x) (package_id x) (constraint_index x) (pl2_index x)
    (dynamic_phy_max_enable x) (pl0_max_pwr x) (pl0_min_pwr x) (pl0_min_window x)
    (pl0_max_window x) (pl0_step_pwr x) (pl1_max_pwr x) (pl1_min_pwr x) (pl1_min_window x)
    (pl1_max_window x) (pl1_step_pwr x) (pl1_valid x) (bios_locked x) (constrained x)
    (power_on_constraint_0_pwr x) (power_on_constraint_0_time_window x)
    (power_on_enable_status x) (device_name x) |}.

Definition rapl_no_time_windows : nat := 6.
Definition def_rapl_time_window : Z := 1000000.
Definition rapl_min_default_step : Z := 500000.
Definition rapl_max_sane_phy_max : Z := 1000000000.
Definition rapl_low_limit_percent : Z := 50.
Definition rapl_power_dec_percent : Z := 5.

Definition new_rapl (_index package : Z) (contol_path : string) : cdev rapl_ext :=
  new_cdev _index contol_path
    (mk_rapl 0 package 0 (-1) false 0 0 0 0 0 0 0 0 0 0 0 false false 0 0 0 "TCPU.D0").

(** [std::stoi]; [None] is the exception it throws. *)
Definition stoi (s : string) : option Z :=
  let s := skip_space s in
  if starts_number s then
    let v := signed_val s in
    if (INT_MIN <=? v) && (v <=? INT_MAX) then Some v else None
  else None.

Section rapl.
Context {W : Type} `{Kernel W} `{RaplEngine W}.
Abbreviation M := (State (cdev rapl_ext * W)).

(** The meter of the engine. *)
Definition start_measure : State W unit := on_meter (modify (fun '(pm, w) => (rapl_start_measure_power pm, w))).
Definition package_power : State W Z := fun w => on_meter (rapl_action_get_power (eng_uninit w) PACKAGE) w.

Definition eng {A} (m : State W A) : M A :=
  fun '(d, w) => let '(a, w') := m w in (a, (d, w')).
Definition setx (f : rapl_ext -> rapl_ext) : M unit := modd (fun d => d <| ext := f (ext d) |>).

Definition constraint_file (i : Z) (attr : string) : string :=
  "constraint_" +:+ string_of_Z i +:+ attr.

(** A read of an [int] attribute, [THD_ERROR] when nothing was read. *)
Definition rapl_read (path : string) : M Z :=
  let* (n, v) := fs_op (read_int path 0) in
  ret (if n >? 0 then v else THD_ERROR).
(** A write, [THD_ERROR] when nothing was written. *)
Definition rapl_write (path : string) (v : Z) : M Z :=
  n <- fs_op (write_uint path v) ;;
  ret (if n <=? 0 then THD_ERROR else THD_SUCCESS).
(** The power limit writes return the write's own result. *)
Definition rapl_write_limit (path : string) (v : Z) : M Z :=
  n <- fs_op (write_uint path v) ;;
  ret (if n <=? 0 then n else THD_SUCCESS).

Definition rapl_read_pl1_max : M Z :=
  d <- getd ;; rapl_read (constraint_file (constraint_index (ext d)) "_max_power_uw").
Definition rapl_read_pl1 : M Z :=
  d <- getd ;; rapl_read (constraint_file (constraint_index (ext d)) "_power_limit_uw").
Definition rapl_update_pl1 (pl1 : Z) : M Z :=
  d <- getd ;; rapl_write_limit (constraint_file (constraint_index (ext d)) "_power_limit_uw") pl1.
Definition rapl_read_pl2 : M Z :=
  d <- getd ;; rapl_read (constraint_file (pl2_index (ext d)) "_power_limit_uw").
Definition rapl_update_pl2 (pl2 : Z) : M Z :=
  d <- getd ;;
  if pl2_index (ext d) =? -1 then ret THD_ERROR
  else rapl_write_limit (constraint_file (pl2_index (ext d)) "_power_limit_uw") pl2.
Definition rapl_read_time_window : M Z :=
  d <- getd ;; rapl_read (constraint_file (constraint_index (ext d)) "_time_window_us").
Definition rapl_update_time_window (time_window : Z) : M Z :=
  d <- getd ;; rapl_write (constraint_file (constraint_index (ext d)) "_time_window_us") time_window.
Definition rapl_update_pl2_time_window (time_window : Z) : M Z :=
  d <- getd ;; rapl_write (constraint_file (pl2_index (ext d)) "_time_window_us") time_window.
Definition rapl_update_enable_status (enable : Z) : M Z := rapl_write "enabled" enable.
Definition rapl_read_enable_status : M Z := rapl_read "enabled".

(** ** set_curr_state *)

(** The limit that is written for a requested state. *)
Definition rapl_new_state (d : cdev rapl_ext) (state : Z) : Z :=
  let s := if state <? max_state d then max_state d else state in
  if s >=? min_state d then
    if truthy (power_on_constraint_0_pwr (ext d)) then power_on_constraint_0_pwr (ext d)
    else min_state d
  else s.

(** Leaving ([true]) or entering the constrained mode, lines 53-84. *)
Definition rapl_mode (state control : Z) : M unit :=
  d <- getd ;;
  let s := if state <? max_state d then max_state d else state in
  if s >=? min_state d then
    modd (fun d => d <| curr_state := min_state d |>) ;;
    (if negb (truthy (power_on_enable_status (ext d)))
     then rapl_update_enable_status 0 ;; ret tt else ret tt) ;;
    rapl_update_time_window (power_on_constraint_0_time_window (ext d)) ;;
    setx (fun x => x <| constrained := false |>)
  else if truthy control && negb (constrained (ext d)) then
    rapl_update_time_window
      (if truthy (pl0_min_window (ext d)) then pl0_min_window (ext d) else def_rapl_time_window) ;;
    (if negb (truthy (power_on_enable_status (ext d)))
     then rapl_update_enable_status 1 ;; ret tt else ret tt) ;;
    setx (fun x => x <| constrained := true |>)
  else ret tt.

Definition rapl_set_curr_state (state control : Z) : M unit :=
  d <- getd ;;
  if bios_locked (ext d) then
    modd (fun d => d <| curr_state := if state <=? inc_dec_val d then min_state d else max_state d |>)
  else
    let new_state := rapl_new_state d state in
    rapl_mode state control ;;
    r <- rapl_update_pl1 new_state ;;
    (if r <? 0 then
       modd (fun d => d <| curr_state := if state =? 0 then 0 else max_state d |>) ;;
       if r =? - ENODATA then setx (fun x => x <| bios_locked := true |>) else ret tt
     else ret tt) ;;
    modd (fun d => d <| curr_state := new_state |>).

Definition rapl_get_curr_state_again : M Z :=
  d <- getd ;;
  if dynamic_phy_max_enable (ext d) then
    eng start_measure ;;
    p <- eng package_power ;;
    let power := i32 p in
    pl1 <- rapl_read_pl1 ;;
    ret (if negb (pl1 =? THD_ERROR) && (pl1 <? power) then pl1 else power)
  else ret (curr_state d).

(** ** Discovery *)

Definition rapl_sysfs_valid : M Z :=
  found <- fold_left (fun (acc : M bool) i =>
    found <- acc ;;
    let path := "constraint_" +:+ string_of_Z i +:+ "_name" in
    ex <- fs_op (exists_path path) ;;
    if ex : bool then
      let* (_, t) := fs_op (read_string path "") in
      (if String.eqb t "long_term" then setx (fun x => x <| constraint_index := i |>) else ret tt) ;;
      (if String.eqb t "short_term" then setx (fun x => x <| pl2_index := i |>) else ret tt) ;;
      ret (found || String.eqb t "long_term")
    else ret found) [0; 1; 2; 3; 4; 5] (ret false) ;;
  if negb found then ret THD_ERROR else
  d <- getd ;;
  ex <- fs_op (exists_path (constraint_file (constraint_index (ext d)) "_power_limit_uw")) ;;
  if negb ex then ret THD_ERROR else
  ex <- fs_op (exists_path (constraint_file (constraint_index (ext d)) "_time_window_us")) ;;
  if negb ex then ret THD_ERROR else ret 0.

(** Lines 485-530: limits from the configured PPCC table, in mW. *)
Definition ppcc_limits (p : ppcc_t) (x : rapl_ext) : rapl_ext :=
  let x := x <| pl0_max_pwr := i32 (power_limit_max p * 1000) |>
             <| pl0_min_pwr := i32 (power_limit_min p * 1000) |>
             <| pl0_min_window := i32 (time_wind_min p * 1000) |>
             <| pl0_max_window := i32 (time_wind_max p * 1000) |>
             <| pl0_step_pwr := i32 (step_size p * 1000) |>
             <| pl1_valid := limit_1_valid p |> in
  if truthy (limit_1_valid p) then
    x <| pl1_max_pwr := i32 (power_limit_1_max p * 1000) |>
      <| pl1_min_pwr := i32 (power_limit_1_min p * 1000) |>
      <| pl1_min_window := i32 (time_wind_1_min p * 1000) |>
      <| pl1_max_window := i32 (time_wind_1_max p * 1000) |>
      <| pl1_step_pwr := i32 (step_1_size p * 1000) |>
  else x.

(** The local [sys_fs] of [read_ppcc_power_limits] beside the device. *)
Abbreviation LM := (State (csys_fs * (cdev rapl_ext * W))).
Definition on_device {A} (m : M A) : LM A :=
  fun '(fs, s) => let '(a, s') := m s in (a, (fs, s')).
Definition on_local {A} (m : State (csys_fs * W) A) : LM A :=
  fun '(fs, (d, w)) => let '(a, (fs', w')) := m (fs, w) in (a, (fs', (d, w'))).

(** One attribute of the PCI power_limits directory: [false] stops. *)
Definition read_limit (attr : string) (old : rapl_ext -> Z)
    (set : Z -> rapl_ext -> rapl_ext) : LM bool :=
  d <- on_device getd ;;
  ex <- on_local (exists_path attr) ;;
  if negb ex then ret true else
  let* (n, v) := on_local (read_int attr (old (ext d))) in
  on_device (setx (set v)) ;;
  ret (n >? 0).

Definition power_limit_dirs : list string :=
  [ "/sys/bus/pci/devices/0000:00:04.0/power_limits/";
    "/sys/bus/pci/devices/0000:00:0b.0/power_limits/";
    "/sys/bus/platform/devices/INT3401:00/power_limits/" ].

Definition find_power_limit_dir (w : W) : option string :=
  List.find (fun p => fst (exists_path p (new_csys_fs "", w))) power_limit_dirs.

Definition read_ppcc_sysfs : LM bool :=
  ok <- read_limit "power_limit_0_max_uw" pl0_max_pwr (fun v x => x <| pl0_max_pwr := v |>) ;;
  if negb ok then ret false else
  ok <- read_limit "power_limit_0_min_uw" pl0_min_pwr (fun v x => x <| pl0_min_pwr := v |>) ;;
  if negb ok then ret false else
  ok <- read_limit "power_limit_0_tmin_us" pl0_min_window (fun v x => x <| pl0_min_window := v |>) ;;
  if negb ok then ret false else
  ok <- read_limit "power_limit_0_tmax_us" pl0_max_window (fun v x => x <| pl0_max_window := v |>) ;;
  if negb ok then ret false else
  ok <- read_limit "power_limit_0_step_uw" pl0_step_pwr (fun v x => x <| pl0_step_pwr := v |>) ;;
  if negb ok then ret false else
  d <- on_device getd ;;
  let x := ext d in
  if truthy (pl0_max_pwr x) && truthy (pl0_min_pwr x) && truthy (pl0_min_window x)
     && truthy (pl0_step_pwr x) && truthy (pl0_max_window x) then
    if pl0_max_pwr x <=? pl0_min_pwr x then ret false else
    def_max_power <- on_device rapl_read_pl1_max ;;
    ret (negb (def_max_power >? pl0_max_pwr x))
  else ret false.

(** Run with a [sys_fs] at [dir]; its destructor closes what was opened. *)
Definition with_limits (dir : string) (m : LM bool) : M bool := fun s =>
  let '(r, (fs, (d, w))) := m (new_csys_fs dir, s) in (r, (d, destroy_csys_fs fs w)).

Definition read_ppcc_power_limits : M bool :=
  d <- getd ;;
  p <- gets (fun '(d, w) => eng_get_ppcc_param (device_name (ext d)) w) ;;
  match p with
  | Some ppcc =>
      setx (ppcc_limits ppcc) ;;
      d <- getd ;;
      if pl0_max_pwr (ext d) <=? pl0_min_pwr (ext d) then ret false else
      matched <- gets (fun '(_, w) =>
        (eng_search_idsp "63BE270F-1C11-48FD-A6F7-3AF253FF3E2D" w =? THD_SUCCESS)
        || (eng_search_idsp "9E04115A-AE87-4D1C-9500-0F3E340BFE75" w =? THD_SUCCESS)) ;;
      if matched : bool then ret true else
      rapl_read_pl1_max ;;       (* for the warning only *)
      ret true
  | None =>
      let* (_, domain_name) := fs_op (read_string "name" "") in
      if negb (String.eqb domain_name "package-0") then ret false else
      dir <- gets (fun '(_, w) => find_power_limit_dir w) ;;
      match dir with
      | None => ret false
      | Some dir => with_limits dir read_ppcc_sysfs
      end
  end.

(** [set_inc_value(-step * 2)], [set_dec_value(-step)]. *)
Definition set_power_steps (d : cdev rapl_ext) : cdev rapl_ext :=
  d <| inc_val := i32 (- pl0_step_pwr (ext d) * 2) |> <| dec_val := i32 (- pl0_step_pwr (ext d)) |>.

(** Lines 380-414: a platform with defined power limits. *)
Definition rapl_update_ppcc : M unit :=
  setx (fun x => x <| phy_max := pl0_max_pwr x |>) ;;
  modd set_power_steps ;;
  modd (fun d => d <| min_state := pl0_max_pwr (ext d) |> <| max_state := pl0_min_pwr (ext d) |>) ;;
  d <- getd ;;
  let x := ext d in
  rapl_update_pl1 (pl0_max_pwr x) ;;
  (if pl0_max_window x >? pl0_min_window x
   then rapl_update_time_window (pl0_max_window x) ;; ret tt else ret tt) ;;
  eng start_measure ;;
  setx (fun x => x <| dynamic_phy_max_enable := true |>) ;;
  pl2 <- rapl_read_pl2 ;;
  if pl2 =? 0 then
    if truthy (pl1_max_pwr x) then
      rapl_update_pl2 (pl1_max_pwr x) ;;
      rapl_update_pl2_time_window (pl1_max_window x) ;;
      rapl_update_enable_status 1 ;; ret tt
    else ret tt
  else rapl_update_enable_status 1 ;; ret tt.

(** Lines 423-447: no sane limit, find the physical maximum dynamically. *)
Definition rapl_update_dynamic : M unit :=
  fs_op (read_string "name" "") ;;
  p <- rapl_read_pl1 ;;
  setx (fun x => x <| power_on_constraint_0_pwr := p |>) ;;
  t <- rapl_read_time_window ;;
  setx (fun x => x <| power_on_constraint_0_time_window := t |>) ;;
  modd (fun d => d <| max_state := 0 |> <| ext := (ext d) <| phy_max := 0 |> |>
                   <| min_state := rapl_max_sane_phy_max |> <| curr_state := rapl_max_sane_phy_max |>) ;;
  eng start_measure ;;
  modd (fun d => d <| inc_dec_val := - rapl_min_default_step |>) ;;
  setx (fun x => x <| dynamic_phy_max_enable := true |>).

(** Lines 449-464: range and step as percentages of the maximum. *)
Definition rapl_update_static : M unit :=
  constraint_phy_max <- rapl_read_pl1 ;;
  setx (fun x => if constraint_phy_max >? phy_max x then x <| phy_max := constraint_phy_max |> else x) ;;
  modd (fun d =>
    let m := phy_max (ext d) in
    d <| inc_dec_val := int_of_float (float_div (float_mul (float_of_Z (i32 (- m)))
                          (float_of_Z rapl_power_dec_percent)) (float_of_Z 100)) |>
      <| min_state := m |>
      <| max_state := int_of_float (float_sub (float_of_Z m)
           (float_div (float_mul (float_of_Z m) (float_of_Z rapl_low_limit_percent)) (float_of_Z 100))) |>).

Definition rapl_update_finish : M Z :=
  t <- rapl_read_time_window ;;
  setx (fun x => x <| power_on_constraint_0_time_window := t |>) ;;
  e <- rapl_read_enable_status ;;
  setx (fun x => x <| power_on_enable_status := e |>) ;;
  modd (fun d => d
    <| pid_ctrl := set_pid_param (double_of_Z (-1000)) (double_of_Z 100) (double_of_Z 10) (pid_ctrl d) |>
    <| curr_state := min_state d |>) ;;
  ret THD_SUCCESS.

Definition rapl_update : M Z :=
  v <- rapl_sysfs_valid ;;
  if truthy v then ret THD_ERROR else
  ppcc <- read_ppcc_power_limits ;;
  if ppcc : bool then rapl_update_ppcc ;; rapl_update_finish
  else
    m <- rapl_read_pl1_max ;;
    setx (fun x => x <| phy_max := m |>) ;;
    if (m <? 0) || (m >? rapl_max_sane_phy_max) then rapl_update_dynamic ;; ret THD_SUCCESS
    else rapl_update_static ;; rapl_update_finish.

(** ** Adaptive targets *)

Definition set_tcc (tcc : Z) : M unit := fun '(d, w) =>
  let '(_, w') := with_fs "/sys/bus/pci/devices/0000:00:04.0/" (
    ex <- exists_path "tcc_offset_degree_celsius" ;;
    if ex : bool then write_uint "tcc_offset_degree_celsius" tcc ;; ret tt else ret tt) w in
  (tt, (d, w')).

Definition rapl_set_target (code : string) (argument : Z) : M unit :=
  let value := i32 (argument * 1000) in
  if String.eqb code "PL1MAX" then
    modd (fun d => d <| min_state := value |> <| ext := (ext d) <| pl0_max_pwr := value |> |>) ;;
    pl1_rapl <- rapl_read_pl1 ;;
    d <- getd ;;
    (if curr_state d >? pl1_rapl then rapl_set_curr_state pl1_rapl 1 else ret tt) ;;
    d <- getd ;;
    if curr_state d >? min_state d then rapl_set_curr_state (min_state d) 1 else ret tt
  else if String.eqb code "PL1MIN" then
    modd (fun d => d <| max_state := value |> <| ext := (ext d) <| pl0_min_pwr := value |> |>) ;;
    d <- getd ;;
    if curr_state d <? max_state d then rapl_set_curr_state (max_state d) 1 else ret tt
  else if String.eqb code "PL1STEP" then
    setx (fun x => x <| pl0_step_pwr := value |>) ;;
    modd set_power_steps
  else if String.eqb code "PL1TimeWindow" then setx (fun x => x <| pl0_min_window := value |>)
  else if String.eqb code "PL1PowerLimit" then rapl_update_pl1 value ;; ret tt
  else if String.eqb code "PL2PowerLimit" then rapl_update_pl2 value ;; ret tt
  else if String.eqb code "TccOffset" then set_tcc argument
  else ret tt.

(** [None]: the conversion of the argument throws, nothing else happens. *)
Definition rapl_set_adaptive_target (t : adaptive_target) : M (option unit) :=
  match stoi (target_argument t) with
  | None => ret None
  | Some argument => rapl_set_target (target_code t) argument ;; ret (Some tt)
  end.

Definition rapl_thd_cdev_set_min_state_param (arg : Z) : M unit :=
  modd (fun d => d <| min_state := arg |> <| curr_state := arg |>).

(** ** cthd_sysfs_cdev_rapl_dram *)

Definition rapl_base : string := "/sys/devices/virtual/powercap/intel-rapl/intel-rapl:0/".

Definition new_rapl_dram (_index package : Z) : cdev rapl_ext :=
  let d := new_rapl _index package rapl_base in
  d <| ext := (ext d) <| device_name := "TMEM.D0" |> |>.

(** The sub-domain directory named "dram". *)
Definition is_dram (w : W) (entry : string) : bool :=
  let fs := (new_csys_fs (rapl_base +:+ entry +:+ "/" +:+ "name"), w) in
  fst (exists_path "" fs) &&
  let '(status, name) := fst (read_string "" "" fs) in
  (status >=? 0) && String.eqb name "dram".

Definition rapl_dram_update : M Z :=
  names <- gets (fun '(_, w) => k_readdir rapl_base w) ;;
  match names with
  | None => ret THD_ERROR
  | Some names =>
      entry <- gets (fun '(_, w) => List.find (is_dram w) names) ;;
      match entry with
      | None => ret THD_ERROR
      | Some e =>
          modd (fun d => d <| cdev_sysfs := update_path (rapl_base +:+ e +:+ "/") (cdev_sysfs d) |>) ;;
          rapl_update
      end
  end.

#[export] Instance rapl_methods : CdevMethods rapl_ext W := {
  m_set_curr_state := rapl_set_curr_state;
  m_set_curr_state_raw := rapl_set_curr_state;
  m_get_curr_state := base_get_curr_state;
  m_get_curr_state_again := rapl_get_curr_state_again;
  m_get_max_state := base_get_max_state;
  m_map_target_state := fun _ _ t => t;
  m_update := rapl_update
}.
End rapl.

(** * Laws and bounds *)

(** What a power-limit command leaves alone. *)
Definition rapl_frame (d : cdev rapl_ext) :=
  (ctl d, max_state d, power_on_constraint_0_pwr (ext d), bios_locked (ext d)).

Lemma keeps_fs_op_rapl {W A} (m : State (csys_fs * W) A) : keeps rapl_frame (fs_op m).
Proof.
  intros [d w]. unfold fs_op. cbn. destruct (m (cdev_sysfs d, w)) as [a [fs w']]. reflexivity.
Qed.

Section rapl_laws.
Context {W : Type} `{Kernel W} `{RaplEngine W}.

Lemma keeps_eng {B A} (f : cdev rapl_ext -> B) (m : State W A) : keeps f (eng m).
Proof. intros [d w]. unfold eng. by destruct (m w). Qed.

Hint Resolve keeps_eng keeps_fs_op_rapl : thd.

Lemma rapl_mode_frame st c : keeps (W := W) rapl_frame (rapl_mode st c).
Proof.
  unfold rapl_mode, rapl_update_enable_status, rapl_update_time_window, rapl_write, setx. keeps_tac.
Qed.

Lemma rapl_update_pl1_frame v :
  keeps (W := W) (fun d => (rapl_frame d, ext d, curr_state d)) (rapl_update_pl1 v).
Proof.
  unfold rapl_update_pl1, rapl_write_limit. keeps_tac.
  intros [d w]. unfold fs_op. cbn. destruct (write_uint _ _ _) as [n [fs w']]. reflexivity.
Qed.

#[export] Instance rapl_laws : CdevLaws rapl_ext W.
Proof.
  assert (Hset : forall v a, keeps (W := W) ctl (rapl_set_curr_state v a)).
  { intros. unfold rapl_set_curr_state, rapl_mode, rapl_update_enable_status,
      rapl_update_time_window, rapl_write, rapl_update_pl1, rapl_write_limit, setx. keeps_tac. }
  split; intros; cbn; [apply Hset|apply Hset|unfold base_get_curr_state; keeps_tac| |
    unfold base_get_max_state; keeps_tac].
  unfold rapl_get_curr_state_again, rapl_read_pl1, rapl_read. keeps_tac.
Qed.

(** The constrained flag after the mode switch. *)
Definition mode_flag (d : cdev rapl_ext) (state control : Z) : bool :=
  let s := if state <? max_state d then max_state d else state in
  if s >=? min_state d then false else truthy control || constrained (ext d).

Lemma setx_run f (d : cdev rapl_ext) (w : W) : setx f (d, w) = (tt, (d <| ext := f (ext d) |>, w)).
Proof. reflexivity. Qed.

Lemma rapl_mode_flag st c (d : cdev rapl_ext) (w : W) :
  constrained (ext (fst (snd (rapl_mode st c (d, w))))) = mode_flag d st c.
Proof.
  unfold rapl_mode, mode_flag. unfold bind at 1, getd at 1, gets at 1. cbn [fst].
  set (s := if st <? max_state d then max_state d else st).
  destruct (s >=? min_state d).
  - bstep u1 s1. bstep u2 s2. bstep u3 s3. destruct s3. rewrite setx_run. reflexivity.
  - destruct (truthy c); cbn [andb orb].
    + destruct (constrained (ext d)) eqn:Ec; cbn [negb]; [done|].
      bstep u1 s1. bstep u2 s2. destruct s2. rewrite setx_run. reflexivity.
    + done.
Qed.

Lemma rapl_new_state_bounds (d : cdev rapl_ext) state :
  max_state d <= min_state d -> power_on_constraint_0_pwr (ext d) = 0 ->
  max_state d <= rapl_new_state d state <= min_state d /\
  (max_state d <= state <= min_state d -> rapl_new_state d state = state).
Proof.
  intros Hr Hp. unfold rapl_new_state. rewrite Hp. change (truthy 0) with false.
  split_if; lia.
Qed.

End rapl_laws.

(** * The engine's side *)

(** The members of the engine the device reaches through [thd_engine], besides
    the power meter: the PPCC tables and the IDSP list. *)
Record engine_data := mk_engine_data {
  ppccs : list ppcc_t;
  idsps : list string;
  uninitialised : Z;      (* the value of an unset local variable *)
}.
#[export] Instance eta_engine_data : Eta engine_data := {| eta_of := fun x =>
  mk_engine_data (ppccs x) (idsps x) (uninitialised x) |}.

(** [cthd_gddv::get_ppcc_param], [cthd_gddv::search_idsp]. *)
Definition get_ppcc_param (name : string) (l : list ppcc_t) : option ppcc_t :=
  if negb (String.eqb name "TCPU.D0") then None
  else List.find (fun p => String.eqb (ppcc_name p) name) l.
Definition search_idsp (name : string) (l : list string) : Z :=
  if existsb (fun s => String.eqb (String.substring 0 36 s) name) l
  then THD_SUCCESS else THD_ERROR.

#[export] Instance engine_rapl {W} `{Kernel W} : RaplEngine (W * engine_data) := {
  eng_uninit := fun '(_, e) => uninitialised e;
  eng_get_ppcc_param := fun name '(_, e) => get_ppcc_param name (ppccs e);
  eng_search_idsp := fun name '(_, e) => search_idsp name (idsps e);
}.

Definition rapl_dir : string := "/sys/devices/virtual/powercap/intel-rapl/intel-rapl:0/".

(** A machine with one package at 15 W (maximum 30 W). *)
Definition sim_rapl (max_uw : string) : sim :=
  mk_sim (list_to_map [
    (rapl_dir +:+ "name", "package-0");
    (rapl_dir +:+ "enabled", "1");
    (rapl_dir +:+ "constraint_0_name", "long_term");
    (rapl_dir +:+ "constraint_0_power_limit_uw", "15000000");
    (rapl_dir +:+ "constraint_0_max_power_uw", max_uw);
    (rapl_dir +:+ "constraint_0_time_window_us", "28000000")]) [] 1000.

Definition rapl_machine (max_uw : string) (pp : list ppcc_t) : sim * engine_data :=
  (sim_rapl max_uw, mk_engine_data pp [] 0).

Definition rapl_after_update (max_uw : string) (pp : list ppcc_t) : cdev rapl_ext * (sim * engine_data) :=
  snd (rapl_update (new_rapl 0 0 rapl_dir, rapl_machine max_uw pp)).

(** Without a PPCC table the range is the upper half of the maximum and the
    step 5 percent of it. *)
Example rapl_static_range :
  let d := fst (rapl_after_update "30000000" []) in
  (min_state d, max_state d, inc_dec_val d, curr_state d) = (30000000, 15000000, -1500000, 30000000).
Proof. vm_compute. reflexivity. Qed.

Definition ppcc_sample : ppcc_t :=
  mk_ppcc "TCPU.D0" 1 5000 25000 1000 28000 500 0 0 0 0 0 0.

Example rapl_ppcc_range :
  let d := fst (rapl_after_update "30000000" [ppcc_sample]) in
  (min_state d, max_state d, inc_val d, dec_val d) = (25000000, 5000000, -1000000, -500000).
Proof. vm_compute. reflexivity. Qed.


(** Without a sane maximum the device is left with [power_on_constraint_0_pwr]
    as its released limit; the released device is then not in its minimum
    state, and a further deactivation raises the limit above it. *)
Example rapl_released_is_not_min_state :
  let s0 := rapl_after_update "2000000000" [] in
  let s1 := snd (rapl_set_curr_state 1000000000 0 s0) in
  let s2 := snd (thd_cdev_exponential_controller 0 0 0 s1) in
  (min_state (fst s1), curr_state (fst s1), fst (in_min_state s1), curr_state (fst s2)) =
  (1000000000, 15000000, false, 15500000).
Proof. vm_compute. reflexivity. Qed.
