(* ===== verification/Machine.v ===== *)
(** The state the engine's objects share, and the sensors.

    The daemon's cooling devices and sensors are objects of the engine that
    zones and trip points point to; several trips may point to the same
    device.  The model keeps them in two vectors of a [machine], and a pointer
    is a position in the vector.  The pipe to the engine thread is a queue of
    messages.

    Sensors: [cthd_sensor] (src/thd_sensor.cpp), [cthd_sensor_virtual]
    (src/thd_sensor_virtual.cpp) and [cthd_sensor_rapl_power]
    (src/thd_sensor_rapl_power.cpp). *)
From stdpp Require Import base gmap strings list.
From Stdlib Require Import ZArith Lia SpecFloat.
From Stdlib Require String.
From S2P Require Import Prelude CString MeterData SysFs CFloat Pid Cdev PowerMeter.

Open Scope string_scope.
Open Scope list_scope.
Open Scope Z_scope.

(** * Messages to the engine thread *)

(** [message_name_t]; the payload of the polling messages is a sensor id. *)
Inductive message :=
| WAKEUP
| TERMINATE
| PREF_CHANGED
| THERMAL_ZONE_NOTIFY (type data : Z)
| RELOAD_ZONES
| POLL_ENABLE (sensor_id : Z)
| POLL_DISABLE (sensor_id : Z)
| FAST_POLL_ENABLE (sensor_id : Z)
| FAST_POLL_DISABLE (sensor_id : Z).
#[export] Instance message_eq : EqDecision message.
Proof. solve_decision. Defined.

(** * Sensors *)

Definition SENSOR_TYPE_THERMAL_SYSFS : Z := 0.
Definition SENSOR_TYPE_RAW : Z := 1.

(** [link_sensor_t]; [link_to] is the position of the linked sensor, [None] a
    constant. *)
Record link_sensor_t := mk_link {
  link_to : option nat;
  coeff : double;
  link_offset : double;
  prev_avg : double;
  power_sensor : Z;
}.

Record polling_table_entry := mk_polling_entry { virtual_temp : Z; sample_period : Z }.

(** The members [cthd_sensor_virtual] adds. *)
Record virtual_data := mk_virtual {
  link_sensors : list link_sensor_t;
  multiplier : double;
  v_offset : double;
  polling : bool;
  stop_polling : bool;
  poll_thread_started : bool;
  last_temp : Z;
  polling_period : Z;
  polling_table : list polling_table_entry;
}.
#[export] Instance eta_virtual : Eta virtual_data := {| eta_of := fun x =>
  mk_virtual (link_sensors x) (multiplier x) (v_offset x) (polling x) (stop_polling x)
    (poll_thread_started x) (last_temp x) (polling_period x) (polling_table x) |}.

Record sensor := mk_sensor {
  s_index : Z;
  s_type : Z;
  sensor_sysfs : csys_fs;
  sensor_active : bool;
  s_type_str : string;
  async_capable : bool;
  scale : Z;
  s_virtual : option virtual_data;
  s_rapl_power : bool;      (* a cthd_sensor_rapl_power *)
}.
#[export] Instance eta_sensor : Eta sensor := {| eta_of := fun x =>
  mk_sensor (s_index x) (s_type x) (sensor_sysfs x) (sensor_active x) (s_type_str x)
    (async_capable x) (scale x) (s_virtual x) (s_rapl_power x) |}.

Definition new_sensor (_index : Z) (control_path _type_str : string) (_type : Z) : sensor :=
  mk_sensor _index _type (new_csys_fs control_path) false _type_str false 1 None false.

(** [update_path]: only below /sys/. *)
Definition sensor_update_path (str : string) (s : sensor) : sensor :=
  if starts_with str "/sys/" then s <| sensor_sysfs := update_path str (sensor_sysfs s) |> else s.

(** * The machine *)

Record machine (X W : Type) := mk_machine {
  m_w : W;
  m_cdevs : list (cdev X);
  m_sensors : list sensor;
  m_pipe : list message;
  m_preference : Z;
  m_poll_interval_sec : Z;
  m_ignore_critical : bool;
  m_power_offs : nat;       (* reboot(RB_POWER_OFF) calls so far *)
  m_uninit : Z;             (* what an unassigned local [int] holds *)
}.
Arguments mk_machine {X W}.
Arguments m_w {X W}. Arguments m_cdevs {X W}. Arguments m_sensors {X W}.
Arguments m_pipe {X W}. Arguments m_preference {X W}. Arguments m_poll_interval_sec {X W}.
Arguments m_ignore_critical {X W}. Arguments m_power_offs {X W}. Arguments m_uninit {X W}.
#[export] Instance eta_machine {X W} : Eta (machine X W) := {| eta_of := fun x =>
  mk_machine (m_w x) (m_cdevs x) (m_sensors x) (m_pipe x) (m_preference x)
    (m_poll_interval_sec x) (m_ignore_critical x) (m_power_offs x) (m_uninit x) |}.

Section machine.
Context {X W : Type} `{Kernel W}.
Abbreviation MM := (State (machine X W)).

(** A call on the device at position [i]. *)
Definition on_cdev {A} (i : nat) (dflt : A) (m : State (cdev X * W) A) : MM A := fun s =>
  match m_cdevs s !! i with
  | None => (dflt, s)
  | Some d =>
      let '(a, (d', w')) := m (d, m_w s) in
      (a, s <| m_cdevs := <[i := d']> (m_cdevs s) |> <| m_w := w' |>)
  end.

(** A call through the [csys_fs] of the sensor at position [i]. *)
Definition on_sensor_fs {A} (i : nat) (dflt : A) (m : State (csys_fs * W) A) : MM A := fun s =>
  match m_sensors s !! i with
  | None => (dflt, s)
  | Some sn =>
      let '(a, (fs, w')) := m (sensor_sysfs sn, m_w s) in
      (a, s <| m_sensors := <[i := sn <| sensor_sysfs := fs |>]> (m_sensors s) |> <| m_w := w' |>)
  end.

Definition set_sensor (i : nat) (f : sensor -> sensor) : MM unit :=
  modify (fun s => s <| m_sensors := alter f i (m_sensors s) |>).

Definition on_world {A} (m : State W A) : MM A := fun s =>
  let '(a, w') := m (m_w s) in (a, s <| m_w := w' |>).

Definition send_message (msg : message) : MM unit :=
  modify (fun s => s <| m_pipe := m_pipe s ++ [msg] |>).

(** ** cthd_sensor *)

Definition sensor_at (i : nat) (s : machine X W) : sensor :=
  default (new_sensor 0 "" "" 0) (m_sensors s !! i).

Definition sensor_update (i : nat) : MM Z :=
  sn <- gets (sensor_at i) ;;
  if s_type sn =? SENSOR_TYPE_THERMAL_SYSFS then
    ex <- on_sensor_fs i false (exists_path "type") ;;
    if negb ex then ret THD_ERROR else
    let* (_, t) := on_sensor_fs i (0, "") (read_string "type" (s_type_str sn)) in
    set_sensor i (fun x => x <| s_type_str := t |>) ;;
    ex <- on_sensor_fs i false (exists_path "temp") ;;
    ret (if ex : bool then THD_SUCCESS else THD_ERROR)
  else if s_type sn =? SENSOR_TYPE_RAW then
    ex <- on_sensor_fs i false (exists_path "") ;;
    ret (if ex : bool then THD_SUCCESS else THD_ERROR)
  else ret THD_SUCCESS.

(** [cthd_sensor::read_temperature]: a failed read or a negative reading counts as 0. *)
Definition base_read_temperature (i : nat) : MM Z :=
  sn <- gets (sensor_at i) ;;
  u <- gets m_uninit ;;
  let* (n, temp) := on_sensor_fs i (-1, 0)
    (read_int (if s_type sn =? SENSOR_TYPE_THERMAL_SYSFS then "temp" else "") u) in
  let temp := if (n <? 0) || (temp <? 0) then 0 else temp in
  ret (u32 temp / u32 (scale sn)).

(** [cthd_sensor_rapl_power::read_temperature]: the last package power, in
    milliwatts; reading it switches the measurement on. *)
Definition rapl_power_read_temperature : MM Z :=
  on_world (on_meter (
    modify (fun '(pm, w) => (rapl_start_measure_power pm, w)) ;;
    pkg_power <- gets (fun '(pm, w) => rapl_action_get_last_power PACKAGE pm) ;;
    ret (pkg_power / 1000))).

Definition enable_uevent (i : nat) : MM unit :=
  sn <- gets (sensor_at i) ;;
  let path := "thermal_zone" +:+ string_of_Z (s_index sn) +:+ "/policy" in
  on_world (with_fs "/sys/class/thermal/" (
    ex <- exists_path path ;;
    if ex : bool then write_str path "user_space" ;; ret tt else ret tt)).

Definition set_threshold (i : nat) (index temp : Z) : MM Z :=
  sn <- gets (sensor_at i) ;;
  if negb (s_type sn =? SENSOR_TYPE_THERMAL_SYSFS) then ret THD_ERROR else
  poll_interval <- gets m_poll_interval_sec ;;
  if truthy poll_interval then ret THD_SUCCESS else
  if negb (async_capable sn) then ret THD_ERROR else
  let path := "trip_point_" +:+ string_of_Z index +:+ "_temp" in
  ex <- on_sensor_fs i false (exists_path path) ;;
  status <- (if ex : bool then on_sensor_fs i 0 (write_str path (string_of_Z (i32 temp))) else ret 0) ;;
  if status >? 0 then enable_uevent i ;; ret THD_SUCCESS else ret THD_ERROR.

(** The requests of a sensor to the engine. *)
Definition thd_engine_poll_enable (sensor_id : Z) : MM unit := send_message (POLL_ENABLE sensor_id).
Definition thd_engine_poll_disable (sensor_id : Z) : MM unit := send_message (POLL_DISABLE sensor_id).
Definition thd_engine_fast_poll_enable (sensor_id : Z) : MM unit := send_message (FAST_POLL_ENABLE sensor_id).
Definition thd_engine_fast_poll_disable (sensor_id : Z) : MM unit := send_message (FAST_POLL_DISABLE sensor_id).

Definition sensor_poll_trip (i : nat) (status : bool) : MM unit :=
  sn <- gets (sensor_at i) ;;
  if status then thd_engine_poll_enable (s_index sn) else thd_engine_poll_disable (s_index sn).

Definition sensor_fast_poll (i : nat) (status : bool) : MM unit :=
  sn <- gets (sensor_at i) ;;
  if status then thd_engine_fast_poll_enable (s_index sn) else thd_engine_fast_poll_disable (s_index sn).

(** ** cthd_sensor_virtual *)

(** [std::round] converted to [int]: halves away from zero. *)
Definition round_to_int (d : double) : Z :=
  match d with
  | S754_finite s m e =>
      let a := if 0 <=? e then Zpos m * 2 ^ e
               else (Zpos m + 2 ^ (- e - 1)) / 2 ^ (- e) in
      let v := if s then - a else a in
      if (INT_MIN <=? v) && (v <=? INT_MAX) then v else INT_MIN
  | S754_zero _ => 0
  | _ => INT_MIN
  end.

Definition virtual_of (i : nat) (s : machine X W) : option virtual_data :=
  s_virtual (sensor_at i s).

Definition set_link (i k : nat) (l : link_sensor_t) : MM unit :=
  set_sensor i (fun x => x <| s_virtual := match s_virtual x with
    | Some v => Some (v <| link_sensors := <[k := l]> (link_sensors v) |>)
    | None => None end |>).

(** One link's contribution: the moving average of its reading, weighted. *)
Definition link_sample (temp : Z) (l : link_sensor_t) : double * link_sensor_t :=
  let temp := if truthy (power_sensor l) then temp else cdiv temp 1000 in
  let prev := if double_is_zero (prev_avg l) then double_of_Z temp else prev_avg l in
  let avg := a_add (a_mul (link_offset l) (double_of_Z temp))
               (a_mul (a_sub (double_of_Z 1) (link_offset l)) prev) in
  (a_mul (coeff l) avg, mk_link (link_to l) (coeff l) (link_offset l) avg (power_sensor l)).

(** [_read_temperature] of a virtual sensor with members [v]; [rd] reads the
    temperature of another sensor.  A single link without weights is scaled; the
    rest is a weighted sum, remembered in [last_temp]. *)
Definition virtual_sample (rd : nat -> MM Z) (i : nat) (v : virtual_data) : MM Z :=
  match link_sensors v with
  | [] => ret 0
  | l0 :: _ =>
      match link_to l0, double_is_zero (coeff l0) && double_is_zero (link_offset l0) with
      | Some j, true =>
          temp <- rd j ;;
          ret (u32 (a_trunc (a_add (a_mul (double_of_Z (i32 temp)) (multiplier v)) (v_offset v))))
      | _, _ =>
          virt_temp <- fold_left (fun (acc : MM double) kl =>
            virt <- acc ;;
            let '(k, l) := kl : nat * link_sensor_t in
            temp <- match link_to l with
                    | Some j => t <- rd j ;; ret (i32 t)
                    | None => ret 1000
                    end ;;
            let '(contribution, l') := link_sample temp l in
            set_link i k l' ;;
            ret (a_add virt contribution))
            (imap (fun k l => (k, l)) (link_sensors v)) (ret (double_of_Z 0)) ;;
          let temp := round_to_int virt_temp in
          set_sensor i (fun x => x <| s_virtual := match s_virtual x with
            | Some v => Some (v <| last_temp := i32 (temp * 1000) |>)
            | None => None end |>) ;;
          ret (u32 temp)
      end
  end.

(** [read_temperature], virtual or not; a sampled virtual sensor answers with
    the last sample.  [fuel] bounds the depth of links from virtual sensor to
    virtual sensor. *)
Fixpoint read_temperature (fuel : nat) (i : nat) : MM Z :=
  match fuel with
  | O => ret 0
  | S f =>
      sn <- gets (sensor_at i) ;;
      match s_virtual sn with
      | None => if s_rapl_power sn then rapl_power_read_temperature else base_read_temperature i
      | Some v =>
          if polling v then ret (u32 (last_temp v)) else virtual_sample (read_temperature f) i v
      end
  end.

(** [search_sensor]: by type; a "pch_" name matches any "pch_" sensor. *)
Definition sensor_matches (name : string) (s : sensor) : bool :=
  String.eqb (s_type_str s) name
  || (String.eqb (String.substring 0 4 name) "pch_"
      && String.eqb (String.substring 0 4 (s_type_str s)) "pch_").

Definition search_sensor (name : string) (s : machine X W) : option nat :=
  fst <$> list_find (fun x => sensor_matches name x = true) (m_sensors s).

Definition get_sensor (index : Z) (s : machine X W) : option nat :=
  if (0 <=? index) && (index <? Z.of_nat (length (m_sensors s))) then Some (Z.to_nat index) else None.

Definition search_cdev (name : string) (s : machine X W) : option nat :=
  fst <$> list_find (fun d => String.eqb (type_str d) name || String.eqb (alias_str d) name = true)
            (m_cdevs s).

Definition thd_get_cdev_at_index (idx : Z) (s : machine X W) : option nat :=
  fst <$> list_find (fun d => index d = idx) (m_cdevs s).

(** [add_target], [sensor_update_param], [enable_periodic_timer] and
    [disable_periodic_timer] of a virtual sensor. *)
Definition set_virtual (i : nat) (f : virtual_data -> virtual_data) : MM unit :=
  set_sensor i (fun x => x <| s_virtual := f <$> s_virtual x |>).

Definition add_target (i : nat) (link_type : string) (c o : double) (pw : Z) : MM Z :=
  target <- gets (search_sensor link_type) ;;
  set_virtual i (fun v => v <| link_sensors :=
    link_sensors v ++ [mk_link target c o (double_of_Z 0) pw] |>) ;;
  ret THD_SUCCESS.

Definition sensor_update_param (i : nat) (new_dep : string) (slope intercept : double) : MM Z :=
  target <- gets (search_sensor new_dep) ;;
  u <- gets m_uninit ;;
  match target with
  | None => ret THD_ERROR
  | Some t =>
      set_virtual i (fun v => v <| link_sensors :=
          link_sensors v ++ [mk_link (Some t) (double_of_Z 0) (double_of_Z 0) (double_of_Z 0) u] |>
        <| multiplier := slope |> <| v_offset := intercept |>) ;;
      ret THD_SUCCESS
  end.

(** [created]: whether pthread_create succeeds. *)
Definition enable_periodic_timer (created : bool) (i : nat) : MM unit :=
  set_virtual i (fun v =>
    let period := match polling_table v with
                  | e :: _ => if sample_period e <? 100 then sample_period e else 0
                  | [] => 0
                  end in
    let v := if truthy period then v <| polling_period := period |> else v in
    if polling v then v else
    let v := v <| stop_polling := false |> in
    if created then v <| poll_thread_started := true |> <| polling := true |> else v).

Definition disable_periodic_timer (i : nat) : MM unit :=
  set_virtual i (fun v =>
    if negb (polling v) then v else
    v <| stop_polling := true |> <| poll_thread_started := false |> <| polling := false |>).

(** The sleep chosen by the sampling thread after a reading. *)
Definition table_period (last : Z) (table : list polling_table_entry) : Z :=
  match List.find (fun e => last >=? virtual_temp e) (rev table) with
  | Some e => sample_period e
  | None => 0
  end.
Definition def_polling_period : Z := 5.
Definition next_period (v : virtual_data) : virtual_data * Z :=
  let p := table_period (last_temp v) (polling_table v) in
  let v := if truthy p then v <| polling_period := p |> else v in
  (v, if polling_period v <=? 0 then def_polling_period else polling_period v).

(** One round of the sampling thread, [periodic_callback]: the sleep it ends
    with, [None] when it stops. *)
Definition sampling_round (fuel : nat) (i : nat) : MM (option Z) :=
  v <- gets (virtual_of i) ;;
  match v with
  | None => ret None
  | Some v =>
      if stop_polling v then ret None else
      virtual_sample (read_temperature fuel) i v ;;
      v' <- gets (virtual_of i) ;;
      match v' with
      | None => ret None
      | Some v' =>
          let '(v'', sleep) := next_period v' in
          set_virtual i (fun _ => v'') ;;
          ret (Some sleep)
      end
  end.
End machine.
