(* ===== verification/Preference.v ===== *)
(** The user's preference, [cthd_preference] (src/thd_preference.cpp): kept in
    a file of the run directory. *)
From stdpp Require Import base gmap strings list.
From Stdlib Require Import ZArith Lia.
From Stdlib Require String.
From S2P Require Import Prelude CString SysFs.

Open Scope string_scope.
Open Scope Z_scope.

Definition PREF_ENERGY_CONSERVE : Z := 0.
Definition PREF_PERFORMANCE : Z := 1.
Definition PREF_DISABLED : Z := 2.

Record preference_t := mk_preference { preference : Z; old_preference : Z }.
#[export] Instance eta_preference : Eta preference_t := {| eta_of := fun x =>
  mk_preference (preference x) (old_preference x) |}.

Definition int_pref_to_string (p : preference_t) : string :=
  if preference p =? PREF_PERFORMANCE then "PERFORMANCE"
  else if preference p =? PREF_ENERGY_CONSERVE then "ENERGY_CONSERVE"
  else if preference p =? PREF_DISABLED then "DISABLE"
  else "INVALID".

Definition string_pref_to_int (s : string) : Z :=
  if String.eqb s "PERFORMANCE" then PREF_PERFORMANCE
  else if String.eqb s "ENERGY_CONSERVE" then PREF_ENERGY_CONSERVE
  else if String.eqb s "DISABLE" then PREF_DISABLED
  else -1.

Section preference.
Context {W : Type} `{Kernel W} (TDRUNDIR : string).
Abbreviation M := (State (preference_t * W)).

Definition pref_file : string := TDRUNDIR +:+ "/" +:+ "thd_preference.conf".
Definition save_file : string := TDRUNDIR +:+ "/" +:+ "thd_preference.conf.save".

(** [ifs >> v] of a file, [dflt] when it cannot be opened. *)
Definition read_pref (path : string) (old dflt : Z) (w : W) : Z :=
  match k_ifstream path w with
  | None => dflt
  | Some content => istream_int content old
  end.

Definition new_preference (w : W) : preference_t :=
  mk_preference (read_pref pref_file PREF_ENERGY_CONSERVE PREF_ENERGY_CONSERVE w) 0.

Definition refresh : M unit :=
  modify (fun '(p, w) =>
    (p <| preference := read_pref pref_file (preference p) PREF_ENERGY_CONSERVE w |>, w)).

(** Creates a file and writes it; [false] when any of it fails. *)
Definition store (path data : string) (w : W) : bool * W :=
  match k_creat path w with
  | (inl _, w) => (false, w)
  | (inr fd, w) =>
      let '(r, w) := k_write fd data w in
      let w := k_close fd w in
      (match r with inr n => n =? Z.of_nat (String.length data) | inl _ => false end, w)
  end.

Definition set_preference (pref_str : string) : M bool := fun '(p, w) =>
  let pref := string_pref_to_int pref_str in
  if pref <? 0 then (false, (p, w)) else
  let '(ok, w) := store pref_file (string_of_Z pref) w in
  if negb ok then (false, (p, w)) else
  let p := p <| old_preference := preference p |> in
  let '(ok, w) := store save_file (string_of_Z (old_preference p)) w in
  if negb ok then (false, (p, w)) else
  (true, (p <| preference := read_pref pref_file (preference p) PREF_PERFORMANCE w |>, w)).

Definition get_old_preference : M Z := fun '(p, w) =>
  let p := p <| old_preference := read_pref save_file (old_preference p) PREF_PERFORMANCE w |> in
  (old_preference p, (p, w)).
End preference.

(** What the file operations of the kernel promise: a file that was stored
    reads back as it was written, and storing one file leaves the others. *)
Class StoreLaws (W : Type) `{Kernel W} := {
  store_reads_back path data w w' :
    store path data w = (true, w') -> k_ifstream path w' = Some data;
  store_other path data w b w' other :
    store path data w = (b, w') -> other <> path -> k_ifstream other w' = k_ifstream other w;
}.

#[export] Instance sim_store_laws : StoreLaws sim.
Proof.
  assert (E : forall path data w, store path data w =
    (true, mk_metered_sim (<[path := data]> (<[path := EmptyString]> (sim_files w)))
             (sim_fds w ++ [path])%list (sim_clock w) (sim_meter w))).
  { intros. unfold store. cbn. unfold sim_write. cbn. rewrite Nat2Z.id, list_lookup_middle by done.
    cbn. rewrite Z.eqb_refl. done. }
  split.
  - intros path data w w'. rewrite E. intros X. simplify_eq. cbn. by rewrite lookup_insert_eq.
  - intros path data w b w' other. rewrite E. intros X Hne. simplify_eq. cbn.
    by rewrite !lookup_insert_ne by done.
Qed.

Lemma files_distinct dir : save_file dir <> pref_file dir.
Proof.
  unfold save_file, pref_file. intros E. apply (f_equal String.length) in E.
  rewrite !string_length_app in E. cbn in E. lia.
Qed.

Section preference_spec.
Context {W : Type} `{StoreLaws W} (TDRUNDIR : string).

(** Setting a preference is a round trip.  An unknown name is rejected
    and changes nothing.  When [set_preference] succeeds, the preference in
    force and the preference any later start or refresh reads from the file
    print as the name that was set, and the preference it replaced is the one
    [get_old_preference] returns. *)
Theorem set_preference_roundtrip name (p : preference_t) (w : W) :
  is_i32 (preference p) ->
  let '(ok, (p', w')) := set_preference TDRUNDIR name (p, w) in
  (string_pref_to_int name = -1 -> ok = false /\ p' = p /\ w' = w) /\
  (ok = true ->
     int_pref_to_string p' = name /\ int_pref_to_string (new_preference TDRUNDIR w') = name /\
     int_pref_to_string (fst (snd (refresh TDRUNDIR (p', w')))) = name /\
     fst (get_old_preference TDRUNDIR (p', w')) = preference p).
Proof.
  intros Hp. unfold set_preference. set (pref := string_pref_to_int name).
  assert (Hname : 0 <= pref -> is_i32 pref /\ forall o, int_pref_to_string (mk_preference pref o) = name).
  { unfold pref, string_pref_to_int, is_i32, INT_MIN, INT_MAX.
    destruct (String.eqb_spec name "PERFORMANCE") as [->|]; [done|].
    destruct (String.eqb_spec name "ENERGY_CONSERVE") as [->|]; [done|].
    destruct (String.eqb_spec name "DISABLE") as [->|]; [done|lia]. }
  destruct (Z.ltb_spec pref 0) as [Hneg|Hpos]; [split; [done|discriminate]|].
  destruct (Hname Hpos) as [Hr Hn].
  destruct (store (pref_file TDRUNDIR) (string_of_Z pref) w) as [ok1 w1] eqn:E1.
  destruct ok1; cbn [negb]; [|split; [lia|discriminate]].
  destruct (store (save_file TDRUNDIR) _ w1) as [ok2 w2] eqn:E2.
  destruct ok2; cbn [negb]; [|split; [lia|discriminate]].
  split; [lia|]. intros _.
  pose proof (store_reads_back _ _ _ _ E1) as R1. pose proof (store_reads_back _ _ _ _ E2) as R2.
  rewrite <- (store_other _ _ _ _ _ _ E2 (not_eq_sym (files_distinct TDRUNDIR))) in R1.
  unfold new_preference, refresh, get_old_preference, read_pref, modify. cbn. cbn in R2.
  rewrite R1, R2, !istream_string_of_Z by assumption. auto.
Qed.
End preference_spec.

Lemma set_preference_roundtrip_witness :
  let '(ok, (p', w')) := set_preference "/run" "PERFORMANCE" (mk_preference 0 0, sim0) in
  (string_pref_to_int "PERFORMANCE" = -1 -> ok = false /\ p' = mk_preference 0 0 /\ w' = sim0) /\
  (ok = true ->
     int_pref_to_string p' = "PERFORMANCE" /\
     int_pref_to_string (new_preference "/run" w') = "PERFORMANCE" /\
     int_pref_to_string (fst (snd (refresh "/run" (p', w')))) = "PERFORMANCE" /\
     fst (get_old_preference "/run" (p', w')) = 0).
Proof.
  apply (set_preference_roundtrip "/run" "PERFORMANCE" (mk_preference 0 0) sim0).
  unfold is_i32, INT_MIN, INT_MAX. cbn. lia.
Defined.
