(* ===== verification/TripPoint.v ===== *)
(** Trip points, [cthd_trip_point] (src/thd_trip_point.cpp,
    src/thd_trip_point.h): a temperature at which cooling devices are
    activated, with hysteresis, the critical and hot actions, and the polling
    trips that switch the engine's polling on and off. *)
From stdpp Require Import base gmap strings list.
From Stdlib Require Import ZArith Lia.
From Stdlib Require String.
From S2P Require Import Prelude CString SysFs CFloat Pid Cdev CdevLimits CdevControl Machine Preference.

Open Scope string_scope.
Open Scope list_scope.
Open Scope Z_scope.

(** * Data *)

Inductive trip_point_type_t := CRITICAL | HOT | MAX | PASSIVE | ACTIVE | POLLING | INVALID_TRIP_TYPE.
#[export] Instance trip_type_eq : EqDecision trip_point_type_t.
Proof. solve_decision. Defined.
Inductive trip_control_type_t := PARALLEL | SEQUENTIAL.
#[export] Instance control_type_eq : EqDecision trip_control_type_t.
Proof. solve_decision. Defined.
Inductive depend_rel_t := EQUAL | GREATER | LESSER | LESSER_OR_EQUAL | GREATER_OR_EQUAL.

Definition is_type (a b : trip_point_type_t) : bool := bool_decide (a = b).
Definition is_control (a b : trip_control_type_t) : bool := bool_decide (a = b).

Definition DEFAULT_SENSOR_ID : Z := 65535.
Definition consecutive_critical_events : Z := 4.
Definition default_influence : Z := 0.

(** [trip_pt_cdev_t]; [tc_cdev] points to a device of the machine. *)
Record trip_pt_cdev_t := mk_trip_cdev {
  tc_cdev : nat;
  influence : Z;
  sampling_priod : Z;
  last_op_time : Z;
  tc_target_state_valid : Z;
  target_state : Z;
  tc_pid_param : pid_param_t;
  tc_pid : cthd_pid double;
  tc_min_max_valid : Z;
  tc_min_state : Z;
  tc_max_state : Z;
}.
#[export] Instance eta_trip_cdev : Eta trip_pt_cdev_t := {| eta_of := fun x =>
  mk_trip_cdev (tc_cdev x) (influence x) (sampling_priod x) (last_op_time x)
    (tc_target_state_valid x) (target_state x) (tc_pid_param x) (tc_pid x)
    (tc_min_max_valid x) (tc_min_state x) (tc_max_state x) |}.

Definition no_pid_param : pid_param_t :=
  mk_pid_param 0 (double_of_Z 0) (double_of_Z 0) (double_of_Z 0).
Definition new_trip_cdev (c : nat) : trip_pt_cdev_t :=
  mk_trip_cdev c 0 0 0 0 0 no_pid_param new_pid 0 0 0.

Record trip_point := mk_trip {
  t_index : Z;
  t_type : trip_point_type_t;
  temp : Z;            (* unsigned int *)
  hyst : Z;            (* unsigned int *)
  cdevs : list trip_pt_cdev_t;
  control_type : trip_control_type_t;
  zone_id : Z;
  sensor_id : Z;
  trip_on : bool;
  poll_on : bool;
  depend_cdev : option nat;
  depend_cdev_state : Z;
  depend_cdev_state_rel : depend_rel_t;
  crit_trip_count : Z;
}.
#[export] Instance eta_trip : Eta trip_point := {| eta_of := fun x =>
  mk_trip (t_index x) (t_type x) (temp x) (hyst x) (cdevs x) (control_type x) (zone_id x)
    (sensor_id x) (trip_on x) (poll_on x) (depend_cdev x) (depend_cdev_state x)
    (depend_cdev_state_rel x) (crit_trip_count x) |}.

Definition new_trip (_index : Z) (_type : trip_point_type_t) (_temp _hyst _zone_id _sensor_id : Z)
    (_control_type : trip_control_type_t) : trip_point :=
  mk_trip _index _type (u32 _temp) (u32 _hyst) [] _control_type _zone_id _sensor_id
    false false None 0 EQUAL 0.

(** * Operations *)

Section trip.
Context {X W : Type} `{Kernel W} `{!CdevMethods X W}.
Abbreviation TP := (State (trip_point * machine X W)).

Definition gett : TP trip_point := gets fst.
Definition modt (f : trip_point -> trip_point) : TP unit := modify (fun '(t, s) => (f t, s)).
Definition onm {A} (m : State (machine X W) A) : TP A :=
  fun '(t, s) => let '(a, s') := m s in (a, (t, s')).

Definition is_prefix (p s : string) : bool := String.eqb (String.substring 0 (String.length p) s) p.

(** [set_dependency]: the relation is the last of the prefixes that matches. *)
Definition parse_relation (state_str : string) : depend_rel_t * nat :=
  let r := (EQUAL, 0%nat) in
  let r := if is_prefix "==" state_str then (EQUAL, 2%nat) else r in
  let r := if is_prefix ">" state_str then (GREATER, 1%nat) else r in
  let r := if is_prefix "<" state_str then (LESSER, 1%nat) else r in
  let r := if is_prefix "<=" state_str then (LESSER_OR_EQUAL, 2%nat) else r in
  if is_prefix ">=" state_str then (GREATER_OR_EQUAL, 2%nat) else r.

Definition has_relation (state_str : string) : bool :=
  is_prefix "==" state_str || is_prefix ">" state_str || is_prefix "<" state_str.

Definition set_dependency (cdev_name state_str : string) : TP unit :=
  c <- onm (gets (search_cdev cdev_name)) ;;
  match c with
  | None => ret tt
  | Some p =>
      let '(rel, n) := parse_relation state_str in
      modt (fun t => t <| depend_cdev := Some p |>
        <| depend_cdev_state_rel := if has_relation state_str then rel else depend_cdev_state_rel t |>
        <| depend_cdev_state := atoi (String.substring n (String.length state_str - n) state_str) |>)
  end.

Definition rel_holds (r : depend_rel_t) (state ref : Z) : bool :=
  match r with
  | EQUAL => state =? ref
  | GREATER => state >? ref
  | LESSER => state <? ref
  | LESSER_OR_EQUAL => state <=? ref
  | GREATER_OR_EQUAL => state >=? ref
  end.

(** Lines 100-135: [false] when the device the trip depends on is not in the
    required state. *)
Definition dependency_met (read_temp : Z) : TP bool :=
  t <- gett ;;
  match depend_cdev t with
  | Some p =>
      if read_temp >=? temp t then
        c <- onm (on_cdev p 0 m_get_curr_state) ;;
        ret (rel_holds (depend_cdev_state_rel t) c (depend_cdev_state t))
      else ret true
  | None => ret true
  end.

(** A reading at or above a critical or hot trip: count it, act on the fifth
    in a row. *)
Definition count_event (act : State (machine X W) unit) : TP unit :=
  t <- gett ;;
  if crit_trip_count t <? consecutive_critical_events
  then modt (fun t => t <| crit_trip_count := crit_trip_count t + 1 |>)
  else modt (fun t => t <| crit_trip_count := 0 |>) ;; onm act.

Definition power_off : State (machine X W) unit :=
  modify (fun s => s <| m_power_offs := S (m_power_offs s) |>).
Definition suspend : State (machine X W) unit :=
  on_world (with_fs "/sys/power/" (write_str "state" "mem" ;; ret tt)).

(** Lines 144-186: [true] when the check ends here. *)
Definition emergency_check (read_temp : Z) : TP bool :=
  t <- gett ;;
  ignore <- onm (gets m_ignore_critical) ;;
  if is_type (t_type t) CRITICAL || is_type (t_type t) HOT then
    if negb ignore && (read_temp >=? temp t) then
      count_event (if is_type (t_type t) CRITICAL then power_off else suspend) ;; ret true
    else modt (fun t => t <| crit_trip_count := 0 |>) ;; ret false
  else ret false.

(** Lines 188-209, for a polling trip of a sensor: [reset] is returned. *)
Definition polling_check (read_temp : Z) : TP bool :=
  t <- gett ;;
  p <- onm (gets (get_sensor (sensor_id t))) ;;
  match p with
  | None => ret false
  | Some sn =>
      if negb (poll_on t) && (read_temp >=? temp t) then
        onm (sensor_poll_trip sn true) ;;
        modt (fun t => t <| poll_on := true |>) ;;
        onm (sensor_fast_poll sn true) ;;
        a <- onm (gets (fun s => async_capable (sensor_at sn s))) ;;
        (if a : bool then onm (set_threshold sn 0 (temp t)) ;; ret tt else ret tt) ;;
        ret false
      else if poll_on t && (read_temp <? temp t) then
        onm (sensor_poll_trip sn false) ;;
        modt (fun t => t <| poll_on := false |>) ;;
        onm (sensor_fast_poll sn false) ;;
        a <- onm (gets (fun s => async_capable (sensor_at sn s))) ;;
        (if a : bool then onm (set_threshold sn 0 (temp t)) ;; ret tt else ret tt) ;;
        ret true
      else ret false
  end.

(** Whether the preference applies to this kind of trip. *)
Definition applies (pref : Z) (ty : trip_point_type_t) : bool :=
  if pref =? PREF_PERFORMANCE then is_type ty ACTIVE || is_type ty MAX
  else if pref =? PREF_ENERGY_CONSERVE then is_type ty PASSIVE || is_type ty MAX
  else false.

(** Lines 236-245: [Some true] activate, [Some false] deactivate, [None] the
    dead band. *)
Definition trip_decision (t : trip_point) (read_temp : Z) : option bool :=
  if read_temp >=? temp t then Some true
  else if (trip_on t && (u32 (read_temp + hyst t) <? temp t)) || (negb (trip_on t) && (read_temp <? temp t))
  then Some false else None.

Definition entry (i : nat) (t : trip_point) : trip_pt_cdev_t :=
  default (new_trip_cdev 0) (cdevs t !! i).
Definition set_entry (i : nat) (f : trip_pt_cdev_t -> trip_pt_cdev_t) : TP unit :=
  modt (fun t => t <| cdevs := alter f i (cdevs t) |>).

(** The call of [thd_cdev_set_state] for entry [i]; the entry's PID state is
    updated through its reference. *)
Definition drive (i : nat) (read_temp state : Z) : TP Z :=
  t <- gett ;;
  let c := entry i t in
  (if target_state c =? TRIP_PT_INVALID_TARGET_STATE then
     m <- onm (on_cdev (tc_cdev c) 0 (gets (fun '(d, _) => get_min_state d))) ;;
     set_entry i (fun c => c <| target_state := m |>)
   else ret tt) ;;
  t <- gett ;;
  let c := entry i t in
  let* (r, pid) := onm (on_cdev (tc_cdev c) (THD_ERROR, tc_pid c) (
    d <- getd ;;
    thd_cdev_set_state (mk_args (i32 (temp t)) (i32 (temp t)) (i32 read_temp)
      (b2z (is_type (t_type t) MAX)) state (zone_id t) (t_index t)
      (tc_target_state_valid c)
      (m_map_target_state d (tc_target_state_valid c) (target_state c))
      (Some (tc_pid_param c)) false (tc_min_max_valid c) (tc_min_state c) (tc_max_state c))
      (tc_pid c))) in
  set_entry i (fun c => c <| tc_pid := pid |>) ;;
  ret r.

(** The sampling period of an entry: [true] is "too early". *)
Definition too_early (i : nat) : TP bool :=
  t <- gett ;;
  let c := entry i t in
  if truthy (sampling_priod c) then
    tm <- onm (on_world (fun w => k_time w)) ;;
    if tm - last_op_time c <? sampling_priod c then ret true
    else set_entry i (fun c => c <| last_op_time := tm |>) ;; ret false
  else ret false.

(** Lines 255-297, from position [i] on for [n] entries. *)
Fixpoint activate_cdevs (n i : nat) (read_temp : Z) : TP unit :=
  match n with
  | O => ret tt
  | S n' =>
      early <- too_early i ;;
      if early : bool then ret tt else
      t <- gett ;;
      mx <- onm (on_cdev (tc_cdev (entry i t)) false in_max_state) ;;
      if mx : bool then activate_cdevs n' (S i) read_temp else
      r <- drive i read_temp 1 ;;
      if is_control (control_type t) SEQUENTIAL && (r =? THD_SUCCESS) then ret tt
      else activate_cdevs n' (S i) read_temp
  end.

(** Lines 299-328, entries [i-1] down to 0. *)
Fixpoint deactivate_cdevs (i : nat) (read_temp : Z) : TP unit :=
  match i with
  | O => ret tt
  | S k =>
      t <- gett ;;
      mn <- onm (on_cdev (tc_cdev (entry k t)) false in_min_state) ;;
      if mn : bool then deactivate_cdevs k read_temp else
      drive k read_temp 0 ;;
      if is_control (control_type t) SEQUENTIAL then ret tt
      else deactivate_cdevs k read_temp
  end.

(** Lines 212-330. *)
Definition control_check (read_temp pref : Z) : TP bool :=
  t <- gett ;;
  if negb (applies pref (t_type t)) then ret false else
  match trip_decision t read_temp with
  | None => ret true
  | Some on =>
      modt (fun t => t <| trip_on := on |>) ;;
      (if on : bool then activate_cdevs (length (cdevs t)) 0 read_temp
       else deactivate_cdevs (length (cdevs t)) read_temp) ;;
      ret true
  end.

(** [thd_trip_point_check], returning also [*reset]. *)
Definition thd_trip_point_check (id read_temp pref : Z) : TP (bool * bool) :=
  t <- gett ;;
  if is_type (t_type t) INVALID_TRIP_TYPE then ret (false, false) else
  met <- dependency_met read_temp ;;
  if negb met then ret (false, false) else
  if negb (sensor_id t =? DEFAULT_SENSOR_ID) && negb (sensor_id t =? id) then ret (false, false) else
  done_ <- emergency_check read_temp ;;
  if done_ : bool then ret (true, false) else
  if is_type (t_type t) POLLING && negb (sensor_id t =? DEFAULT_SENSOR_ID) then
    reset <- polling_check read_temp ;; ret (true, reset)
  else
    r <- control_check read_temp pref ;; ret (r, false).

(** ** Binding *)

Definition trip_cdev_sort (c1 c2 : trip_pt_cdev_t) : bool := influence c1 >? influence c2.

(** [check_duplicate] compares device types. *)
Definition check_duplicate (c : nat) (t : trip_point) (s : machine X W) : option nat :=
  let ty i := from_option type_str "" (m_cdevs s !! i) in
  fst <$> list_find (fun e => ty (tc_cdev e) = ty c) (cdevs t).

Definition trip_cdev_add (e : trip_pt_cdev_t) : TP unit := fun '(t, s) =>
  let l := match check_duplicate (tc_cdev e) t s with
           | Some k => alter (fun c => c <| influence := influence e |>) k (cdevs t)
           | None => cdevs t ++ [e]
           end in
  (tt, (t <| cdevs := std_sort trip_cdev_sort l |>, s)).

Definition thd_trip_point_add_cdev (c : nat) (_influence sampling_period _target_state_valid
    _target_state : Z) (pid_param : option pid_param_t) (min_max_valid _min _max : Z) : TP unit :=
  let e := (new_trip_cdev c) <| influence := _influence |> <| sampling_priod := sampling_period |>
             <| tc_target_state_valid := _target_state_valid |> <| target_state := _target_state |>
             <| tc_min_max_valid := min_max_valid |> in
  let e := if truthy min_max_valid then e <| tc_min_state := _min |> <| tc_max_state := _max |> else e in
  let e := match pid_param with
           | Some p => if truthy (pid_valid p)
                       then e <| tc_pid_param := p |>
                              <| tc_pid := set_pid_param (pp_kp p) (pp_ki p) (pp_kd p) (tc_pid e) |>
                       else e
           | None => e
           end in
  trip_cdev_add e.

Definition thd_trip_point_add_cdev_index (idx _influence : Z) : TP Z :=
  c <- onm (gets (thd_get_cdev_at_index idx)) ;;
  match c with
  | Some p => trip_cdev_add ((new_trip_cdev p) <| influence := _influence |>) ;; ret THD_SUCCESS
  | None => ret THD_ERROR
  end.

(** [thd_trip_cdev_state_reset], entries [i-1] down to 0. *)
Fixpoint cdev_state_reset (i : nat) (force : Z) : TP unit :=
  match i with
  | O => ret tt
  | S k =>
      t <- gett ;;
      let c := tc_cdev (entry k t) in
      skip <- (if truthy force then ret false else onm (on_cdev c false in_min_state)) ;;
      (if skip : bool then ret tt
       else onm (on_cdev c 0 (thd_cdev_set_min_state (zone_id t) (t_index t))) ;; ret tt) ;;
      cdev_state_reset k force
  end.

Definition thd_trip_cdev_state_reset (force : Z) : TP unit :=
  t <- gett ;; cdev_state_reset (length (cdevs t)) force.

(** ** Targets *)

Definition is_target_valid (t : trip_point) : Z * Z :=
  match List.find (fun c => truthy (tc_target_state_valid c)) (cdevs t) with
  | Some c => (THD_SUCCESS, target_state c)
  | None => (THD_ERROR, 0)
  end.

Definition set_first_target_invalid (t : trip_point) : Z * trip_point :=
  match cdevs t with
  | [] => (THD_ERROR, t)
  | c :: l => (THD_SUCCESS, t <| cdevs := c <| tc_target_state_valid := 0 |> :: l |>)
  end.

Definition set_first_target (state : Z) (t : trip_point) : Z * trip_point :=
  match cdevs t with
  | [] => (THD_ERROR, t)
  | c :: l => (THD_SUCCESS,
      t <| cdevs := c <| tc_target_state_valid := 1 |> <| target_state := state |> :: l |>)
  end.
End trip.
