(* ===== verification/TripTheorems.v ===== *)
(** What a trip point promises: hysteresis, the emergency actions, and which
    of its devices a check drives (src/thd_trip_point.cpp). *)
From stdpp Require Import base gmap strings list.
From Stdlib Require Import ZArith Lia.
From S2P Require Import Prelude CString SysFs CFloat Pid Cdev CdevLimits CdevControl Machine Preference TripPoint.

Open Scope list_scope.
Open Scope Z_scope.

(** Everything of a trip but the list of its devices. *)
Definition trip_core (t : trip_point) : trip_point := t <| cdevs := [] |>.

Section core.
Context {X W : Type} `{Kernel W} `{!CdevMethods X W}.
Abbreviation core := (fun s : trip_point * machine X W => trip_core (fst s)).

Lemma core_onm {A} (m : State (machine X W) A) : preserves core (onm m).
Proof. intros [t s]. unfold onm. by destruct (m s). Qed.

Lemma core_set_entry i f : preserves core (set_entry (X := X) (W := W) i f).
Proof. intros [t s]. reflexivity. Qed.

Lemma core_gett : preserves core (gett (X := X) (W := W)).
Proof. intros s. reflexivity. Qed.

Hint Resolve core_onm core_set_entry core_gett : thd.

Ltac core_tac :=
  repeat first
    [ progress intros
    | solve [auto with thd]
    | apply preserves_bind
    | apply preserves_if
    | match goal with |- preserves _ (match ?x with _ => _ end) => destruct x end ].

Lemma core_drive i r st : preserves core (drive (X := X) (W := W) i r st).
Proof. unfold drive. core_tac. Qed.

Lemma core_too_early i : preserves core (too_early (X := X) (W := W) i).
Proof. unfold too_early. core_tac. Qed.

Hint Resolve core_drive core_too_early : thd.

Lemma core_activate n i r : preserves core (activate_cdevs (X := X) (W := W) n i r).
Proof.
  revert i. induction n as [|n IH]; intros i; cbn [activate_cdevs]; core_tac; apply IH.
Qed.

Lemma core_deactivate i r : preserves core (deactivate_cdevs (X := X) (W := W) i r).
Proof. induction i as [|i IH]; cbn [deactivate_cdevs]; core_tac. Qed.

Lemma dependency_none read_temp t (s : machine X W) :
  depend_cdev t = None -> dependency_met read_temp (t, s) = (true, (t, s)).
Proof. intros Hd. unfold dependency_met, bind, gett, gets. cbn. by rewrite Hd. Qed.

Lemma sensor_selected t id :
  sensor_id t = DEFAULT_SENSOR_ID \/ sensor_id t = id ->
  negb (sensor_id t =? DEFAULT_SENSOR_ID) && negb (sensor_id t =? id) = false.
Proof. intros [-> | ->]; rewrite Z.eqb_refl; [done|apply andb_false_r]. Qed.

Lemma not_emergency read_temp t (s : machine X W) :
  is_type (t_type t) CRITICAL = false -> is_type (t_type t) HOT = false ->
  emergency_check read_temp (t, s) = (false, (t, s)).
Proof. intros H1 H2. unfold emergency_check, bind, gett, gets, onm. cbn. by rewrite H1, H2. Qed.

(** A check of a trip that is not bound to another sensor, has no dependency
    and whose kind the preference covers is its control step. *)
Lemma check_is_control id read_temp pref t (s : machine X W) :
  applies pref (t_type t) = true -> depend_cdev t = None ->
  sensor_id t = DEFAULT_SENSOR_ID \/ sensor_id t = id ->
  thd_trip_point_check id read_temp pref (t, s) =
  (r <- control_check read_temp pref ;; ret (r, false)) (t, s).
Proof.
  intros Ha Hd Hs. unfold thd_trip_point_check.
  assert (Hty : t_type t = PASSIVE \/ t_type t = ACTIVE \/ t_type t = MAX).
  { unfold applies, is_type in Ha.
    destruct (pref =? PREF_PERFORMANCE); [|destruct (pref =? PREF_ENERGY_CONSERVE); [|done]];
      apply orb_true_iff in Ha as [Ha|Ha]; apply bool_decide_eq_true in Ha; auto. }
  assert (Hno : is_type (t_type t) INVALID_TRIP_TYPE = false /\ is_type (t_type t) CRITICAL = false /\
                is_type (t_type t) HOT = false /\ is_type (t_type t) POLLING = false)
    by (destruct Hty as [->|[->| ->]]; done).
  destruct Hno as (N1 & N2 & N3 & N4).
  unfold bind at 1, gett at 1, gets at 1. cbn [fst]. rewrite N1.
  rewrite (bind_eq _ _ _ _ _ (dependency_none read_temp t s Hd)). cbn [negb].
  rewrite (sensor_selected t id Hs), (bind_eq _ _ _ _ _ (not_emergency read_temp t s N2 N3)), N4.
  reflexivity.
Qed.

Lemma control_check_run read_temp pref t (s : machine X W) :
  applies pref (t_type t) = true ->
  control_check read_temp pref (t, s) =
  match trip_decision t read_temp with
  | None => (true, (t, s))
  | Some on =>
      (true, snd ((if on then activate_cdevs (length (cdevs t)) 0 read_temp
                   else deactivate_cdevs (length (cdevs t)) read_temp) (t <| trip_on := on |>, s)))
  end.
Proof.
  intros Ha. unfold control_check. unfold bind at 1, gett, gets. cbn [fst]. rewrite Ha. cbn [negb].
  destruct (trip_decision t read_temp) as [on|]; [|done].
  unfold bind, modt, modify. destruct on; cbn [fst snd].
  - by destruct (activate_cdevs _ _ _ _).
  - by destruct (deactivate_cdevs _ _ _).
Qed.

(** C6: Hysteresis.  For a trip the preference covers: at or above the trip
    temperature the trip is switched on; once on, a reading inside the
    hysteresis band changes nothing at all, neither the trip nor any device;
    only below [temp - hyst] is it switched off. *)
Theorem trip_hysteresis id read_temp pref t (s : machine X W) :
  applies pref (t_type t) = true -> depend_cdev t = None ->
  sensor_id t = DEFAULT_SENSOR_ID \/ sensor_id t = id ->
  0 <= hyst t -> 0 <= read_temp -> read_temp + hyst t <= UINT_MAX ->
  let '((r, reset), (t', s')) := thd_trip_point_check id read_temp pref (t, s) in
  r = true /\ reset = false /\
  (temp t <= read_temp -> trip_on t' = true) /\
  (trip_on t = true -> temp t - hyst t <= read_temp < temp t -> t' = t /\ s' = s) /\
  (read_temp < temp t - hyst t -> trip_on t' = false).
Proof.
  intros Ha Hd Hs Hh Hr Hov. rewrite check_is_control by assumption.
  rewrite (bind_eq _ _ _ _ _ (eq_trans (control_check_run read_temp pref t s Ha)
    (surjective_pairing _))).
  unfold trip_decision. rewrite u32_id by (unfold is_u32; lia).
  destruct (Z.geb_spec read_temp (temp t)) as [Hge|Hlt].
  - pose proof (core_activate (length (cdevs t)) 0 read_temp (t <| trip_on := true |>, s)) as Hc.
    cbn [fst snd ret]. destruct (activate_cdevs _ _ _ _) as [u [t' s']]. cbn in *.
    repeat split; try lia. intros _. by apply (f_equal trip_on) in Hc.
  - destruct (trip_on t && (read_temp + hyst t <? temp t) || negb (trip_on t) && (read_temp <? temp t)) eqn:Eo.
    + pose proof (core_deactivate (length (cdevs t)) read_temp (t <| trip_on := false |>, s)) as Hc.
      cbn [fst snd ret]. destruct (deactivate_cdevs _ _ _) as [u [t' s']]. cbn in *.
      split; [done|]. split; [done|]. split; [lia|]. split.
      * intros Hon Hband. rewrite Hon in Eo. cbn in Eo. b2p. destruct Eo; [b2p; lia|done].
      * intros _. by apply (f_equal trip_on) in Hc.
    + cbn. split; [done|]. split; [done|]. split; [lia|]. split; [done|].
      intros Hlow. destruct (trip_on t); [|done]. cbn in Eo. b2p.
      match goal with H : _ \/ _ |- _ => destruct H; b2p; [done|lia] | _ => lia end.
Qed.

(** ** Emergencies *)

Fixpoint check_run (id pref : Z) (readings : list Z) (st : trip_point * machine X W)
    : trip_point * machine X W :=
  match readings with
  | [] => st
  | r :: rest => check_run id pref rest (snd (thd_trip_point_check id r pref st))
  end.

(** A critical trip that is in force for sensor [id]. *)
Definition critical_trip (id : Z) (t : trip_point) (s : machine X W) : Prop :=
  t_type t = CRITICAL /\ depend_cdev t = None /\
  (sensor_id t = DEFAULT_SENSOR_ID \/ sensor_id t = id) /\ m_ignore_critical s = false.

Lemma critical_over id r pref t (s : machine X W) :
  critical_trip id t s -> temp t <= r ->
  thd_trip_point_check id r pref (t, s) =
  ((true, false),
   if crit_trip_count t <? 4 then (t <| crit_trip_count := crit_trip_count t + 1 |>, s)
   else (t <| crit_trip_count := 0 |>, s <| m_power_offs := S (m_power_offs s) |>)).
Proof.
  intros (Hty & Hd & Hs & Hi) Hr. unfold thd_trip_point_check.
  unfold bind at 1, gett at 1, gets at 1. cbn [fst]. rewrite Hty.
  change (is_type CRITICAL INVALID_TRIP_TYPE) with false. cbv iota.
  rewrite (bind_eq _ _ _ _ _ (dependency_none r t s Hd)). cbn [negb].
  rewrite (sensor_selected t id Hs).
  unfold emergency_check, count_event. unfold bind, gett, gets, onm, modt, modify. cbn [fst snd].
  rewrite Hty, Hi. change (is_type CRITICAL CRITICAL) with true. cbn [negb andb orb].
  replace (r >=? temp t) with true by (symmetry; rewrite Z.geb_leb; by apply Z.leb_le).
  unfold consecutive_critical_events. cbn [fst].
  destruct (crit_trip_count t <? 4); reflexivity.
Qed.

Lemma critical_under id r pref t (s : machine X W) :
  critical_trip id t s -> r < temp t ->
  let '(t', s') := snd (thd_trip_point_check id r pref (t, s)) in
  crit_trip_count t' = 0 /\ m_power_offs s' = m_power_offs s.
Proof.
  intros (Hty & Hd & Hs & Hi) Hr. unfold thd_trip_point_check.
  unfold bind at 1, gett at 1, gets at 1. cbn [fst]. rewrite Hty.
  change (is_type CRITICAL INVALID_TRIP_TYPE) with false. cbv iota.
  rewrite (bind_eq _ _ _ _ _ (dependency_none r t s Hd)). cbn [negb].
  rewrite (sensor_selected t id Hs).
  assert (He : emergency_check r (t, s) = (false, (t <| crit_trip_count := 0 |>, s))).
  { unfold emergency_check, bind, gett, gets, onm, modt, modify. cbn [fst snd].
    rewrite Hty, Hi. change (is_type CRITICAL CRITICAL) with true. cbn [negb andb orb].
    replace (r >=? temp t) with false by (symmetry; rewrite Z.geb_leb; by apply Z.leb_gt).
    reflexivity. }
  rewrite (bind_eq _ _ _ _ _ He). change (is_type CRITICAL POLLING) with false. cbn [andb].
  unfold control_check, bind, gett, gets. cbn [fst]. cbn [t_type field_set]. rewrite Hty.
  unfold applies. change (is_type CRITICAL ACTIVE || is_type CRITICAL MAX) with false.
  change (is_type CRITICAL PASSIVE || is_type CRITICAL MAX) with false.
  destruct (pref =? PREF_PERFORMANCE), (pref =? PREF_ENERGY_CONSERVE); done.
Qed.

(** C5: the emergency power-off.  A critical trip powers the system off on
    exactly every fifth consecutive reading at or above its temperature, never
    on a shorter run, and one reading below it starts the count again. *)
Theorem critical_power_off id pref readings t (s : machine X W) :
  critical_trip id t s -> 0 <= crit_trip_count t <= 4 ->
  Forall (fun r => temp t <= r) readings ->
  let '(t', s') := check_run id pref readings (t, s) in
  Z.of_nat (m_power_offs s') =
    Z.of_nat (m_power_offs s) + (crit_trip_count t + Z.of_nat (length readings)) / 5 /\
  crit_trip_count t' = (crit_trip_count t + Z.of_nat (length readings)) mod 5 /\
  (forall r, r < temp t ->
     let '(t2, s2) := snd (thd_trip_point_check id r pref (t', s')) in
     crit_trip_count t2 = 0 /\ m_power_offs s2 = m_power_offs s').
Proof.
  revert t s. induction readings as [|r rest IH]; intros t s Hc Hcnt HF.
  - cbn [check_run length]. rewrite Z.add_0_r, Z.div_small, Z.mod_small by lia.
    split; [lia|]. split; [done|]. intros r Hr. by apply (critical_under id r pref).
  - inversion HF as [|? ? Hr HF']; subst. cbn [check_run].
    rewrite (critical_over id r pref t s Hc Hr). cbn [snd].
    assert (Hnext : forall c n, critical_trip id (t <| crit_trip_count := c |>)
      (s <| m_power_offs := n |>)) by (intros; exact Hc).
    destruct (Z.ltb_spec (crit_trip_count t) 4).
    + specialize (IH (t <| crit_trip_count := crit_trip_count t + 1 |>) s Hc).
      assert (Hb : 0 <= crit_trip_count (t <| crit_trip_count := crit_trip_count t + 1 |>) <= 4). { cbn. lia. }
      specialize (IH Hb HF'). destruct (check_run _ _ _ _) as [t' s'].
      cbn in IH. destruct IH as (I1 & I2 & I3). cbn [length].
      replace (crit_trip_count t + Z.of_nat (S (length rest)))
        with (crit_trip_count t + 1 + Z.of_nat (length rest)) by lia. auto.
    + specialize (IH (t <| crit_trip_count := 0 |>) (s <| m_power_offs := S (m_power_offs s) |>)
        (Hnext _ _) ltac:(cbn; lia) HF').
      destruct (check_run _ _ _ _) as [t' s']. cbn in IH. destruct IH as (I1 & I2 & I3). cbn [length].
      assert (crit_trip_count t = 4) as Hc4 by lia.
      replace (crit_trip_count t + Z.of_nat (S (length rest)))
        with (Z.of_nat (length rest) + 1 * 5) by lia.
      rewrite Z.div_add, Z.mod_add by lia.
      change (0 + Z.of_nat (length rest)) with (Z.of_nat (length rest)) in I1, I2.
      split; [lia|]. auto.
Qed.
End core.

(** * Which devices a check drives *)

Lemma list_insert_same {A} (l : list A) i x : l !! i = Some x -> <[i := x]> l = l.
Proof. apply list_insert_id. Qed.

Section heap.
Context {X W : Type} `{Kernel W}.

Lemma on_cdev_other {A} i j dflt (m : State (cdev X * W) A) (s : machine X W) :
  j <> i -> m_cdevs (snd (on_cdev i dflt m s)) !! j = m_cdevs s !! j.
Proof.
  intros Hj. unfold on_cdev. destruct (m_cdevs s !! i) as [d|]; [|done].
  destruct (m (d, m_w s)) as [a [d' w']]. cbn. by apply list_lookup_insert_ne.
Qed.

Lemma on_cdev_at {A} i dflt (m : State (cdev X * W) A) (s : machine X W) d :
  m_cdevs s !! i = Some d ->
  fst (on_cdev i dflt m s) = fst (m (d, m_w s)) /\
  m_cdevs (snd (on_cdev i dflt m s)) !! i = Some (fst (snd (m (d, m_w s)))).
Proof.
  intros Hd. unfold on_cdev. rewrite Hd. destruct (m (d, m_w s)) as [a [d' w']]. cbn.
  split; [done|]. apply list_lookup_insert_eq. by apply lookup_lt_Some in Hd.
Qed.

Lemma on_cdev_pure {A} i dflt (m : State (cdev X * W) A) (g : cdev X -> A) (s : machine X W) :
  (forall d w, m (d, w) = (g d, (d, w))) ->
  on_cdev i dflt m s = (from_option g dflt (m_cdevs s !! i), s).
Proof.
  intros Hg. unfold on_cdev. destruct (m_cdevs s !! i) as [d|] eqn:Ed; [|done].
  rewrite Hg. cbn. rewrite (list_insert_same _ _ _ Ed). by destruct s.
Qed.
End heap.

Section drive.
Context {X W : Type} `{Kernel W} `{CdevTracks X W}.

Definition in_max_pure (d : cdev X) : bool :=
  if min_state d <? max_state d then curr_state d >=? max_state d
  else if min_state d >? max_state d then curr_state d <=? max_state d else false.

Lemma in_max_state_tracks (d : cdev X) (w : W) : in_max_state (d, w) = (in_max_pure d, (d, w)).
Proof.
  unfold in_max_state, in_max_pure, bind, getd, gets. cbn [fst].
  destruct (min_state d <? max_state d); [by rewrite track_get, track_get_max|].
  destruct (min_state d >? max_state d); [by rewrite track_get, track_get_max|done].
Qed.

Lemma in_min_state_at (d : cdev X) (w : W) : in_min_state (d, w) = (in_min_state_pure d, (d, w)).
Proof. apply (in_min_state_tracks (d, w)). Qed.

(** The first step of [drive]: an entry without a target takes [min_state]. *)
Definition default_target (i : nat) (t : trip_point) (s : machine X W) : trip_point :=
  let c := entry i t in
  if target_state c =? TRIP_PT_INVALID_TARGET_STATE
  then t <| cdevs := alter (fun c => c <| target_state :=
         from_option get_min_state 0 (m_cdevs s !! tc_cdev (entry i t)) |>) i (cdevs t) |>
  else t.

Lemma alter_pointer (f : trip_pt_cdev_t -> trip_pt_cdev_t) i k t :
  (forall c, tc_cdev (f c) = tc_cdev c) ->
  tc_cdev (entry k (t <| cdevs := alter f i (cdevs t) |>)) = tc_cdev (entry k t).
Proof.
  intros Hf. unfold entry. cbn. destruct (decide (k = i)) as [->|Hne].
  - rewrite list_lookup_alter_eq. destruct (cdevs t !! i); cbn; [apply Hf|done].
  - by rewrite list_lookup_alter_ne.
Qed.

Lemma default_target_pointer i k t s :
  tc_cdev (entry k (default_target i t s)) = tc_cdev (entry k t).
Proof. unfold default_target. destruct (_ =? _); [|done]. by apply alter_pointer. Qed.

(** The arguments [drive] passes. *)
Definition drive_args (c : trip_pt_cdev_t) (t : trip_point) (d : cdev X) (read_temp state : Z) : set_args :=
  mk_args (i32 (temp t)) (i32 (temp t)) (i32 read_temp) (b2z (is_type (t_type t) MAX)) state
    (zone_id t) (t_index t) (tc_target_state_valid c)
    (m_map_target_state d (tc_target_state_valid c) (target_state c))
    (Some (tc_pid_param c)) false (tc_min_max_valid c) (tc_min_state c) (tc_max_state c).

Lemma drive_run i read_temp state t (s : machine X W) :
  let t1 := default_target i t s in
  let c := entry i t1 in
  drive i read_temp state (t, s) =
  let '((r, pid), s') := on_cdev (tc_cdev c) (THD_ERROR, tc_pid c)
    (d <- getd ;; thd_cdev_set_state (drive_args c t1 d read_temp state) (tc_pid c)) s in
  (r, (t1 <| cdevs := alter (fun c => c <| tc_pid := pid |>) i (cdevs t1) |>, s')).
Proof.
  cbn zeta. unfold drive. unfold bind at 1, gett at 1, gets at 1. cbn [fst].
  assert (Hstep : (if target_state (entry i t) =? TRIP_PT_INVALID_TARGET_STATE then
     m <- onm (on_cdev (tc_cdev (entry i t)) 0 (gets (fun '(d, _) => get_min_state d))) ;;
     set_entry i (fun c => c <| target_state := m |>)
   else ret tt) (t, s) = (tt, (default_target i t s, s))).
  { unfold default_target. destruct (_ =? _); [|done].
    unfold bind, onm. rewrite (on_cdev_pure _ _ _ get_min_state) by done. reflexivity. }
  rewrite (bind_eq _ _ _ _ _ Hstep). unfold bind at 1, gett at 1, gets at 1. cbn [fst].
  unfold bind at 1, onm, drive_args. destruct (on_cdev _ _ _ s) as [[r pid] s']. reflexivity.
Qed.

(** [drive] touches the entry's device only, and keeps every pointer. *)
Lemma drive_other i read_temp state t (s : machine X W) j :
  j <> tc_cdev (entry i t) ->
  m_cdevs (snd (snd (drive i read_temp state (t, s)))) !! j = m_cdevs s !! j.
Proof.
  intros Hj. rewrite drive_run, default_target_pointer.
  match goal with |- context [on_cdev ?p ?d ?m s] =>
    pose proof (on_cdev_other p j d m s Hj) as Ho; destruct (on_cdev p d m s) as [[r pid] s'] end.
  exact Ho.
Qed.

Lemma drive_pointers i read_temp state t (s : machine X W) k :
  tc_cdev (entry k (fst (snd (drive i read_temp state (t, s))))) = tc_cdev (entry k t).
Proof.
  rewrite drive_run. destruct (on_cdev _ _ _ s) as [[r pid] s']. cbn [fst snd].
  rewrite alter_pointer by done. apply default_target_pointer.
Qed.

Lemma drive_success i read_temp state t (s : machine X W) :
  is_Some (m_cdevs s !! tc_cdev (entry i t)) ->
  fst (drive i read_temp state (t, s)) = THD_SUCCESS.
Proof.
  intros [d Hd]. rewrite drive_run, default_target_pointer.
  match goal with |- context [on_cdev ?p ?df ?m s] =>
    destruct (on_cdev_at p df m s d Hd) as [Hf _]; destruct (on_cdev p df m s) as [[r pid] s'] end.
  cbn [fst snd] in *. apply (f_equal fst) in Hf. cbn in Hf. rewrite Hf. apply set_state_success.
Qed.

(** After an activation through [drive] the device has the trip registered. *)
Lemma drive_registers i read_temp t (s : machine X W) `{!CdevLaws X W} :
  is_Some (m_cdevs s !! tc_cdev (entry i t)) ->
  exists d', m_cdevs (snd (snd (drive i read_temp 1 (t, s)))) !! tc_cdev (entry i t) = Some d' /\
             (zone_id t, t_index t) ∈ keys (zone_trip_limits d').
Proof.
  intros [d Hd]. rewrite drive_run, default_target_pointer.
  match goal with |- context [on_cdev ?p ?df ?m s] =>
    destruct (on_cdev_at p df m s d Hd) as [_ Hs]; destruct (on_cdev p df m s) as [[r pid] s'] end.
  cbn [fst snd] in *. eexists. split; [exact Hs|].
  unfold bind, getd, gets. cbn [fst]. rewrite set_state_limits.
  assert (Hz : zone_id (default_target i t s) = zone_id t /\ t_index (default_target i t s) = t_index t)
    by (unfold default_target; by destruct (_ =? _)).
  destruct Hz as [<- <-].
  apply (limits_after_registers (drive_args _ (default_target i t s) d read_temp 1) d). reflexivity.
Qed.

(** The pointer and the sampling period of each entry, which no check changes. *)
Definition static (t : trip_point) : list (nat * Z) :=
  map (fun c => (tc_cdev c, sampling_priod c)) (cdevs t).

Lemma static_alter (f : trip_pt_cdev_t -> trip_pt_cdev_t) i t :
  (forall c, tc_cdev (f c) = tc_cdev c /\ sampling_priod (f c) = sampling_priod c) ->
  static (t <| cdevs := alter f i (cdevs t) |>) = static t.
Proof.
  intros Hf. unfold static. cbn. revert i. induction (cdevs t) as [|c l IH]; intros [|i]; cbn; [done..| |].
  - destruct (Hf c) as [-> ->]. done.
  - by rewrite IH.
Qed.

Lemma static_default_target i t s : static (default_target i t s) = static t.
Proof. unfold default_target. destruct (_ =? _); [|done]. by apply static_alter. Qed.

Lemma static_drive i read_temp state t (s : machine X W) :
  static (fst (snd (drive i read_temp state (t, s)))) = static t.
Proof.
  rewrite drive_run. destruct (on_cdev _ _ _ s) as [[r pid] s']. cbn [fst snd].
  rewrite static_alter by done. apply static_default_target.
Qed.

Lemma static_entry t k p sp :
  static t !! k = Some (p, sp) -> tc_cdev (entry k t) = p /\ sampling_priod (entry k t) = sp.
Proof.
  unfold static, entry. rewrite list_lookup_fmap.
  destruct (cdevs t !! k); cbn; intros E; by simplify_eq.
Qed.

Lemma too_early_frame i t (s : machine X W) :
  let '(e, (t', s')) := too_early i (t, s) in
  static t' = static t /\ control_type t' = control_type t /\ m_cdevs s' = m_cdevs s /\
  (sampling_priod (entry i t) = 0 -> e = false /\ t' = t /\ s' = s).
Proof.
  unfold too_early, bind, gett, gets. cbn [fst].
  destruct (truthy (sampling_priod (entry i t))) eqn:Es.
  - unfold onm, on_world. destruct (k_time (m_w s)) as [tm w'].
    apply truthy_true in Es. destruct (_ <? _); cbn.
    + repeat split; try done; intros; lia.
    + split; [by apply static_alter|]. repeat split; try done; intros; lia.
  - cbn. repeat split; done.
Qed.

(** One round of the activation loop. *)
Lemma activate_unfold n i read_temp t (s : machine X W) :
  activate_cdevs (S n) i read_temp (t, s) =
  let '(early, (t1, s1)) := too_early i (t, s) in
  if early : bool then (tt, (t1, s1)) else
  if from_option in_max_pure false (m_cdevs s1 !! tc_cdev (entry i t1))
  then activate_cdevs n (S i) read_temp (t1, s1) else
  let '(r, st) := drive i read_temp 1 (t1, s1) in
  if is_control (control_type t1) SEQUENTIAL && (r =? THD_SUCCESS) then (tt, st)
  else activate_cdevs n (S i) read_temp st.
Proof.
  cbn [activate_cdevs]. unfold bind at 1. destruct (too_early i (t, s)) as [[] [t1 s1]]; [done|].
  unfold bind at 1, gett, gets. cbn [fst]. unfold bind at 1, onm.
  rewrite (on_cdev_pure _ _ _ in_max_pure) by apply in_max_state_tracks.
  destruct (from_option _ _ _); [done|]. unfold bind.
  destruct (drive i read_temp 1 (t1, s1)) as [r st]. by destruct (_ && _).
Qed.

Definition pointers_valid (t : trip_point) (s : machine X W) : Prop :=
  forall k p sp, static t !! k = Some (p, sp) -> is_Some (m_cdevs s !! p).

(** A sequential trip drives one device at a time.  Activating a
    [SEQUENTIAL] trip changes at most one cooling device of the machine: the
    first that still has room. *)
Theorem sequential_drives_one n i read_temp t (s : machine X W) :
  control_type t = SEQUENTIAL -> pointers_valid t s -> (i + n <= length (cdevs t))%nat ->
  exists k, forall j, j <> k ->
    m_cdevs (snd (snd (activate_cdevs n i read_temp (t, s)))) !! j = m_cdevs s !! j.
Proof.
  revert i t s. induction n as [|n IH]; intros i t s Hc Hv Hlen.
  { exists 0%nat. done. }
  rewrite activate_unfold. pose proof (too_early_frame i t s) as Hf.
  destruct (too_early i (t, s)) as [early [t1 s1]]. destruct Hf as (F1 & F2 & F3 & _).
  assert (Hl : length (cdevs t1) = length (cdevs t)).
  { apply (f_equal length) in F1. unfold static in F1. by rewrite !length_map in F1. }
  destruct early; [exists 0%nat; cbn; by rewrite F3|].
  destruct (from_option _ _ _).
  - rewrite <- F3. apply IH; [congruence| |lia].
    unfold pointers_valid in *. by rewrite F1, F3.
  - assert (Hp : is_Some (m_cdevs s1 !! tc_cdev (entry i t1))).
    { destruct (lookup_lt_is_Some_2 (static t1) i) as [[p sp] Hst].
      { unfold static. rewrite length_map. lia. }
      destruct (static_entry _ _ _ _ Hst) as [-> _]. rewrite F3. apply (Hv i p sp). by rewrite <- F1. }
    pose proof (drive_success i read_temp 1 t1 s1 Hp) as Hr.
    exists (tc_cdev (entry i t1)). intros j Hj.
    pose proof (drive_other i read_temp 1 t1 s1 j Hj) as Ho.
    destruct (drive i read_temp 1 (t1, s1)) as [r st]. cbn in Hr. rewrite Hr, F2, Hc.
    change (is_control SEQUENTIAL SEQUENTIAL && (THD_SUCCESS =? THD_SUCCESS)) with true.
    cbn [fst snd] in *. by rewrite Ho, F3.
Qed.

Lemma activate_other n i read_temp t (s : machine X W) j :
  (forall k, (i <= k < i + n)%nat -> tc_cdev (entry k t) <> j) ->
  (forall k, (i <= k < i + n)%nat -> sampling_priod (entry k t) = 0) ->
  (i + n <= length (cdevs t))%nat ->
  m_cdevs (snd (snd (activate_cdevs n i read_temp (t, s)))) !! j = m_cdevs s !! j.
Proof.
  revert i t s. induction n as [|n IH]; intros i t s Hp Hsp Hlen; [done|].
  rewrite activate_unfold. pose proof (too_early_frame i t s) as Hf.
  destruct (too_early i (t, s)) as [early [t1 s1]]. destruct Hf as (_ & _ & _ & Hz).
  destruct (Hz (Hsp i ltac:(lia))) as (-> & -> & ->).
  destruct (from_option _ _ _).
  - apply IH; [intros; apply Hp; lia|intros; apply Hsp; lia|lia].
  - pose proof (drive_other i read_temp 1 t s j (not_eq_sym (Hp i ltac:(lia)))) as Ho.
    pose proof (static_drive i read_temp 1 t s) as Hst.
    destruct (drive i read_temp 1 (t, s)) as [r [t2 s2]]. cbn [fst snd] in *.
    destruct (_ && _); [exact Ho|]. rewrite <- Ho.
    assert (He : forall k, (i <= k < i + S n)%nat ->
      tc_cdev (entry k t2) = tc_cdev (entry k t) /\ sampling_priod (entry k t2) = sampling_priod (entry k t)).
    { intros k Hk. destruct (lookup_lt_is_Some_2 (static t) k) as [[p sp] Hk1].
      { unfold static. rewrite length_map. lia. }
      destruct (static_entry _ _ _ _ Hk1) as [-> ->]. apply static_entry. by rewrite Hst. }
    apply IH.
    + intros k Hk. destruct (He k ltac:(lia)) as [-> _]. apply Hp. lia.
    + intros k Hk. destruct (He k ltac:(lia)) as [_ ->]. apply Hsp. lia.
    + apply (f_equal length) in Hst. unfold static in Hst. rewrite !length_map in Hst. lia.
Qed.

(** Entries without a sampling period, by position. *)
Lemma static_at t k :
  Forall (fun e => snd e = 0) (static t) -> (k < length (cdevs t))%nat ->
  static t !! k = Some (tc_cdev (entry k t), 0) /\ sampling_priod (entry k t) = 0.
Proof.
  intros Hsp Hk. destruct (lookup_lt_is_Some_2 (static t) k) as [[p sp] Hk1].
  { unfold static. by rewrite length_map. }
  destruct (static_entry _ _ _ _ Hk1) as [-> ->].
  rewrite Forall_lookup in Hsp. specialize (Hsp k _ Hk1). cbn in Hsp. by subst sp.
Qed.

Lemma pointers_distinct t a b :
  NoDup (map fst (static t)) -> Forall (fun e => snd e = 0) (static t) ->
  (a < length (cdevs t))%nat -> (b < length (cdevs t))%nat -> a <> b ->
  tc_cdev (entry a t) <> tc_cdev (entry b t).
Proof.
  intros Hnd Hsp Ha Hb Hab E. apply Hab.
  destruct (static_at t a Hsp Ha) as [Sa _], (static_at t b Hsp Hb) as [Sb _].
  apply (NoDup_lookup (map fst (static t)) a b (tc_cdev (entry a t)) Hnd); rewrite list_lookup_fmap.
  - by rewrite Sa.
  - rewrite Sb. cbn. congruence.
Qed.

(** What [drive] keeps of the trip and of the machine. *)
Lemma drive_frame i read_temp t (s : machine X W) `{!CdevLaws X W} :
  pointers_valid t s -> is_Some (m_cdevs s !! tc_cdev (entry i t)) ->
  let '(t2, s2) := snd (drive i read_temp 1 (t, s)) in
  static t2 = static t /\ length (cdevs t2) = length (cdevs t) /\ pointers_valid t2 s2 /\
  zone_id t2 = zone_id t /\ t_index t2 = t_index t /\ control_type t2 = control_type t.
Proof.
  intros Hv Hi. pose proof (static_drive i read_temp 1 t s) as Hst.
  pose proof (core_drive i read_temp 1 (t, s)) as Hcore.
  destruct (drive_registers i read_temp t s Hi) as (d' & Hd' & _).
  pose proof (drive_other i read_temp 1 t s) as Ho.
  destruct (drive i read_temp 1 (t, s)) as [r [t2 s2]]. cbn [fst snd] in *.
  split; [done|]. split.
  { apply (f_equal length) in Hst. unfold static in Hst. by rewrite !length_map in Hst. }
  split.
  - intros k p sp Hk. rewrite Hst in Hk.
    destruct (decide (p = tc_cdev (entry i t))) as [->|Hp]; [by exists d'|].
    rewrite (Ho p Hp). by apply (Hv k p sp).
  - split; [exact (f_equal zone_id Hcore)|].
    split; [exact (f_equal t_index Hcore)|exact (f_equal control_type Hcore)].
Qed.

Lemma same_static_entry t t2 k :
  static t2 = static t -> (k < length (cdevs t))%nat ->
  tc_cdev (entry k t2) = tc_cdev (entry k t) /\
  sampling_priod (entry k t2) = sampling_priod (entry k t).
Proof.
  intros Hst Hk. destruct (lookup_lt_is_Some_2 (static t) k) as [[p sp] Hk1].
  { unfold static. by rewrite length_map. }
  destruct (static_entry _ _ _ _ Hk1) as [-> ->]. apply static_entry. by rewrite Hst.
Qed.

End drive.
