(* ===== verification/Xml.v ===== *)
(** The XML files of the daemon: the document tree of libxml2 as data, the text
    helpers of the parsers, the cooling device order
    (src/thd_cdev_order_parser.cpp) and the feature switches
    (src/thd_features_parse.cpp) with [cthd_engine::thd_parse_features] and
    [check_feature].

    libxml2 is not code of this repository: reading a file, finding the root
    and collecting the text of a node list are the operations of a class.  A
    parser that dereferences a null pointer or scans outside a buffer has no
    defined behaviour; such a run is [None]. *)
From stdpp Require Import base gmap strings list.
From Stdlib Require Import ZArith Lia Ascii SpecFloat.
From Stdlib Require String.
From S2P Require Import Prelude CString SysFs CFloat.

Open Scope string_scope.
Open Scope list_scope.
Open Scope Z_scope.

(** * Documents *)

(** [xmlNode]: what the parsers look at is the type, the name and the
    children; a node pointer with its [next] chain is a list. *)
#[warnings="-register-all"]
Inductive xmlNode :=
| XML_ELEMENT_NODE (name : string) (children : list xmlNode)
| XML_TEXT_NODE (content : string)
| XML_OTHER_NODE.

Class LibXml (W D : Type) := {
  xmlReadFile : string -> W -> option D;
  xmlDocGetRootElement : D -> list xmlNode;                  (* [] is the null pointer *)
  xmlNodeListGetString : D -> list xmlNode -> option string; (* None is the null pointer *)
}.

(** [!thd_strcasecmp_n(cur_node->name, s)] *)
Definition named (name s : string) : bool := thd_strcasecmp_n (Some name) (Some s) =? 0.

(** * Text *)

Fixpoint trim_end (s : string) : string :=
  match s with
  | EmptyString => EmptyString
  | String c s' =>
      match trim_end s' with
      | EmptyString => if isspace c then EmptyString else String c EmptyString
      | r => String c r
      end
  end.

(** [char_trim]: on a text of white space only, the backward scan has no
    character to stop at inside the buffer. *)
Definition char_trim (s : string) : option string :=
  match s with
  | EmptyString => Some EmptyString
  | _ => match skip_space s with
         | EmptyString => None
         | s' => Some (trim_end s')
         end
  end.

(** [string_trim] removes every newline, blank, tab and carriage return. *)
Definition trimmed_char (c : ascii) : bool :=
  let z := char_code c in (z =? 10) || (z =? 32) || (z =? 9) || (z =? 13).
Fixpoint string_trim (s : string) : string :=
  match s with
  | EmptyString => EmptyString
  | String c s' => if trimmed_char c then string_trim s' else String c (string_trim s')
  end.

(** * [atof], i.e. [strtod] in the C locale *)

Fixpoint span (p : ascii -> bool) (s : string) : string * string :=
  match s with
  | String c s' => if p c then let '(a, b) := span p s' in (String c a, b) else (EmptyString, s)
  | EmptyString => (EmptyString, EmptyString)
  end.

Definition hexdigit_val (c : ascii) : Z :=
  if isdigit c then digit_val c else char_code (tolower c) - 87.
Definition isxdigit (c : ascii) : bool :=
  isdigit c || ((97 <=? char_code (tolower c)) && (char_code (tolower c) <=? 102)).
Fixpoint based_val (base : Z) (acc : Z) (s : string) : Z :=
  match s with
  | String c s' => based_val base (acc * base + hexdigit_val c) s'
  | EmptyString => acc
  end.

(** The digits before and after the point: value, count of the fraction's
    digits, whether there was a digit at all, the rest. *)
Definition mantissa (digit : ascii -> bool) (base : Z) (s : string) : Z * Z * bool * string :=
  let '(a, r) := span digit s in
  let '(b, r') := match r with
                  | String "."%char r1 => span digit r1
                  | _ => (EmptyString, r)
                  end in
  let any := negb (String.eqb a "" && String.eqb b "") in
  (based_val base 0 (a +:+ b), Z.of_nat (String.length b), any, r').

(** The exponent after the letter [e]; 0 when there is none. *)
Definition exponent (e : ascii) (s : string) : Z :=
  match s with
  | String c s' => if Ascii.eqb (tolower c) e && starts_number s' then signed_val s' else 0
  | EmptyString => 0
  end.

Section format.
(** The precision and the exponent bound of the target format. *)
Context (prec emax : Z).

(** [m * 10^e] rounded to nearest; beyond the clamped exponents the result is
    infinity or zero anyway. *)
Definition decimal_value (neg : bool) (m e : Z) : spec_float :=
  match m with
  | Zpos p =>
      let e := Z.max (- (400 + Z.log2 m)) (Z.min e 400) in
      if 0 <=? e
      then binary_normalize prec emax ((if neg then -1 else 1) * m * 10 ^ e) 0 neg
      else SFdiv prec emax (S754_finite neg p 0) (S754_finite false (Z.to_pos (10 ^ (- e))) 0)
  | _ => S754_zero neg
  end.

(** The number a text gave and whether [strtod] reports it out of range: an
    overflow, or an underflow (a subnormal result counts as one, unless it were
    exact). *)
Definition ranged (m : Z) (f : spec_float) : spec_float * bool :=
  (f, negb (m =? 0) && match f with
                       | S754_finite _ p _ => Zpos p <? 2 ^ (prec - 1)
                       | _ => true
                       end).

(** The text after the sign; [None] when it starts with no number. *)
Definition strtod_unsigned (neg : bool) (s : string) : option (spec_float * bool) :=
  let l := smap tolower s in
  if compare_prefix l 3 "inf" then Some (S754_infinity neg, false)
  else if compare_prefix l 3 "nan" then Some (S754_nan, false)
  else
    let '(hm, hn, hany, hr) := mantissa isxdigit 16 (String.substring 2 (String.length s - 2) s) in
    if compare_prefix l 2 "0x" && hany then
      Some (ranged hm
        (binary_normalize prec emax ((if neg then -1 else 1) * hm) (exponent "p" hr - 4 * hn) neg))
    else
      let '(m, n, any, r) := mantissa isdigit 10 s in
      if any : bool then Some (ranged m (decimal_value neg m (exponent "e" r - n))) else None.

Definition strtod_any (s : string) : option (spec_float * bool) :=
  match skip_space s with
  | String "-"%char s' => strtod_unsigned true s'
  | String "+"%char s' => strtod_unsigned false s'
  | s' => strtod_unsigned false s'
  end.
End format.

Definition atof (s : string) : double :=
  match strtod_any d_prec d_emax s with Some (f, _) => f | None => double_of_Z 0 end.

(** [std::stof]: [None] is the exception for no number or one out of range. *)
Definition stof (s : string) : option float :=
  match strtod_any f_prec f_emax s with Some (f, false) => Some f | _ => None end.

(** The literals of the source are what [atof] makes of their text. *)
Example atof_literals :
  atof "0.0005" = double_0_0005 /\ atof " 1e-4 " = double_0_0001 /\ atof "x" = double_of_Z 0
  /\ atof "-2.50" = atof "-0x2.8p0" /\ atof "1e400" = S754_infinity false /\ atof "12" = double_of_Z 12
  /\ stof "47.5" = Some (S754_finite false 12451840 (-18)) /\ stof "1e39" = None /\ stof "Max" = None.
Proof. vm_compute. repeat split. Qed.

(** * The order of cooling devices *)

Section xml.
Context {W D : Type} `{Kernel W} `{!LibXml W D}.

(** A loop over the elements of a sibling chain. *)
Section elements.
Context {A : Type} (body : string -> list xmlNode -> A -> option A).
Fixpoint for_elements (l : list xmlNode) (a : A) : option A :=
  match l with
  | [] => Some a
  | XML_ELEMENT_NODE name children :: l' =>
      match body name children a with
      | Some a' => for_elements l' a'
      | None => None
      end
  | _ :: l' => for_elements l' a
  end.
End elements.

Section order.
Context (TDCONFDIR : string).
Definition order_filename : string := TDCONFDIR +:+ "/" +:+ "thermal-cpu-cdev-order.xml".

Definition parse_new_cdev (doc : D) (l : list xmlNode) (order : list string) : option (list string) :=
  for_elements (fun _ children order =>
    Some match xmlNodeListGetString doc children with
         | Some v => order ++ [v]
         | None => order
         end) l order.

Definition parse_order (doc : D) (l : list xmlNode) (order : list string) : option (list string) :=
  for_elements (fun name children order =>
    if named name "CoolingDeviceOrder" then parse_new_cdev doc children order else Some order) l order.

(** [parser_init], [start_parse] and [get_order_list] as
    [cthd_zone_cpu::parse_cdev_order] calls them; [None] is [THD_ERROR]. *)
Definition cdev_order_list (w : W) : option (list string) :=
  match k_stat order_filename w with
  | None => None
  | Some _ =>
      match xmlReadFile order_filename w with
      | None => None
      | Some doc =>
          match xmlDocGetRootElement doc with
          | [] => None
          | root => parse_order doc root []
          end
      end
  end.
End order.

(** * Features *)

Definition DBUS_CONTROL : nat := 0.
Definition XML_THERMAL_CONFIG : nat := 1.
Definition DATA_VAULT_FS : nat := 2.
Definition KOBJECT_UEVENT_SUPPORT : nat := 3.
Definition MAX_FEATURE : nat := 4.

Record features_parse := mk_features {
  f_doc : option D;
  f_root_element : list xmlNode;
  feature_list : list Z;
}.
Definition new_features_parse : features_parse := mk_features None [] [].

(** [strtol] with its end pointer and [errno]: the value when the whole text
    is one number a [long] holds. *)
Definition strtol_whole (s : string) : option Z :=
  let s' := skip_space s in
  if starts_number s' then
    let digits := match s' with
                  | String c r => if isdigit c then s' else r
                  | EmptyString => EmptyString
                  end in
    if String.eqb (snd (span isdigit digits)) "" && (- 2 ^ 63 <=? signed_val s')
       && (signed_val s' <? 2 ^ 63)
    then Some (signed_val s') else None
  else None.

Definition set_feature_value (doc : D) (children : list xmlNode) (feature : nat) (fl : list Z)
    : option (list Z) :=
  if (MAX_FEATURE <=? feature)%nat then Some fl else
  match xmlNodeListGetString doc children with
  | None => Some fl
  | Some tmp_value =>
      match char_trim tmp_value with
      | None => None
      | Some t =>
          match strtol_whole t with
          | Some v => if (feature <? length fl)%nat then Some (<[feature := i32 v]> fl) else None
          | None => Some fl
          end
      end
  end.

Definition feature_of (name : string) : option nat :=
  if named name "DbusControl" then Some DBUS_CONTROL
  else if named name "XMLThermalConfig" then Some XML_THERMAL_CONFIG
  else if named name "DataVaultFromFileSystem" then Some DATA_VAULT_FS
  else if named name "KobjectUeventSupport" then Some KOBJECT_UEVENT_SUPPORT
  else None.

(** The accumulator is [parsed_any] and the feature list. *)
Definition parse_features (doc : D) (l : list xmlNode) (fl : list Z) : option (Z * list Z) :=
  r ← for_elements (fun name children '(parsed_any, fl) =>
        match feature_of name with
        | Some f => fl' ← set_feature_value doc children f fl; Some (true, fl')
        | None => Some (parsed_any, fl)
        end) l (false, fl);
  Some (if r.1 : bool then THD_SUCCESS else THD_ERROR, r.2).

Definition parse_feature_file (doc : D) (l : list xmlNode) (fl : list Z) : option (Z * list Z) :=
  r ← for_elements (fun name children '(parsed_any, fl) =>
        if named name "ThermaldFeatures" then
          '(r, fl') ← parse_features doc children fl;
          Some (if r =? THD_SUCCESS then true else parsed_any, fl')
        else Some (parsed_any, fl)) l (false, fl);
  Some (if r.1 : bool then THD_SUCCESS else THD_ERROR, r.2).

(** Owned by root, not writable by others, not a symbolic link. *)
Definition trusted_file (file : string) (w : W) : bool :=
  match k_stat file w with
  | None => false
  | Some st =>
      (st_uid st =? 0) && (Z.land (st_mode st) (Z.lor S_IWGRP S_IWOTH) =? 0) &&
      match k_lstat file w with
      | inl _ => false
      | inr st => negb (S_ISLNK (st_mode st))
      end
  end.

Section features.
Context (TDCONFDIR : string).
Definition features_filename : string := TDCONFDIR +:+ "/" +:+ "thermald-features.xml".

Definition features_parser_init (w : W) (p : features_parse) : Z * features_parse :=
  if negb (trusted_file features_filename w) then (THD_ERROR, p) else
  let p := mk_features (f_doc p) (f_root_element p) (replicate MAX_FEATURE 1) in
  match xmlReadFile features_filename w with
  | None => (THD_ERROR, mk_features None (f_root_element p) (feature_list p))
  | Some doc =>
      match xmlDocGetRootElement doc with
      | [] => (THD_ERROR, mk_features None [] (feature_list p))
      | root => (THD_SUCCESS, mk_features (Some doc) root (feature_list p))
      end
  end.

(** [start_parse]; without a document there is no root to visit, unless a
    former document was left open: its nodes without a document are not
    modelled. *)
Definition features_start_parse (p : features_parse) : option (Z * features_parse) :=
  match f_doc p, f_root_element p with
  | None, [] => Some (THD_ERROR, p)
  | None, _ :: _ => None
  | Some doc, _ =>
      '(r, fl) ← parse_feature_file doc (f_root_element p) (feature_list p);
      Some (r, mk_features (f_doc p) (f_root_element p) fl)
  end.

Definition features_parser_deinit (p : features_parse) : features_parse :=
  mk_features None [] (feature_list p).

(** [cthd_engine::thd_parse_features]; the result of [parser_init] is not
    looked at, and the document is parsed twice. *)
Definition thd_parse_features (w : W) (p : features_parse) : option features_parse :=
  let '(_, p) := features_parser_init w p in
  '(r, p) ← features_start_parse p;
  if r =? THD_SUCCESS then
    '(_, p) ← features_start_parse p;
    Some (features_parser_deinit p)
  else Some p.
End features.

(** [check_feature]: [None] reads past the end of the vector. *)
Definition check_feature (feature : nat) (p : features_parse) : option Z :=
  if (MAX_FEATURE <=? feature)%nat then Some THD_ERROR else feature_list p !! feature.
End xml.
