(* ===== verification/Parse.v ===== *)
(** The XML configuration, [cthd_parse] (src/thd_parse.cpp, src/thd_parse.h):
    the structures a configuration file fills, the functions that fill them
    element by element, the choice of the platform and the accessors the
    engine uses.

    [None] is a run without defined behaviour: a null pointer assigned to a
    string, a scan outside a buffer or an index outside a vector. *)
From stdpp Require Import base gmap strings list.
From Stdlib Require Import ZArith Lia.
From Stdlib Require String.
From S2P Require Import Prelude CString SysFs CFloat Pid Cdev CdevRapl Preference TripPoint Xml.

Open Scope string_scope.
Open Scope list_scope.
Open Scope Z_scope.

(** * The configuration *)

Record pid_control_t := mk_pid_control {
  Kp : double;
  Ki : double;
  Kd : double;
}.
#[export] Instance eta_pid_control_t : Eta pid_control_t := {| eta_of := fun x =>
  mk_pid_control (Kp x) (Ki x) (Kd x) |}.

Record thermal_sensor_link_t := mk_sensor_link {
  tl_name : string;
  tl_multiplier : double;
  tl_offset : double;
}.
#[export] Instance eta_thermal_sensor_link_t : Eta thermal_sensor_link_t := {| eta_of := fun x =>
  mk_sensor_link (tl_name x) (tl_multiplier x) (tl_offset x) |}.

Record thermal_sensor_target_t := mk_sensor_target {
  tt_name : string;
  tt_coeff : double;
  tt_offset : double;
  tt_power_sensor : Z;
}.
#[export] Instance eta_thermal_sensor_target_t : Eta thermal_sensor_target_t := {| eta_of := fun x =>
  mk_sensor_target (tt_name x) (tt_coeff x) (tt_offset x) (tt_power_sensor x) |}.

Record thermal_sensor_polling_t := mk_sensor_polling {
  sp_virtual_temp : Z;
  sp_sample_period : Z;
}.
#[export] Instance eta_thermal_sensor_polling_t : Eta thermal_sensor_polling_t := {| eta_of := fun x =>
  mk_sensor_polling (sp_virtual_temp x) (sp_sample_period x) |}.

Record thermal_sensor_t := mk_thermal_sensor {
  ts_mask : Z;
  ts_name : string;
  ts_path : string;
  ts_async_capable : bool;
  ts_virtual_sensor : bool;
  ts_sensor_link : thermal_sensor_link_t;
  ts_link_sensors : list thermal_sensor_target_t;
  ts_polling_table : list thermal_sensor_polling_t;
}.
#[export] Instance eta_thermal_sensor_t : Eta thermal_sensor_t := {| eta_of := fun x =>
  mk_thermal_sensor (ts_mask x) (ts_name x) (ts_path x) (ts_async_capable x)
    (ts_virtual_sensor x) (ts_sensor_link x) (ts_link_sensors x) (ts_polling_table x) |}.

Record trip_cdev_depend_t := mk_depend {
  dep_dependency : Z;
  dep_cdev : string;
  dep_state : string;
}.
#[export] Instance eta_trip_cdev_depend_t : Eta trip_cdev_depend_t := {| eta_of := fun x =>
  mk_depend (dep_dependency x) (dep_cdev x) (dep_state x) |}.

Record trip_cdev_t := mk_conf_trip_cdev {
  tcd_type : string;
  tcd_influence : Z;
  tcd_sampling_period : Z;
  tcd_target_state_valid : Z;
  tcd_target_state : Z;
  tcd_pid_param : pid_param_t;
  tcd_min_max_valid : Z;
  tcd_target_min_state : Z;
  tcd_target_max_state : Z;
}.
#[export] Instance eta_trip_cdev_t : Eta trip_cdev_t := {| eta_of := fun x =>
  mk_conf_trip_cdev (tcd_type x) (tcd_influence x) (tcd_sampling_period x)
    (tcd_target_state_valid x) (tcd_target_state x) (tcd_pid_param x) (tcd_min_max_valid x)
    (tcd_target_min_state x) (tcd_target_max_state x) |}.

Record trip_point_t := mk_conf_trip {
  tp_temperature : Z;
  tp_hyst : Z;
  tp_trip_pt_type : trip_point_type_t;
  tp_control_type : trip_control_type_t;
  tp_influence : Z;
  tp_sensor_type : string;
  tp_dependency : trip_cdev_depend_t;
  tp_cdev_trips : list trip_cdev_t;
}.
#[export] Instance eta_trip_point_t : Eta trip_point_t := {| eta_of := fun x =>
  mk_conf_trip (tp_temperature x) (tp_hyst x) (tp_trip_pt_type x) (tp_control_type x)
    (tp_influence x) (tp_sensor_type x) (tp_dependency x) (tp_cdev_trips x) |}.

Record thermal_zone_t := mk_thermal_zone {
  tz_type : string;
  tz_trip_pts : list trip_point_t;
}.
#[export] Instance eta_thermal_zone_t : Eta thermal_zone_t := {| eta_of := fun x =>
  mk_thermal_zone (tz_type x) (tz_trip_pts x) |}.

Inductive unit_value_t := ABSOULUTE_VALUE | RELATIVE_PERCENTAGES.

Record cooling_dev_t := mk_cooling_dev {
  cd_status : bool;
  cd_mask : Z;
  cd_index : Z;
  cd_unit_val : unit_value_t;
  cd_min_state : Z;
  cd_max_state : Z;
  cd_inc_dec_step : Z;
  cd_read_back : bool;
  cd_auto_down_control : bool;
  cd_type_string : string;
  cd_path_str : string;
  cd_debounce_interval : Z;
  cd_pid_enable : bool;
  cd_pid : pid_control_t;
  cd_write_prefix : string;
}.
#[export] Instance eta_cooling_dev_t : Eta cooling_dev_t := {| eta_of := fun x =>
  mk_cooling_dev (cd_status x) (cd_mask x) (cd_index x) (cd_unit_val x) (cd_min_state x)
    (cd_max_state x) (cd_inc_dec_step x) (cd_read_back x) (cd_auto_down_control x)
    (cd_type_string x) (cd_path_str x) (cd_debounce_interval x) (cd_pid_enable x) (cd_pid x)
    (cd_write_prefix x) |}.

Record thermal_info_t := mk_thermal_info {
  ti_name : string;
  ti_uuid : string;
  ti_product_name : string;
  ti_product_sku : string;
  ti_default_preference : Z;
  ti_polling_interval : Z;
  ti_ppcc : ppcc_t;
  ti_sensors : list thermal_sensor_t;
  ti_zones : list thermal_zone_t;
  ti_cooling_devs : list cooling_dev_t;
}.
#[export] Instance eta_thermal_info_t : Eta thermal_info_t := {| eta_of := fun x =>
  mk_thermal_info (ti_name x) (ti_uuid x) (ti_product_name x) (ti_product_sku x)
    (ti_default_preference x) (ti_polling_interval x) (ti_ppcc x) (ti_sensors x) (ti_zones x)
    (ti_cooling_devs x) |}.

#[export] Instance eta_ppcc_t : Eta ppcc_t := {| eta_of := fun x =>
  mk_ppcc (ppcc_name x) (ppcc_valid x) (power_limit_min x) (power_limit_max x) (time_wind_min x)
    (time_wind_max x) (step_size x) (limit_1_valid x) (power_limit_1_min x) (power_limit_1_max x)
    (time_wind_1_min x) (time_wind_1_max x) (step_1_size x) |}.

Definition CDEV_DEF_BIT_MIN_STATE : Z := 1.
Definition CDEV_DEF_BIT_MAX_STATE : Z := 2.
Definition CDEV_DEF_BIT_STEP : Z := 4.
Definition CDEV_DEF_BIT_READ_BACK : Z := 8.
Definition CDEV_DEF_BIT_AUTO_DOWN : Z := 16.
Definition CDEV_DEF_BIT_PATH : Z := 32.
Definition CDEV_DEF_BIT_DEBOUNCE_VAL : Z := 256.
Definition CDEV_DEF_BIT_PID_PARAMS : Z := 512.
Definition CDEV_DEF_BIT_WRITE_PREFIX : Z := 1024.
Definition SENSOR_DEF_BIT_PATH : Z := 1.
Definition SENSOR_DEF_BIT_ASYNC_CAPABLE : Z := 2.

Definition zero_double : double := double_of_Z 0.
Definition no_ppcc : ppcc_t := mk_ppcc "" 0 0 0 0 0 0 0 0 0 0 0 0.

(** [thermal_info_t info = {}] *)
Definition zero_info : thermal_info_t := mk_thermal_info "" "" "" "" 0 0 no_ppcc [] [] [].

(** * The parser *)

Section parse.
Context {W D : Type} `{Kernel W} `{!LibXml W D}.

Section document.
(** The document, and what an unassigned local [pid_control_t] holds. *)
Context (doc : D) (uninit_pid : pid_control_t).

(** A loop over the elements that have a text; the others are skipped. *)
Section values.
Context {A : Type} (body : string -> list xmlNode -> string -> A -> option A).
Definition for_values (l : list xmlNode) (a : A) : option A :=
  for_elements (fun name children a =>
    match xmlNodeListGetString doc children with
    | Some tmp_value => body name children tmp_value a
    | None => Some a
    end) l a.
End values.

Definition dependency_value (name : string) (children : list xmlNode) (v : string)
    (d : trip_cdev_depend_t) : option trip_cdev_depend_t :=
  d ← (if named name "CoolingDeviceType" then t ← char_trim v; Some (d <| dep_cdev := t |>)
       else if named name "CoolingDeviceState" then t ← char_trim v; Some (d <| dep_state := t |>)
       else Some d);
  Some (d <| dep_dependency := 1 |>).
Definition parse_dependency_values := for_values dependency_value.

Definition pid_value (name : string) (children : list xmlNode) (v : string) (p : pid_control_t)
    : option pid_control_t :=
  Some (if named name "Kp" then p <| Kp := atof v |>
        else if named name "Kd" then p <| Kd := atof v |>
        else if named name "Ki" then p <| Ki := atof v |>
        else p).
(** The defaults are assigned first: what the structure held is lost. *)
Definition parse_pid_values (l : list xmlNode) : option pid_control_t :=
  for_values pid_value l (mk_pid_control double_0_0005 double_0_0001 double_0_0001).

Definition trip_cdev_value (name : string) (children : list xmlNode) (v : string) (c : trip_cdev_t)
    : option trip_cdev_t :=
  if named name "type" then Some (c <| tcd_type := string_trim v |>)
  else if named name "influence" then Some (c <| tcd_influence := atoi v |>)
  else if named name "SamplingPeriod" then Some (c <| tcd_sampling_period := atoi v |>)
  else if named name "TargetState"
  then Some (c <| tcd_target_state := atoi v |> <| tcd_target_state_valid := 1 |>)
  else if named name "TargetMinState"
  then Some (c <| tcd_target_min_state := atoi v |> <| tcd_min_max_valid := 1 |>)
  else if named name "TargetMaxState"
  then Some (c <| tcd_target_max_state := atoi v |> <| tcd_min_max_valid := 1 |>)
  else if named name "PidControl" then
    p ← parse_pid_values children;
    Some (c <| tcd_pid_param := mk_pid_param 1 (Kp p) (Ki p) (Kd p) |>)
  else Some c.
Definition parse_new_trip_cdev := for_values trip_cdev_value.

(** Lines 263-275. *)
Definition new_conf_trip_cdev : trip_cdev_t :=
  mk_conf_trip_cdev "" 0 0 0 0 (mk_pid_param 0 zero_double zero_double zero_double) 0 0 0.

(** The type a text names; an unknown text leaves the type as it was. *)
Definition conf_trip_type (type_val : string) (old : trip_point_type_t) : trip_point_type_t :=
  if named type_val "active" then ACTIVE
  else if named type_val "passive" then PASSIVE
  else if named type_val "critical" then CRITICAL
  else if named type_val "hot" then HOT
  else if named type_val "max" then MAX
  else old.

Definition trip_point_value (name : string) (children : list xmlNode) (v : string) (t : trip_point_t)
    : option trip_point_t :=
  if named name "Temperature" then Some (t <| tp_temperature := atoi v |>)
  else if named name "Power" then Some (t <| tp_temperature := atoi v |>)
  else if named name "Hyst" then Some (t <| tp_hyst := atoi v |>)
  else if named name "CoolingDevice" then
    c ← parse_new_trip_cdev children new_conf_trip_cdev;
    Some (t <| tp_cdev_trips := tp_cdev_trips t ++ [c] |>)
  else if named name "SensorType" then Some (t <| tp_sensor_type := string_trim v |>)
  else if named name "type" then
    type_val ← char_trim v;
    Some (t <| tp_trip_pt_type := conf_trip_type type_val (tp_trip_pt_type t) |>)
  else if named name "ControlType" then
    ctrl_val ← char_trim v;
    Some (t <| tp_control_type := if named ctrl_val "SEQUENTIAL" then SEQUENTIAL else PARALLEL |>)
  else if named name "DependsOn" then
    d ← parse_dependency_values children (tp_dependency t);
    Some (t <| tp_dependency := d |>)
  else Some t.

Definition parse_new_trip_point (l : list xmlNode) (trip_pt : trip_point_t) : option trip_point_t :=
  for_values trip_point_value l
    (trip_pt <| tp_temperature := 0 |> <| tp_trip_pt_type := ACTIVE |>).

(** Lines 321-328. *)
Definition new_conf_trip : trip_point_t :=
  mk_conf_trip 0 0 PASSIVE PARALLEL 100 "" (mk_depend 0 "" "") [].

Definition parse_trip_points (l : list xmlNode) (info : thermal_zone_t) : option thermal_zone_t :=
  for_elements (fun name children z =>
    if named name "TripPoint" then
      t ← parse_new_trip_point children new_conf_trip;
      Some (z <| tz_trip_pts := tz_trip_pts z ++ [t] |>)
    else Some z) l info.

(** A [Type] element without a text assigns the null pointer. *)
Definition parse_new_zone (l : list xmlNode) (info : thermal_zone_t) : option thermal_zone_t :=
  for_elements (fun name children z =>
    if named name "TripPoints" then parse_trip_points children z
    else if named name "Type" then
      v ← xmlNodeListGetString doc children;
      Some (z <| tz_type := string_trim v |>)
    else Some z) l info.

Definition set_mask (bit : Z) (c : cooling_dev_t) : cooling_dev_t :=
  c <| cd_mask := Z.lor (cd_mask c) bit |>.

Definition cooling_dev_value (name : string) (children : list xmlNode) (v : string) (c : cooling_dev_t)
    : option cooling_dev_t :=
  if named name "Index" then Some (c <| cd_index := atoi v |>)
  else if named name "Type" then Some (c <| cd_type_string := string_trim v |>)
  else if named name "Path" then Some (set_mask CDEV_DEF_BIT_PATH c <| cd_path_str := string_trim v |>)
  else if named name "MinState" then Some (set_mask CDEV_DEF_BIT_MIN_STATE c <| cd_min_state := atoi v |>)
  else if named name "MaxState" then Some (set_mask CDEV_DEF_BIT_MAX_STATE c <| cd_max_state := atoi v |>)
  else if named name "IncDecStep" then Some (set_mask CDEV_DEF_BIT_STEP c <| cd_inc_dec_step := atoi v |>)
  else if named name "ReadBack"
  then Some (set_mask CDEV_DEF_BIT_READ_BACK c <| cd_read_back := truthy (atoi v) |>)
  else if named name "DebouncePeriod"
  then Some (set_mask CDEV_DEF_BIT_DEBOUNCE_VAL c <| cd_debounce_interval := atoi v |>)
  else if named name "PidControl" then
    p ← parse_pid_values children;
    Some (set_mask CDEV_DEF_BIT_PID_PARAMS c <| cd_pid_enable := true |> <| cd_pid := p |>)
  else if named name "AutoOffMode"
  then Some (set_mask CDEV_DEF_BIT_AUTO_DOWN c <| cd_auto_down_control := truthy (atoi v) |>)
  else if named name "WritePrefix"
  then Some (set_mask CDEV_DEF_BIT_WRITE_PREFIX c <| cd_write_prefix := v |>)
  else Some c.

(** Lines 399-407; [cd_pid] and [cd_write_prefix] keep what they held. *)
Definition reset_cooling_dev (c : cooling_dev_t) : cooling_dev_t :=
  c <| cd_max_state := 0 |> <| cd_min_state := 0 |> <| cd_mask := 0 |> <| cd_inc_dec_step := 1 |>
    <| cd_read_back := true |> <| cd_auto_down_control := false |> <| cd_status := false |>
    <| cd_pid_enable := false |> <| cd_unit_val := ABSOULUTE_VALUE |> <| cd_debounce_interval := 0 |>.

Definition parse_new_cooling_dev (l : list xmlNode) (cdev : cooling_dev_t) : option cooling_dev_t :=
  for_values cooling_dev_value l (reset_cooling_dev cdev).

(** One local structure serves every device of the list. *)
Definition parse_cooling_devs (l : list xmlNode) (info : thermal_info_t) : option thermal_info_t :=
  r ← for_elements (fun name children '(cdev, info) =>
        if named name "CoolingDevice" then
          let cdev := cdev <| cd_index := 0 |> <| cd_max_state := 0 |> <| cd_min_state := 0 |>
                           <| cd_inc_dec_step := 1 |> <| cd_auto_down_control := false |>
                           <| cd_path_str := "" |> <| cd_type_string := "" |> in
          cdev ← parse_new_cooling_dev children cdev;
          Some (cdev, info <| ti_cooling_devs := ti_cooling_devs info ++ [cdev] |>)
        else Some (cdev, info)) l
      (mk_cooling_dev false 0 0 ABSOULUTE_VALUE 0 0 0 false false "" "" 0 false uninit_pid "", info);
  Some r.2.

(** One local structure serves every zone; its type is not cleared. *)
Definition parse_thermal_zones (l : list xmlNode) (info : thermal_info_t) : option thermal_info_t :=
  r ← for_elements (fun name children '(zone, info) =>
        if named name "ThermalZone" then
          zone ← parse_new_zone children (zone <| tz_trip_pts := [] |>);
          Some (zone, info <| ti_zones := ti_zones info ++ [zone] |>)
        else Some (zone, info)) l (mk_thermal_zone "" [], info);
  Some r.2.

Definition sensor_link_value (name : string) (children : list xmlNode) (v : string)
    (s : thermal_sensor_link_t) : option thermal_sensor_link_t :=
  Some (if named name "SensorType" then s <| tl_name := string_trim v |>
        else if named name "Multiplier" then s <| tl_multiplier := atof v |>
        else if named name "Offset" then s <| tl_offset := atof v |>
        else s).
Definition parse_new_sensor_link := for_values sensor_link_value.

Definition sensor_target_value (name : string) (children : list xmlNode) (v : string)
    (s : thermal_sensor_target_t) : option thermal_sensor_target_t :=
  Some (if named name "SensorType" then s <| tt_name := string_trim v |>
        else if named name "Coeff" then s <| tt_coeff := atof v |>
        else if named name "Offset" then s <| tt_offset := atof v |>
        else if named name "PowerSensor" then s <| tt_power_sensor := atoi v |>
        else s).
Definition parse_new_virtual_sensor_target := for_values sensor_target_value.

Definition sensor_polling_value (name : string) (children : list xmlNode) (v : string)
    (s : thermal_sensor_polling_t) : option thermal_sensor_polling_t :=
  Some (if named name "VirtualTemp" then s <| sp_virtual_temp := atoi v |>
        else if named name "SamplePeriod" then s <| sp_sample_period := atoi v |>
        else s).
Definition parse_new_virtual_sensor_polling := for_values sensor_polling_value.

Definition sensor_value (name : string) (children : list xmlNode) (v : string) (s : thermal_sensor_t)
    : option thermal_sensor_t :=
  if named name "Type" then Some (s <| ts_name := string_trim v |>)
  else if named name "Path"
  then Some (s <| ts_mask := Z.lor (ts_mask s) SENSOR_DEF_BIT_PATH |> <| ts_path := string_trim v |>)
  else if named name "AsyncCapable"
  then Some (s <| ts_async_capable := truthy (atoi v) |>
               <| ts_mask := Z.lor (ts_mask s) SENSOR_DEF_BIT_ASYNC_CAPABLE |>)
  else if named name "Virtual" then Some (s <| ts_virtual_sensor := truthy (atoi v) |>)
  else if named name "SensorLink" then
    k ← parse_new_sensor_link children (ts_sensor_link s);
    Some (s <| ts_sensor_link := k |>)
  else if named name "LinkSensor" then
    k ← parse_new_virtual_sensor_target children (mk_sensor_target "" zero_double zero_double 0);
    Some (s <| ts_link_sensors := ts_link_sensors s ++ [k] |>)
  else if named name "PollingTableEntry" then
    k ← parse_new_virtual_sensor_polling children (mk_sensor_polling 0 0);
    Some (s <| ts_polling_table := ts_polling_table s ++ [k] |>)
  else Some s.
Definition parse_new_sensor := for_values sensor_value.

(** Lines 655-664 reset every member of the local structure. *)
Definition new_conf_sensor : thermal_sensor_t :=
  mk_thermal_sensor 0 "" "" false false (mk_sensor_link "" zero_double zero_double) [] [].

Definition parse_thermal_sensors (l : list xmlNode) (info : thermal_info_t) : option thermal_info_t :=
  for_elements (fun name children info =>
    if named name "ThermalSensor" then
      s ← parse_new_sensor children new_conf_sensor;
      Some (info <| ti_sensors := ti_sensors info ++ [s] |>)
    else Some info) l info.

(** The limits are [int]s: the numbers are truncated. *)
Definition ppcc_value (name : string) (children : list xmlNode) (v : string) (p : ppcc_t)
    : option ppcc_t :=
  Some (if named name "PowerLimitMinimum" then p <| power_limit_min := int_of_double (atof v) |>
        else if named name "PowerLimitMaximum" then p <| power_limit_max := int_of_double (atof v) |>
        else if named name "TimeWindowMinimum" then p <| time_wind_min := int_of_double (atof v) |>
        else if named name "TimeWindowMaximum" then p <| time_wind_max := int_of_double (atof v) |>
        else if named name "StepSize" then p <| step_size := int_of_double (atof v) |>
        else p).
Definition xml_parse_ppcc := for_values ppcc_value.

Definition platform_info_value (name : string) (children : list xmlNode) (v : string)
    (i : thermal_info_t) : option thermal_info_t :=
  if named name "uuid" then Some (i <| ti_uuid := string_trim v |>)
  else if named name "ProductName" then Some (i <| ti_product_name := string_trim v |>)
  else if named name "ProductSku" then Some (i <| ti_product_sku := string_trim v |>)
  else if named name "Name" then Some (i <| ti_name := string_trim v |>)
  else if named name "Preference" then
    pref_val ← char_trim v;
    Some (i <| ti_default_preference :=
      if named pref_val "PERFORMANCE" then PREF_PERFORMANCE else PREF_ENERGY_CONSERVE |>)
  else if named name "ThermalZones" then parse_thermal_zones children i
  else if named name "ThermalSensors" then parse_thermal_sensors children i
  else if named name "CoolingDevices" then parse_cooling_devs children i
  else if named name "PollingInterval" then Some (i <| ti_polling_interval := atoi v |>)
  else if named name "PPCC" then
    p ← xml_parse_ppcc children (ti_ppcc i);
    Some (i <| ti_ppcc := p <| ppcc_valid := 1 |> |>)
  else Some i.

Definition parse_new_platform_info (l : list xmlNode) (info : thermal_info_t) : option thermal_info_t :=
  for_values platform_info_value l
    (info <| ti_default_preference := PREF_ENERGY_CONSERVE |> <| ti_polling_interval := 0 |>).

(** One local structure serves every platform: the devices and the zones are
    cleared, the names and the sensors of an earlier platform are not. *)
Definition parse_new_platform (l : list xmlNode) (thermal_info_list : list thermal_info_t)
    : option (list thermal_info_t) :=
  r ← for_elements (fun name children '(info, infos) =>
        if named name "Platform" then
          let info := info <| ti_cooling_devs := [] |> <| ti_zones := [] |> <| ti_polling_interval := 0 |>
            <| ti_ppcc := (ti_ppcc info) <| ppcc_valid := 0 |> <| limit_1_valid := 0 |> |> in
          info ← parse_new_platform_info children info;
          Some (info, infos ++ [info])
        else Some (info, infos)) l (zero_info, thermal_info_list);
  Some r.2.

Definition parse (l : list xmlNode) (thermal_info_list : list thermal_info_t)
    : option (list thermal_info_t) :=
  for_elements (fun name children infos =>
    if named name "ThermalConfiguration" then parse_new_platform children infos else Some infos)
    l thermal_info_list.

(** The same loop, that nothing calls. *)
Definition parse_new_thermal_conf := parse.
End document.

(** * The parser object *)

Record cthd_parse := mk_parse {
  thermal_info_list : list thermal_info_t;
  matched_thermal_info_index : Z;
  p_doc : option D;
  p_root_element : list xmlNode;
  auto_config : Z;
}.
#[export] Instance eta_cthd_parse : Eta cthd_parse := {| eta_of := fun x =>
  mk_parse (thermal_info_list x) (matched_thermal_info_index x) (p_doc x) (p_root_element x)
    (auto_config x) |}.

Definition new_parse : cthd_parse := mk_parse [] (-1) None [] 0.

Section parser.
(** The directories of the build, [cthd_acpi_rel::generate_conf], and what an
    unassigned [pid_control_t] holds. *)
Context (TDCONFDIR TDRUNDIR : string) (generate_conf : string -> State W Z) (uninit_pid : pid_control_t).

Definition filename : string := TDCONFDIR +:+ "/" +:+ "thermal-conf.xml".
Definition filename_auto : string := TDRUNDIR +:+ "/" +:+ "thermal-conf.xml.auto".
Definition filename_auto_conf : string := TDCONFDIR +:+ "/" +:+ "thermal-conf.xml.auto".

Definition is_open (file : string) (w : W) : bool :=
  match k_ifstream file w with Some _ => true | None => false end.

(** The file to use and the new [auto_config], lines 81-99. *)
Definition choose_config (config_file : string) (auto : Z) : State W (string * Z) := fun w =>
  if negb (String.eqb config_file "") then ((config_file, auto), w)
  else if is_open filename_auto_conf w then ((filename_auto_conf, 1), w)
  else let '(r, w) := generate_conf filename_auto w in
       if r =? 0 then ((filename_auto, 1), w) else ((filename, auto), w).

Definition parser_init (config_file : string) (p : cthd_parse) : State W (Z * cthd_parse) :=
  let* (xml_config_file, auto) := choose_config config_file (auto_config p) in
  let p := p <| auto_config := auto |> in
  fun w =>
    if negb (truthy auto) && negb (is_open xml_config_file w) then ((THD_ERROR, p), w)
    else if negb (trusted_file xml_config_file w) then ((THD_ERROR, p), w)
    else match xmlReadFile xml_config_file w with
         | None => ((THD_ERROR, p <| p_doc := None |>), w)
         | Some doc =>
             match xmlDocGetRootElement doc with
             | [] => ((THD_ERROR, p <| p_doc := Some doc |> <| p_root_element := [] |>), w)
             | root => ((THD_SUCCESS, p <| p_doc := Some doc |> <| p_root_element := root |>), w)
             end
         end.

(** [start_parse], after a successful [parser_init]. *)
Definition start_parse (p : cthd_parse) : option (Z * cthd_parse) :=
  doc ← p_doc p;
  infos ← parse doc uninit_pid (p_root_element p) (thermal_info_list p);
  Some (THD_SUCCESS, p <| thermal_info_list := infos |>).

(** The lists are emptied; names and the matched index stay. *)
Definition parser_deinit (p : cthd_parse) : cthd_parse :=
  p <| thermal_info_list :=
    map (fun i => i <| ti_sensors := [] |> <| ti_zones := [] |> <| ti_cooling_devs := [] |>)
      (thermal_info_list p) |>.

(** * The platform *)

Definition first_line (file : string) (w : W) : option string :=
  content ← k_ifstream file w; head (file_lines content).

Definition match_product_sku (info : thermal_info_t) (w : W) : bool :=
  match first_line "/sys/class/dmi/id/product_sku" w with
  | Some line =>
      String.eqb (ti_product_sku info) "" || String.eqb (ti_product_sku info) "*"
      || String.eqb (string_trim line) (ti_product_sku info)
  | None => true
  end.

Definition uuid_matches (line : string) (info : thermal_info_t) : bool :=
  negb (String.eqb (ti_uuid info) "")
  && (String.eqb (ti_uuid info) "*" || String.eqb (string_trim line) (ti_uuid info)).

Definition product_matches (line : string) (w : W) (info : thermal_info_t) : bool :=
  negb (String.eqb (ti_product_name info) "")
  && (String.eqb (ti_product_name info) "*"
      || (String.eqb (string_trim line) (ti_product_name info) && match_product_sku info w)).

Definition wildcard_matches (info : thermal_info_t) : bool :=
  negb (String.eqb (ti_uuid info) "") && compare_prefix (ti_product_name info) 1 "*".

Definition find_info (m : thermal_info_t -> bool) (p : cthd_parse) : option nat :=
  fst <$> list_find (fun i => m i = true) (thermal_info_list p).

Definition find_line (file : string) (m : string -> thermal_info_t -> bool) (w : W) (p : cthd_parse)
    : option nat :=
  line ← first_line file w; find_info (m line) p.

Definition platform_matched (w : W) (p : cthd_parse) : bool * cthd_parse :=
  match find_line "/sys/class/dmi/id/product_uuid" uuid_matches w p with
  | Some i => (true, p <| matched_thermal_info_index := Z.of_nat i |>)
  | None =>
      match find_line "/sys/class/dmi/id/product_name" (fun line => product_matches line w) w p with
      | Some i => (true, p <| matched_thermal_info_index := Z.of_nat i |>)
      | None =>
          match find_info wildcard_matches p with
          | Some i => (true, p <| matched_thermal_info_index := Z.of_nat i |>)
          | None => (false, p)
          end
      end
  end.

(** * Accessors *)

Definition lookup_u {A} (l : list A) (i : Z) : option A :=
  if (0 <=? i) && (i <? Z.of_nat (length l)) then l !! Z.to_nat i else None.

(** [thermal_info_list[matched_thermal_info_index]] *)
Definition matched_info (p : cthd_parse) : option thermal_info_t :=
  lookup_u (thermal_info_list p) (matched_thermal_info_index p).

Definition get_polling_interval (p : cthd_parse) : option Z := ti_polling_interval <$> matched_info p.
Definition zone_count (p : cthd_parse) : option Z :=
  i ← matched_info p; Some (Z.of_nat (length (ti_zones i))).
Definition cdev_count (p : cthd_parse) : option Z :=
  i ← matched_info p; Some (Z.of_nat (length (ti_cooling_devs i))).
Definition sensor_count (p : cthd_parse) : option Z :=
  i ← matched_info p; Some (Z.of_nat (length (ti_sensors i))).

Definition trip_count (zone_index : Z) (p : cthd_parse) : option Z :=
  i ← matched_info p;
  Some match lookup_u (ti_zones i) zone_index with
       | Some z => Z.of_nat (length (tz_trip_pts z))
       | None => -1
       end.

(** A returned [None] inside is the null pointer. *)
Definition get_trip_point (zone_index trip_index : Z) (p : cthd_parse) : option (option trip_point_t) :=
  i ← matched_info p;
  Some (z ← lookup_u (ti_zones i) zone_index; lookup_u (tz_trip_pts z) trip_index).
Definition get_cool_dev_index (cdev_index : Z) (p : cthd_parse) : option (option cooling_dev_t) :=
  i ← matched_info p; Some (lookup_u (ti_cooling_devs i) cdev_index).
Definition get_sensor_dev_index (sensor_index : Z) (p : cthd_parse) : option (option thermal_sensor_t) :=
  i ← matched_info p; Some (lookup_u (ti_sensors i) sensor_index).
Definition get_zone_dev_index (zone_index : Z) (p : cthd_parse) : option (option thermal_zone_t) :=
  i ← matched_info p; Some (lookup_u (ti_zones i) zone_index).

Definition parse_get_ppcc_param (name : string) (p : cthd_parse) : option (option ppcc_t) :=
  if negb (String.eqb name "TCPU.D0") then Some None else
  if matched_thermal_info_index p >=? 0 then
    i ← matched_info p;
    Some (if truthy (ppcc_valid (ti_ppcc i)) then Some (ti_ppcc i) else None)
  else Some None.

Definition cooling_dev_at (cdev_index : Z) (p : cthd_parse) : option cooling_dev_t :=
  i ← matched_info p; lookup_u (ti_cooling_devs i) cdev_index.
Definition pid_status (cdev_index : Z) (p : cthd_parse) : option bool :=
  cd_pid_enable <$> cooling_dev_at cdev_index p.
Definition get_pid_values (cdev_index : Z) (p : cthd_parse) : option (option (Z * Z * Z)) :=
  c ← cooling_dev_at cdev_index p;
  Some (if cd_pid_enable c
        then Some (int_of_double (Kp (cd_pid c)), int_of_double (Ki (cd_pid c)), int_of_double (Kd (cd_pid c)))
        else None).

Definition set_default_preference (p : cthd_parse) (w : W) : option (bool * W) :=
  i ← matched_info p;
  let '(r, (_, w')) := set_preference TDRUNDIR
    (if ti_default_preference i =? PREF_PERFORMANCE then "PERFORMANCE" else "ENERGY_CONSERVE")
    (new_preference TDRUNDIR w, w) in
  Some (r, w').
End parser.
End parse.
