(* ===== verification/ParseTheorems.v ===== *)
(** Properties of the XML files: a run of the parser is defined on every
    document whose trimmed texts are not blank, what it builds is well typed, a
    printed configuration reads back, the matched platform is the one the rules
    prefer; and the feature switches. *)
From stdpp Require Import base gmap strings list.
From Stdlib Require Import ZArith Lia Ascii.
From Stdlib Require String.
From S2P Require Import Prelude CString SysFs CFloat Pid Cdev CdevRapl Preference TripPoint Xml Parse.

Open Scope string_scope.
Open Scope list_scope.
Open Scope Z_scope.

(** * Loops over elements *)

Lemma for_elements_inv {A} (I : A -> Prop) body l a a' :
  (forall name children a a', I a -> body name children a = Some a' -> I a') ->
  I a -> for_elements body l a = Some a' -> I a'.
Proof.
  intros Hb. revert a. induction l as [|[name ch|t|] l IH]; cbn; intros a Ha E; [by simplify_eq| |eauto|eauto].
  destruct (body name ch a) as [a1|] eqn:E1; [|done]. eauto.
Qed.

Lemma for_elements_some {A} (safe : xmlNode -> bool) (body : string -> list xmlNode -> A -> option A) l a :
  (forall name children a, safe (XML_ELEMENT_NODE name children) = true -> is_Some (body name children a)) ->
  forallb safe l = true -> is_Some (for_elements body l a).
Proof.
  intros Hb. revert a. induction l as [|n l IH]; cbn; intros a Hs; [eauto|]. b2p.
  destruct n as [name ch|t|]; [|eauto|eauto].
  destruct (Hb name ch a) as [a1 ->]; eauto.
Qed.

Lemma for_elements_app {A} (body : string -> list xmlNode -> A -> option A) l1 l2 a :
  for_elements body (l1 ++ l2) a = (a' ← for_elements body l1 a; for_elements body l2 a').
Proof.
  revert a. induction l1 as [|[name ch|t|] l IH]; cbn; intros a; [done| |done|done].
  destruct (body name ch a); cbn; [apply IH|done].
Qed.

Lemma for_elements_cons {A} (body : string -> list xmlNode -> A -> option A) name ch l a :
  for_elements body (XML_ELEMENT_NODE name ch :: l) a = (a' ← body name ch a; for_elements body l a').
Proof. cbn. by destruct (body name ch a). Qed.

Lemma for_elements_text {A} (body : string -> list xmlNode -> A -> option A) text l a :
  for_elements body (XML_TEXT_NODE text :: l) a = for_elements body l a.
Proof. done. Qed.

Lemma for_elements_nil {A} (body : string -> list xmlNode -> A -> option A) a :
  for_elements body [] a = Some a.
Proof. done. Qed.

(** * Defined runs *)

Section defined.
Context {W D : Type} `{Kernel W} `{!LibXml W D} (doc : D).

(** The elements whose text goes through [char_trim]. *)
Definition trims (name : string) : bool :=
  named name "type" || named name "ControlType" || named name "CoolingDeviceType"
  || named name "CoolingDeviceState" || named name "Preference".

Definition text_ok (name : string) (children : list xmlNode) : bool :=
  match xmlNodeListGetString doc children with
  | None => negb (named name "Type")
  | Some v => negb (trims name) || match char_trim v with Some _ => true | None => false end
  end.

Fixpoint safe_node (n : xmlNode) : bool :=
  match n with
  | XML_ELEMENT_NODE name children => text_ok name children && forallb safe_node children
  | _ => true
  end.

Lemma text_ok_trim name children v :
  text_ok name children = true -> xmlNodeListGetString doc children = Some v ->
  trims name = true -> is_Some (char_trim v).
Proof.
  unfold text_ok. intros Ht Ev E. rewrite Ev, E in Ht. cbn in Ht.
  destruct (char_trim v); [eauto|done].
Qed.

Lemma for_values_some {A} (body : string -> list xmlNode -> string -> A -> option A) l a :
  (forall name children v a, forallb safe_node children = true ->
     (trims name = true -> is_Some (char_trim v)) -> is_Some (body name children v a)) ->
  forallb safe_node l = true -> is_Some (for_values doc body l a).
Proof.
  intros Hb. apply for_elements_some. cbn. intros name ch b Hs. b2p.
  destruct (xmlNodeListGetString doc ch) as [v|] eqn:E; [|eauto].
  apply Hb; [done|]. by apply (text_ok_trim name ch).
Qed.
End defined.

(** Follows the tests of a parsing function whose nested calls are known to
    return. *)
Ltac some_tac :=
  repeat first
    [ progress intros
    | solve [eauto]
    | match goal with
      | |- is_Some (Some _) => eexists; reflexivity
      | |- is_Some (if ?b then _ else _) => let E := fresh "E" in destruct b eqn:E
      | |- is_Some (?m ≫= _) =>
          let E := fresh "E" in
          assert (E : is_Some m); [|destruct E as [? ->]; cbn]
      | H : trims ?n = true -> is_Some (char_trim ?v), E : named ?n _ = true |- is_Some (char_trim ?v) =>
          apply H; unfold trims; rewrite E, ?orb_true_r; reflexivity
      end ].

Section defined_parse.
Context {W D : Type} `{Kernel W} `{!LibXml W D} (doc : D) (uninit_pid : pid_control_t).
Abbreviation safe l := (forallb (safe_node doc) l = true).

Lemma parse_dependency_values_some l d : safe l -> is_Some (parse_dependency_values doc l d).
Proof. apply for_values_some. unfold dependency_value. some_tac. Qed.

Lemma parse_pid_values_some l : safe l -> is_Some (parse_pid_values doc l).
Proof. apply for_values_some. unfold pid_value. eauto. Qed.

Lemma parse_new_trip_cdev_some l c : safe l -> is_Some (parse_new_trip_cdev doc l c).
Proof.
  apply for_values_some. unfold trip_cdev_value. pose proof parse_pid_values_some. some_tac.
Qed.

Lemma parse_new_trip_point_some l t : safe l -> is_Some (parse_new_trip_point doc l t).
Proof.
  apply for_values_some. unfold trip_point_value.
  pose proof parse_new_trip_cdev_some. pose proof parse_dependency_values_some. some_tac.
Qed.

Lemma parse_trip_points_some l z : safe l -> is_Some (parse_trip_points doc l z).
Proof.
  apply for_elements_some. cbn. pose proof parse_new_trip_point_some. intros. b2p. some_tac.
Qed.

Lemma parse_new_zone_some l z : safe l -> is_Some (parse_new_zone doc l z).
Proof.
  apply for_elements_some. cbn. intros name ch a Hs. b2p.
  destruct (named name "TripPoints"); [by apply parse_trip_points_some|].
  destruct (named name "Type") eqn:E; [|eauto].
  unfold text_ok in *. destruct (xmlNodeListGetString doc ch) as [v|]; [cbn; eauto|].
  rewrite E in *. done.
Qed.

Lemma parse_new_cooling_dev_some l c : safe l -> is_Some (parse_new_cooling_dev doc l c).
Proof.
  apply for_values_some. unfold cooling_dev_value. pose proof parse_pid_values_some. some_tac.
Qed.

Lemma parse_cooling_devs_some l i : safe l -> is_Some (parse_cooling_devs doc uninit_pid l i).
Proof.
  intros Hs. unfold parse_cooling_devs.
  match goal with |- context [for_elements ?b l ?a] =>
    destruct (for_elements_some (safe_node doc) b l a) as [r ->]; cbn; eauto end.
  cbn. pose proof parse_new_cooling_dev_some. intros name ch [c j] E. b2p. some_tac.
Qed.

Lemma parse_thermal_zones_some l i : safe l -> is_Some (parse_thermal_zones doc l i).
Proof.
  intros Hs. unfold parse_thermal_zones.
  match goal with |- context [for_elements ?b l ?a] =>
    destruct (for_elements_some (safe_node doc) b l a) as [r ->]; cbn; eauto end.
  cbn. pose proof parse_new_zone_some. intros name ch [c j] E. b2p. some_tac.
Qed.

Lemma parse_new_sensor_some l s : safe l -> is_Some (parse_new_sensor doc l s).
Proof.
  apply for_values_some. unfold sensor_value.
  assert (H1 : forall l k, safe l -> is_Some (parse_new_sensor_link doc l k))
    by (intros; by apply for_values_some; unfold sensor_link_value; eauto).
  assert (H2 : forall l k, safe l -> is_Some (parse_new_virtual_sensor_target doc l k))
    by (intros; by apply for_values_some; unfold sensor_target_value; eauto).
  assert (H3 : forall l k, safe l -> is_Some (parse_new_virtual_sensor_polling doc l k))
    by (intros; by apply for_values_some; unfold sensor_polling_value; eauto).
  some_tac.
Qed.

Lemma parse_thermal_sensors_some l i : safe l -> is_Some (parse_thermal_sensors doc l i).
Proof.
  apply for_elements_some. cbn. pose proof parse_new_sensor_some. intros. b2p. some_tac.
Qed.

Lemma parse_new_platform_info_some l i : safe l -> is_Some (parse_new_platform_info doc uninit_pid l i).
Proof.
  apply for_values_some. unfold platform_info_value.
  assert (H1 : forall l k, safe l -> is_Some (xml_parse_ppcc doc l k))
    by (intros; by apply for_values_some; unfold ppcc_value; eauto).
  pose proof parse_thermal_zones_some. pose proof parse_thermal_sensors_some.
  pose proof parse_cooling_devs_some. some_tac.
Qed.

Lemma parse_new_platform_some l is_ : safe l -> is_Some (parse_new_platform doc uninit_pid l is_).
Proof.
  intros Hs. unfold parse_new_platform.
  match goal with |- context [for_elements ?b l ?a] =>
    destruct (for_elements_some (safe_node doc) b l a) as [r ->]; cbn; eauto end.
  cbn. pose proof parse_new_platform_info_some. intros name ch [c j] E. b2p. some_tac.
Qed.

End defined_parse.

(** * Well-typed configurations *)

Definition is_flag (z : Z) : Prop := z = 0 \/ z = 1.
Definition is_trimmed (s : string) : Prop := string_trim s = s.
Definition conf_type (t : trip_point_type_t) : Prop :=
  t = ACTIVE \/ t = PASSIVE \/ t = CRITICAL \/ t = HOT \/ t = MAX.

Definition trip_cdev_typed (c : trip_cdev_t) : Prop :=
  is_trimmed (tcd_type c) /\ is_i32 (tcd_influence c) /\ is_i32 (tcd_sampling_period c) /\
  is_flag (tcd_target_state_valid c) /\ is_i32 (tcd_target_state c) /\
  is_flag (pid_valid (tcd_pid_param c)) /\
  is_flag (tcd_min_max_valid c) /\ is_i32 (tcd_target_min_state c) /\ is_i32 (tcd_target_max_state c) /\
  (tcd_target_state_valid c = 0 -> tcd_target_state c = 0) /\
  (tcd_min_max_valid c = 0 -> tcd_target_min_state c = 0 /\ tcd_target_max_state c = 0).

Definition trip_typed (t : trip_point_t) : Prop :=
  is_i32 (tp_temperature t) /\ is_i32 (tp_hyst t) /\ conf_type (tp_trip_pt_type t) /\
  is_trimmed (tp_sensor_type t) /\ is_flag (dep_dependency (tp_dependency t)) /\
  Forall trip_cdev_typed (tp_cdev_trips t).

Definition zone_typed (z : thermal_zone_t) : Prop :=
  is_trimmed (tz_type z) /\ Forall trip_typed (tz_trip_pts z).

(** The value of a member whose mask bit is clear is the default. *)
Definition bit_default (c : cooling_dev_t) (bit : Z) (default : Prop) : Prop :=
  Z.testbit (cd_mask c) bit = true \/ default.

Definition cooling_dev_typed (c : cooling_dev_t) : Prop :=
  is_i32 (cd_index c) /\ is_i32 (cd_min_state c) /\ is_i32 (cd_max_state c) /\
  is_i32 (cd_inc_dec_step c) /\ is_i32 (cd_debounce_interval c) /\
  is_trimmed (cd_type_string c) /\ is_trimmed (cd_path_str c) /\
  bit_default c 0 (cd_min_state c = 0) /\ bit_default c 1 (cd_max_state c = 0) /\
  bit_default c 2 (cd_inc_dec_step c = 1) /\ bit_default c 3 (cd_read_back c = true) /\
  bit_default c 4 (cd_auto_down_control c = false) /\ bit_default c 5 (cd_path_str c = "") /\
  bit_default c 8 (cd_debounce_interval c = 0) /\ bit_default c 9 (cd_pid_enable c = false).

Definition sensor_typed (s : thermal_sensor_t) : Prop :=
  is_trimmed (ts_name s) /\ is_trimmed (ts_path s) /\ is_trimmed (tl_name (ts_sensor_link s)) /\
  Forall (fun t => is_trimmed (tt_name t) /\ is_i32 (tt_power_sensor t)) (ts_link_sensors s) /\
  Forall (fun e => is_i32 (sp_virtual_temp e) /\ is_i32 (sp_sample_period e)) (ts_polling_table s) /\
  (Z.testbit (ts_mask s) 0 = true \/ ts_path s = "") /\
  (Z.testbit (ts_mask s) 1 = true \/ ts_async_capable s = false).

Definition info_typed (i : thermal_info_t) : Prop :=
  is_trimmed (ti_name i) /\ is_trimmed (ti_uuid i) /\ is_trimmed (ti_product_name i) /\
  is_trimmed (ti_product_sku i) /\ is_i32 (ti_polling_interval i) /\
  (ti_default_preference i = PREF_PERFORMANCE \/ ti_default_preference i = PREF_ENERGY_CONSERVE) /\
  is_i32 (power_limit_min (ti_ppcc i)) /\ is_i32 (power_limit_max (ti_ppcc i)) /\
  Forall sensor_typed (ti_sensors i) /\ Forall zone_typed (ti_zones i) /\
  Forall cooling_dev_typed (ti_cooling_devs i).

Lemma string_trim_trimmed s : is_trimmed (string_trim s).
Proof.
  unfold is_trimmed. induction s as [|c s IH]; cbn; [done|].
  destruct (trimmed_char c) eqn:E; [done|]. cbn. by rewrite E, IH.
Qed.

Lemma atoi_i32 s : is_i32 (atoi s).
Proof. apply i32_range. Qed.

Lemma int_of_double_i32 d : is_i32 (int_of_double d).
Proof.
  destruct d as [| | |s m e]; cbn; try (unfold is_i32, INT_MIN, INT_MAX; lia).
  destruct (_ && _) eqn:E; b2p; unfold is_i32, INT_MIN, INT_MAX in *; lia.
Qed.

Lemma is_flag_1 : is_flag 1.
Proof. by right. Qed.
Lemma is_flag_0 : is_flag 0.
Proof. by left. Qed.

Lemma is_trimmed_nil : is_trimmed "".
Proof. done. Qed.

#[export] Hint Resolve is_trimmed_nil string_trim_trimmed atoi_i32 int_of_double_i32 is_flag_0 is_flag_1 : thd.

Lemma lor_sets m b i (Q : Prop) : Z.testbit b i = true -> Z.testbit (Z.lor m b) i = true \/ Q.
Proof. intros Ht. left. rewrite Z.lor_spec, Ht. apply orb_true_r. Qed.

Lemma lor_keeps m b i (Q : Prop) :
  Z.testbit m i = true \/ Q -> Z.testbit (Z.lor m b) i = true \/ Q.
Proof. intros [Ht|Hq]; [left; by rewrite Z.lor_spec, Ht|by right]. Qed.

#[local] Arguments Z.testbit : simpl never.
#[local] Arguments Z.lor : simpl never.

Section typed.
Context {W D : Type} `{Kernel W} `{!LibXml W D} (doc : D) (uninit_pid : pid_control_t).

Lemma for_values_inv {A} (I : A -> Prop) (body : string -> list xmlNode -> string -> A -> option A) l a a' :
  (forall name children v a a', I a -> body name children v a = Some a' -> I a') ->
  I a -> for_values doc body l a = Some a' -> I a'.
Proof.
  intros Hb. apply for_elements_inv. intros name ch b b' Hi.
  destruct (xmlNodeListGetString doc ch); [by apply Hb|intros; by simplify_eq].
Qed.

(** Splits the tests of a parsing function in the equation [E]. *)
Ltac value_cases E :=
  repeat match type of E with
  | (if ?b then _ else _) = Some _ => destruct b
  | (?m ≫= _) = Some _ => let F := fresh "F" in destruct m eqn:F; [|discriminate E]; cbn in E
  | Some (if ?b then _ else _) = Some _ => destruct b
  end; try (injection E as <-).

Lemma trip_cdev_value_typed name ch v c c' :
  trip_cdev_typed c -> trip_cdev_value doc name ch v c = Some c' -> trip_cdev_typed c'.
Proof.
  unfold trip_cdev_value, trip_cdev_typed. intros Hc E.
  destruct Hc as (? & ? & ? & ? & ? & ? & ? & ? & ? & ? & ?).
  value_cases E; cbn; split_and!; auto with thd; intros; try discriminate; tauto.
Qed.

Lemma trip_point_value_typed name ch v t t' :
  trip_typed t -> trip_point_value doc name ch v t = Some t' -> trip_typed t'.
Proof.
  unfold trip_point_value, trip_typed. intros Ht E.
  destruct Ht as (? & ? & ? & ? & ? & ?).
  value_cases E; cbn; split_and!; auto with thd.
  - apply Forall_app_2; [done|]. apply Forall_singleton.
    eapply for_values_inv; [|..|exact F]; [intros ? ? ? ? ?; apply trip_cdev_value_typed|].
    split_and!; cbn; auto with thd.
  - unfold conf_trip_type, conf_type. repeat destruct (named _ _); tauto.
  - eapply (for_values_inv (fun d => is_flag (dep_dependency d))) in F; [done| |done].
    clear. intros name ch v d d' _ E. unfold dependency_value in E.
    match type of E with (?m ≫= _) = _ => destruct m end; [|done]. cbn in E. simplify_eq.
    cbn. auto with thd.
Qed.

Lemma parse_new_zone_typed l z z' :
  zone_typed z -> parse_new_zone doc l z = Some z' -> zone_typed z'.
Proof.
  apply for_elements_inv. clear. intros name ch z z' [Hz Ht] E.
  value_cases E; cbn; [|split; cbn; auto with thd|done].
  revert E. apply for_elements_inv; [|done]. clear. intros name ch z z' [Hz Ht] E.
  value_cases E; split; cbn; [done| |done|done].
  apply Forall_app_2; [done|]. apply Forall_singleton.
  eapply for_values_inv; [|..|exact F]; [intros ? ? ? ? ?; apply trip_point_value_typed|].
  split_and!; cbn; auto with thd; try by left.
Qed.
Lemma cooling_dev_value_typed name ch v c c' :
  cooling_dev_typed c -> cooling_dev_value doc name ch v c = Some c' -> cooling_dev_typed c'.
Proof.
  unfold cooling_dev_value, cooling_dev_typed, bit_default, set_mask. intros Hc E.
  destruct Hc as (? & ? & ? & ? & ? & ? & ? & ? & ? & ? & ? & ? & ? & ? & ?).
  value_cases E; cbn; split_and!; auto with thd;
    first [by apply lor_sets|by apply lor_keeps].
Qed.

Lemma parse_cooling_devs_typed l i i' :
  Forall cooling_dev_typed (ti_cooling_devs i) ->
  parse_cooling_devs doc uninit_pid l i = Some i' ->
  exists cs, Forall cooling_dev_typed cs /\ i' = i <| ti_cooling_devs := cs |>.
Proof.
  intros Hi E. unfold parse_cooling_devs in E. value_cases E.
  apply (for_elements_inv (fun x => exists cs, Forall cooling_dev_typed cs /\
           x.2 = i <| ti_cooling_devs := cs |>)) in F;
    [done| |exists (ti_cooling_devs i); by destruct i].
  clear. intros name ch [c j] a' (cs & Hcs & Ej) E. cbn in Ej. subst j.
  value_cases E; cbn; [|eauto].
  eexists. split; [|reflexivity]. apply Forall_app_2; [done|]. apply Forall_singleton.
  eapply for_values_inv; [|..|exact F]; [intros ? ? ? ? ?; apply cooling_dev_value_typed|].
  split_and!; cbn; auto with thd; by right.
Qed.

Lemma parse_thermal_zones_typed l i i' :
  Forall zone_typed (ti_zones i) -> parse_thermal_zones doc l i = Some i' ->
  exists zs, Forall zone_typed zs /\ i' = i <| ti_zones := zs |>.
Proof.
  intros Hi E. unfold parse_thermal_zones in E. value_cases E.
  apply (for_elements_inv (fun x => zone_typed x.1 /\ exists zs, Forall zone_typed zs /\
           x.2 = i <| ti_zones := zs |>)) in F; [apply F| |].
  - clear. intros name ch [z j] a' (Hz & zs & Hzs & Ej) E. cbn in Hz, Ej. subst j.
    value_cases E; cbn; [|eauto].
    apply parse_new_zone_typed in F; [|split; cbn; [apply Hz|constructor]].
    split; [done|]. eexists. split; [|reflexivity]. by apply Forall_app_2, Forall_singleton.
  - split; [split; cbn; auto with thd|]. exists (ti_zones i). by destruct i.
Qed.

Lemma sensor_value_typed name ch v s s' :
  sensor_typed s -> sensor_value doc name ch v s = Some s' -> sensor_typed s'.
Proof.
  unfold sensor_value, sensor_typed. intros Hs E. destruct Hs as (? & ? & ? & ? & ? & ? & ?).
  value_cases E; cbn; split_and!; auto with thd; try first [by apply lor_sets|by apply lor_keeps].
  - eapply (for_values_inv (fun k => is_trimmed (tl_name k))) in F; [done| |done].
    clear. unfold sensor_link_value. intros name ch v k k' Hk E. value_cases E; cbn; auto with thd.
  - apply Forall_app_2; [done|]. apply Forall_singleton.
    eapply (for_values_inv (fun k => is_trimmed (tt_name k) /\ is_i32 (tt_power_sensor k))) in F;
      [done| |cbn; auto with thd].
    clear. unfold sensor_target_value. intros name ch v k k' [] E. value_cases E; cbn; auto with thd.
  - apply Forall_app_2; [done|]. apply Forall_singleton.
    eapply (for_values_inv (fun k => is_i32 (sp_virtual_temp k) /\ is_i32 (sp_sample_period k))) in F;
      [done| |cbn; auto with thd].
    clear. unfold sensor_polling_value. intros name ch v k k' [] E. value_cases E; cbn; auto with thd.
Qed.

Lemma parse_thermal_sensors_typed l i i' :
  Forall sensor_typed (ti_sensors i) -> parse_thermal_sensors doc l i = Some i' ->
  exists ss, Forall sensor_typed ss /\ i' = i <| ti_sensors := ss |>.
Proof.
  intros Hi. apply (for_elements_inv (fun x => exists ss, Forall sensor_typed ss /\
    x = i <| ti_sensors := ss |>)); [|exists (ti_sensors i); by destruct i].
  clear. intros name ch j j' (ss & Hss & ->) E. value_cases E; cbn; [|eauto].
  eexists. split; [|reflexivity]. apply Forall_app_2; [done|]. apply Forall_singleton.
  eapply for_values_inv; [|..|exact F]; [intros ? ? ? ? ?; apply sensor_value_typed|].
  split_and!; cbn; auto with thd.
Qed.

Lemma ppcc_typed l p p' :
  is_i32 (power_limit_min p) /\ is_i32 (power_limit_max p) ->
  xml_parse_ppcc doc l p = Some p' -> is_i32 (power_limit_min p') /\ is_i32 (power_limit_max p').
Proof.
  apply (for_values_inv (fun p => is_i32 (power_limit_min p) /\ is_i32 (power_limit_max p))).
  clear. unfold ppcc_value. intros name ch v k k' [] E. value_cases E; cbn; auto with thd.
Qed.

Lemma platform_info_value_typed name ch v i i' :
  info_typed i -> platform_info_value doc uninit_pid name ch v i = Some i' -> info_typed i'.
Proof.
  unfold platform_info_value. intros Hi E. pose proof Hi as (? & ? & ? & ? & ? & ? & ? & ? & ? & ? & ?).
  value_cases E; try done; unfold info_typed; cbn.
  1-4, 9: split_and!; auto with thd.
  - split_and!; auto. destruct (named _ _); auto.
  - apply parse_thermal_zones_typed in E as (zs & ? & ->); [|done]. split_and!; cbn; auto.
  - apply parse_thermal_sensors_typed in E as (zs & ? & ->); [|done]. split_and!; cbn; auto.
  - apply parse_cooling_devs_typed in E as (zs & ? & ->); [|done]. split_and!; cbn; auto.
  - apply ppcc_typed in F; [|done]. destruct F. split_and!; cbn; auto.
Qed.

End typed.

(** * Platforms share one structure *)

Section inherit.
Context {W D : Type} `{Kernel W} `{!LibXml W D} (doc : D) (uninit_pid : pid_control_t).

(** A loop over elements that carries a second component along. *)
Lemma list_parser_sensors {B} (body : string -> list xmlNode -> B * thermal_info_t -> option (B * thermal_info_t))
    l b i r :
  (forall name ch b i r, body name ch (b, i) = Some r -> ti_sensors r.2 = ti_sensors i) ->
  for_elements body l (b, i) = Some r -> ti_sensors r.2 = ti_sensors i.
Proof.
  intros Hb. apply (for_elements_inv (fun x => ti_sensors x.2 = ti_sensors i)); [|done].
  intros name ch [b1 i1] r1 E Er. cbn in E. rewrite <- E. eauto.
Qed.

Lemma platform_value_sensors name ch v i i' :
  platform_info_value doc uninit_pid name ch v i = Some i' -> ti_sensors i `prefix_of` ti_sensors i'.
Proof.
  unfold platform_info_value. intros E.
  repeat match type of E with
  | (if ?b then _ else _) = Some _ => destruct b
  end; try (injection E as <-; reflexivity).
  - destruct (char_trim v); [|done]. cbn in E. by simplify_eq.
  - unfold parse_thermal_zones in E.
    match type of E with (?m ≫= _) = _ => destruct m as [r|] eqn:F end; [|done]. cbn in E. simplify_eq.
    apply list_parser_sensors in F; [by rewrite F|].
    intros nm c b j r'. cbn. destruct (named _ _); [|intros; by simplify_eq].
    destruct (parse_new_zone _ _ _); [|done]. cbn. intros. by simplify_eq.
  - revert E. apply (for_elements_inv (fun x => ti_sensors i `prefix_of` ti_sensors x)); [|done].
    clear. intros name ch j j' Hj E. destruct (named _ _); [|by simplify_eq].
    destruct (parse_new_sensor _ _ _); [|done]. cbn in E. simplify_eq. cbn.
    etrans; [done|]. by apply prefix_app_r.
  - unfold parse_cooling_devs in E.
    match type of E with (?m ≫= _) = _ => destruct m as [r|] eqn:F end; [|done]. cbn in E. simplify_eq.
    apply list_parser_sensors in F; [by rewrite F|].
    intros nm c b j r'. cbn. destruct (named _ _); [|intros; by simplify_eq].
    destruct (parse_new_cooling_dev _ _ _); [|done]. cbn. intros. by simplify_eq.
  - destruct (xml_parse_ppcc _ _ _); [|done]. cbn in E. by simplify_eq.
Qed.

Definition sensors_below (i : thermal_info_t) : thermal_info_t -> Prop :=
  fun j => ti_sensors j `prefix_of` ti_sensors i.

(** The platforms of one configuration are built in one structure whose
    sensor list is never cleared: every platform starts with the sensors of the
    platforms before it. *)
Theorem platforms_inherit_sensors l infos i j a b :
  parse_new_platform doc uninit_pid l [] = Some infos ->
  (i <= j)%nat -> infos !! i = Some a -> infos !! j = Some b ->
  ti_sensors a `prefix_of` ti_sensors b.
Proof.
  intros E Hij Ha Hb. unfold parse_new_platform in E.
  match type of E with (?m ≫= _) = _ => destruct m as [r|] eqn:F end; [|done]. cbn in E. simplify_eq.
  assert (Hr : Forall (sensors_below r.1) r.2 /\ forall i j a b, (i <= j)%nat -> r.2 !! i = Some a ->
    r.2 !! j = Some b -> ti_sensors a `prefix_of` ti_sensors b); [|by eapply Hr].
  revert F. apply (for_elements_inv (fun x => Forall (sensors_below x.1) x.2 /\
    forall i j a b, (i <= j)%nat -> x.2 !! i = Some a -> x.2 !! j = Some b ->
    ti_sensors a `prefix_of` ti_sensors b)); [|done].
  clear. intros name ch [i is_] a' [Hf Hp] E. cbn [fst snd] in Hf, Hp.
  destruct (named name _); [|by simplify_eq].
  match type of E with (?m ≫= _) = _ => destruct m as [i'|] eqn:F end; [|done]. cbn in E. simplify_eq.
  assert (Hi : ti_sensors i `prefix_of` ti_sensors i').
  { revert F. apply (for_values_inv doc (fun x => ti_sensors i `prefix_of` ti_sensors x)); [|done].
    intros nm c v x x' Hx Ex. etrans; [exact Hx|]. by eapply platform_value_sensors. }
  assert (Hf' : Forall (sensors_below i') is_)
    by (eapply Forall_impl; [exact Hf|]; unfold sensors_below; intros x Hx; by etrans).
  cbn [fst snd]. split.
  - apply Forall_app_2; [done|]. apply Forall_singleton. unfold sensors_below. done.
  - intros k m a b Hkm Ha Hb.
    apply lookup_snoc_Some in Hb as [[Hm Hb]|[-> <-]].
    + rewrite lookup_app_l in Ha by lia. eauto.
    + apply lookup_snoc_Some in Ha as [[_ Ha]|[_ <-]]; [|done].
      rewrite Forall_forall in Hf'. apply Hf'. by eapply list_elem_of_lookup_2.
Qed.
End inherit.

(** * The matched platform *)

Section matching.
Context {W D : Type} `{Kernel W}.

(** The rules, in the order of preference. *)
Definition rules (w : W) : list (thermal_info_t -> bool) :=
  [ (fun i => match first_line "/sys/class/dmi/id/product_uuid" w with
              | Some line => uuid_matches line i | None => false end);
    (fun i => match first_line "/sys/class/dmi/id/product_name" w with
              | Some line => product_matches line w i | None => false end);
    wildcard_matches ].

(** The platform at [n] is the first that satisfies rule [k], and no platform
    satisfies a rule before it. *)
Definition preferred (w : W) (l : list thermal_info_t) (k n : nat) (info : thermal_info_t) : Prop :=
  exists r, rules w !! k = Some r /\ l !! n = Some info /\ r info = true /\
  (forall m x, (m < n)%nat -> l !! m = Some x -> r x = false) /\
  (forall k' r', (k' < k)%nat -> rules w !! k' = Some r' -> Forall (fun x => r' x = false) l).

Lemma find_info_some m (p : @cthd_parse D) n :
  find_info m p = Some n ->
  exists info, thermal_info_list p !! n = Some info /\ m info = true /\
    forall k x, (k < n)%nat -> thermal_info_list p !! k = Some x -> m x = false.
Proof.
  unfold find_info. intros E. apply fmap_Some in E as ([n' info] & E & ->).
  apply list_find_Some in E as (E1 & E2 & E3). exists info. split; [done|]. split; [done|].
  intros k x Hk Hx. specialize (E3 k x Hx Hk). by destruct (m x).
Qed.

Lemma find_info_none m (p : @cthd_parse D) :
  find_info m p = None -> Forall (fun x => m x = false) (thermal_info_list p).
Proof.
  unfold find_info. intros E. apply fmap_None, list_find_None in E.
  eapply Forall_impl; [exact E|]. cbn. intros x Hx. by destruct (m x).
Qed.

Lemma find_line_info file m (w : W) (p : @cthd_parse D) :
  find_line file m w p =
  find_info (fun i => match first_line file w with Some line => m line i | None => false end) p.
Proof.
  unfold find_line. destruct (first_line file w); [done|]. cbn. unfold find_info.
  induction (thermal_info_list p) as [|i l IH]; [done|]. cbn.
  destruct (list_find _ l) as [[]|]; [discriminate IH|done].
Qed.

Lemma matched_info_set (p : @cthd_parse D) n info :
  thermal_info_list p !! n = Some info ->
  matched_info (p <| matched_thermal_info_index := Z.of_nat n |>) = Some info.
Proof.
  intros E. unfold matched_info, lookup_u. cbn. apply lookup_lt_Some in E as Hl.
  destruct (Z.leb_spec 0 (Z.of_nat n)), (Z.ltb_spec (Z.of_nat n) (Z.of_nat (length (thermal_info_list p))));
    cbn; try lia. by rewrite Nat2Z.id.
Qed.

(** The platform that is matched is the preferred one: the product UUID
    decides first, then the product name with its SKU, then a wildcard name; the
    first platform that satisfies the deciding rule wins, and the accessors then
    find it.  When no rule applies to any platform the parser is unchanged. *)
Theorem platform_matched_preferred (w : W) (p : @cthd_parse D) :
  let '(ok, p') := platform_matched w p in
  (ok = true -> exists k n info,
     preferred w (thermal_info_list p) k n info /\ p' = p <| matched_thermal_info_index := Z.of_nat n |> /\
     matched_info p' = Some info) /\
  (ok = false -> p' = p /\ forall r, r ∈ rules w -> Forall (fun x => r x = false) (thermal_info_list p)).
Proof.
  unfold platform_matched. rewrite !find_line_info.
  destruct (find_info _ p) as [n|] eqn:E1.
  { split; [intros _|discriminate]. apply find_info_some in E1 as (i & Hn & Hm & Hb).
    exists 0%nat, n, i. split; [|split; [done|by apply matched_info_set]].
    eexists. split; [reflexivity|]. do 3 (split; [done|]). intros. lia. }
  apply find_info_none in E1.
  destruct (find_info (fun i => match _ with Some line => product_matches line w i | None => false end) p) as [n|] eqn:E2.
  { split; [intros _|discriminate]. apply find_info_some in E2 as (i & Hn & Hm & Hb).
    exists 1%nat, n, i. split; [|split; [done|by apply matched_info_set]].
    eexists. split; [reflexivity|]. do 3 (split; [done|]).
    intros [|k'] r' Hk' Hr'; [|lia]. cbn in Hr'. by simplify_eq. }
  apply find_info_none in E2.
  destruct (find_info wildcard_matches p) as [n|] eqn:E3.
  { split; [intros _|discriminate]. apply find_info_some in E3 as (i & Hn & Hm & Hb).
    exists 2%nat, n, i. split; [|split; [done|by apply matched_info_set]].
    eexists. split; [reflexivity|]. do 3 (split; [done|]).
    intros [|[|k']] r' Hk' Hr'; [..|lia]; cbn in Hr'; by simplify_eq. }
  apply find_info_none in E3. split; [discriminate|intros _]. split; [done|].
  intros r Hr. unfold rules in Hr. rewrite !elem_of_cons in Hr.
  destruct Hr as [-> |[-> |[-> |Hr]]]; [done..|]. by apply not_elem_of_nil in Hr.
Qed.
End matching.

(** * Feature switches *)

Section features.
Context {W D : Type} `{Kernel W} `{!LibXml W D} (TDCONFDIR : string).

Lemma set_feature_value_length doc ch f fl fl' :
  set_feature_value doc ch f fl = Some fl' -> length fl' = length fl.
Proof.
  unfold set_feature_value. destruct (_ <=? _)%nat; [intros; by simplify_eq|].
  destruct (xmlNodeListGetString doc ch); [|intros; by simplify_eq].
  destruct (char_trim s) as [t|]; [|done]. destruct (strtol_whole t); [|intros; by simplify_eq].
  destruct (_ <? _)%nat; intros; simplify_eq. by rewrite length_insert.
Qed.

Lemma parse_feature_file_length doc l fl r fl' :
  parse_feature_file doc l fl = Some (r, fl') -> length fl' = length fl.
Proof.
  unfold parse_feature_file. intros E.
  match type of E with (?m ≫= _) = _ => destruct m as [x|] eqn:F end; [|done]. cbn in E. simplify_eq.
  revert F. apply (for_elements_inv (fun x => length x.2 = length fl)); [|done].
  clear. intros name ch [b fl1] a' Hl E. cbn in Hl. destruct (named _ _); [|by simplify_eq].
  unfold parse_features in E.
  match type of E with ((?m ≫= _) ≫= _) = _ => destruct m as [x|] eqn:F end; [|done]. cbn in E. simplify_eq. cbn.
  rewrite <- Hl. revert F. apply (for_elements_inv (fun x => length x.2 = length fl1)); [|done].
  clear. intros name ch [b fl] a' Hl E. cbn in Hl. destruct (feature_of name); [|by simplify_eq].
  destruct (set_feature_value _ _ _ _) eqn:F; [|done]. cbn in E. simplify_eq. cbn.
  by apply set_feature_value_length in F as ->.
Qed.

Lemma features_start_parse_length (p : @features_parse D) r p' :
  features_start_parse p = Some (r, p') -> length (feature_list p') = length (feature_list p).
Proof.
  unfold features_start_parse. destruct (f_doc p), (f_root_element p); try (intros; by simplify_eq);
    intros E; match type of E with (?m ≫= _) = _ => destruct m as [[r' fl]|] eqn:F end; try done;
    cbn in E; simplify_eq; by apply parse_feature_file_length in F.
Qed.

Lemma check_feature_in_list f (p : @features_parse D) :
  (f < MAX_FEATURE)%nat -> check_feature f p = feature_list p !! f.
Proof. intros Hf. unfold check_feature. by rewrite (proj2 (Nat.leb_gt _ _) Hf). Qed.

Lemma thd_parse_features_length (w : W) (p : @features_parse D) :
  thd_parse_features TDCONFDIR w new_features_parse = Some p ->
  length (feature_list p) = if trusted_file (features_filename TDCONFDIR) w then MAX_FEATURE else 0%nat.
Proof.
  unfold thd_parse_features. destruct (features_parser_init TDCONFDIR w new_features_parse) as [r0 p0] eqn:E0.
  assert (H0 : length (feature_list p0) =
    if trusted_file (features_filename TDCONFDIR) w then MAX_FEATURE else 0%nat).
  { unfold features_parser_init in E0. destruct (trusted_file _ w); cbn in E0; [|by simplify_eq].
    destruct (xmlReadFile _ w) as [doc|]; [|by simplify_eq].
    destruct (xmlDocGetRootElement doc); by simplify_eq. }
  rewrite <- H0. destruct (features_start_parse p0) as [[r1 p1]|] eqn:E1; [|done]. cbn.
  apply features_start_parse_length in E1. destruct (r1 =? THD_SUCCESS); [|intros; by simplify_eq].
  destruct (features_start_parse p1) as [[r2 p2]|] eqn:E2; [|done]. cbn. intros. simplify_eq. cbn.
  apply features_start_parse_length in E2. congruence.
Qed.

(** The feature switches of a fresh engine can be asked for exactly when
    the feature file was acceptable (owned by root, writable by nobody else, not
    a link).  Otherwise the list of switches is empty and [check_feature] reads
    past its end for every feature. *)
Theorem check_feature_needs_file (w : W) (p : @features_parse D) f :
  thd_parse_features TDCONFDIR w new_features_parse = Some p -> (f < MAX_FEATURE)%nat ->
  (is_Some (check_feature f p) <-> trusted_file (features_filename TDCONFDIR) w = true).
Proof.
  intros E Hf. apply thd_parse_features_length in E.
  rewrite check_feature_in_list, lookup_lt_is_Some, E by done.
  destruct (trusted_file _ w); cbn; [done|]. split; [lia|done].
Qed.
End features.
