(* ===== verification/ParseCodec.v ===== *)
(** Printing a configuration as the XML document a user would write, and the
    theorem that the parser of src/thd_parse.cpp reads it back. *)
From stdpp Require Import base gmap strings list.
From Stdlib Require Import ZArith Lia Ascii.
From Stdlib Require String.
From S2P Require Import Prelude CString SysFs CFloat Pid Cdev CdevRapl Preference TripPoint Xml Parse ParseTheorems.

Open Scope string_scope.
Open Scope list_scope.
Open Scope Z_scope.

(** * The text of a node list

    libxml2 documents [xmlNodeListGetString] as the text contained in a node
    list: the texts of the list's own nodes one after the other, the null
    pointer when there are none. *)

Fixpoint node_text (l : list xmlNode) : option string :=
  match l with
  | [] => None
  | XML_TEXT_NODE s :: l' => Some (s +:+ default "" (node_text l'))
  | _ :: l' => node_text l'
  end.

Definition plain (n : xmlNode) : bool := match n with XML_OTHER_NODE => false | _ => true end.

Class LibXmlLaws (W D : Type) `{LibXml W D} := {
  getstring_text (doc : D) l : forallb plain l = true -> xmlNodeListGetString doc l = node_text l;
}.

(** A library that has parsed the documents of a map, for concrete runs. *)
Definition documents : Type := gmap string (list xmlNode).
#[export] Instance sim_xml (docs : documents) : LibXml sim (list xmlNode) := {|
  xmlReadFile := fun file _ => docs !! file;
  xmlDocGetRootElement := fun doc => doc;
  xmlNodeListGetString := fun _ l => node_text l |}.
#[export] Instance sim_xml_laws docs : @LibXmlLaws sim (list xmlNode) (sim_xml docs).
Proof. split. done. Qed.

(** * Printing *)

Definition newline : string := String (char_of 10) "".
Definition elem (name text : string) : xmlNode := XML_ELEMENT_NODE name [XML_TEXT_NODE text].
Definition block (name : string) (children : list xmlNode) : xmlNode :=
  XML_ELEMENT_NODE name (XML_TEXT_NODE newline :: children).
Definition int_elem (name : string) (v : Z) : xmlNode := elem name (string_of_Z v).
Definition opt_elem (name text : string) : list xmlNode :=
  if String.eqb text "" then [] else [elem name text].
Definition when_valid (flag : Z) (l : list xmlNode) : list xmlNode := if flag =? 0 then [] else l.

Definition print_trip_cdev (c : trip_cdev_t) : xmlNode :=
  block "CoolingDevice"
    ([elem "type" (tcd_type c); int_elem "influence" (tcd_influence c);
      int_elem "SamplingPeriod" (tcd_sampling_period c)]
     ++ when_valid (tcd_target_state_valid c) [int_elem "TargetState" (tcd_target_state c)]
     ++ when_valid (tcd_min_max_valid c)
          [int_elem "TargetMinState" (tcd_target_min_state c);
           int_elem "TargetMaxState" (tcd_target_max_state c)]).

Definition type_name (t : trip_point_type_t) : string :=
  match t with
  | PASSIVE => "passive" | CRITICAL => "critical" | HOT => "hot" | MAX => "max"
  | _ => "active"
  end.

Definition print_dependency (d : trip_cdev_depend_t) : list xmlNode :=
  when_valid (dep_dependency d)
    [block "DependsOn" [elem "CoolingDeviceType" (dep_cdev d); elem "CoolingDeviceState" (dep_state d)]].

Definition print_trip (t : trip_point_t) : xmlNode :=
  block "TripPoint"
    ([int_elem "Temperature" (tp_temperature t); int_elem "Hyst" (tp_hyst t);
      elem "type" (type_name (tp_trip_pt_type t));
      elem "ControlType" (match tp_control_type t with SEQUENTIAL => "SEQUENTIAL" | PARALLEL => "PARALLEL" end)]
     ++ opt_elem "SensorType" (tp_sensor_type t)
     ++ print_dependency (tp_dependency t)
     ++ map print_trip_cdev (tp_cdev_trips t)).

Definition print_zone (z : thermal_zone_t) : xmlNode :=
  block "ThermalZone" [elem "Type" (tz_type z); block "TripPoints" (map print_trip (tz_trip_pts z))].

Definition print_platform (i : thermal_info_t) : xmlNode :=
  block "Platform"
    [elem "Name" (ti_name i); elem "UUID" (ti_uuid i); elem "ProductName" (ti_product_name i);
     elem "ProductSku" (ti_product_sku i);
     elem "Preference" (if ti_default_preference i =? PREF_PERFORMANCE then "PERFORMANCE" else "ENERGY_CONSERVE");
     int_elem "PollingInterval" (ti_polling_interval i);
     block "ThermalZones" (map print_zone (ti_zones i))].

Definition print_configuration (infos : list thermal_info_t) : list xmlNode :=
  [block "ThermalConfiguration" (map print_platform infos)].

(** * What a configuration file can say *)

Definition word (s : string) : Prop := s <> "" /\ is_trimmed s.
(** A text that [char_trim] leaves alone. *)
Definition tight (s : string) : Prop := char_trim s = Some s.

Definition trip_cdev_printable (c : trip_cdev_t) : Prop :=
  trip_cdev_typed c /\ tcd_pid_param c = mk_pid_param 0 zero_double zero_double zero_double.

Definition trip_printable (t : trip_point_t) : Prop :=
  trip_typed t /\ tp_influence t = 100 /\
  Forall trip_cdev_printable (tp_cdev_trips t) /\
  (dep_dependency (tp_dependency t) = 0 -> tp_dependency t = mk_depend 0 "" "") /\
  (dep_dependency (tp_dependency t) = 1 -> tight (dep_cdev (tp_dependency t)) /\ tight (dep_state (tp_dependency t))).

Definition zone_printable (z : thermal_zone_t) : Prop :=
  is_trimmed (tz_type z) /\ Forall trip_printable (tz_trip_pts z).

Definition platform_printable (i : thermal_info_t) : Prop :=
  word (ti_name i) /\ word (ti_uuid i) /\ word (ti_product_name i) /\ word (ti_product_sku i) /\
  is_i32 (ti_polling_interval i) /\
  (ti_default_preference i = PREF_PERFORMANCE \/ ti_default_preference i = PREF_ENERGY_CONSERVE) /\
  ti_ppcc i = no_ppcc /\ ti_sensors i = [] /\ ti_cooling_devs i = [] /\
  Forall zone_printable (ti_zones i).

(** Evaluates the comparisons of element names. *)
Ltac eval_named :=
  repeat match goal with
  | |- context [named ?a ?b] =>
      let r := eval vm_compute in (named a b) in
      replace (named a b) with r by (vm_compute; reflexivity)
  end; cbn [mbind option_bind fst snd].

Section codec.
Context {W D : Type} `{Kernel W} `{!LibXml W D} `{!LibXmlLaws W D} (doc : D) (uninit_pid : pid_control_t).

Lemma append_nil_r s : s +:+ "" = s.
Proof. induction s as [|c s IH]; [done|]. change (String c (s +:+ "") = String c s). by rewrite IH. Qed.

Lemma text_of_elem text : xmlNodeListGetString doc [XML_TEXT_NODE text] = Some text.
Proof. rewrite getstring_text by done. cbn. by rewrite append_nil_r. Qed.

Lemma for_values_elem {A} (body : string -> list xmlNode -> string -> A -> option A) name text l a :
  for_values doc body (elem name text :: l) a =
  (a' ← body name [XML_TEXT_NODE text] text a; for_values doc body l a').
Proof. unfold for_values. cbn [for_elements elem]. rewrite text_of_elem. by destruct (body _ _ _ _). Qed.

Lemma for_values_app {A} (body : string -> list xmlNode -> string -> A -> option A) l1 l2 a :
  for_values doc body (l1 ++ l2) a = (a' ← for_values doc body l1 a; for_values doc body l2 a').
Proof. apply for_elements_app. Qed.

(** The children of a block are elements: its text is the newline. *)
Definition elements (l : list xmlNode) : bool :=
  forallb (fun n => match n with XML_ELEMENT_NODE _ _ => true | _ => false end) l.

Lemma text_of_block l : elements l = true -> exists v, xmlNodeListGetString doc (XML_TEXT_NODE newline :: l) = Some v.
Proof.
  intros Hl. rewrite getstring_text; [cbn; eauto|]. cbn.
  induction l as [|[]]; cbn in *; auto; discriminate.
Qed.

Lemma for_values_block {A} (body : string -> list xmlNode -> string -> A -> option A) name ch l a :
  elements ch = true ->
  exists v, for_values doc body (block name ch :: l) a =
  (a' ← body name (XML_TEXT_NODE newline :: ch) v a; for_values doc body l a').
Proof.
  intros Hch. destruct (text_of_block ch Hch) as [v Ev]. exists v.
  unfold for_values. cbn [for_elements block]. rewrite Ev. by destruct (body _ _ _ _).
Qed.

Lemma for_values_text {A} (body : string -> list xmlNode -> string -> A -> option A) text l a :
  for_values doc body (XML_TEXT_NODE text :: l) a = for_values doc body l a.
Proof. done. Qed.

Lemma for_values_nil {A} (body : string -> list xmlNode -> string -> A -> option A) a :
  for_values doc body [] a = Some a.
Proof. done. Qed.

#[local] Arguments for_values : simpl never.
#[local] Arguments for_elements : simpl never.

Lemma elements_map {A} (f : A -> xmlNode) l :
  (forall a, exists n ch, f a = XML_ELEMENT_NODE n ch) -> elements (map f l) = true.
Proof. intros Hf. induction l as [|a l IH]; [done|]. cbn. destruct (Hf a) as (n & ch & ->). done. Qed.

Lemma elements_app l1 l2 : elements (l1 ++ l2) = elements l1 && elements l2.
Proof. apply forallb_app. Qed.

(** Unfolds a full application of a parsing function. *)
Ltac run f :=
  match goal with
  | |- context [f ?n ?ch ?v ?t] =>
      let x := eval cbv beta delta [trip_point_value dependency_value platform_info_value] in (f n ch v t) in
      change (f n ch v t) with x; eval_named
  end.

(** Runs the printed scalar elements through the parser. *)
Ltac read_back :=
  repeat first
    [ rewrite for_values_text
    | rewrite for_values_nil
    | rewrite for_values_elem; cbv beta; eval_named
    | rewrite atoi_string_of_Z by assumption
    | progress cbn [app map mbind option_bind] ].

Lemma read_trip_cdev c : trip_cdev_printable c ->
  parse_new_trip_cdev doc
    match print_trip_cdev c with XML_ELEMENT_NODE _ l => l | _ => [] end new_conf_trip_cdev = Some c.
Proof.
  destruct c as [ty infl sp tsv ts pid mmv mn mx].
  intros [(Hty & H1 & H2 & Hv & H3 & _ & Hm & H4 & H5 & Hd1 & Hd2) Hp]. cbn in *. subst pid.
  unfold parse_new_trip_cdev, int_elem, trip_cdev_value, new_conf_trip_cdev, when_valid.
  assert (Hm0 : (mmv = 0 /\ mn = 0 /\ mx = 0) \/ mmv = 1) by (destruct Hm; [left; split; auto|auto]).
  assert (Hv0 : (tsv = 0 /\ ts = 0) \/ tsv = 1) by (destruct Hv; [left; split; auto|auto]).
  destruct Hv0 as [[-> ->]| ->], Hm0 as [(-> & -> & ->)| ->]; cbn [Z.eqb app];
    read_back; cbn; rewrite Hty; done.
Qed.

Lemma read_dependency d t :
  is_flag (dep_dependency d) -> (dep_dependency d = 0 -> d = mk_depend 0 "" "") ->
  (dep_dependency d = 1 -> tight (dep_cdev d) /\ tight (dep_state d)) ->
  tp_dependency t = mk_depend 0 "" "" ->
  for_values doc (trip_point_value doc) (print_dependency d) t = Some (t <| tp_dependency := d |>).
Proof.
  intros Hf H0 H1 Ht. destruct d as [f c st], t. cbn in *. subst.
  unfold print_dependency, when_valid. cbn. destruct Hf as [-> | ->]; cbn [Z.eqb].
  { rewrite for_values_nil. by rewrite H0. }
  destruct H1 as [Hc Hs]; [done|]. cbn in Hc, Hs.
  destruct (for_values_block (trip_point_value doc) "DependsOn"
    [elem "CoolingDeviceType" c; elem "CoolingDeviceState" st] [] (mk_conf_trip tp_temperature tp_hyst
      tp_trip_pt_type tp_control_type tp_influence tp_sensor_type (mk_depend 0 "" "") tp_cdev_trips) eq_refl) as [v ->].
  run (trip_point_value doc). unfold parse_dependency_values.
  rewrite for_values_text, for_values_elem. run dependency_value. rewrite Hc. cbn [mbind option_bind].
  rewrite for_values_elem. run dependency_value. rewrite Hs. cbn [mbind option_bind].
  by rewrite !for_values_nil.
Qed.

Lemma print_trip_cdev_elements c : elements (match print_trip_cdev c with XML_ELEMENT_NODE _ (_ :: l) => l | _ => [] end) = true.
Proof. cbn. unfold when_valid. by destruct (_ =? 0), (_ =? 0). Qed.

Lemma read_trip_cdevs cs t :
  Forall trip_cdev_printable cs ->
  for_values doc (trip_point_value doc) (map print_trip_cdev cs) t =
  Some (t <| tp_cdev_trips := tp_cdev_trips t ++ cs |>).
Proof.
  intros Hcs. revert t. induction Hcs as [|c cs Hc Hcs IH]; intros t; cbn [map].
  { rewrite for_values_nil, app_nil_r. by destruct t. }
  pose proof (print_trip_cdev_elements c) as He. pose proof (read_trip_cdev c Hc) as Hr.
  unfold print_trip_cdev, block in He, Hr |- *.
  match goal with |- for_values _ _ (XML_ELEMENT_NODE _ (_ :: ?l) :: ?r) _ = _ =>
    destruct (for_values_block (trip_point_value doc) "CoolingDevice" l r t He) as [v E];
    unfold block in E; rewrite E end.
  run (trip_point_value doc). rewrite Hr. cbn [mbind option_bind]. rewrite IH.
  cbn. by rewrite <- app_assoc.
Qed.

Lemma read_trip t : trip_printable t ->
  parse_new_trip_point doc match print_trip t with XML_ELEMENT_NODE _ l => l | _ => [] end new_conf_trip = Some t.
Proof.
  destruct t as [tmp hy ty ct infl st d cs].
  intros ((H1 & H2 & Hty & Hst & Hf & _) & Hi & Hcs & Hd0 & Hd1). cbn in H1, H2, Hty, Hst, Hf, Hi, Hcs, Hd0, Hd1. subst infl.
  unfold print_trip, block, parse_new_trip_point, int_elem.
  cbn [app tp_temperature tp_hyst tp_trip_pt_type tp_control_type tp_sensor_type tp_dependency tp_cdev_trips].
  rewrite for_values_text.
  assert (E : forall l, for_values doc (trip_point_value doc)
    (elem "Temperature" (string_of_Z tmp) :: elem "Hyst" (string_of_Z hy) :: elem "type" (type_name ty)
     :: elem "ControlType" (match ct with SEQUENTIAL => "SEQUENTIAL" | PARALLEL => "PARALLEL" end) :: l)
    (mk_conf_trip 0 0 ACTIVE PARALLEL 100 "" (mk_depend 0 "" "") []) =
    for_values doc (trip_point_value doc) l (mk_conf_trip tmp hy ty ct 100 "" (mk_depend 0 "" "") [])).
  { intros l. do 2 (rewrite for_values_elem; run (trip_point_value doc); rewrite atoi_string_of_Z by assumption;
                    cbn [mbind option_bind]).
    destruct Hty as [-> |[-> |[-> |[-> | ->]]]], ct; cbn [type_name];
      do 2 (rewrite for_values_elem; run (trip_point_value doc);
            match goal with |- context [char_trim ?x] => let r := eval vm_compute in (char_trim x) in
              change (char_trim x) with r end; cbn [mbind option_bind]); eval_named; done. }
  etransitivity; [apply E|]. rewrite for_values_app.
  assert (E1 : for_values doc (trip_point_value doc) (opt_elem "SensorType" st)
    (mk_conf_trip tmp hy ty ct 100 "" (mk_depend 0 "" "") []) =
    Some (mk_conf_trip tmp hy ty ct 100 st (mk_depend 0 "" "") [])).
  { unfold opt_elem. destruct (String.eqb_spec st "") as [-> |]; [done|].
    rewrite for_values_elem. run (trip_point_value doc). cbn. by rewrite Hst. }
  rewrite E1. cbn [mbind option_bind]. rewrite for_values_app, read_dependency by done.
  cbn [mbind option_bind]. by rewrite read_trip_cdevs.
Qed.

Lemma read_trips ts z :
  Forall trip_printable ts ->
  parse_trip_points doc (XML_TEXT_NODE newline :: map print_trip ts) z =
  Some (z <| tz_trip_pts := tz_trip_pts z ++ ts |>).
Proof.
  intros Hts. unfold parse_trip_points. rewrite for_elements_text. revert z.
  induction Hts as [|t ts Ht Hts IH]; intros z; cbn [map].
  { rewrite app_nil_r. by destruct z. }
  pose proof (read_trip t Ht) as Hr. unfold print_trip, block in Hr |- *. rewrite for_elements_cons.
  cbv beta. eval_named. rewrite Hr. cbn [mbind option_bind]. rewrite IH. cbn. by rewrite <- app_assoc.
Qed.

Lemma read_zones zs z0 i :
  Forall zone_printable zs ->
  exists z1,
  for_elements (fun name children '(zone, info) =>
    if named name "ThermalZone" then
      zone ← parse_new_zone doc children (zone <| tz_trip_pts := [] |>);
      Some (zone, info <| ti_zones := ti_zones info ++ [zone] |>)
    else Some (zone, info)) (map print_zone zs) (z0, i) =
  Some (z1, i <| ti_zones := ti_zones i ++ zs |>).
Proof.
  intros Hzs. revert z0 i. induction Hzs as [|z zs [Hty Hts] Hzs IH]; intros z0 i; cbn [map].
  { exists z0. rewrite app_nil_r. by destruct i. }
  destruct (IH z (i <| ti_zones := ti_zones i ++ [z] |>)) as [z1 E]. exists z1.
  unfold print_zone at 1, block at 1. rewrite for_elements_cons. cbv beta iota. eval_named.
  unfold parse_new_zone. unfold elem, block.
  rewrite for_elements_text, for_elements_cons. cbv beta. eval_named.
  rewrite text_of_elem. cbn [mbind option_bind].
  rewrite for_elements_cons. cbv beta. eval_named. rewrite read_trips by done.
  cbn [mbind option_bind]. rewrite for_elements_nil. cbn [mbind option_bind].
  rewrite Hty. destruct z as [ty ts]. refine (eq_trans E _). cbn. by rewrite <- app_assoc.
Qed.

Lemma read_platform i0 i :
  platform_printable i ->
  ti_ppcc i0 = no_ppcc -> ti_sensors i0 = [] -> ti_zones i0 = [] -> ti_cooling_devs i0 = [] ->
  parse_new_platform_info doc uninit_pid
    match print_platform i with XML_ELEMENT_NODE _ l => l | _ => [] end i0 = Some i.
Proof.
  destruct i as [n u pn ps pref poll pp ss zs cs].
  intros ([_ Hn] & [_ Hu] & [_ Hpn] & [_ Hps] & Hpo & Hpr & Hpp & Hss & Hcs & Hzs) E1 E2 E3 E4.
  cbn in Hn, Hu, Hpn, Hps, Hpo, Hpr, Hpp, Hss, Hcs, Hzs. subst pp ss cs.
  unfold parse_new_platform_info, print_platform, block at 1, int_elem.
  cbn [ti_name ti_uuid ti_product_name ti_product_sku ti_default_preference ti_polling_interval ti_zones].
  rewrite for_values_text.
  do 4 (rewrite for_values_elem; run (platform_info_value doc uninit_pid); cbn [mbind option_bind]).
  rewrite for_values_elem. run (platform_info_value doc uninit_pid).
  assert (Ep : forall t : thermal_info_t, (pref_val ← char_trim (if pref =? PREF_PERFORMANCE then "PERFORMANCE" else "ENERGY_CONSERVE");
     Some (t <| ti_default_preference :=
      if named pref_val "PERFORMANCE" then PREF_PERFORMANCE else PREF_ENERGY_CONSERVE |>)) =
     Some (t <| ti_default_preference := pref |>)) by (intros; by destruct Hpr as [-> | ->]).
  rewrite Ep. cbn [mbind option_bind].
  rewrite for_values_elem. run (platform_info_value doc uninit_pid). cbn [mbind option_bind].
  rewrite atoi_string_of_Z by done.
  match goal with |- for_values _ _ [block ?nm ?ch] ?t = _ =>
    destruct (for_values_block (platform_info_value doc uninit_pid) nm ch [] t) as [v ->];
    [apply elements_map; unfold print_zone, block; eauto|] end.
  run (platform_info_value doc uninit_pid). unfold parse_thermal_zones. rewrite for_elements_text.
  match goal with |- context [(mk_thermal_zone "" [], ?t)] =>
    destruct (read_zones zs (mk_thermal_zone "" []) t Hzs) as [z1 ->] end.
  cbn [mbind option_bind snd]. rewrite for_values_nil.
  destruct i0. cbn in *. subst. rewrite Hn, Hu, Hpn, Hps. done.
Qed.

Lemma read_platforms is_ i0 l :
  Forall platform_printable is_ -> ti_ppcc i0 = no_ppcc -> ti_sensors i0 = [] ->
  exists i1, for_elements (fun name children '(info, infos) =>
        if named name "Platform" then
          info ← parse_new_platform_info doc uninit_pid children
            (info <| ti_cooling_devs := [] |> <| ti_zones := [] |> <| ti_polling_interval := 0 |>
              <| ti_ppcc := (ti_ppcc info) <| ppcc_valid := 0 |> <| limit_1_valid := 0 |> |>);
          Some (info, infos ++ [info])
        else Some (info, infos)) (map print_platform is_) (i0, l) = Some (i1, l ++ is_).
Proof.
  intros His. revert i0 l. induction His as [|i is_ Hi His IH]; intros i0 l E1 E2; cbn [map].
  { exists i0. by rewrite app_nil_r. }
  pose proof Hi as (_ & _ & _ & _ & _ & _ & Hp & Hs & _ & _).
  destruct (IH i (l ++ [i]) Hp Hs) as [i1 E]. exists i1.
  unfold print_platform at 1, block at 1. rewrite for_elements_cons. cbv beta iota zeta. eval_named.
  match goal with |- context [parse_new_platform_info doc uninit_pid ?ch ?j] =>
    pose proof (read_platform j i Hi) as Hr; unfold print_platform, block at 1 in Hr; rewrite Hr end;
    [|by rewrite E1|done|done|done].
  cbn [mbind option_bind]. refine (eq_trans E _). by rewrite <- app_assoc.
Qed.

End codec.

(** * A concrete configuration *)

Definition no_pid : pid_control_t := mk_pid_control zero_double zero_double zero_double.
Definition sample_cdev : trip_cdev_t :=
  mk_conf_trip_cdev "intel_powerclamp" 50 5 1 10 (mk_pid_param 0 zero_double zero_double zero_double) 0 0 0.
Definition sample_trip : trip_point_t :=
  mk_conf_trip 85000 2000 PASSIVE SEQUENTIAL 100 "x86_pkg_temp" (mk_depend 1 "Fan" ">=3") [sample_cdev].
Definition sample_platform : thermal_info_t :=
  mk_thermal_info "Laptop" "*" "Model-1" "A7" PREF_PERFORMANCE 4 no_ppcc []
    [mk_thermal_zone "cpu" [sample_trip]] [].
Definition sample_document : list xmlNode := print_configuration [sample_platform].
#[local] Existing Instance sim_xml.
Abbreviation xml0 := (sim_xml ∅).

Lemma sample_cdev_typed : trip_cdev_typed sample_cdev.
Proof. split_and!; cbn; auto with thd; try (unfold is_i32, INT_MIN, INT_MAX; lia); done. Qed.

Lemma sample_trip_printable : trip_printable sample_trip.
Proof.
  split; [|split_and!; cbn; try done].
  - split_and!; cbn; auto with thd; try (unfold is_i32, INT_MIN, INT_MAX; lia); try done; [by right; left|].
    constructor; [apply sample_cdev_typed|constructor].
  - constructor; [split; [apply sample_cdev_typed|done]|constructor].
Qed.

Lemma sample_printable : platform_printable sample_platform.
Proof.
  unfold platform_printable, word. split_and!; cbn; try done; try (unfold is_i32, INT_MIN, INT_MAX; lia).
  constructor; [split; [done|]|constructor]. constructor; [apply sample_trip_printable|constructor].
Qed.



(** A blank control type makes the parser scan outside the text. *)
Example blank_control_type :
  @parse sim (list xmlNode) xml0 [] no_pid
    [block "ThermalConfiguration" [block "Platform" [block "ThermalZones" [block "ThermalZone"
      [block "TripPoints" [block "TripPoint" [elem "ControlType" " "]]]]]]] [] = None.
Proof. vm_compute. reflexivity. Qed.


(** Two platforms, the second without sensors of its own. *)
Definition two_platforms : list xmlNode :=
  [block "Platform" [block "ThermalSensors" [block "ThermalSensor" [elem "Type" "skin"]]];
   block "Platform" [elem "Name" "Other"]].

Lemma platforms_inherit_witness :
  exists a b,
    (infos ← @parse_new_platform sim (list xmlNode) xml0 [] no_pid two_platforms [];
     Some (infos !! 0%nat, infos !! 1%nat)) = Some (Some a, Some b) /\
    ti_sensors a `prefix_of` ti_sensors b /\ map ts_name (ti_sensors b) = ["skin"].
Proof.
  destruct (@parse_new_platform sim (list xmlNode) xml0 [] no_pid two_platforms []) as [infos|] eqn:E;
    [|vm_compute in E; discriminate E].
  destruct (infos !! 0%nat) as [a|] eqn:Ha; [|vm_compute in E; injection E as <-; discriminate Ha].
  destruct (infos !! 1%nat) as [b|] eqn:Hb; [|vm_compute in E; injection E as <-; discriminate Hb].
  exists a, b. split; [cbn; by rewrite Ha, Hb|]. split.
  - apply (@platforms_inherit_sensors sim (list xmlNode) xml0 [] no_pid two_platforms infos 0 1 a b E);
      [lia|done|done].
  - vm_compute in E. injection E as <-. cbn in Hb. injection Hb as <-. reflexivity.
Defined.

(** Without a feature file. *)
Lemma check_feature_witness :
  exists p, @thd_parse_features sim (list xmlNode) _ xml0 "/etc/thermald" sim0 new_features_parse = Some p /\
    (is_Some (check_feature XML_THERMAL_CONFIG p) <->
     trusted_file (features_filename "/etc/thermald") sim0 = true) /\
    check_feature XML_THERMAL_CONFIG p = None.
Proof.
  destruct (@thd_parse_features sim (list xmlNode) _ xml0 "/etc/thermald" sim0 new_features_parse)
    as [p|] eqn:E; [|vm_compute in E; discriminate E].
  exists p. split; [done|]. split.
  - apply (@check_feature_needs_file sim (list xmlNode) _ xml0 "/etc/thermald" sim0 p XML_THERMAL_CONFIG E).
    vm_compute. lia.
  - vm_compute in E. injection E as <-. reflexivity.
Defined.
