(* ===== verification/Zone.v ===== *)
(** Thermal zones, [cthd_zone] (src/thd_zone.cpp, src/thd_zone.h): the trip
    points of a zone, the temperatures its sensors report and the trip that
    switches polling. *)
From stdpp Require Import base gmap strings list.
From Stdlib Require Import ZArith Lia Sorted.
From Stdlib Require String.
From S2P Require Import Prelude CString SysFs CFloat Pid Cdev CdevLimits CdevControl Machine Preference TripPoint.

Open Scope string_scope.
Open Scope list_scope.
Open Scope Z_scope.

Inductive sensor_relate_t := SENSOR_INDEPENDENT | SENSORS_CORELATED.

(** The members [cthd_sysfs_zone] and [cthd_zone_cpu] add. *)
Record sysfs_zone_ext := mk_sysfs_zone { sz_trip_point_cnt : Z; initial_trip_values : list Z }.
#[export] Instance eta_sysfs_zone : Eta sysfs_zone_ext := {| eta_of := fun x =>
  mk_sysfs_zone (sz_trip_point_cnt x) (initial_trip_values x) |}.

Record cpu_zone_ext := mk_cpu_zone {
  dts_sysfs : csys_fs;
  critical_temp : Z;
  max_temp : Z;
  psv_temp : Z;
  cz_trip_point_cnt : Z;
  sensor_mask : Z;               (* unsigned int *)
  phy_package_id : Z;
}.
#[export] Instance eta_cpu_zone : Eta cpu_zone_ext := {| eta_of := fun x =>
  mk_cpu_zone (dts_sysfs x) (critical_temp x) (max_temp x) (psv_temp x) (cz_trip_point_cnt x)
    (sensor_mask x) (phy_package_id x) |}.

(** Which subclass a zone is of, with its members. *)
Inductive zone_class :=
| OtherZone
| SysfsZone (x : sysfs_zone_ext)
| CpuZone (x : cpu_zone_ext).

Record zone := mk_zone {
  z_index : Z;
  trip_points : list trip_point;
  zone_sysfs : csys_fs;
  zone_temp : Z;                 (* unsigned int *)
  zone_active : bool;
  zone_cdev_binded_status : bool;
  z_type_str : string;
  sensors : list nat;            (* positions in the engine's vector *)
  sensor_rel : sensor_relate_t;
  z_class : zone_class;
}.
#[export] Instance eta_zone : Eta zone := {| eta_of := fun x =>
  mk_zone (z_index x) (trip_points x) (zone_sysfs x) (zone_temp x) (zone_active x)
    (zone_cdev_binded_status x) (z_type_str x) (sensors x) (sensor_rel x) (z_class x) |}.

Definition new_zone (_index : Z) (control_path : string) (rel : sensor_relate_t) : zone :=
  mk_zone _index [] (new_csys_fs control_path) 0 false false "" [] rel OtherZone.

Definition def_async_trip_offset : Z := 5000.
Definition def_async_trip_offset_pct : Z := 10.

Definition trip_sort (t1 t2 : trip_point) : bool := temp t1 <? temp t2.

(** The first trip of the kind, removed. *)
Fixpoint erase_first (p : trip_point -> bool) (l : list trip_point) : list trip_point :=
  match l with
  | [] => []
  | t :: rest => if p t then rest else t :: erase_first p rest
  end.
Definition is_polling (t : trip_point) : bool := is_type (t_type t) POLLING.

(** Lines 131-137, in unsigned arithmetic. *)
Definition poll_offset (lowest : Z) : Z :=
  let o := u32 (lowest * def_async_trip_offset_pct) / 100 in
  if o <? def_async_trip_offset then def_async_trip_offset else o.
Definition polling_temp (lowest : Z) : Z := u32 (lowest - poll_offset lowest).

Section zone.
Context {X W : Type} `{Kernel W} `{!CdevMethods X W}.
Context (TDRUNDIR : string) (depth : nat).
Abbreviation ZM := (State (zone * machine X W)).

Definition getz : ZM zone := gets fst.
Definition modz (f : zone -> zone) : ZM unit := modify (fun '(z, s) => (f z, s)).
Definition on_machine {A} (m : State (machine X W) A) : ZM A :=
  fun '(z, s) => let '(a, s') := m s in (a, (z, s')).

(** A call on trip point [i] of the zone. *)
Definition on_trip {A} (i : nat) (dflt : A) (m : State (trip_point * machine X W) A) : ZM A :=
  fun '(z, s) =>
  match trip_points z !! i with
  | None => (dflt, (z, s))
  | Some t =>
      let '(a, (t', s')) := m (t, s) in
      (a, (z <| trip_points := <[i := t']> (trip_points z) |>, s'))
  end.

(** ** Reset *)

Fixpoint reset_trips (i : nat) (force : Z) : ZM unit :=
  match i with
  | O => ret tt
  | S k => on_trip k tt (thd_trip_cdev_state_reset force) ;; reset_trips k force
  end.

Definition zone_reset (force : Z) : ZM unit :=
  z <- getz ;;
  if zone_active z then reset_trips (length (trip_points z)) force else ret tt.

(** ** Temperature changes *)

(** From trip [i] on, [n] trips; the loop ends when one asks for a reset. *)
Fixpoint check_trips (n i : nat) (id temp pref : Z) : ZM unit :=
  match n with
  | O => ret tt
  | S n' =>
      let* (_, reset) := on_trip i (false, false) (thd_trip_point_check id temp pref) in
      if reset : bool then zone_reset 0 else check_trips n' (S i) id temp pref
  end.

Definition thermal_zone_temp_change (id temp pref : Z) : ZM unit :=
  z <- getz ;; check_trips (length (trip_points z)) 0 id temp pref.

Definition sensor_index (i : nat) : ZM Z := on_machine (gets (fun s => s_index (sensor_at i s))).

Definition update_zone_preference : ZM unit :=
  z <- getz ;;
  if negb (zone_active z) then ret tt else
  mfor (sensors z) (fun sn =>
    t <- on_machine (read_temperature depth sn) ;;
    modz (fun z => z <| zone_temp := t |>) ;;
    id <- sensor_index sn ;;
    pref <- on_machine (gets m_preference) ;;
    thermal_zone_temp_change id 0 pref) ;;
  mfor (sensors z) (fun sn =>
    t <- on_machine (read_temperature depth sn) ;;
    modz (fun z => z <| zone_temp := t |>) ;;
    id <- sensor_index sn ;;
    pref <- on_machine (gets m_preference) ;;
    thermal_zone_temp_change id t pref).

(** One sensor of [read_zone_temp]. *)
Definition read_one (sn : nat) : ZM unit :=
  temp <- on_machine (read_temperature depth sn) ;;
  modz (fun z => if zone_temp z <? temp then z <| zone_temp := temp |> else z) ;;
  z <- getz ;;
  match sensor_rel z with
  | SENSOR_INDEPENDENT =>
      id <- sensor_index sn ;;
      pref <- on_machine (gets m_preference) ;;
      thermal_zone_temp_change id temp pref
  | SENSORS_CORELATED => ret tt
  end.

Definition read_zone_temp : ZM unit :=
  z <- getz ;;
  if negb (zone_active z) then ret tt else
  modz (fun z => z <| zone_temp := 0 |>) ;;
  mfor (sensors z) read_one ;;
  z <- getz ;;
  match sensor_rel z, sensors z with
  | SENSORS_CORELATED, s0 :: _ =>
      if truthy (zone_temp z) then
        id <- sensor_index s0 ;;
        pref <- on_machine (gets m_preference) ;;
        thermal_zone_temp_change id (zone_temp z) pref
      else ret tt
  | _, _ => ret tt
  end.

Definition zone_temperature_notification : ZM unit := read_zone_temp.

(** ** Trip points *)

Definition sort_and_update_poll_trip : ZM unit :=
  modz (fun z => z <| trip_points := erase_first is_polling (trip_points z) |>) ;;
  z <- getz ;;
  match trip_points z with
  | [] => ret tt
  | _ =>
      modz (fun z => z <| trip_points := std_sort trip_sort (trip_points z) |>) ;;
      z <- getz ;;
      let lowest := match trip_points z with t0 :: _ => temp t0 | [] => 0 end in
      let polling_trip := polling_temp lowest in
      mfor (sensors z) (fun sn =>
        on_machine (set_threshold sn 0 polling_trip) ;;
        id <- sensor_index sn ;;
        modz (fun z => z <| trip_points := trip_points z ++
          [new_trip (Z.of_nat (length (trip_points z))) POLLING polling_trip 0 (z_index z) id PARALLEL] |>))
  end.

(** The first trip of a kind, updated. *)
Fixpoint update_first (p : trip_point -> bool) (f : trip_point -> trip_point)
    (l : list trip_point) : list trip_point :=
  match l with
  | [] => []
  | t :: rest => if p t then f t :: rest else t :: update_first p f rest
  end.

Definition same_type (trip t : trip_point) : bool := is_type (t_type t) (t_type trip).

Definition add_trip (trip : trip_point) (force : Z) : ZM unit :=
  modz (fun z => z <| trip_points :=
    if negb (truthy force) && existsb (same_type trip) (trip_points z)
    then update_first (same_type trip) (fun _ => trip) (trip_points z)
    else trip_points z ++ [trip] |>) ;;
  sort_and_update_poll_trip.

Definition retemp (trip t : trip_point) : trip_point :=
  t <| temp := temp trip |> <| hyst := hyst trip |>.

Definition update_highest_trip_temp (trip : trip_point) : ZM unit :=
  z <- getz ;;
  match trip_points z with
  | [] => ret tt
  | l =>
      modz (fun z => z <| trip_points := rev (update_first (same_type trip) (retemp trip) (rev l)) |>) ;;
      sort_and_update_poll_trip
  end.

Definition update_trip_temp (trip : trip_point) : ZM unit :=
  modz (fun z => z <| trip_points := update_first (same_type trip) (retemp trip) (trip_points z) |>) ;;
  sort_and_update_poll_trip.

(** The first trip that matches takes the device. *)
Definition binds (type : trip_point_type_t) (trip_temp : Z) (t : trip_point) : bool :=
  is_type (t_type t) type && (temp t >? 0) && ((trip_temp =? 0) || (temp t =? trip_temp)).

Definition bind_cooling_device (type : trip_point_type_t) (trip_temp : Z) (c : nat)
    (_influence sampling_period _target_state_valid _target_state min_max_valid _min _max : Z) : ZM Z :=
  z <- getz ;;
  match fst <$> list_find (fun t => binds type trip_temp t = true) (trip_points z) with
  | Some i =>
      on_trip i tt (thd_trip_point_add_cdev c _influence sampling_period _target_state_valid
        _target_state None min_max_valid _min _max) ;;
      modz (fun z => z <| zone_cdev_binded_status := true |>) ;;
      ret THD_SUCCESS
  | None => ret THD_ERROR
  end.

Definition bind_sensor (sn : nat) (z : zone) : zone :=
  if existsb (Nat.eqb sn) (sensors z) then z else z <| sensors := sensors z ++ [sn] |>.

Definition check_sensor_async_status (z : zone) (s : machine X W) : bool :=
  forallb (fun i => async_capable (sensor_at i s)) (sensors z).

(** ** User settings *)

Definition psv_file (z : zone) : string :=
  TDRUNDIR +:+ "/" +:+ "thd_user_psv_temp." +:+ z_type_str z +:+ "." +:+ "conf".
Definition max_file (z : zone) : string :=
  TDRUNDIR +:+ "/" +:+ "thd_user_set_max." +:+ z_type_str z +:+ "." +:+ "conf".

Definition read_user_set_psv_temp (z : zone) (w : W) : Z :=
  match k_ifstream (psv_file z) w with
  | None => -1
  | Some content => let t := istream_int content (-1) in if t <? 1000 then -1 else t
  end.

Definition write_setting (path : string) (v : Z) : ZM Z :=
  ok <- on_machine (on_world (k_ofstream path (string_of_Z v))) ;;
  ret (if ok : bool then THD_SUCCESS else THD_ERROR).

Definition update_psv_temperature (psv_temp : Z) : ZM Z :=
  z <- getz ;; write_setting (psv_file z) psv_temp.
Definition update_max_temperature (max_temp : Z) : ZM Z :=
  z <- getz ;; write_setting (max_file z) max_temp.

(** ** Set-up; the three steps a subclass defines are parameters. *)
Section update.
Context (zone_bind_sensors read_trip_points read_cdev_trip_points : ZM Z).

Definition zone_update : ZM Z :=
  r <- zone_bind_sensors ;;
  if negb (r =? THD_SUCCESS) then ret THD_ERROR else
  r <- read_trip_points ;;
  if negb (r =? THD_SUCCESS) then ret THD_ERROR else
  z <- getz ;;
  usr_psv_temp <- on_machine (gets (fun s => read_user_set_psv_temp z (m_w s))) ;;
  (if usr_psv_temp >? 0
   then update_highest_trip_temp (new_trip 0 PASSIVE usr_psv_temp 0 (z_index z) DEFAULT_SENSOR_ID PARALLEL)
   else ret tt) ;;
  read_cdev_trip_points ;;
  sort_and_update_poll_trip ;;
  ret THD_SUCCESS.
End update.

(** ** Activation *)

(** The first virtual sensor's sampling thread follows the zone. *)
Definition first_virtual (z : zone) (s : machine X W) : option nat :=
  List.find (fun i => match s_virtual (sensor_at i s) with Some _ => true | None => false end) (sensors z).

Definition set_zone_active (created : bool) : ZM unit :=
  z <- getz ;;
  v <- on_machine (gets (first_virtual z)) ;;
  match v with Some i => on_machine (enable_periodic_timer created i) | None => ret tt end ;;
  modz (fun z => z <| zone_active := true |>).

Definition set_zone_inactive : ZM unit :=
  z <- getz ;;
  v <- on_machine (gets (first_virtual z)) ;;
  match v with Some i => on_machine (disable_periodic_timer i) | None => ret tt end ;;
  modz (fun z => z <| zone_active := false |>).

Definition trip_delete_all (z : zone) : zone := z <| trip_points := [] |>.

(** On Android the trips of an emergency stay, with their devices. *)
Definition emergency_trip (t : trip_point) : bool :=
  is_type (t_type t) HOT || is_type (t_type t) CRITICAL || is_type (t_type t) MAX.
Definition android_trip_delete_all (z : zone) : zone :=
  z <| trip_points := List.filter emergency_trip (trip_points z) |>.
End zone.
