(* ===== verification/ZoneKinds.v ===== *)
(** The kinds of thermal zones: a zone of the kernel's thermal sysfs
    (src/thd_zone_therm_sys_fs.cpp), the CPU zone over the core temperature
    driver (src/thd_zone_cpu.cpp), a zone of the XML configuration
    (src/thd_zone_generic.cpp) and the package power zone
    (src/thd_zone_rapl_power.cpp): for each, how it binds sensors, reads trip
    points and binds cooling devices, the three steps [zone_update] calls. *)
From stdpp Require Import base gmap strings list.
From Stdlib Require Import ZArith Lia.
From Stdlib Require String.
From S2P Require Import Prelude CString SysFs CFloat Pid Cdev CdevLimits CdevControl Machine Preference TripPoint Xml Parse Zone.

Open Scope string_scope.
Open Scope list_scope.
Open Scope Z_scope.

(** [strstr(s, name)]: the text after the first occurrence. *)
Fixpoint after_first (name s : string) : option string :=
  if is_prefix name s then Some (String.substring (String.length name) (String.length s) s)
  else match s with EmptyString => None | String _ s' => after_first name s' end.

Section kinds.
Context {X W D : Type} `{Kernel W} `{!CdevMethods X W} `{!LibXml W D}.
Context (TDRUNDIR TDCONFDIR : string).
Abbreviation ZM := (State (zone * machine X W)).

(** A call through the [csys_fs] of the zone. *)
Definition on_zone_fs {A} (m : State (csys_fs * W) A) : ZM A := fun '(z, s) =>
  let '(a, (fs, w)) := m (zone_sysfs z, m_w s) in
  (a, (z <| zone_sysfs := fs |>, s <| m_w := w |>)).

Definition push_trip (t : trip_point) : ZM unit :=
  modz (fun z => z <| trip_points := trip_points z ++ [t] |>).

(** The sensor of a name, bound when it exists. *)
Definition bind_named (name : string) : ZM bool :=
  sn <- on_machine (gets (search_sensor name)) ;;
  match sn with
  | Some i => modz (bind_sensor i) ;; ret true
  | None => ret false
  end.

(** A trip point under construction takes a device with the default arguments
    of [thd_trip_point_add_cdev]. *)
Definition add_default_cdev (c : nat) (t : trip_point) : State (machine X W) trip_point := fun s =>
  let '(_, (t', s')) := thd_trip_point_add_cdev c default_influence 0 0
    TRIP_PT_INVALID_TARGET_STATE None 0 0 0 (t, s) in (t', s').

(** The devices of the names that exist. *)
Fixpoint add_named_cdevs (names : list string) (t : trip_point) : State (machine X W) trip_point :=
  match names with
  | [] => ret t
  | name :: rest =>
      c <- gets (search_cdev name) ;;
      t <- match c with Some p => add_default_cdev p t | None => ret t end ;;
      add_named_cdevs rest t
  end.

(** * cthd_sysfs_zone *)

Definition max_trip_points : nat := 50.
Definition max_cool_devs : nat := 50.

Definition sysfs_of (z : zone) : sysfs_zone_ext :=
  match z_class z with SysfsZone x => x | _ => mk_sysfs_zone 0 [] end.
Definition mod_sysfs (f : sysfs_zone_ext -> sysfs_zone_ext) : ZM unit :=
  modz (fun z => z <| z_class := SysfsZone (f (sysfs_of z)) |>).

Definition zone_attr (z : zone) (name : string) : string := string_of_Z (z_index z) +:+ "/" +:+ name.
Definition trip_attr (z : zone) (i : Z) (name : string) : string :=
  zone_attr z ("trip_point_" +:+ string_of_Z i +:+ name).

Definition new_sysfs_zone (count : Z) (path : string) : State (machine X W) zone := fun s =>
  let z := (new_zone count path SENSOR_INDEPENDENT) <| z_class := SysfsZone (mk_sysfs_zone 0 []) |> in
  let '(_, (z, s)) :=
    (ex <- on_zone_fs (exists_path (zone_attr z "type")) ;;
     if ex : bool then
       let* (_, t) := on_zone_fs (read_string (zone_attr z "type") (z_type_str z)) in
       modz (fun z => z <| z_type_str := t |>)
     else ret tt) (z, s) in
  (z, s).

(** The destructor writes back the trip temperatures found writable. *)
Fixpoint restore_trips (i : Z) (values : list Z) : ZM unit :=
  match values with
  | [] => ret tt
  | v :: rest =>
      z <- getz ;;
      (if v >=? 0 then
         ex <- on_zone_fs (exists_path (trip_attr z i "_temp")) ;;
         if ex : bool then on_zone_fs (write_uint (trip_attr z i "_temp") v) ;; ret tt else ret tt
       else ret tt) ;;
      restore_trips (i + 1) rest
  end.

Definition sysfs_bind_sensors : ZM Z :=
  z <- getz ;;
  ok <- bind_named (z_type_str z) ;;
  ret (if ok : bool then THD_SUCCESS else THD_ERROR).

(** The type a kernel trip names. *)
Definition sysfs_trip_type (s : string) : trip_point_type_t :=
  if String.eqb s "critical" then CRITICAL
  else if String.eqb s "hot" then MAX
  else if String.eqb s "active" then ACTIVE
  else if String.eqb s "passive" then PASSIVE
  else INVALID_TRIP_TYPE.

Definition clamp_hyst (h : Z) : Z := if (h <? 1000) || (h >? 5000) then 1000 else h.

(** An optional [int] attribute: the result of the read and the value. *)
Definition read_optional (path : string) (dflt : Z) : ZM (Z * Z) :=
  ex <- on_zone_fs (exists_path path) ;;
  if ex : bool then on_zone_fs (read_int path dflt) else ret (0, dflt).

(** What trip [i] contributes, lines 125-140. *)
Definition take_trip (trip_type : trip_point_type_t) (mode temp hyst : Z) : ZM unit :=
  z <- getz ;;
  sn <- on_machine (gets (search_sensor (z_type_str z))) ;;
  match sn with
  | Some p =>
      if truthy (Z.land mode S_IWUSR) then
        on_machine (set_sensor p (fun x => x <| async_capable := true |>)) ;;
        mod_sysfs (fun x => x <| initial_trip_values := initial_trip_values x ++ [temp] |>)
      else
        mod_sysfs (fun x => x <| initial_trip_values := initial_trip_values x ++ [-1] |>) ;;
        if (temp >? 0) && negb (is_type trip_type INVALID_TRIP_TYPE) then
          id <- sensor_index p ;;
          push_trip (new_trip (sz_trip_point_cnt (sysfs_of z)) trip_type temp hyst (z_index z) id SEQUENTIAL) ;;
          mod_sysfs (fun x => x <| sz_trip_point_cnt := sz_trip_point_cnt x + 1 |>)
        else ret tt
  | None => mod_sysfs (fun x => x <| initial_trip_values := initial_trip_values x ++ [-1] |>)
  end.

Definition sysfs_read_trip (i : Z) : ZM Z :=
  z <- getz ;;
  ex <- on_zone_fs (exists_path (trip_attr z i "_type")) ;;
  let* (_, _type_str) :=
    (if ex : bool then on_zone_fs (read_string (trip_attr z i "_type") "") else ret (0, "")) in
  ex <- on_zone_fs (exists_path (trip_attr z i "_temp")) ;;
  mode <- (if ex : bool then on_zone_fs (get_mode (trip_attr z i "_temp")) else ret 0) ;;
  let* (r, temp) := read_optional (trip_attr z i "_temp") 0 in
  if r <? 0 then ret r else
  ex <- on_zone_fs (exists_path (trip_attr z i "_hyst")) ;;
  let* (r, hyst) := read_optional (trip_attr z i "_hyst") 1 in
  if r <? 0 then ret r else
  take_trip (sysfs_trip_type _type_str) mode temp (if ex : bool then clamp_hyst hyst else hyst) ;;
  ret THD_SUCCESS.

(** Trips [i] to [i + n - 1]; a failed read ends the function. *)
Fixpoint sysfs_trips (n : nat) (i : Z) : ZM Z :=
  match n with
  | O => ret THD_SUCCESS
  | S n' =>
      r <- sysfs_read_trip i ;;
      if r <? 0 then ret r else sysfs_trips n' (i + 1)
  end.

Definition sysfs_read_trip_points : ZM Z :=
  r <- sysfs_trips max_trip_points 0 ;;
  if r <? 0 then ret r else
  z <- getz ;;
  if truthy (sz_trip_point_cnt (sysfs_of z)) then ret THD_SUCCESS else
  sn <- on_machine (gets (search_sensor (z_type_str z))) ;;
  match sn with
  | None => ret THD_ERROR
  | Some p =>
      id <- sensor_index p ;;
      push_trip (new_trip 0 PASSIVE INT_MAX 0 (z_index z) id SEQUENTIAL) ;;
      mod_sysfs (fun x => x <| sz_trip_point_cnt := sz_trip_point_cnt x + 1 |>) ;;
      ret THD_SUCCESS
  end.

(** The device the link of slot [i] leads to. *)
Definition cdev_link (z : zone) (i : Z) : ZM (option Z) :=
  let path := zone_attr z ("cdev" +:+ string_of_Z i) in
  ex <- on_zone_fs (exists_path path) ;;
  if negb ex then ret None else
  let* (r, buf) := on_zone_fs (read_symbolic_link_value path 50) in
  ret (if r =? 0 then atoi <$> after_first "cooling_device" buf else None).

Definition sysfs_read_cdev (i : Z) : ZM Z :=
  z <- getz ;;
  let path := zone_attr z ("cdev" +:+ string_of_Z i +:+ "_trip_point") in
  ex <- on_zone_fs (exists_path path) ;;
  if negb ex then ret THD_SUCCESS else
  let* (r, trip_cnt) := on_zone_fs (read_int path (-1)) in
  if r <? 0 then ret r else
  link <- cdev_link z i ;;
  match link with
  | Some idx =>
      if (trip_cnt >=? 0) && (trip_cnt <? sz_trip_point_cnt (sysfs_of z)) then
        on_trip (Z.to_nat trip_cnt) THD_ERROR (thd_trip_point_add_cdev_index idx default_influence) ;;
        modz (fun z => z <| zone_cdev_binded_status := true |>) ;;
        ret THD_SUCCESS
      else ret THD_SUCCESS
  | None => ret THD_SUCCESS
  end.

Fixpoint sysfs_cdevs (n : nat) (i : Z) : ZM Z :=
  match n with
  | O => ret THD_SUCCESS
  | S n' =>
      r <- sysfs_read_cdev i ;;
      if r <? 0 then ret r else sysfs_cdevs n' (i + 1)
  end.
Definition sysfs_read_cdev_trip_points : ZM Z := sysfs_cdevs max_cool_devs 0.

Definition sysfs_zone_update : ZM Z :=
  zone_update TDRUNDIR sysfs_bind_sensors sysfs_read_trip_points sysfs_read_cdev_trip_points.

(** * cthd_zone_cpu *)

Definition def_cooling_devices : list string :=
  ["rapl_controller"; "intel_pstate"; "intel_powerclamp"; "cpufreq"; "Processor"].
Definition max_dts_sensors : nat := 16.
Definition def_hystersis : Z := 0.
Definition def_offset_from_critical : Z := 10000.
Definition def_critical_temp : Z := 100000.

Definition cpu_of (z : zone) : cpu_zone_ext :=
  match z_class z with CpuZone x => x | _ => mk_cpu_zone (new_csys_fs "") 0 0 0 0 0 0 end.
Definition mod_cpu (f : cpu_zone_ext -> cpu_zone_ext) : ZM unit :=
  modz (fun z => z <| z_class := CpuZone (f (cpu_of z)) |>).

Definition new_zone_cpu (index : Z) (path : string) (package_id : Z) : zone :=
  (new_zone index path SENSORS_CORELATED) <| z_type_str := "cpu" |>
    <| z_class := CpuZone (mk_cpu_zone (new_csys_fs path) 0 0 0 0 0 package_id) |>.

Definition on_dts_fs {A} (m : State (csys_fs * W) A) : ZM A := fun '(z, s) =>
  let '(a, (fs, w)) := m (dts_sysfs (cpu_of z), m_w s) in
  (a, (z <| z_class := CpuZone ((cpu_of z) <| dts_sysfs := fs |>) |>, s <| m_w := w |>)).

(** The smaller of the temperatures seen so far; 0 is none. *)
Definition lower_of (old temp : Z) : Z := if (old =? 0) || (temp <? old) then temp else old.

(** Sensor [i] of the driver; [temp] is the variable the reads share.  The
    result is the status, the variable and whether a maximum was found. *)
Definition cpu_init_sensor (i temp : Z) : ZM (Z * Z * bool) :=
  let crit := "temp" +:+ string_of_Z i +:+ "_crit" in
  let max_ := "temp" +:+ string_of_Z i +:+ "_max" in
  ex <- on_dts_fs (exists_path crit) ;;
  let* (r, temp) := (if ex : bool then on_dts_fs (read_int crit temp) else ret (0, temp)) in
  if r <? 0 then ret (r, temp, false) else
  (if ex : bool then mod_cpu (fun x => x <| critical_temp := lower_of (critical_temp x) temp |>)
   else ret tt) ;;
  ex <- on_dts_fs (exists_path max_) ;;
  if negb ex then ret (0, temp, false) else
  mod_cpu (fun x => x <| sensor_mask := Z.lor (sensor_mask x) (Z.shiftl 1 i) |>) ;;
  let* (r, temp) := on_dts_fs (read_int max_ temp) in
  if r <? 0 then ret (r, temp, false) else
  mod_cpu (fun x => x <| max_temp := lower_of (max_temp x) temp |>) ;;
  ret (0, temp, true).

Fixpoint cpu_init_sensors (n : nat) (i temp : Z) (found : bool) : ZM (Z * bool) :=
  match n with
  | O => ret (0, found)
  | S n' =>
      let* (r, temp, f) := cpu_init_sensor i temp in
      if r <? 0 then ret (r, found) else cpu_init_sensors n' (i + 1) temp (found || f)
  end.

(** Lines 95-111: the trip temperatures from the two limits, in [int]. *)
Definition cpu_temperatures (x : cpu_zone_ext) : cpu_zone_ext :=
  let crit := if critical_temp x =? 0 then def_critical_temp else critical_temp x in
  let mx := if max_temp x =? 0 then i32 (crit - def_offset_from_critical) else max_temp x in
  let mx := if i32 (crit - mx) <? def_offset_from_critical
            then i32 (crit - def_offset_from_critical) else mx in
  x <| critical_temp := crit |> <| max_temp := mx |>
    <| psv_temp := i32 (mx + cdiv (i32 (crit - mx)) 2) |>.

Definition cpu_init : ZM Z :=
  mod_cpu (fun x => x <| max_temp := 0 |> <| critical_temp := 0 |>) ;;
  let* (r, found) := cpu_init_sensors max_dts_sensors 0 0 false in
  if r <? 0 then ret r else
  if negb found then ret THD_ERROR else
  mod_cpu cpu_temperatures ;;
  ret THD_SUCCESS.

(** The next trip of the zone, with the devices of the names. *)
Definition cpu_trip (type : trip_point_type_t) (temp : cpu_zone_ext -> Z) (names : list string)
    : ZM trip_point :=
  z <- getz ;;
  on_machine (add_named_cdevs names
    (new_trip (cz_trip_point_cnt (cpu_of z)) type (temp (cpu_of z)) def_hystersis (z_index z)
       DEFAULT_SENSOR_ID SEQUENTIAL)).
Definition push_cpu_trip (t : trip_point) : ZM unit :=
  push_trip t ;; mod_cpu (fun x => x <| cz_trip_point_cnt := cz_trip_point_cnt x + 1 |>).

(** The order a file gives. *)
Definition parse_cdev_order : ZM Z :=
  order <- on_machine (gets (fun s => cdev_order_list TDCONFDIR (m_w s))) ;;
  match order with
  | Some order_list =>
      t <- cpu_trip PASSIVE psv_temp order_list ;;
      push_cpu_trip t ;;
      ret THD_SUCCESS
  | None => ret THD_ERROR
  end.

Definition cpu_read_trip_points : ZM Z :=
  r <- parse_cdev_order ;;
  if r =? THD_SUCCESS then ret THD_SUCCESS else
  t <- cpu_trip PASSIVE psv_temp def_cooling_devices ;;
  push_cpu_trip t ;;
  fan <- on_machine (gets (search_cdev "Fan")) ;;
  match fan with
  | Some _ =>
      t <- cpu_trip ACTIVE max_temp ["Fan"] ;;
      push_cpu_trip t ;;
      ret THD_SUCCESS
  | None => ret THD_SUCCESS
  end.

(** Lines 239-255: the core sensors of the mask; [true] when one was bound.
    The mask has 32 bits, so the loop runs 32 times. *)
Fixpoint bind_cores (n : nat) (cnt : Z) (bound : bool) : ZM bool :=
  match n with
  | O => ret bound
  | S n' =>
      z <- getz ;;
      b <- (if Z.testbit (sensor_mask (cpu_of z)) cnt
            then bind_named ("temp" +:+ string_of_Z cnt +:+ "_input") else ret false) ;;
      bind_cores n' (cnt + 1) (bound || b)
  end.

Definition cpu_bind_sensors (rt_kernel : bool) : ZM Z :=
  r <- cpu_init ;;
  if negb (r =? THD_SUCCESS) then ret THD_ERROR else
  b1 <- (if rt_kernel then ret false else bind_named "pkg-temp-0") ;;
  b2 <- (if rt_kernel then ret false else bind_named "x86_pkg_temp") ;;
  b3 <- bind_named "soc_dts0" ;;
  if b1 || b2 || b3 then
    hw <- on_machine (gets (search_sensor "hwmon")) ;;
    match hw with
    | Some p => on_machine (set_sensor p (fun x => x <| async_capable := true |>)) ;; ret THD_SUCCESS
    | None => ret THD_SUCCESS
    end
  else
    bound <- bind_cores 32 0 false ;;
    if bound : bool then ret THD_SUCCESS else
    hw <- bind_named "hwmon" ;;
    ret (if hw : bool then THD_SUCCESS else THD_ERROR).

Definition cpu_zone_update (rt_kernel : bool) : ZM Z :=
  zone_update TDRUNDIR (cpu_bind_sensors rt_kernel) cpu_read_trip_points (ret THD_SUCCESS).

(** * cthd_zone_generic *)

Section generic.
(** What [parser.get_zone_dev_index(config_index)] points to. *)
Context (zone_config : option thermal_zone_t).

Definition new_zone_generic (index : Z) (type : string) : zone :=
  (new_zone index "" SENSOR_INDEPENDENT) <| z_type_str := type |>.

(** The status is that of the last trip's sensor. *)
Fixpoint generic_bind_loop (trips : list trip_point_t) (found : bool) : ZM bool :=
  match trips with
  | [] => ret found
  | t :: rest =>
      b <- bind_named (tp_sensor_type t) ;;
      generic_bind_loop rest b
  end.

Definition generic_bind_sensors : ZM Z :=
  match zone_config with
  | None => ret THD_ERROR
  | Some c =>
      found <- generic_bind_loop (tz_trip_pts c) false ;;
      ret (if found : bool then THD_SUCCESS else THD_ERROR)
  end.

(** Binds the configured devices that exist; [true] when there was one. *)
Fixpoint generic_cdevs (l : list trip_cdev_t) (bound : bool) : State (trip_point * machine X W) bool :=
  match l with
  | [] => ret bound
  | c :: rest =>
      p <- onm (gets (search_cdev (tcd_type c))) ;;
      match p with
      | Some p =>
          thd_trip_point_add_cdev p (tcd_influence c) (tcd_sampling_period c) (tcd_target_state_valid c)
            (tcd_target_state c) None (tcd_min_max_valid c) (tcd_target_min_state c)
            (tcd_target_max_state c) ;;
          generic_cdevs rest true
      | None => generic_cdevs rest bound
      end
  end.

Definition generic_trip (c : trip_point_t) : State (trip_point * machine X W) bool :=
  (if truthy (dep_dependency (tp_dependency c))
   then set_dependency (dep_cdev (tp_dependency c)) (dep_state (tp_dependency c)) else ret tt) ;;
  generic_cdevs (tp_cdev_trips c) false.

Fixpoint generic_trips (l : list trip_point_t) (trip_point_cnt : Z) : ZM unit :=
  match l with
  | [] => ret tt
  | c :: rest =>
      if negb (truthy (tp_temperature c)) then generic_trips rest trip_point_cnt else
      sn <- on_machine (gets (search_sensor (tp_sensor_type c))) ;;
      match sn with
      | None => generic_trips rest trip_point_cnt
      | Some p =>
          z <- getz ;;
          id <- sensor_index p ;;
          let* (bound, t) := on_machine (fun s =>
            let '(b, (t, s')) := generic_trip c
              (new_trip trip_point_cnt (tp_trip_pt_type c) (tp_temperature c) (tp_hyst c) (z_index z) id
                 (tp_control_type c), s) in ((b, t), s')) in
          (if bound : bool then modz (fun z => z <| zone_cdev_binded_status := true |>) else ret tt) ;;
          push_trip t ;;
          generic_trips rest (trip_point_cnt + 1)
      end
  end.

Definition generic_read_trip_points : ZM Z :=
  match zone_config with
  | None => ret THD_ERROR
  | Some c =>
      generic_trips (tz_trip_pts c) 0 ;;
      z <- getz ;;
      ret (match trip_points z with [] => THD_ERROR | _ => 0 end)
  end.

Definition generic_zone_update : ZM Z :=
  zone_update TDRUNDIR generic_bind_sensors generic_read_trip_points (ret 0).
End generic.

(** * cthd_zone_rapl_power *)

Definition new_zone_rapl_power (index : Z) : zone :=
  (new_zone index "" SENSOR_INDEPENDENT) <| z_type_str := "rapl_pkg_power" |>.

Definition rapl_power_bind_sensors : ZM Z :=
  ok <- bind_named "rapl_pkg_power" ;;
  ret (if ok : bool then THD_SUCCESS else THD_ERROR).

Definition rapl_power_read_trip_points : ZM Z :=
  c <- on_machine (gets (search_cdev "rapl_controller")) ;;
  match c with
  | None => ret THD_ERROR
  | Some p =>
      z <- getz ;;
      t <- on_machine (fun s =>
        let '(_, (t, s')) := thd_trip_point_add_cdev p default_influence (m_poll_interval_sec s) 0 0 None 0 0 0
          (new_trip 0 PASSIVE 100000 0 (z_index z) DEFAULT_SENSOR_ID PARALLEL, s) in (t, s')) ;;
      push_trip t ;;
      ret THD_SUCCESS
  end.

Definition rapl_power_zone_update : ZM Z :=
  zone_update TDRUNDIR rapl_power_bind_sensors rapl_power_read_trip_points (ret THD_SUCCESS).

(** * Destruction *)

(** [delete zone]: the destructor of the class, then the descriptors of the
    zone's accessors. *)
Definition destroy_zone (z : zone) : State (machine X W) unit := fun s =>
  let '(_, (z, s)) := match z_class z with
                      | SysfsZone x => restore_trips 0 (initial_trip_values x) (z, s)
                      | _ => (tt, (z, s))
                      end in
  let w := match z_class z with
           | CpuZone x => destroy_csys_fs (dts_sysfs x) (m_w s)
           | _ => m_w s
           end in
  (tt, s <| m_w := destroy_csys_fs (zone_sysfs z) w |>).
End kinds.
