(* ===== verification/ZoneTheorems.v ===== *)
(** What a zone promises (src/thd_zone.cpp): the polling trip sits below every
    other trip, correlated sensors count by their maximum, and a device is
    bound to the first trip that matches. *)
From stdpp Require Import base gmap strings list.
From Stdlib Require Import ZArith Lia Sorted.
From S2P Require Import Prelude CString SysFs CFloat Pid Cdev CdevLimits CdevControl CdevDevices Machine Preference TripPoint Zone.

Open Scope list_scope.
Open Scope Z_scope.

(** * The polling trip *)

Lemma polling_temp_spec lowest :
  5000 <= lowest -> lowest * 10 <= UINT_MAX ->
  polling_temp lowest = lowest - Z.max 5000 (lowest / 10) /\ 0 <= polling_temp lowest < lowest.
Proof.
  unfold polling_temp, poll_offset, def_async_trip_offset, def_async_trip_offset_pct, UINT_MAX.
  intros Hlo Hhi. rewrite (u32_id (lowest * 10)) by (unfold is_u32, UINT_MAX; lia).
  assert (E : lowest * 10 / 100 = lowest / 10)
    by (change 100 with (10 * 10); rewrite Z.div_mul_cancel_r by lia; done).
  rewrite E. assert (lowest / 10 <= lowest) by (apply Z.div_le_upper_bound; lia).
  destruct (Z.ltb_spec (lowest / 10) 5000).
  - rewrite u32_id by (unfold is_u32, UINT_MAX; lia). lia.
  - rewrite u32_id by (unfold is_u32, UINT_MAX; lia).
    assert (lowest / 10 < lowest) by (apply Z.div_lt; lia). lia.
Qed.

Lemma erase_first_none l : existsb is_polling l = false -> erase_first is_polling l = l.
Proof.
  induction l as [|t l IH]; cbn; [done|]. destruct (is_polling t); [done|]. cbn.
  intros Hn. by rewrite IH.
Qed.

Lemma erase_first_app l t :
  existsb is_polling l = false -> is_polling t = true -> erase_first is_polling (l ++ [t]) = l.
Proof.
  induction l as [|u l IH]; cbn; intros Hn Ht; [by rewrite Ht|].
  destruct (is_polling u); [done|]. by rewrite IH.
Qed.

Lemma existsb_perm {A} (p : A -> bool) l l' : Permutation l l' -> existsb p l = existsb p l'.
Proof.
  induction 1 as [|x l1 l2 _ IH|x y l1|l1 l2 l3 _ IH1 _ IH2]; cbn; [done|by rewrite IH| |congruence].
  by destruct (p x), (p y).
Qed.

Section poll.
Context {X W : Type} `{Kernel W}.

(** Thresholds are written through the sensor's files only. *)
Lemma on_sensor_fs_indices {A} i dflt (m : State (csys_fs * W) A) :
  preserves (fun s : machine X W => map s_index (m_sensors s)) (on_sensor_fs i dflt m).
Proof.
  intros s. unfold on_sensor_fs. destruct (m_sensors s !! i) as [sn|] eqn:Es; [|done].
  destruct (m (sensor_sysfs sn, m_w s)) as [a [fs w']]. cbn.
  rewrite list_fmap_insert. cbn. apply list_insert_id. by rewrite list_lookup_fmap, Es.
Qed.

Lemma on_world_indices {A} (m : State W A) :
  preserves (fun s : machine X W => map s_index (m_sensors s)) (on_world m).
Proof. intros s. unfold on_world. by destruct (m (m_w s)). Qed.

Lemma set_threshold_indices i idx t :
  preserves (fun s : machine X W => map s_index (m_sensors s)) (set_threshold i idx t).
Proof.
  unfold set_threshold, enable_uevent.
  repeat first
    [ progress intros
    | solve [auto with thd]
    | apply on_sensor_fs_indices | apply on_world_indices
    | apply preserves_bind | apply preserves_if ].
Qed.

Lemma sensor_index_map i (s s' : machine X W) :
  map s_index (m_sensors s') = map s_index (m_sensors s) ->
  s_index (sensor_at i s') = s_index (sensor_at i s).
Proof.
  intros E. unfold sensor_at. apply (f_equal (fun l => l !! i)) in E.
  rewrite !list_lookup_fmap in E.
  destruct (m_sensors s' !! i), (m_sensors s !! i); cbn in *; congruence.
Qed.

(** The zone's trips after the update, for one sensor with index [id]. *)
Definition with_poll (z : zone) (id : Z) : list trip_point :=
  let l := std_sort trip_sort (erase_first is_polling (trip_points z)) in
  match l with
  | [] => []
  | t0 :: _ => l ++ [new_trip (Z.of_nat (length l)) POLLING (polling_temp (temp t0)) 0 (z_index z) id PARALLEL]
  end.

Lemma sort_update_one_sensor z sn (s : machine X W) :
  sensors z = [sn] ->
  let '(z', s') := snd (sort_and_update_poll_trip (z, s)) in
  trip_points z' = with_poll z (s_index (sensor_at sn s)) /\
  sensors z' = sensors z /\ z_index z' = z_index z /\
  s_index (sensor_at sn s') = s_index (sensor_at sn s).
Proof.
  intros Hsn. unfold sort_and_update_poll_trip, with_poll.
  unfold bind at 1, modz at 1, modify. unfold bind at 1, getz at 1, gets at 1. cbn [fst].
  cbn [trip_points field_set].
  destruct (erase_first is_polling (trip_points z)) as [|t0 l0] eqn:El.
  - done.
  - change (trip_points (z <| trip_points := t0 :: l0 |>)) with (t0 :: l0). cbv iota.
    unfold bind at 1, modz at 1, modify. unfold bind at 1, getz at 1, gets at 1. cbn [fst].
    set (L := std_sort trip_sort (t0 :: l0)).
    match goal with |- context [mfor (sensors ?zz)] => set (z2 := zz) end.
    assert (Hz2 : sensors z2 = [sn] /\ trip_points z2 = L /\ z_index z2 = z_index z) by done.
    assert (HL : L <> []).
    { intros EL. apply (f_equal length) in EL. unfold L in EL. by rewrite std_sort_length in EL. }
    clearbody z2 L. destruct Hz2 as (Z1 & Z2 & Z3). rewrite Z1, Z2. cbn [mfor].
    unfold bind at 1 2, on_machine.
    pose proof (set_threshold_indices sn 0
      (polling_temp match L with t0 :: _ => temp t0 | [] => 0 end) s) as Hi. cbn beta in Hi.
    destruct (set_threshold _ _ _ s) as [r s1]. cbn [snd] in Hi.
    apply (sensor_index_map sn) in Hi.
    unfold bind, sensor_index, on_machine, gets, modz, modify, ret. cbn -[new_trip].
    rewrite Z1, Z2, Z3, Hi. by destruct L.
Qed.

Lemma trip_sort_key t1 t2 : trip_sort t1 t2 = (temp t1 <? temp t2).
Proof. done. Qed.

(** A list already updated is left as it is. *)
Lemma with_poll_idempotent z z' id L p :
  with_poll z id = L ++ [p] -> L = std_sort trip_sort (erase_first is_polling (trip_points z)) ->
  existsb is_polling L = false -> is_polling p = true -> L <> [] ->
  trip_points z' = L ++ [p] -> z_index z' = z_index z -> with_poll z' id = L ++ [p].
Proof.
  intros Hw HL Hn Hp Hne Ht Hz. rewrite <- Hw. unfold with_poll.
  rewrite Ht, erase_first_app by assumption. rewrite <- HL, Hz.
  rewrite (std_sort_id _ temp trip_sort_key); [done|].
  rewrite HL. apply (std_sort_sorted _ temp trip_sort_key).
Qed.

(** C30: the polling trip.  For a zone with one sensor and at most one polling
    trip, [sort_and_update_poll_trip] leaves the other trips in increasing
    order of temperature, followed by one polling trip of that sensor which
    lies below every other trip by the larger of 5 degrees and 10 percent of
    the lowest; calling it again changes nothing. *)
Theorem poll_trip_below_all z sn (s : machine X W) :
  sensors z = [sn] ->
  let others := erase_first is_polling (trip_points z) in
  others <> [] -> existsb is_polling others = false ->
  Forall (fun t => 5000 <= temp t /\ temp t * 10 <= UINT_MAX) others ->
  let '(z1, s1) := snd (sort_and_update_poll_trip (z, s)) in
  exists L p,
    trip_points z1 = L ++ [p] /\ Permutation others L /\ sorted_by temp L /\
    t_type p = POLLING /\ sensor_id p = s_index (sensor_at sn s) /\
    (exists t0, head L = Some t0 /\ temp p = temp t0 - Z.max 5000 (temp t0 / 10)) /\
    Forall (fun t => temp p < temp t) L /\
    trip_points (fst (snd (sort_and_update_poll_trip (z1, s1)))) = trip_points z1.
Proof.
  intros Hsn others Hne Hnp HF.
  pose proof (sort_update_one_sensor z sn s Hsn) as H1.
  destruct (snd (sort_and_update_poll_trip (z, s))) as [z1 s1]. destruct H1 as (T1 & S1 & I1 & X1).
  set (L := std_sort trip_sort others).
  assert (HP : Permutation others L) by apply std_sort_perm.
  assert (HS : sorted_by temp L) by apply (std_sort_sorted _ temp trip_sort_key).
  assert (HFL : Forall (fun t => 5000 <= temp t /\ temp t * 10 <= UINT_MAX) L) by (by rewrite <- HP).
  rewrite (existsb_perm _ _ _ HP) in Hnp.
  destruct L as [|t0 L0] eqn:EL; [by apply Permutation_sym, Permutation_nil in HP|].
  inversion HFL as [|? ? [Hlo Hhi] HFL0]; subst.
  destruct (polling_temp_spec (temp t0) Hlo Hhi) as [Hpt Hlt].
  set (p := new_trip (Z.of_nat (length (t0 :: L0))) POLLING (polling_temp (temp t0)) 0 (z_index z)
              (s_index (sensor_at sn s)) PARALLEL).
  assert (Hw : with_poll z (s_index (sensor_at sn s)) = (t0 :: L0) ++ [p]).
  { unfold with_poll. unfold L, others in EL. by rewrite EL. }
  assert (Hptemp : temp p = polling_temp (temp t0)).
  { unfold p, new_trip. cbn [temp]. apply u32_id. unfold is_u32, UINT_MAX in *. lia. }
  exists (t0 :: L0), p. rewrite T1. split; [exact Hw|]. split; [exact HP|]. split; [exact HS|].
  split; [done|]. split; [done|]. split; [exists t0; split; [done|by rewrite Hptemp]|]. split.
  - assert (Hp0 : temp p < temp t0) by lia. clearbody p.
    inversion HS as [|? ? _ Hall]; subst. constructor; [exact Hp0|].
    eapply List.Forall_impl; [|exact Hall]. cbn. intros. lia.
  - pose proof (sort_update_one_sensor z1 sn s1 ltac:(congruence)) as H2.
    destruct (snd (sort_and_update_poll_trip (z1, s1))) as [z2 s2]. destruct H2 as (T2 & _).
    cbn [fst]. rewrite T2, X1.
    rewrite (with_poll_idempotent z z1 _ (t0 :: L0) p); try done; congruence.
Qed.
End poll.

(** Two sensors: the update removes one polling trip and adds two, so stale
    polling trips accumulate, and the next call takes the lowest trip to be a
    polling trip and moves the new ones further down. *)
Definition two_sensor_zone : zone :=
  (new_zone 0 "" SENSOR_INDEPENDENT) <| sensors := [0%nat; 1%nat] |>
    <| trip_points := [new_trip 0 PASSIVE 80000 0 0 DEFAULT_SENSOR_ID PARALLEL] |>.
Definition two_sensors : machine gen_ext sim :=
  mk_machine sim0 [] [new_sensor 0 "" "a" 0; new_sensor 1 "" "b" 0] [] 0 0 false 0 0.

Example poll_trips_accumulate :
  let st1 := snd (sort_and_update_poll_trip (two_sensor_zone, two_sensors)) in
  let st2 := snd (sort_and_update_poll_trip st1) in
  (map (fun t => (t_type t, temp t)) (trip_points (fst st1)),
   map (fun t => (t_type t, temp t)) (trip_points (fst st2))) =
  ([(PASSIVE, 80000); (POLLING, 72000); (POLLING, 72000)],
   [(POLLING, 72000); (PASSIVE, 80000); (POLLING, 64800); (POLLING, 64800)]).
Proof. vm_compute. reflexivity. Qed.

(** A trip below 5 degrees makes the unsigned polling temperature wrap around. *)
Example polling_temp_wraps : polling_temp 4000 = 4294966296.
Proof. vm_compute. reflexivity. Qed.

Lemma poll_trip_below_all_witness :
  let z := two_sensor_zone <| sensors := [0%nat] |> in
  let '(z1, s1) := snd (sort_and_update_poll_trip (z, two_sensors)) in
  exists L p,
    trip_points z1 = L ++ [p] /\ Permutation (erase_first is_polling (trip_points z)) L /\
    sorted_by temp L /\
    t_type p = POLLING /\ sensor_id p = s_index (sensor_at 0 two_sensors) /\
    (exists t0, head L = Some t0 /\ temp p = temp t0 - Z.max 5000 (temp t0 / 10)) /\
    Forall (fun t => temp p < temp t) L /\
    trip_points (fst (snd (sort_and_update_poll_trip (z1, s1)))) = trip_points z1.
Proof.
  apply (poll_trip_below_all (two_sensor_zone <| sensors := [0%nat] |>) 0 two_sensors);
    [reflexivity|discriminate|reflexivity|].
  repeat constructor; vm_compute; discriminate.
Defined.

(** * Temperatures *)

Section temperatures.
Context {X W : Type} `{Kernel W} `{!CdevMethods X W} (depth : nat).

(** All sensors read, front to back. *)
Fixpoint read_all (l : list nat) : State (machine X W) (list Z) :=
  match l with
  | [] => ret []
  | sn :: rest => t <- read_temperature depth sn ;; ts <- read_all rest ;; ret (t :: ts)
  end.

Lemma read_loop_max l (z : zone) (s : machine X W) :
  sensor_rel z = SENSORS_CORELATED ->
  mfor l (read_one depth) (z, s) =
  let '(ts, s') := read_all l s in
  (tt, (z <| zone_temp := fold_left Z.max ts (zone_temp z) |>, s')).
Proof.
  revert z s. induction l as [|sn l IH]; intros z s Hr; [by destruct z|].
  cbn [mfor read_all]. unfold bind at 1. unfold read_one at 1, bind at 1, on_machine.
  destruct (read_temperature depth sn s) as [t s1] eqn:Et.
  unfold bind at 1, modz, modify. unfold bind at 1, getz, gets. cbn [fst].
  set (z1 := if zone_temp z <? t then z <| zone_temp := t |> else z).
  assert (Hz1 : sensor_rel z1 = SENSORS_CORELATED /\ z1 = z <| zone_temp := Z.max (zone_temp z) t |>).
  { unfold z1. destruct (Z.ltb_spec (zone_temp z) t).
    - split; [done|]. by rewrite Z.max_r by lia.
    - split; [done|]. rewrite Z.max_l by lia. by destruct z. }
  destruct Hz1 as [Hr1 E1]. rewrite Hr1. unfold ret at 1. rewrite IH by exact Hr1.
  unfold bind. rewrite Et. destruct (read_all l s1) as [ts s2]. rewrite E1. reflexivity.
Qed.

(** Correlated sensors.  An active zone whose sensors are correlated
    reads every sensor once, in order, takes the maximum of the readings as the
    zone temperature and, unless that is 0, checks its trips once against it. *)
Theorem correlated_zone_takes_max (z : zone) (s : machine X W) :
  zone_active z = true -> sensor_rel z = SENSORS_CORELATED ->
  read_zone_temp depth (z, s) =
  let '(ts, s1) := read_all (sensors z) s in
  let m := fold_left Z.max ts 0 in
  let z1 := z <| zone_temp := m |> in
  match sensors z with
  | s0 :: _ => if truthy m
               then thermal_zone_temp_change (s_index (sensor_at s0 s1)) m (m_preference s1) (z1, s1)
               else (tt, (z1, s1))
  | [] => (tt, (z1, s1))
  end.
Proof.
  intros Ha Hr. unfold read_zone_temp. unfold bind at 1, getz at 1, gets at 1. cbn [fst].
  rewrite Ha. cbn [negb]. unfold bind at 1, modz, modify. unfold bind at 1.
  set (z0 := z <| zone_temp := 0 |>).
  rewrite (read_loop_max (sensors z) z0 s Hr). destruct (read_all (sensors z) s) as [ts s1].
  unfold bind at 1, getz, gets. cbn [fst].
  change (sensor_rel (z0 <| zone_temp := fold_left Z.max ts (zone_temp z0) |>)) with (sensor_rel z).
  change (sensors (z0 <| zone_temp := fold_left Z.max ts (zone_temp z0) |>)) with (sensors z).
  rewrite Hr. destruct (sensors z) as [|s0 rest]; [reflexivity|].
  change (zone_temp (z0 <| zone_temp := fold_left Z.max ts (zone_temp z0) |>)) with (fold_left Z.max ts 0).
  destruct (truthy (fold_left Z.max ts 0)); reflexivity.
Qed.

(** The maximum bounds every reading. *)
Lemma fold_max_ge ts a t : In t ts \/ t <= a -> t <= fold_left Z.max ts a.
Proof.
  revert a. induction ts as [|x ts IH]; intros a Hin; cbn.
  - destruct Hin as [[]|]; lia.
  - apply IH. destruct Hin as [[->|Hin]|Hle]; [right; lia|by left|right; lia].
Qed.

(** Binding.  [bind_cooling_device] succeeds exactly when some trip of
    the zone has the given kind, a positive temperature and (unless 0 was
    asked for) the given temperature; it then adds the device to the first such
    trip, leaves the others alone and marks the zone as bound. *)
Theorem bind_cooling_device_first_match ty trip_temp c inf sp tv ts mmv mn mx (z : zone) (s : machine X W) :
  let '(r, (z', s')) := bind_cooling_device ty trip_temp c inf sp tv ts mmv mn mx (z, s) in
  s' = s /\
  ((r = THD_ERROR /\ z' = z /\ Forall (fun t => binds ty trip_temp t = false) (trip_points z)) \/
   (r = THD_SUCCESS /\ zone_cdev_binded_status z' = true /\
    exists i t, trip_points z !! i = Some t /\ binds ty trip_temp t = true /\
      (forall j u, (j < i)%nat -> trip_points z !! j = Some u -> binds ty trip_temp u = false) /\
      trip_points z' = <[i := fst (snd (thd_trip_point_add_cdev c inf sp tv ts None mmv mn mx (t, s)))]>
                         (trip_points z))).
Proof.
  unfold bind_cooling_device, bind, getz, gets. cbn [fst].
  destruct (list_find _ (trip_points z)) as [[i t]|] eqn:Ef; cbn -[thd_trip_point_add_cdev].
  - apply list_find_Some in Ef as (Hi & Hb & Hbefore). rewrite Hi.
    destruct (thd_trip_point_add_cdev c inf sp tv ts None mmv mn mx (t, s)) as [u [t' s']] eqn:Et.
    assert (Hs : s' = s) by (unfold thd_trip_point_add_cdev, trip_cdev_add in Et; by simplify_eq).
    cbn -[thd_trip_point_add_cdev]. split; [exact Hs|]. right. repeat split; try done. exists i, t. repeat split; try done.
    + intros j u0 Hj Hu. specialize (Hbefore j u0 Hu Hj). by destruct (binds ty trip_temp u0).
    + by rewrite Et.
  - apply list_find_None in Ef. split; [done|]. left. repeat split; try done.
    eapply List.Forall_impl; [|exact Ef]. cbn. intros t Ht. by destruct (binds ty trip_temp t).
Qed.
End temperatures.
