(* ===== verification/ZoneKindsTheorems.v ===== *)
(** What the kinds of zones build: the trip points of a sysfs zone, the
    temperatures and the device order of the CPU zone, the sensors of a
    configured zone (src/thd_zone_therm_sys_fs.cpp, src/thd_zone_cpu.cpp,
    src/thd_zone_generic.cpp). *)
From stdpp Require Import base gmap strings list.
From Stdlib Require Import ZArith Lia.
From Stdlib Require String.
From S2P Require Import Prelude CString SysFs CFloat Pid Cdev CdevLimits CdevControl CdevDevices Machine Preference TripPoint Xml Parse ParseCodec Zone ZoneKinds.

Open Scope string_scope.
Open Scope list_scope.
Open Scope Z_scope.

(** * Sysfs zones *)

Section sysfs.
Context {X W : Type} `{Kernel W} `{!CdevMethods X W}.

(** A trip the zone takes from the kernel, of the zone's sensor. *)
Definition kernel_trip (zid sid : Z) (t : trip_point) : Prop :=
  (t_type t = CRITICAL \/ t_type t = MAX \/ t_type t = ACTIVE \/ t_type t = PASSIVE) /\
  0 < temp t <= INT_MAX /\ control_type t = SEQUENTIAL /\ zone_id t = zid /\ sensor_id t = sid /\
  (hyst t <= 1 \/ 1000 <= hyst t <= 5000) /\ cdevs t = [] /\ trip_on t = false.

(** The sensor of the zone, as the engine finds it. *)
Definition zone_sensor (z : zone) (s : machine X W) : option nat := search_sensor (z_type_str z) s.

(** The state of [read_trip_points] after the trips below [i]. *)
Definition trips_read (n : nat) (z0 : zone) (s0 : machine X W) (zs : zone * machine X W) : Prop :=
  let '(z, s) := zs in
  z_index z = z_index z0 /\ z_type_str z = z_type_str z0 /\
  zone_sensor z s = zone_sensor z0 s0 /\
  (forall p, s_index (sensor_at p s) = s_index (sensor_at p s0)) /\
  length (initial_trip_values (sysfs_of z)) = n /\
  sz_trip_point_cnt (sysfs_of z) = Z.of_nat (length (trip_points z)) /\
  map t_index (trip_points z) = map Z.of_nat (seq 0 (length (trip_points z))) /\
  Forall (fun t => exists p, zone_sensor z0 s0 = Some p /\
    kernel_trip (z_index z0) (s_index (sensor_at p s0)) t) (trip_points z).

(** A change of the world and of descriptor caches. *)
Definition same_zone (a b : zone * machine X W) : Prop :=
  (z_index b.1, trip_points b.1, z_type_str b.1, z_class b.1, m_sensors b.2) =
  (z_index a.1, trip_points a.1, z_type_str a.1, z_class a.1, m_sensors a.2).

#[local] Instance same_zone_preorder : PreOrder same_zone.
Proof. split; [intros a; reflexivity|]. intros a b c H1 H2. unfold same_zone in *. congruence. Qed.

Lemma on_zone_fs_same {A} (m : State (csys_fs * W) A) : steps same_zone (on_zone_fs m).
Proof. intros [z s]. unfold on_zone_fs. by destruct (m (zone_sysfs z, m_w s)) as [a [fs w]]. Qed.

Lemma trips_read_same n z0 s0 a b : same_zone a b -> trips_read n z0 s0 a -> trips_read n z0 s0 b.
Proof.
  destruct a as [z s], b as [z' s']. unfold same_zone. cbn. intros E. injection E as E1 E2 E3 E4 E5.
  unfold trips_read, zone_sensor, search_sensor, sensor_at, sysfs_of. by rewrite E1, E2, E3, E4, E5.
Qed.

Lemma search_sensor_async p name (s : machine X W) :
  search_sensor name (s <| m_sensors := alter (fun x => x <| async_capable := true |>) p (m_sensors s) |>) =
  search_sensor name s.
Proof.
  unfold search_sensor. cbn. revert p. induction (m_sensors s) as [|x l IH]; intros p; [done|].
  destruct p as [|p]; cbn; [by destruct (decide _)|].
  destruct (decide (sensor_matches name x = true)); [done|]. specialize (IH p). cbn in IH.
  destruct (list_find _ (alter _ p l)) as [[? ?]|], (list_find _ l) as [[? ?]|]; cbn in *; congruence.
Qed.

Lemma sensor_index_async p q (s : machine X W) :
  s_index (sensor_at q (s <| m_sensors := alter (fun x => x <| async_capable := true |>) p (m_sensors s) |>)) =
  s_index (sensor_at q s).
Proof.
  unfold sensor_at. cbn. destruct (decide (p = q)) as [-> |Hne].
  - rewrite list_lookup_alter_eq. by destruct (m_sensors s !! q).
  - by rewrite list_lookup_alter_ne.
Qed.

Lemma seq_snoc_index (l : list trip_point) t :
  map t_index l = map Z.of_nat (seq 0 (length l)) -> t_index t = Z.of_nat (length l) ->
  map t_index (l ++ [t]) = map Z.of_nat (seq 0 (length (l ++ [t]))).
Proof. intros E Et. by rewrite map_app, length_app, Nat.add_1_r, seq_S, map_app, E; cbn; rewrite Et. Qed.

Lemma trips_read_async n z0 s0 z s p :
  trips_read n z0 s0 (z, s) ->
  trips_read n z0 s0 (z, s <| m_sensors := alter (fun x => x <| async_capable := true |>) p (m_sensors s) |>).
Proof.
  unfold trips_read, zone_sensor. rewrite search_sensor_async.
  intros (H1 & H2 & H3 & H4 & H5 & H6 & H7 & H8). split_and!; try done.
  intros q. by rewrite sensor_index_async.
Qed.

Lemma trips_read_value n z0 s0 z s v :
  trips_read n z0 s0 (z, s) ->
  trips_read (S n) z0 s0
    (z <| z_class := SysfsZone ((sysfs_of z) <| initial_trip_values := initial_trip_values (sysfs_of z) ++ [v] |>) |>, s).
Proof.
  intros (H1 & H2 & H3 & H4 & H5 & H6 & H7 & H8). unfold trips_read. cbn. split_and!; try done.
  rewrite length_app, H5. cbn. lia.
Qed.

Lemma trips_read_push n z0 s0 z s t p :
  trips_read n z0 s0 (z, s) -> zone_sensor z0 s0 = Some p ->
  t_index t = Z.of_nat (length (trip_points z)) -> kernel_trip (z_index z0) (s_index (sensor_at p s0)) t ->
  let z1 := z <| trip_points := trip_points z ++ [t] |> in
  trips_read n z0 s0
    (z1 <| z_class := SysfsZone ((sysfs_of z1) <| sz_trip_point_cnt := sz_trip_point_cnt (sysfs_of z1) + 1 |>) |>, s).
Proof.
  unfold trips_read, sysfs_of. cbn. intros (H1 & H2 & H3 & H4 & H5 & H6 & H7 & H8) Hp Hi Ht.
  split_and!; try done.
  - rewrite length_app, H6. cbn. lia.
  - by apply seq_snoc_index.
  - apply Forall_app_2; [done|]. apply Forall_singleton. eauto.
Qed.

Lemma kernel_trip_new idx ty tmp hy zid sid :
  ty <> INVALID_TRIP_TYPE -> (exists s, ty = sysfs_trip_type s) -> is_i32 tmp -> 0 < tmp ->
  (hy = 0 \/ hy = 1 \/ 1000 <= hy <= 5000) ->
  kernel_trip zid sid (new_trip idx ty tmp hy zid sid SEQUENTIAL).
Proof.
  intros Hty [str ->] Htmp Hpos Hhy. unfold kernel_trip. cbn.
  unfold is_i32, INT_MIN, INT_MAX in *. rewrite !u32_id by (unfold is_u32, UINT_MAX; lia). split_and!; try done; try lia.
  unfold sysfs_trip_type in *. repeat (destruct (String.eqb _ _); [tauto|]). done.
Qed.

Lemma take_trip_inv n z0 s0 zs str mode tmp hy :
  trips_read n z0 s0 zs -> is_i32 tmp -> (hy = 1 \/ 1000 <= hy <= 5000) ->
  trips_read (S n) z0 s0 (snd (take_trip (sysfs_trip_type str) mode tmp hy zs)).
Proof.
  destruct zs as [z s]. intros Hr Htmp Hhy. unfold take_trip, bind, getz, on_machine, gets, mod_sysfs, modz, modify.
  cbn. pose proof Hr as (H1 & H2 & H3 & H4 & H5 & H6 & H7 & H8).
  change (search_sensor (z_type_str z) s) with (zone_sensor z s). rewrite H3.
  destruct (zone_sensor z0 s0) as [p|] eqn:Ep; [|exact (trips_read_value _ _ _ _ _ (-1) Hr)].
  destruct (truthy _).
  { exact (trips_read_value _ _ _ _ _ tmp (trips_read_async _ _ _ _ _ p Hr)). }
  destruct (_ && _) eqn:E; [|exact (trips_read_value _ _ _ _ _ (-1) Hr)]. b2p. cbn.
  refine (trips_read_push _ _ _ _ _ _ p (trips_read_value _ _ _ _ _ (-1) Hr) Ep _ _); [cbn; by rewrite H6|].
  rewrite H1, H4. apply kernel_trip_new; [|eauto|done|lia|tauto].
  intros X1. by rewrite X1 in *.
Qed.

Lemma read_int_i32 path old (st : csys_fs * W) :
  is_i32 old -> is_i32 (snd (fst (read_int path old st))).
Proof.
  intros Ho. unfold read_int, bind. destruct (full_path path st) as [q st1].
  destruct (get_cached_fd q st1) as [[e|fd] [fs w]]; [done|]. unfold gets.
  destruct (k_pread fd 15 0 w) as [n str]. cbn. destruct (0 <? n); [apply i32_range|done].
Qed.

Lemma read_optional_same path dflt : steps same_zone (@read_optional X W _ path dflt).
Proof. unfold read_optional. pose proof (@on_zone_fs_same). steps_tac. Qed.

Lemma read_optional_i32 path dflt (zs : zone * machine X W) :
  is_i32 dflt -> is_i32 (snd (fst (read_optional path dflt zs))).
Proof.
  intros Hd. destruct zs as [z s]. unfold read_optional, bind.
  destruct (on_zone_fs (exists_path path) (z, s)) as [[] [z1 s1]]; [|done].
  unfold on_zone_fs. pose proof (read_int_i32 path dflt (zone_sysfs z1, m_w s1) Hd) as Hr.
  by destruct (read_int path dflt (zone_sysfs z1, m_w s1)) as [nv [fs w]].
Qed.

Lemma read_optional_absent path dflt (zs zs' : zone * machine X W) :
  on_zone_fs (exists_path path) zs = (false, zs') -> fst (read_optional path dflt zs') = (0, dflt).
Proof.
  destruct zs as [z s]. unfold on_zone_fs, exists_path, gets. intros E. injection E as E <-.
  unfold read_optional, bind, on_zone_fs, exists_path, gets. cbn. by rewrite E.
Qed.

Lemma clamp_hyst_range h : 1000 <= clamp_hyst h <= 5000.
Proof. unfold clamp_hyst. split_if; lia. Qed.

(** The first step of the goal leaves the zone alone. *)
Ltac same_step Hr a zs :=
  unfold bind at 1;
  match goal with |- context [match ?m ?st with (_, _) => _ end] =>
    let Hs := fresh "Hs" in
    assert (Hs : same_zone st (snd (m st)))
      by first [apply on_zone_fs_same|apply read_optional_same|reflexivity|
                match goal with |- context [if ?b then _ else _] => destruct b end;
                first [apply on_zone_fs_same|reflexivity]];
    apply (trips_read_same _ _ _ _ _ Hs) in Hr; clear Hs;
    let E := fresh "E" in destruct (m st) as [a zs] eqn:E; cbn [snd] in Hr
  end.

Lemma sysfs_read_trip_inv n z0 s0 i zs :
  trips_read n z0 s0 zs ->
  let '(r, zs') := sysfs_read_trip i zs in
  r < 0 \/ (r = THD_SUCCESS /\ trips_read (S n) z0 s0 zs').
Proof.
  intros Hr. unfold sysfs_read_trip.
  same_step Hr z zs1. same_step Hr b2 zs2. same_step Hr st zs3. destruct st as [u str].
  same_step Hr b4 zs4. same_step Hr md zs5. same_step Hr rt zs6. destruct rt as [r tmp].
  pose proof (read_optional_i32 (trip_attr z i "_temp") 0 zs5) as Ht. rewrite E4 in Ht. cbn in Ht.
  destruct (Z.ltb_spec r 0) as [|_]; [by left|].
  same_step Hr b7 zs7. same_step Hr rh zs8. destruct rh as [r' hy].
  destruct (Z.ltb_spec r' 0) as [|_]; [by left|].
  assert (Hh : (if b7 then clamp_hyst hy else hy) = 1 \/ 1000 <= (if b7 then clamp_hyst hy else hy) <= 5000).
  { destruct b7; [right; apply clamp_hyst_range|]. left.
    apply (read_optional_absent _ 1) in E5. rewrite E6 in E5. by injection E5. }
  unfold bind, ret.
  pose proof (take_trip_inv n z0 s0 zs8 str md tmp _ Hr (Ht is_i32_0) Hh) as Hn.
  destruct (take_trip _ _ _ _ zs8) as [v zs9]. by right.
Qed.

Lemma sysfs_trips_inv k n z0 s0 i zs :
  trips_read n z0 s0 zs ->
  let '(r, zs') := sysfs_trips k i zs in
  r < 0 \/ (r = THD_SUCCESS /\ trips_read (n + k) z0 s0 zs').
Proof.
  revert n i zs. induction k as [|k IH]; intros n i zs Hr; cbn [sysfs_trips].
  { right. by rewrite Nat.add_0_r. }
  pose proof (sysfs_read_trip_inv n z0 s0 i zs Hr) as Hs. unfold bind.
  destruct (sysfs_read_trip i zs) as [r zs1].
  destruct (Z.ltb_spec r 0) as [|Hge]; [by left|].
  destruct Hs as [Hs|[_ Hs]]; [lia|]. specialize (IH _ (i + 1) _ Hs).
  by rewrite Nat.add_succ_r.
Qed.

(** A zone as its constructor leaves it. *)
Definition fresh_sysfs (z : zone) : Prop := trip_points z = [] /\ sysfs_of z = mk_sysfs_zone 0 [].

Lemma trips_read_done z (s : machine X W) z' s' :
  trips_read max_trip_points z s (z', s') -> trip_points z' <> [] ->
  THD_SUCCESS = THD_SUCCESS /\ trip_points z' <> [] /\
  map t_index (trip_points z') = map Z.of_nat (seq 0 (length (trip_points z'))) /\
  sz_trip_point_cnt (sysfs_of z') = Z.of_nat (length (trip_points z')) /\
  length (initial_trip_values (sysfs_of z')) = max_trip_points /\
  exists p, search_sensor (z_type_str z) s = Some p /\
    Forall (kernel_trip (z_index z) (s_index (sensor_at p s))) (trip_points z').
Proof.
  intros (_ & _ & _ & _ & H5 & H6 & H7 & H8) Hne. split_and!; try done.
  destruct (trip_points z') as [|t l] eqn:El; [done|].
  pose proof (Forall_inv H8) as (p & Hp & _). exists p. split; [done|].
  eapply Forall_impl; [exact H8|]. cbn. intros t' (p' & Hp' & Hk). congruence.
Qed.

End sysfs.

(** * The CPU zone *)

Section cpu.
Context {X W D : Type} `{Kernel W} `{!CdevMethods X W} `{!LibXml W D} (TDCONFDIR : string).

(** The temperatures are [int]s; the mask has a bit per core sensor. *)
Definition cpu_ints (x : cpu_zone_ext) : Prop :=
  is_i32 (critical_temp x) /\ is_i32 (max_temp x) /\ 0 <= sensor_mask x < 2 ^ 16.

Definition cpu_ints_z (zs : zone * machine X W) : Prop := cpu_ints (cpu_of zs.1).

Lemma on_dts_fs_ints {A} (m : State (csys_fs * W) A) :
  hoare cpu_ints_z (on_dts_fs m) (fun _ => cpu_ints_z).
Proof.
  intros [z s]. unfold on_dts_fs. by destruct (m (dts_sysfs (cpu_of z), m_w s)) as [a [fs w]].
Qed.

Lemma mod_cpu_ints f :
  (forall x, cpu_ints x -> cpu_ints (f x)) -> hoare cpu_ints_z (mod_cpu (X := X) (W := W) f) (fun _ => cpu_ints_z).
Proof. intros Hf [z s] Hz. apply Hf, Hz. Qed.

Lemma lower_of_i32 a b : is_i32 a -> is_i32 b -> is_i32 (lower_of a b).
Proof. intros Ha Hb. unfold lower_of. by destruct (_ || _). Qed.

Lemma mask_bit m i : 0 <= m < 2 ^ 16 -> 0 <= i < 16 -> 0 <= Z.lor m (Z.shiftl 1 i) < 2 ^ 16.
Proof.
  intros Hm Hi. assert (Hb : 0 <= Z.shiftl 1 i) by (rewrite Z.shiftl_1_l; lia).
  assert (Hn : 0 <= Z.lor m (Z.shiftl 1 i)) by (apply Z.lor_nonneg; lia).
  split; [done|]. destruct (Z.eq_dec (Z.lor m (Z.shiftl 1 i)) 0) as [->|Hz]; [lia|].
  apply Z.log2_lt_pow2; [lia|]. rewrite Z.log2_lor by lia. rewrite Z.shiftl_1_l, Z.log2_pow2 by lia.
  apply Z.max_lub_lt; [|lia]. destruct (Z.eq_dec m 0) as [->|]; [cbn; lia|]. apply Z.log2_lt_pow2; lia.
Qed.

Lemma dts_read_i32 path old :
  is_i32 old ->
  hoare cpu_ints_z (on_dts_fs (X := X) (read_int path old)) (fun rv zs => is_i32 rv.2 /\ cpu_ints_z zs).
Proof.
  intros Ho [z s] Hz. split; [|by apply on_dts_fs_ints]. unfold on_dts_fs.
  pose proof (read_int_i32 path old (dts_sysfs (cpu_of z), m_w s) Ho) as Hr.
  by destruct (read_int path old _) as [nv [fs w]].
Qed.

Lemma cpu_init_sensor_ints i tmp :
  0 <= i < 16 -> is_i32 tmp ->
  hoare cpu_ints_z (cpu_init_sensor (X := X) i tmp) (fun r zs => is_i32 r.1.2 /\ cpu_ints_z zs).
Proof.
  intros Hi Ht. unfold cpu_init_sensor.
  eapply hoare_bind; [apply on_dts_fs_ints|intros b1].
  eapply (hoare_bind _ _ (fun rv zs => is_i32 rv.2 /\ cpu_ints_z zs)).
  { apply hoare_if; intros _; [by apply dts_read_i32|by apply hoare_ret]. }
  intros [r t]. apply hoare_pure. cbn. intros Ht2. apply hoare_if; intros _; [by apply hoare_ret|].
  eapply (hoare_bind _ _ (fun _ => cpu_ints_z)).
  { apply hoare_if; intros _; [|by apply hoare_ret]. apply mod_cpu_ints.
    intros x (Ha & Hb & Hc). split; [by apply lower_of_i32|done]. }
  intros ?. eapply hoare_bind; [apply on_dts_fs_ints|intros b2]. apply hoare_if; intros _; [by apply hoare_ret|].
  eapply hoare_bind; [apply mod_cpu_ints|intros ?].
  { intros x (Ha & Hb & Hc). split; [done|]. split; [done|]. by apply mask_bit. }
  eapply hoare_bind; [by apply dts_read_i32|intros [r2 t2]]. apply hoare_pure. cbn. intros Ht3.
  apply hoare_if; intros _; [by apply hoare_ret|].
  eapply hoare_bind; [apply mod_cpu_ints|intros ?; by apply hoare_ret].
  intros x (Ha & Hb & Hc). split; [done|]. split; [by apply lower_of_i32|done].
Qed.

Lemma cpu_init_sensors_ints n i tmp found :
  0 <= i -> i + Z.of_nat n <= 16 -> is_i32 tmp ->
  hoare cpu_ints_z (cpu_init_sensors (X := X) n i tmp found) (fun _ => cpu_ints_z).
Proof.
  revert i tmp found. induction n as [|n IH]; intros i tmp found Hi Hn Ht; cbn [cpu_init_sensors];
    [by apply hoare_ret|].
  eapply hoare_bind; [apply cpu_init_sensor_ints; [lia|done]|intros [[r t] f]].
  apply hoare_pure. cbn. intros Ht2. apply hoare_if; intros _; [by apply hoare_ret|].
  apply IH; try done; lia.
Qed.

(** The temperatures are ordered, 10 degrees apart, whatever the limits the
    driver reported; a wrapped difference is treated as too small. *)
Lemma cpu_temperatures_ordered x :
  cpu_ints x -> let x' := cpu_temperatures x in
  0 <= critical_temp x' ->
  max_temp x' + def_offset_from_critical <= critical_temp x' /\
  psv_temp x' = max_temp x' + (critical_temp x' - max_temp x') / 2 /\
  max_temp x' < psv_temp x' < critical_temp x'.
Proof.
  intros (Hc & Hm & _). unfold cpu_temperatures. cbn.
  set (crit := if critical_temp x =? 0 then def_critical_temp else critical_temp x).
  assert (Hcr : is_i32 crit) by (unfold crit; destruct (_ =? 0); [unfold def_critical_temp, is_i32, INT_MIN, INT_MAX; lia|done]).
  set (mx0 := if max_temp x =? 0 then i32 (crit - def_offset_from_critical) else max_temp x).
  assert (Hmx0 : is_i32 mx0) by (unfold mx0; destruct (max_temp x =? 0); [apply i32_range|done]).
  clearbody crit mx0. intros Hpos. unfold def_offset_from_critical in *.
  assert (Hd : i32 (crit - 10000) = crit - 10000)
    by (apply i32_id; unfold is_i32, INT_MIN, INT_MAX in *; lia).
  assert (Hw : 10000 <= i32 (crit - mx0) -> i32 (crit - mx0) = crit - mx0).
  { unfold i32, is_i32, INT_MIN, INT_MAX in *. intros Hge.
    pose proof (Z.mod_pos_bound (crit - mx0 + 2 ^ 31) (2 ^ 32) ltac:(lia)) as Hb.
    pose proof (Z.div_mod (crit - mx0 + 2 ^ 31) (2 ^ 32) ltac:(lia)) as Hq. nia. }
  set (mx := if i32 (crit - mx0) <? 10000 then i32 (crit - 10000) else mx0).
  assert (Hmx : mx + 10000 <= crit /\ i32 (crit - mx) = crit - mx /\ is_i32 mx).
  { unfold mx. destruct (Z.ltb_spec (i32 (crit - mx0)) 10000) as [Hlt|Hge].
    - rewrite Hd. split; [lia|]. split; [apply i32_id|]; unfold is_i32, INT_MIN, INT_MAX in *; lia.
    - pose proof (Hw Hge) as Hw'. split; [lia|]. by split. }
  destruct Hmx as (H1 & H2 & H3). rewrite H2. unfold cdiv. rewrite Z.quot_div_nonneg by lia.
  assert (Hh : 5000 <= (crit - mx) / 2 < crit - mx)
    by (split; [apply Z.div_le_lower_bound; lia|apply Z.div_lt; lia]).
  rewrite i32_id by (unfold is_i32, INT_MIN, INT_MAX in *; lia). lia.
Qed.

(** C34: when the CPU zone is initialised from the limits the core temperature
    driver reports, and the critical temperature it settles on is not negative,
    the maximum is at least 10 degrees below it and the passive temperature is
    half way between the two. *)
Theorem cpu_init_temperatures z (s : machine X W) z' s' :
  cpu_ints (cpu_of z) -> cpu_init (z, s) = (THD_SUCCESS, (z', s')) ->
  0 <= critical_temp (cpu_of z') ->
  let x := cpu_of z' in
  max_temp x + def_offset_from_critical <= critical_temp x /\
  psv_temp x = max_temp x + (critical_temp x - max_temp x) / 2 /\
  max_temp x < psv_temp x < critical_temp x.
Proof.
  intros (_ & _ & Hc) E Hpos. unfold cpu_init, bind at 1 in E.
  assert (H0 : cpu_ints_z (snd (mod_cpu (fun x => x <| max_temp := 0 |> <| critical_temp := 0 |>) (z, s)))).
  { unfold cpu_ints_z, cpu_ints. cbn. auto with thd. }
  destruct (mod_cpu _ (z, s)) as [u zs0]. cbn in H0. unfold bind at 1 in E.
  pose proof (cpu_init_sensors_ints max_dts_sensors 0 0 false ltac:(lia) ltac:(vm_compute; discriminate) is_i32_0 zs0 H0) as H1.
  destruct (cpu_init_sensors max_dts_sensors 0 0 false zs0) as [[r found] zs1].
  destruct (Z.ltb_spec r 0); [injection E as -> _; unfold THD_SUCCESS in *; lia|].
  destruct found; cbn [negb] in E; [|discriminate E].
  destruct zs1 as [z1 s1]. cbn in E. injection E as <- <-. cbn in Hpos |- *.
  by apply cpu_temperatures_ordered.
Qed.

(** ** The order of the cooling devices *)

Definition cdev_type (s : machine X W) (i : nat) : string := from_option type_str "" (m_cdevs s !! i).

(** The devices the names lead to, in the order of the names, each type once. *)
Definition prioritise (s : machine X W) (seen : list nat) (name : string) : list nat :=
  match search_cdev name s with
  | Some p => if existsb (fun q => String.eqb (cdev_type s q) (cdev_type s p)) seen then seen else seen ++ [p]
  | None => seen
  end.
Definition priority (s : machine X W) (names : list string) : list nat := fold_left (prioritise s) names [].

(** The entry of a device with the default arguments. *)
Definition default_entry (p : nat) : trip_pt_cdev_t :=
  (new_trip_cdev p) <| target_state := TRIP_PT_INVALID_TARGET_STATE |>.

Lemma sort_equal_influence l :
  Forall (fun e => influence e = 0) l -> std_sort trip_cdev_sort l = l.
Proof.
  intros Hl. apply (std_sort_id _ (fun e => - influence e)).
  { intros x y. unfold trip_cdev_sort. rewrite Z.gtb_ltb.
    destruct (Z.ltb_spec (influence y) (influence x)), (Z.ltb_spec (- influence x) (- influence y)); lia. }
  induction Hl as [|e l He Hl IH]; [constructor|]. constructor; [exact IH|].
  eapply List.Forall_impl; [|exact Hl]. cbn. lia.
Qed.

Lemma check_duplicate_default p seen t (s : machine X W) :
  cdevs t = map default_entry seen ->
  (is_Some (check_duplicate p t s) <->
   existsb (fun q => String.eqb (cdev_type s q) (cdev_type s p)) seen = true).
Proof.
  intros Ht. unfold check_duplicate. rewrite Ht, fmap_is_Some, existsb_exists. split.
  - intros [[k e] E]. apply list_find_Some in E as (Hk & Ee & _). cbn in Ee.
    rewrite list_lookup_fmap in Hk. apply fmap_Some in Hk as (q & Hq & ->).
    exists q. split; [by apply list_elem_of_In, (list_elem_of_lookup_2 _ k)|by apply String.eqb_eq].
  - intros (q & Hq & Eq). apply String.eqb_eq in Eq. apply list_elem_of_In, list_elem_of_lookup in Hq as [k Hk].
    apply not_eq_None_Some. intros E. apply list_find_None in E.
    rewrite Forall_map, Forall_lookup in E. by apply (E k q Hk).
Qed.

Lemma alter_default_influence k l :
  alter (fun c => c <| influence := 0 |>) k (map default_entry l) = map default_entry l.
Proof. revert k. induction l as [|q l IH]; intros [|k]; cbn; try done. f_equal. apply IH. Qed.

Lemma default_entries_sorted l : std_sort trip_cdev_sort (map default_entry l) = map default_entry l.
Proof. apply sort_equal_influence. induction l; constructor; done. Qed.

Lemma add_default_cdev_spec p seen t (s : machine X W) :
  cdevs t = map default_entry seen ->
  add_default_cdev p t s =
  (t <| cdevs := map default_entry
      (if existsb (fun q => String.eqb (cdev_type s q) (cdev_type s p)) seen then seen else seen ++ [p]) |>, s).
Proof.
  intros Ht. pose proof (check_duplicate_default p seen t s Ht) as Hd.
  unfold add_default_cdev, thd_trip_point_add_cdev, trip_cdev_add. cbn.
  destruct (check_duplicate p t s) as [k|]; rewrite Ht.
  - rewrite (proj1 Hd) by done. unfold default_influence.
    by rewrite alter_default_influence, default_entries_sorted.
  - destruct (existsb _ seen); [by destruct (proj2 Hd)|].
    change (map default_entry seen ++ [_]) with (map default_entry seen ++ map default_entry [p]).
    by rewrite <- map_app, default_entries_sorted.
Qed.

Lemma add_named_cdevs_spec names seen t (s : machine X W) :
  cdevs t = map default_entry seen ->
  add_named_cdevs names t s = (t <| cdevs := map default_entry (fold_left (prioritise s) names seen) |>, s).
Proof.
  revert seen t. induction names as [|n names IH]; intros seen t Ht; cbn [add_named_cdevs fold_left].
  { rewrite <- Ht. by destruct t. }
  unfold bind, gets, prioritise at 2. destruct (search_cdev n s) as [p|].
  - rewrite (add_default_cdev_spec p seen) by done. by erewrite IH.
  - by apply IH.
Qed.

(** Reading the trip points of the CPU zone always succeeds and changes
    nothing but the zone.  The zone gets one sequential passive trip at its
    passive temperature; the trip drives the devices of the order file when there
    is one, else those of the built-in list, in that order and each device type
    once.  Only without an order file, and when there is a fan, an active trip
    for the fan follows at the maximum temperature. *)
Theorem cpu_trips_follow_order z (s : machine X W) :
  let x := cpu_of z in
  let trip idx ty tmp names :=
    (new_trip idx ty tmp 0 (z_index z) DEFAULT_SENSOR_ID SEQUENTIAL)
      <| cdevs := map default_entry (priority s names) |> in
  let '(r, (z', s')) := cpu_read_trip_points TDCONFDIR (z, s) in
  r = THD_SUCCESS /\ s' = s /\ sensors z' = sensors z /\
  trip_points z' = trip_points z ++
    match cdev_order_list TDCONFDIR (m_w s) with
    | Some order => [trip (cz_trip_point_cnt x) PASSIVE (psv_temp x) order]
    | None => trip (cz_trip_point_cnt x) PASSIVE (psv_temp x) def_cooling_devices ::
              match search_cdev "Fan" s with
              | Some _ => [trip (cz_trip_point_cnt x + 1) ACTIVE (max_temp x) ["Fan"]]
              | None => []
              end
    end.
Proof.
  intros x trip.
  assert (Hc : forall z0 ty f names, cpu_trip ty f names (z0, s) =
    ((new_trip (cz_trip_point_cnt (cpu_of z0)) ty (f (cpu_of z0)) 0 (z_index z0) DEFAULT_SENSOR_ID SEQUENTIAL)
      <| cdevs := map default_entry (priority s names) |>, (z0, s))).
  { intros z0 ty f names. unfold cpu_trip, bind, getz, gets, on_machine. cbn [fst].
    rewrite (add_named_cdevs_spec names []) by done. done. }
  unfold cpu_read_trip_points, parse_cdev_order, push_cpu_trip, push_trip, mod_cpu, modz, modify, bind,
    on_machine, gets, ret. cbv beta iota.
  destruct (cdev_order_list TDCONFDIR (m_w s)) as [order|]; cbv beta iota; [by rewrite Hc|].
  change (THD_ERROR =? THD_SUCCESS) with false. cbv beta iota. rewrite Hc. cbv beta iota.
  destruct (search_cdev "Fan" s) as [p|]; [|done].
  cbv beta iota. rewrite Hc. cbn. split_and!; try done. by rewrite <- app_assoc.
Qed.
End cpu.

(** * Configured zones *)

Section generic.
Context {X W : Type} `{Kernel W} `{!CdevMethods X W}.

Lemma bind_named_spec name z (s : machine X W) :
  exists z', bind_named name (z, s) = (bool_decide (is_Some (search_sensor name s)), (z', s)) /\
    (forall p, p ∈ sensors z -> p ∈ sensors z') /\
    (forall p, search_sensor name s = Some p -> p ∈ sensors z').
Proof.
  unfold bind_named, bind, on_machine, gets, modz, modify, ret. cbn.
  destruct (search_sensor name s) as [p|]; cbn; [|by exists z].
  exists (bind_sensor p z). split; [done|]. unfold bind_sensor. destruct (existsb _ _) eqn:E; cbn.
  - split; [done|]. intros q [= <-]. apply existsb_exists in E as (x & Hx & Ex).
    apply Nat.eqb_eq in Ex as <-. by apply list_elem_of_In.
  - split; [intros q Hq; by apply elem_of_app; left|]. intros q [= <-]. apply elem_of_app. right. by left.
Qed.

Definition last_found (s : machine X W) (trips : list trip_point_t) (found : bool) : bool :=
  match List.rev trips with
  | [] => found
  | t :: _ => bool_decide (is_Some (search_sensor (tp_sensor_type t) s))
  end.

Lemma generic_bind_loop_spec trips found z (s : machine X W) :
  exists z', generic_bind_loop trips found (z, s) = (last_found s trips found, (z', s)) /\
    (forall p, p ∈ sensors z -> p ∈ sensors z') /\
    (forall t p, t ∈ trips -> search_sensor (tp_sensor_type t) s = Some p -> p ∈ sensors z').
Proof.
  revert found z. induction trips as [|t trips IH]; intros found z; cbn [generic_bind_loop].
  { exists z. split; [done|]. split; [done|]. intros t p Ht. by apply not_elem_of_nil in Ht. }
  unfold bind. destruct (bind_named_spec (tp_sensor_type t) z s) as (z1 & -> & H1 & H2).
  destruct (IH (bool_decide (is_Some (search_sensor (tp_sensor_type t) s))) z1) as (z2 & -> & H3 & H4).
  exists z2. split; [|split; [eauto|]].
  - unfold last_found. cbn. destruct (List.rev trips) as [|t' l]; done.
  - intros t' p Ht'. apply elem_of_cons in Ht' as [-> |Ht']; eauto.
Qed.

(** A configured zone binds the sensor of every trip that names an
    existing one, but its set-up succeeds exactly when the last trip does: a
    zone whose last trip names an unknown sensor is dropped with its usable
    trips, one whose other trips do is kept. *)
Theorem generic_zone_last_sensor c z (s : machine X W) :
  let '(r, (z', s')) := generic_bind_sensors (Some c) (z, s) in
  s' = s /\
  (r = THD_SUCCESS <-> exists ts t, tz_trip_pts c = ts ++ [t] /\ is_Some (search_sensor (tp_sensor_type t) s)) /\
  (forall t p, t ∈ tz_trip_pts c -> search_sensor (tp_sensor_type t) s = Some p -> p ∈ sensors z').
Proof.
  unfold generic_bind_sensors, bind.
  destruct (generic_bind_loop_spec (tz_trip_pts c) false z s) as (z' & -> & _ & Hb). cbn.
  split; [done|]. split; [|done]. unfold last_found.
  destruct (tz_trip_pts c) as [|t ts _] using rev_ind; cbn.
  { split; [done|]. intros (ts & t & E & _). by destruct ts. }
  rewrite rev_unit. case_bool_decide as Hs.
  - split; [|done]. intros _. by exists ts, t.
  - split; [done|]. intros (ts' & t' & E & Hs'). by apply app_inj_tail in E as [-> ->].
Qed.
End generic.

(** * Concrete zones *)

Definition zone_files : gmap string string :=
  {[ "/sys/class/thermal/thermal_zone0/type" := "acpitz";
     "/sys/class/thermal/thermal_zone0/trip_point_0_temp" := "95000";
     "/sys/class/thermal/thermal_zone0/trip_point_0_type" := "critical";
     "/sys/hwmon/temp1_crit" := "100000"; "/sys/hwmon/temp1_max" := "98000" ]}.
Definition zone_machine : machine gen_ext sim :=
  mk_machine (mk_sim zone_files [] 0) [] [new_sensor 0 "/sys/class/thermal/thermal_zone0/" "acpitz" SENSOR_TYPE_THERMAL_SYSFS]
    [] 0 0 false 0 0.
Definition acpi_zone : zone := fst (new_sysfs_zone 0 "/sys/class/thermal/thermal_zone" zone_machine).
Definition core_zone : zone := new_zone_cpu 0 "/sys/hwmon/" 0.


Example sysfs_trips_of_sample :
  let '(r, (z', _)) := sysfs_read_trip_points (acpi_zone, zone_machine) in
  (r, map temp (trip_points z'), take 2 (initial_trip_values (sysfs_of z'))) = (0, [INT_MAX], [95000; -1]).
Proof. vm_compute. reflexivity. Qed.

(** The reported maximum is only 2 degrees below the critical temperature. *)
Lemma cpu_init_witness :
  exists z' s', cpu_init (core_zone, zone_machine) = (THD_SUCCESS, (z', s')) /\
    let x := cpu_of z' in
    (max_temp x + def_offset_from_critical <= critical_temp x /\
     psv_temp x = max_temp x + (critical_temp x - max_temp x) / 2 /\
     max_temp x < psv_temp x < critical_temp x) /\
    (critical_temp x, psv_temp x, max_temp x) = (100000, 95000, 90000).
Proof.
  destruct (cpu_init (core_zone, zone_machine)) as [r [z' s']] eqn:E.
  assert (Er : (r, let x := cpu_of z' in (critical_temp x, psv_temp x, max_temp x)) =
               (0, (100000, 95000, 90000))).
  { transitivity (fst (cpu_init (core_zone, zone_machine)),
      let x := cpu_of (fst (snd (cpu_init (core_zone, zone_machine)))) in
      (critical_temp x, psv_temp x, max_temp x)); [by rewrite E|vm_compute; reflexivity]. }
  injection Er as -> H1 H2 H3. exists z', s'. split; [reflexivity|]. split; [|by rewrite H1, H2, H3].
  apply (cpu_init_temperatures core_zone zone_machine z' s'); [|exact E|rewrite H1; lia].
  split_and!; cbn; auto with thd; lia.
Defined.
