(* ===== verification/ZoneFrame.v ===== *)
(** What checking zones and trips leaves alone.  The operations of trips and
    zones change devices, sensors and the world, but never the settings of the
    engine, they call off no power-off, and only requests to poll are appended to
    the pipe. *)
From stdpp Require Import base gmap strings list.
From Stdlib Require Import ZArith Lia.
From S2P Require Import Prelude CString SysFs CFloat Pid Cdev Machine Preference TripPoint Zone ZoneKinds.

Open Scope list_scope.
Open Scope Z_scope.

(** A request of a sensor to be polled or no longer polled. *)
Definition poll_message (m : message) : Prop :=
  match m with POLL_ENABLE _ | POLL_DISABLE _ | FAST_POLL_ENABLE _ | FAST_POLL_DISABLE _ => True | _ => False end.

(** The settings are the same, and the pipe only grew by such requests. *)
Definition quiet {X W} (s s' : machine X W) : Prop :=
  m_preference s' = m_preference s /\ m_poll_interval_sec s' = m_poll_interval_sec s /\
  m_ignore_critical s' = m_ignore_critical s /\ m_uninit s' = m_uninit s /\
  (exists sent, m_pipe s' = m_pipe s ++ sent /\ Forall poll_message sent) /\
  (m_power_offs s <= m_power_offs s')%nat.

#[export] Instance quiet_preorder {X W} : PreOrder (@quiet X W).
Proof.
  split.
  - intros s. repeat split; try done. exists []. by rewrite app_nil_r.
  - intros a b c (H1 & H2 & H3 & H4 & (l & H5 & H6) & H7) (G1 & G2 & G3 & G4 & (k & G5 & G6) & G7).
    repeat split; try congruence; [|lia]. exists (l ++ k). rewrite G5, H5, <- app_assoc.
    split; [done|by apply Forall_app].
Qed.

Lemma quiet_same {X W} (s s' : machine X W) :
  (m_preference s', m_poll_interval_sec s', m_ignore_critical s', m_uninit s', m_pipe s', m_power_offs s') =
  (m_preference s, m_poll_interval_sec s, m_ignore_critical s, m_uninit s, m_pipe s, m_power_offs s) -> quiet s s'.
Proof.
  intros E. simplify_eq. repeat split; try done; [|lia]. exists []. by rewrite app_nil_r.
Qed.

Definition quiet_t {X W} (a b : trip_point * machine X W) : Prop := quiet (snd a) (snd b).
Definition quiet_z {X W} (a b : zone * machine X W) : Prop :=
  z_type_str (fst b) = z_type_str (fst a) /\ quiet (snd a) (snd b).

#[export] Instance quiet_t_preorder {X W} : PreOrder (@quiet_t X W).
Proof. split; [intros a; unfold quiet_t; reflexivity|intros a b c; unfold quiet_t; apply transitivity]. Qed.
#[export] Instance quiet_z_preorder {X W} : PreOrder (@quiet_z X W).
Proof.
  split; [intros a; split; reflexivity|].
  intros a b c [H1 H2] [G1 G2]. split; [congruence|by transitivity (snd b)].
Qed.

Section machine_frame.
Context {X W : Type} `{Kernel W}.

Lemma q_gets {A} (g : machine X W -> A) : steps quiet (gets g).
Proof. apply steps_gets. typeclasses eauto. Qed.

Lemma q_on_cdev {A} i dflt (m : State (cdev X * W) A) : steps quiet (on_cdev i dflt m).
Proof.
  intros s. unfold on_cdev. destruct (m_cdevs s !! i) as [d|]; [|reflexivity].
  destruct (m (d, m_w s)) as [a [d' w']]. by apply quiet_same.
Qed.

Lemma q_on_sensor_fs {A} i dflt (m : State (csys_fs * W) A) : steps (@quiet X W) (on_sensor_fs i dflt m).
Proof.
  intros s. unfold on_sensor_fs. destruct (m_sensors s !! i) as [d|]; [|reflexivity].
  destruct (m (sensor_sysfs d, m_w s)) as [a [d' w']]. by apply quiet_same.
Qed.

Lemma q_set_sensor i f : steps (@quiet X W) (set_sensor i f).
Proof. intros s. by apply quiet_same. Qed.

Lemma q_on_world {A} (m : State W A) : steps (@quiet X W) (on_world m).
Proof. intros s. unfold on_world. destruct (m (m_w s)). by apply quiet_same. Qed.

Lemma q_send_poll msg : poll_message msg -> steps (@quiet X W) (send_message msg).
Proof. intros Hm s. repeat split; try done. exists [msg]. auto. Qed.

Lemma q_power_off : steps (@quiet X W) power_off.
Proof.
  intros s. repeat split; try done; [|cbn; lia]. exists []. by rewrite app_nil_r.
Qed.

Hint Resolve q_gets q_on_cdev q_on_sensor_fs q_set_sensor q_on_world q_power_off : thd.

Lemma q_fold {A B} (l : list A) (f : State (machine X W) B -> A -> State (machine X W) B) acc :
  (forall acc a, steps quiet acc -> steps quiet (f acc a)) -> steps quiet acc ->
  steps quiet (fold_left f l acc).
Proof. intros Hf. revert acc. induction l as [|a l IH]; intros acc Ha; cbn; [done|]. by apply IH, Hf. Qed.

Lemma q_virtual_sample rd i v :
  (forall j, steps (@quiet X W) (rd j)) -> steps (@quiet X W) (virtual_sample rd i v).
Proof.
  intros Hrd. unfold virtual_sample, set_link. destruct (link_sensors v) as [|l0 rest]; [steps_tac|].
  destruct (link_to l0), (double_is_zero (coeff l0) && double_is_zero (link_offset l0)); steps_tac;
    apply q_fold; steps_tac.
Qed.

Lemma q_read_temperature fuel i : steps (@quiet X W) (read_temperature fuel i).
Proof.
  revert i. induction fuel as [|f IH]; intros i; cbn [read_temperature]; [steps_tac|].
  apply steps_bind; [typeclasses eauto|steps_tac|]. intros sn.
  destruct (s_virtual sn) as [v|]; [|unfold base_read_temperature, rapl_power_read_temperature; destruct (s_rapl_power sn); steps_tac].
  destruct (polling v); [steps_tac|]. by apply q_virtual_sample.
Qed.

Lemma q_set_threshold i idx t : steps (@quiet X W) (set_threshold i idx t).
Proof. unfold set_threshold, enable_uevent. steps_tac. Qed.

Lemma q_sensor_poll_trip i b : steps (@quiet X W) (sensor_poll_trip i b).
Proof. unfold sensor_poll_trip, thd_engine_poll_enable, thd_engine_poll_disable. steps_tac; by apply q_send_poll. Qed.
Lemma q_sensor_fast_poll i b : steps (@quiet X W) (sensor_fast_poll i b).
Proof. unfold sensor_fast_poll, thd_engine_fast_poll_enable, thd_engine_fast_poll_disable. steps_tac; by apply q_send_poll. Qed.
End machine_frame.

#[export] Hint Resolve q_gets q_on_cdev q_on_sensor_fs q_set_sensor q_on_world q_power_off
  q_read_temperature q_set_threshold q_sensor_poll_trip q_sensor_fast_poll : thd.

Section trip_frame.
Context {X W : Type} `{Kernel W} `{!CdevMethods X W}.

Lemma q_onm {A} (m : State (machine X W) A) : steps quiet m -> steps quiet_t (onm m).
Proof. intros Hm [t s]. unfold onm. specialize (Hm s). by destruct (m s). Qed.
Lemma q_modt f : steps (@quiet_t X W) (modt f).
Proof. intros [t s]. unfold quiet_t. reflexivity. Qed.
Lemma q_gett : steps (@quiet_t X W) gett.
Proof. intros s. reflexivity. Qed.
Lemma q_set_entry i f : steps (@quiet_t X W) (set_entry i f).
Proof. apply q_modt. Qed.
Hint Resolve q_onm q_modt q_gett q_set_entry : thd.

Lemma q_drive i r st : steps (@quiet_t X W) (drive i r st).
Proof. unfold drive. steps_tac. Qed.
Lemma q_too_early i : steps (@quiet_t X W) (too_early i).
Proof. unfold too_early. steps_tac. Qed.
Hint Resolve q_drive q_too_early : thd.

Lemma q_activate n i r : steps (@quiet_t X W) (activate_cdevs n i r).
Proof. revert i. induction n as [|n IH]; intros i; cbn [activate_cdevs]; steps_tac. Qed.
Lemma q_deactivate i r : steps (@quiet_t X W) (deactivate_cdevs i r).
Proof. induction i as [|i IH]; cbn [deactivate_cdevs]; steps_tac. Qed.
Lemma q_state_reset i force : steps (@quiet_t X W) (cdev_state_reset i force).
Proof. induction i as [|i IH]; cbn [cdev_state_reset]; steps_tac. Qed.
Hint Resolve q_activate q_deactivate q_state_reset : thd.

Lemma q_trip_check id r pref : steps (@quiet_t X W) (thd_trip_point_check id r pref).
Proof.
  unfold thd_trip_point_check, dependency_met, emergency_check, count_event, suspend,
    polling_check, control_check. steps_tac; apply q_onm; steps_tac.
Qed.
Lemma q_trip_reset force : steps (@quiet_t X W) (thd_trip_cdev_state_reset force).
Proof. unfold thd_trip_cdev_state_reset. steps_tac. Qed.
End trip_frame.

#[export] Hint Resolve q_trip_check q_trip_reset : thd.

Section zone_frame.
Context {X W : Type} `{Kernel W} `{!CdevMethods X W} (depth : nat).

Lemma q_on_machine {A} (m : State (machine X W) A) : steps quiet m -> steps quiet_z (on_machine m).
Proof. intros Hm [z s]. unfold on_machine. specialize (Hm s). destruct (m s). by split. Qed.
Lemma q_getz : steps (@quiet_z X W) getz.
Proof. intros s. split; reflexivity. Qed.
Lemma q_modz f : (forall z, z_type_str (f z) = z_type_str z) -> steps (@quiet_z X W) (modz f).
Proof. intros Hf [z s]. split; [apply Hf|cbn; reflexivity]. Qed.
Lemma q_on_trip {A} i (dflt : A) (m : State (trip_point * machine X W) A) :
  steps quiet_t m -> steps quiet_z (on_trip i dflt m).
Proof.
  intros Hm [z s]. unfold on_trip. destruct (trip_points z !! i) as [t|]; [|reflexivity].
  specialize (Hm (t, s)). destruct (m (t, s)) as [a [t' s']]. by split.
Qed.
Hint Resolve q_on_machine q_getz q_on_trip : thd.

Lemma q_sensor_index i : steps (@quiet_z X W) (sensor_index i).
Proof. unfold sensor_index. steps_tac. Qed.
Hint Resolve q_sensor_index : thd.

Lemma q_reset_trips i force : steps (@quiet_z X W) (reset_trips i force).
Proof. induction i as [|i IH]; cbn [reset_trips]; steps_tac. Qed.
Hint Resolve q_reset_trips : thd.

Lemma q_check_trips n i id t pref : steps (@quiet_z X W) (check_trips n i id t pref).
Proof. revert i. induction n as [|n IH]; intros i; cbn [check_trips]; unfold zone_reset; steps_tac. Qed.
Hint Resolve q_check_trips : thd.

Lemma q_update_zone_preference : steps (@quiet_z X W) (update_zone_preference depth).
Proof.
  unfold update_zone_preference, thermal_zone_temp_change. steps_tac;
    (apply q_modz; reflexivity) || apply steps_ret; typeclasses eauto.
Qed.

Lemma q_read_zone_temp : steps (@quiet_z X W) (read_zone_temp depth).
Proof.
  unfold read_zone_temp, read_one, thermal_zone_temp_change. steps_tac;
    apply q_modz; intros z; [reflexivity|by destruct (zone_temp z <? _)].
Qed.

(** Destroying a zone changes nothing but the world. *)
Lemma q_on_zone_fs {A} (m : State (csys_fs * W) A) : steps (@quiet_z X W) (on_zone_fs m).
Proof.
  intros [z s]. unfold on_zone_fs. destruct (m (zone_sysfs z, m_w s)) as [a [fs w]].
  split; [done|]. by apply quiet_same.
Qed.
Hint Resolve q_on_zone_fs : thd.

Lemma q_restore_trips i l : steps (@quiet_z X W) (restore_trips i l).
Proof. revert i. induction l as [|v l IH]; intros i; cbn [restore_trips]; steps_tac. Qed.

Lemma q_destroy_zone z : steps (@quiet X W) (destroy_zone z).
Proof.
  intros s. unfold destroy_zone.
  assert (Hq : forall r, r = match z_class z with
      | SysfsZone x => restore_trips 0 (initial_trip_values x) (z, s)
      | _ => (tt, (z, s)) end -> quiet s (snd (snd r))).
  { intros r ->. destruct (z_class z) as [|x|x]; [reflexivity|apply (q_restore_trips 0 _ (z, s))|reflexivity]. }
  destruct (match z_class z with SysfsZone _ => _ | _ => _ end) as [u [z1 s1]] eqn:E.
  specialize (Hq _ eq_refl). cbn in Hq. etrans; [exact Hq|]. cbn. by apply quiet_same.
Qed.
End zone_frame.

#[export] Hint Resolve q_update_zone_preference q_read_zone_temp q_on_zone_fs q_destroy_zone : thd.
