(* ===== verification/SensorTheorems.v ===== *)
(** What a virtual sensor reads while its sampling thread runs
    (src/thd_sensor_virtual.cpp). *)
From stdpp Require Import base gmap strings list.
From Stdlib Require Import ZArith Lia.
From Stdlib Require String.
From S2P Require Import Prelude CString SysFs CFloat Pid Cdev CdevDevices PowerMeter Machine.

Open Scope string_scope.
Open Scope list_scope.
Open Scope Z_scope.

Section sampled.
Context {X W : Type} `{Kernel W} (i : nat).

(** Sensor [i] is sampled by its thread. *)
Definition sampled (s : machine X W) : Prop :=
  exists v, virtual_of i s = Some v /\ polling v = true.

(** If sensor [i] is sampled, its members stay as they are. *)
Definition spares (s s' : machine X W) : Prop := sampled s -> virtual_of i s' = virtual_of i s.

#[export] Instance spares_preorder : PreOrder spares.
Proof.
  split; [intros s _; done|]. intros a b c Hab Hbc Ha. specialize (Hab Ha).
  rewrite <- Hab. apply Hbc. destruct Ha as (v & Hv & Hp). exists v. by rewrite Hab.
Qed.

Lemma virtual_other k f (s : machine X W) : k <> i -> virtual_of i (snd (set_sensor k f s)) = virtual_of i s.
Proof. intros Hk. unfold virtual_of, sensor_at. cbn. by rewrite list_lookup_alter_ne. Qed.

Lemma spares_fs {A} k dflt (m : State (csys_fs * W) A) : steps spares (on_sensor_fs k dflt m).
Proof.
  intros s _. unfold on_sensor_fs. destruct (m_sensors s !! k) as [sn|] eqn:Ek; [|done].
  destruct (m (sensor_sysfs sn, m_w s)) as [a [fs w]]. unfold virtual_of, sensor_at. cbn.
  destruct (decide (k = i)) as [->|Hne].
  - rewrite Ek, list_lookup_insert_eq by (by eapply lookup_lt_Some). done.
  - by rewrite list_lookup_insert_ne.
Qed.

Lemma spares_fold {A B} (l : list A) (f : State (machine X W) B -> A -> State (machine X W) B) acc :
  (forall acc a, steps spares acc -> steps spares (f acc a)) -> steps spares acc ->
  steps spares (fold_left f l acc).
Proof. intros Hf. revert acc. induction l as [|a l IH]; intros acc Ha; cbn; [done|]. by apply IH, Hf. Qed.

(** Sampling another sensor spares this one. *)
Lemma spares_sample rd k v :
  k <> i -> (forall j, steps spares (rd j)) -> steps spares (virtual_sample rd k v).
Proof.
  intros Hk Hrd.
  assert (Hset : forall f, steps spares (set_sensor k f)) by (intros f s _; by apply virtual_other).
  unfold virtual_sample. destruct (link_sensors v) as [|l0 rest]; [steps_tac|].
  destruct (link_to l0), (double_is_zero (coeff l0) && double_is_zero (link_offset l0)); steps_tac;
    try (apply spares_fold; steps_tac; unfold set_link; steps_tac).
Qed.

Lemma spares_read fuel k : steps spares (read_temperature fuel k).
Proof.
  revert k. induction fuel as [|f IH]; intros k; cbn [read_temperature]; [steps_tac|].
  intros s Hs. unfold bind at 1, gets at 1.
  destruct (s_virtual (sensor_at k s)) as [v|] eqn:Ev.
  - destruct (polling v) eqn:Ep; [done|]. apply spares_sample; [|done|done]. intros ->.
    destruct Hs as (v' & Hv & Hp). unfold virtual_of in Hv. congruence.
  - destruct (s_rapl_power (sensor_at k s)).
    { unfold rapl_power_read_temperature, on_world. by destruct (on_meter _ _). }
    assert (Hb : steps spares (base_read_temperature k)).
    { unfold base_read_temperature. pose proof (@spares_fs). steps_tac. }
    by apply Hb.
Qed.

(** A sensor that scales one other sensor: no weights. *)
Definition scaled (v : virtual_data) : Prop :=
  exists l0 rest j, link_sensors v = l0 :: rest /\ link_to l0 = Some j /\
    double_is_zero (coeff l0) && double_is_zero (link_offset l0) = true.

Fixpoint sampling_rounds (n fuel : nat) (s : machine X W) : machine X W :=
  match n with O => s | S n' => sampling_rounds n' fuel (snd (sampling_round fuel i s)) end.

Lemma next_period_keeps v :
  last_temp (fst (next_period v)) = last_temp v /\ polling (fst (next_period v)) = polling v /\
  link_sensors (fst (next_period v)) = link_sensors v.
Proof. unfold next_period. by destruct (truthy _). Qed.

Lemma sampling_round_keeps fuel (s : machine X W) v :
  virtual_of i s = Some v -> polling v = true -> scaled v ->
  exists v', virtual_of i (snd (sampling_round fuel i s)) = Some v' /\
    last_temp v' = last_temp v /\ polling v' = true /\ scaled v'.
Proof.
  intros Hv Hp Hsc. unfold sampling_round, bind at 1, gets at 1. rewrite Hv.
  destruct (stop_polling v); [by exists v|].
  assert (Hs : virtual_of i (snd (virtual_sample (read_temperature fuel) i v s)) = Some v).
  { destruct Hsc as (l0 & rest & j & El & Ej & Ec). unfold virtual_sample. rewrite El, Ej, Ec.
    unfold bind. pose proof (spares_read fuel j s) as Hr.
    destruct (read_temperature fuel j s) as [t s1]. cbn in Hr |- *.
    rewrite Hr by (by exists v). exact Hv. }
  unfold bind at 1. destruct (virtual_sample _ i v s) as [t s1]. cbn [snd] in Hs.
  unfold bind at 1, gets at 1. rewrite Hs. pose proof (next_period_keeps v) as (K1 & K2 & K3).
  destruct (next_period v) as [v' sleep]. cbn [fst] in *. exists v'.
  split; [|split; [done|]; split; [congruence|]].
  - unfold bind, set_virtual, set_sensor, modify, ret, virtual_of, sensor_at in *. cbn in *.
    destruct (m_sensors s1 !! i) as [sn|] eqn:Ei; [|done].
    rewrite list_lookup_alter_eq, Ei. cbn in *. by rewrite Hs.
  - destruct Hsc as (l0 & rest & j & El & Ej & Ec). exists l0, rest, j. by rewrite K3.
Qed.

(** A sampled virtual sensor that scales another sensor does not follow
    it.  Its sampling thread computes the scaled temperature but does not store
    it, so however many rounds the thread runs, a read returns the value
    [last_temp] had when the sampling began; for a new sensor that is 0. *)
Theorem scaled_sensor_reads_stale n fuel (s : machine X W) v :
  virtual_of i s = Some v -> polling v = true -> scaled v ->
  fst (read_temperature (S fuel) i (sampling_rounds n (S fuel) s)) = u32 (last_temp v).
Proof.
  revert s v. induction n as [|n IH]; intros s v Hv Hp Hsc; cbn [sampling_rounds].
  - cbn [read_temperature]. unfold bind, gets. unfold virtual_of in Hv. by rewrite Hv, Hp.
  - destruct (sampling_round_keeps (S fuel) s v Hv Hp Hsc) as (v' & Hv' & Hl & Hp' & Hsc').
    rewrite (IH _ v' Hv' Hp' Hsc'). by rewrite Hl.
Qed.
End sampled.

(** A sensor at 45 degrees, and one that is its double and is sampled. *)
Definition doubled : virtual_data :=
  mk_virtual [mk_link (Some 0%nat) (double_of_Z 0) (double_of_Z 0) (double_of_Z 0) 0]
    (double_of_Z 2) (double_of_Z 0) true false true 0 5 [].
Definition doubled_machine : machine gen_ext sim :=
  mk_machine sim0 []
    [new_sensor 0 "/sys/x/temp" "cpu" SENSOR_TYPE_RAW;
     (new_sensor 1 "none" "skin" 0) <| s_virtual := Some doubled |>] [] 0 0 false 0 0.

Lemma scaled_sensor_witness :
  fst (read_temperature 2 1 (sampling_rounds 1 3 2 doubled_machine)) = 0.
Proof.
  apply (scaled_sensor_reads_stale 1 3 1 doubled_machine doubled); [reflexivity|reflexivity|].
  exists (mk_link (Some 0%nat) (double_of_Z 0) (double_of_Z 0) (double_of_Z 0) 0), [], 0%nat.
  repeat split.
Defined.

(** Without the sampling thread the same sensor reads 90 degrees. *)
Example unsampled_sensor_scales :
  fst (read_temperature 2 1 (snd (disable_periodic_timer 1 doubled_machine))) = 90000.
Proof. vm_compute. reflexivity. Qed.
