(* ===== verification/Engine.v ===== *)
(** The engine, [cthd_engine] (src/thd_engine.cpp, src/thd_engine.h): the
    thread that waits for events, the messages it obeys, the take-over of the
    kernel's thermal policies (with src/thd_int3400.cpp), the zones a user adds
    (src/thd_zone_dynamic.cpp) and the requests of the D-Bus interface.

    The thread's [poll] is an input: each iteration is given what [poll]
    returned.  Members that are vectors of shared objects live in the
    [machine]; the rest of the object is the record below. *)
From stdpp Require Import base gmap strings list.
From Stdlib Require Import ZArith Lia.
From Stdlib Require String.
From S2P Require Import Prelude CString SysFs CFloat Pid Cdev PowerMeter Machine Preference TripPoint Zone ZoneKinds.

Open Scope string_scope.
Open Scope list_scope.
Open Scope Z_scope.

Inductive control_mode_t := COMPLEMENTRY | EXCLUSIVE.
#[export] Instance control_mode_eq : EqDecision control_mode_t.
Proof. solve_decision. Defined.

Record engine (X W : Type) := mk_engine {
  zones : list zone;
  mach : machine X W;
  poll_timeout_msec : Z;
  wakeup_fd : Z;
  uevent_fd : Z;
  control_mode : control_mode_t;
  status : bool;
  thz_last_uevent_time : Z;
  thz_last_temp_ind_time : Z;
  thz_last_update_event_time : Z;
  terminate : bool;
  thd_pref : preference_t;
  poll_sensor_mask : Z;
  fast_poll_sensor_mask : Z;
  saved_poll_interval : Z;
  zone_preferences : list string;
  uuid : string;
  current_cdev_index : Z;
  current_zone_index : Z;
  current_sensor_index : Z;
}.
Arguments mk_engine {X W}.
Arguments zones {X W}. Arguments mach {X W}.
Arguments poll_timeout_msec {X W}. Arguments wakeup_fd {X W}. Arguments uevent_fd {X W}.
Arguments control_mode {X W}. Arguments status {X W}. Arguments thz_last_uevent_time {X W}.
Arguments thz_last_temp_ind_time {X W}. Arguments thz_last_update_event_time {X W}.
Arguments terminate {X W}. Arguments thd_pref {X W}. Arguments poll_sensor_mask {X W}.
Arguments fast_poll_sensor_mask {X W}. Arguments saved_poll_interval {X W}.
Arguments zone_preferences {X W}. Arguments uuid {X W}. Arguments current_cdev_index {X W}.
Arguments current_zone_index {X W}. Arguments current_sensor_index {X W}.
#[export] Instance eta_engine {X W} : Eta (engine X W) := {| eta_of := fun x =>
  mk_engine (zones x) (mach x) (poll_timeout_msec x) (wakeup_fd x)
    (uevent_fd x) (control_mode x) (status x) (thz_last_uevent_time x)
    (thz_last_temp_ind_time x) (thz_last_update_event_time x) (terminate x) (thd_pref x)
    (poll_sensor_mask x) (fast_poll_sensor_mask x) (saved_poll_interval x)
    (zone_preferences x) (uuid x) (current_cdev_index x) (current_zone_index x)
    (current_sensor_index x) |}.

(** The constructor; [mach0] holds the empty vectors and the settings. *)
Definition new_engine {X W} (_uuid : string) (pref : preference_t)
    (mach0 : machine X W) : engine X W :=
  mk_engine [] mach0 (-1) (-1) (-1) COMPLEMENTRY true 0 0 0 false pref 0 0 0 [] _uuid 0 0 0.

Definition def_poll_interval : Z := 4000.
Definition thz_notify_debounce_interval : Z := 3.

(** The virtual member functions of an engine.  They act on the members a
    subclass can reach. *)
Class EngineMethods (X W : Type) := {
  read_thermal_zones : State (engine X W) Z;
  update_engine_state : State (engine X W) unit;
  workarounds : State (engine X W) unit;
}.

(** What [poll] reported: its return value, whether the uevent and the wake-up
    descriptors are readable, and whether the uevent is one of a thermal zone. *)
Record poll_in := mk_poll_in {
  poll_ret : Z;
  poll_uevent : bool;
  uevent_match : bool;
  poll_wakeup : bool;
}.

(** [1 << id] of the polling masks; the shift count is taken modulo the width,
    as the compiled shift does. *)
Definition sensor_bit (id : Z) : Z := Z.shiftl 1 (id mod 32).
Definition mask_set (mask id : Z) : Z := Z.lor mask (u32 (sensor_bit id)).
Definition mask_clear (mask id : Z) : Z := Z.land mask (u32 (Z.lnot (sensor_bit id))).

(** * INT3400 *)

Record INT3400 := mk_int3400 { int_uuid : string; int_base_path : string }.

Definition int3400_base_path : string := "/sys/bus/platform/drivers/int3400 thermal".
Definition osc_uuid : string := "42A441D6-AE6A-462b-A84B-4A8CE79027D3".

Section int3400.
Context {W : Type} `{Kernel W}.

Definition new_INT3400 (_uuid : string) (w : W) : INT3400 :=
  mk_int3400 _uuid
    match k_stat int3400_base_path w with
    | None => ""
    | Some _ =>
        match k_readdir int3400_base_path w with
        | None => ""
        | Some names =>
            match List.find (fun n => is_prefix "INT" n) names with
            | Some n => "/sys/bus/platform/devices/" +:+ n +:+ "/"
            | None => ""
            end
        end
    end.

Definition available_uuids (i : INT3400) : string := int_base_path i +:+ "uuids/" +:+ "available_uuids".
Definition current_uuid (i : INT3400) : string := int_base_path i +:+ "uuids/" +:+ "current_uuid".

Definition match_supported_uuid (i : INT3400) (w : W) : Z :=
  if String.eqb (int_base_path i) "" then THD_ERROR else
  match k_ifstream (available_uuids i) w with
  | Some content =>
      if existsb (fun l => String.eqb l (int_uuid i)) (file_lines content) then THD_SUCCESS else THD_ERROR
  | None => THD_ERROR
  end.

Definition set_policy_osc (i : INT3400) : State W Z := fun w =>
  if String.eqb (int_base_path i) "" then (THD_ERROR, w) else
  match k_ifstream (available_uuids i) w with
  | Some content =>
      match file_lines content with
      | line :: _ =>
          if String.eqb line "UNKNOWN"
          then let '(_, w) := k_ofstream (current_uuid i) osc_uuid w in (THD_SUCCESS, w)
          else (THD_ERROR, w)
      | [] => (THD_ERROR, w)
      end
  | None => (THD_ERROR, w)
  end.

Definition set_default_uuid (i : INT3400) : State W unit :=
  r <- set_policy_osc i ;;
  if r =? THD_SUCCESS then ret tt else
  if String.eqb (int_base_path i) "" then ret tt else
  k_ofstream (current_uuid i) (int_uuid i) ;; ret tt.
End int3400.

(** * Thermal control of the kernel *)

Definition thermal_base : string := "/sys/class/thermal/".

Definition after (n : nat) (s : string) : string := String.substring n (String.length s - n) s.
Definition zone_number (name : string) : option Z :=
  if is_prefix "thermal_zone" name then Some (atoi (after 12 name)) else None.
Definition zone_file (i : Z) (name : string) : string :=
  "thermal_zone" +:+ string_of_Z i +:+ "/" +:+ name.

Section control.
Context {W : Type} `{Kernel W}.
Abbreviation FS := (State (csys_fs * W)).

(** The "INT3400" zone is switched to the given mode. *)
Definition switch_int3400 (i : Z) (mode : string) : FS unit :=
  ex <- exists_path (zone_file i "type") ;;
  if negb ex then ret tt else
  let* (_, thermal_type) := read_string (zone_file i "type") "" in
  if String.eqb thermal_type "INT3400" then write_str (zone_file i "mode") mode ;; ret tt
  else ret tt.

(** The policies that were read are remembered, in the order of the directory. *)
Fixpoint takeover_entries (names : list string) (saved : list string) : FS (list string) :=
  match names with
  | [] => ret saved
  | name :: rest =>
      match zone_number name with
      | None => takeover_entries rest saved
      | Some i =>
          ex <- exists_path (zone_file i "policy") ;;
          saved <-
            (if ex : bool then
               let* (n, curr_policy) := read_string (zone_file i "policy") "" in
               if n >=? 0 then
                 write_str (zone_file i "policy") "user_space" ;;
                 ret (saved ++ [curr_policy])
               else ret saved
             else ret saved) ;;
          switch_int3400 i "enabled" ;;
          takeover_entries rest saved
      end
  end.

(** Each existing policy gets the next remembered value.  [None]: the vector
    is read past its end, which is undefined. *)
Fixpoint giveup_entries (names : list string) (saved : list string) : FS (option unit) :=
  match names with
  | [] => ret (Some tt)
  | name :: rest =>
      match zone_number name with
      | None => giveup_entries rest saved
      | Some i =>
          ex <- exists_path (zone_file i "policy") ;;
          if ex : bool then
            match saved with
            | [] => ret None
            | policy :: saved' =>
                write_str (zone_file i "policy") policy ;;
                switch_int3400 i "disabled" ;;
                giveup_entries rest saved'
            end
          else switch_int3400 i "disabled" ;; giveup_entries rest saved
      end
  end.
End control.

Section engine.
Context {X W : Type} `{Kernel W} `{!CdevMethods X W} `{!EngineMethods X W}.
Context (TDRUNDIR : string) (depth : nat).
Abbreviation EM := (State (engine X W)).

Definition mode (f : engine X W -> engine X W) : EM unit := modify f.
Definition on_mach {A} (m : State (machine X W) A) : EM A := fun e =>
  let '(a, s) := m (mach e) in (a, e <| mach := s |>).
Definition on_w {A} (m : State W A) : EM A := on_mach (on_world m).

(** A call on zone [i]. *)
Definition on_zone {A} (i : nat) (dflt : A) (m : State (zone * machine X W) A) : EM A := fun e =>
  match zones e !! i with
  | None => (dflt, e)
  | Some z =>
      let '(a, (z', s')) := m (z, mach e) in
      (a, e <| zones := <[i := z']> (zones e) |> <| mach := s' |>)
  end.
Definition for_zones (m : State (zone * machine X W) unit) : EM unit :=
  e <- get ;; mfor (seq 0 (length (zones e))) (fun i => on_zone i tt m).

Definition on_pref {A} (m : State (preference_t * W) A) : EM A := fun e =>
  let '(a, (p, w)) := m (thd_pref e, m_w (mach e)) in
  (a, e <| thd_pref := p |> <| mach := (mach e) <| m_w := w |> |>).

(** The set of switches [process_pref_change] and [thd_engine_start] apply. *)
Definition takeover_thermal_control : EM unit :=
  e <- get ;;
  i3 <- on_w (gets (new_INT3400 (uuid e))) ;;
  on_w (set_default_uuid i3) ;;
  names <- on_w (gets (k_readdir thermal_base)) ;;
  match names with
  | None => ret tt
  | Some names =>
      saved <- on_w (with_fs thermal_base (takeover_entries names (zone_preferences e))) ;;
      mode (fun e => e <| zone_preferences := saved |>)
  end.

Definition giveup_thermal_control : EM (option unit) :=
  e <- get ;;
  if negb (bool_decide (control_mode e = EXCLUSIVE)) then ret (Some tt) else
  match zone_preferences e with
  | [] => ret (Some tt)
  | saved =>
      names <- on_w (gets (k_readdir thermal_base)) ;;
      match names with
      | None => ret (Some tt)
      | Some names => on_w (with_fs thermal_base (giveup_entries names saved))
      end
  end.
Definition process_terminate : EM (option unit) := giveup_thermal_control.

Definition process_pref_change : EM unit :=
  on_pref (refresh TDRUNDIR) ;;
  e <- get ;;
  let new_pref := preference (thd_pref e) in
  if new_pref =? PREF_DISABLED then mode (fun e => e <| status := false |>) else
  mode (fun e => e <| status := true |> <| mach := (mach e) <| m_preference := new_pref |> |>) ;;
  for_zones (update_zone_preference depth) ;;
  if bool_decide (control_mode e = EXCLUSIVE) then takeover_thermal_control else ret tt.

Definition thermal_zone_change : EM unit :=
  for_zones (
    z <- getz ;;
    if zone_active z then zone_temperature_notification depth else ret tt).

Definition poll_enable_disable (enable : bool) (sensor_id : Z) (e : engine X W) : engine X W :=
  if enable then
    e <| poll_sensor_mask := mask_set (poll_sensor_mask e) sensor_id |>
      <| poll_timeout_msec := def_poll_interval |>
  else
    let e := e <| poll_sensor_mask := mask_clear (poll_sensor_mask e) sensor_id |> in
    if truthy (poll_sensor_mask e) then e else e <| poll_timeout_msec := -1 |>.

Definition fast_poll_enable_disable (enable : bool) (sensor_id : Z) (e : engine X W) : engine X W :=
  if enable then
    let e := e <| fast_poll_sensor_mask := mask_set (fast_poll_sensor_mask e) sensor_id |> in
    let e := if truthy (saved_poll_interval e) then e
             else e <| saved_poll_interval := poll_timeout_msec e |> in
    e <| poll_timeout_msec := 1000 |>
  else
    let e := e <| fast_poll_sensor_mask := mask_clear (fast_poll_sensor_mask e) sensor_id |> in
    if truthy (fast_poll_sensor_mask e) then e
    else if truthy (saved_poll_interval e) then e <| poll_timeout_msec := saved_poll_interval e |>
    else e.

Definition thd_engine_reload_zones : EM unit :=
  e <- get ;;
  mfor (zones e) (fun z => on_mach (destroy_zone z)) ;;
  mode (fun e => e <| zones := [] |>) ;;
  read_thermal_zones ;;
  ret tt.

Definition proc_message (msg : message) : EM Z :=
  e <- get ;;
  match msg with
  | WAKEUP => ret 0
  | TERMINATE => mode (fun e => e <| terminate := true |>) ;; ret (-1)
  | PREF_CHANGED => process_pref_change ;; ret 0
  | THERMAL_ZONE_NOTIFY _ _ => (if status e then thermal_zone_change else ret tt) ;; ret 0
  | RELOAD_ZONES => thd_engine_reload_zones ;; ret 0
  | POLL_ENABLE id =>
      (if truthy (m_poll_interval_sec (mach e)) then ret tt
       else mode (poll_enable_disable true id)) ;; ret 0
  | POLL_DISABLE id =>
      (if truthy (m_poll_interval_sec (mach e)) then ret tt
       else mode (poll_enable_disable false id)) ;; ret 0
  | FAST_POLL_ENABLE id => mode (fast_poll_enable_disable true id) ;; ret 0
  | FAST_POLL_DISABLE id => mode (fast_poll_enable_disable false id) ;; ret 0
  end.

(** [read] on the non-blocking pipe: [None] when it is empty. *)
Definition read_pipe : EM (option message) := fun e =>
  match m_pipe (mach e) with
  | [] => (None, e)
  | msg :: rest => (Some msg, e <| mach := (mach e) <| m_pipe := rest |> |>)
  end.

(** * The thread *)

Section thread.
(** [poll_timeout_sec] is computed once, when the thread starts. *)
Context (thd_poll_interval poll_timeout_sec : Z).

Definition measure : EM unit :=
  garbage <- gets (fun e => m_uninit (mach e)) ;;
  on_w (on_meter (rapl_measure_power garbage)).

Definition kobj_event (p : poll_in) : EM unit :=
  e <- get ;;
  if (uevent_fd e >=? 0) && poll_uevent p && uevent_match p then
    tm <- on_w (fun w => k_time w) ;;
    e <- get ;;
    (if tm - thz_last_uevent_time e >=? thz_notify_debounce_interval
     then for_zones (zone_temperature_notification depth) else ret tt) ;;
    mode (fun e => e <| thz_last_uevent_time := tm |>)
  else ret tt.

(** [false]: the iteration ends here ([continue]). *)
Definition wakeup_event (p : poll_in) : EM bool :=
  e <- get ;;
  if (wakeup_fd e >=? 0) && poll_wakeup p then
    msg <- read_pipe ;;
    match msg with
    | None => ret false
    | Some m => proc_message m ;; ret true
    end
  else ret true.

Definition update_event (tm : Z) : EM unit :=
  e <- get ;;
  if tm - thz_last_update_event_time e >=? thd_poll_interval then
    update_engine_state ;;
    mode (fun e => e <| thz_last_update_event_time := tm |>)
  else ret tt.

(** Whether this iteration polls the zones. *)
Definition poll_due (p : poll_in) (tm : Z) (e : engine X W) : bool :=
  (poll_ret p =? 0) || (tm - thz_last_temp_ind_time e >=? poll_timeout_sec).

Definition iteration (p : poll_in) : EM unit :=
  if poll_ret p <? 0 then ret tt else
  tm <- on_w (fun w => k_time w) ;;
  measure ;;
  e <- get ;;
  if poll_due p tm e && negb (status e) then ret tt else
  (if poll_due p tm e then
     for_zones (zone_temperature_notification depth) ;;
     mode (fun e => e <| thz_last_temp_ind_time := tm |>)
   else ret tt) ;;
  kobj_event p ;;
  go <- wakeup_event p ;;
  if negb go then ret tt else
  update_event tm ;;
  workarounds.

(** The loop, fed with the results of its calls of [poll]. *)
Fixpoint thd_engine_thread (ps : list poll_in) : EM unit :=
  match ps with
  | [] => ret tt
  | p :: rest =>
      e <- get ;;
      if terminate e then ret tt else
      iteration p ;; thd_engine_thread rest
  end.
End thread.
End engine.
