(* ===== verification/EngineUser.v ===== *)
(** The requests the engine serves for users: sensors, zones and cooling
    devices added, changed and removed over D-Bus (src/thd_engine.cpp, the
    [user_] functions), the zone they create (src/thd_zone_dynamic.cpp) and the
    sensors found in sysfs at start. *)
From stdpp Require Import base gmap strings list.
From Stdlib Require Import ZArith Lia.
From Stdlib Require String.
From S2P Require Import Prelude CString SysFs CFloat Pid Cdev PowerMeter Machine Preference TripPoint Zone ZoneKinds Engine.

Open Scope string_scope.
Open Scope list_scope.
Open Scope Z_scope.

Section user.
Context {X W : Type} `{Kernel W} `{!CdevMethods X W} `{!EngineMethods X W}.
Context (TDRUNDIR : string) (depth : nat).
Abbreviation EM := (State (engine X W)).
Abbreviation ZM := (State (zone * machine X W)).

(** * Searches *)

Definition get_zone_at (idx : Z) (e : engine X W) : option nat :=
  if (0 <=? idx) && (idx <? Z.of_nat (length (zones e))) then Some (Z.to_nat idx) else None.

Definition get_zone (type : string) (e : engine X W) : option nat :=
  fst <$> list_find (fun z => z_type_str z = type) (zones e).

Definition search_zone (name : string) (e : engine X W) : option nat :=
  fst <$> list_find (fun z =>
    String.eqb (z_type_str z) name
    || (String.eqb (String.substring 0 4 name) "pch_"
        && String.eqb (String.substring 0 4 (z_type_str z)) "pch_") = true) (zones e).

Fixpoint contains (name s : string) : bool :=
  is_prefix name s || match s with EmptyString => false | String _ s' => contains name s' end.
Definition match_cdev (name : string) (s : machine X W) : option nat :=
  fst <$> list_find (fun d => contains name (type_str d) = true) (m_cdevs s).

Definition get_sensor_temperature (idx old : Z) : EM (Z * Z) :=
  e <- get ;;
  match get_sensor idx (mach e) with
  | Some i => t <- on_mach (read_temperature depth i) ;; ret (THD_SUCCESS, t)
  | None => ret (THD_ERROR, old)
  end.

(** * Sensors *)

(** The object is built, asked for its files and kept only when it is usable. *)
Definition try_sensor (s : sensor) : EM bool :=
  on_mach (modify (fun m => m <| m_sensors := m_sensors m ++ [s] |>)) ;;
  e <- get ;;
  let i := pred (length (m_sensors (mach e))) in
  r <- on_mach (sensor_update i) ;;
  if r =? THD_SUCCESS then ret true else
  e <- get ;;
  on_w (fun w => (tt, destroy_csys_fs (sensor_sysfs (sensor_at i (mach e))) w)) ;;
  on_mach (modify (fun m => m <| m_sensors := take i (m_sensors m) |>)) ;; ret false.

Definition bump_sensor_index : EM unit :=
  mode (fun e => e <| current_sensor_index := i32 (current_sensor_index e + 1) |>).

Definition sensor_named (name : string) (s : machine X W) : option nat :=
  fst <$> list_find (fun x => s_type_str x = name) (m_sensors s).

Definition user_add_sensor (name path : string) : EM Z :=
  if String.eqb path "" then ret THD_ERROR else
  if negb (starts_with path "/sys/") then ret THD_ERROR else
  e <- get ;;
  match sensor_named name (mach e) with
  | Some i => on_mach (set_sensor i (sensor_update_path path)) ;; ret THD_SUCCESS
  | None =>
      ok <- try_sensor (new_sensor (current_sensor_index e) path name SENSOR_TYPE_RAW) ;;
      if negb ok then ret THD_ERROR else
      bump_sensor_index ;;
      on_mach (send_message WAKEUP) ;;
      ret THD_SUCCESS
  end.

(** [cthd_sensor_virtual]'s constructor; [link] is the sensor the name leads to. *)
Definition new_virtual (_index : Z) (_type_str _link : string) (link : option nat) (uninit : Z)
    (_multiplier _offset : double) : sensor :=
  (new_sensor _index "none" _type_str SENSOR_TYPE_THERMAL_SYSFS) <| s_virtual := Some
    (mk_virtual
      (if String.eqb _link "" then []
       else [mk_link link (double_of_Z 0) (double_of_Z 0) (double_of_Z 0) uninit])
      _multiplier _offset false false false 0 def_polling_period []) |>.

Definition user_add_virtual_sensor (name dep_sensor : string) (slope intercept : double) : EM Z :=
  e <- get ;;
  match sensor_named name (mach e) with
  | Some i =>
      match s_virtual (sensor_at i (mach e)) with
      | Some _ => on_mach (sensor_update_param i dep_sensor slope intercept)
      | None => ret THD_ERROR
      end
  | None =>
      on_mach (modify (fun m => m <| m_sensors := m_sensors m ++
        [new_virtual (current_sensor_index e) name dep_sensor (search_sensor dep_sensor m)
           (m_uninit m) slope intercept] |>)) ;;
      bump_sensor_index ;;
      on_mach (send_message WAKEUP) ;;
      ret THD_SUCCESS
  end.

(** [thd_read_default_thermal_sensors]: a sensor per thermal zone directory. *)
Fixpoint sensor_entries (names : list string) (max_index : Z) : EM Z :=
  match names with
  | [] => ret max_index
  | name :: rest =>
      match zone_number name with
      | None => sensor_entries rest max_index
      | Some i =>
          try_sensor (new_sensor i (thermal_base +:+ name +:+ "/") "" SENSOR_TYPE_THERMAL_SYSFS) ;;
          sensor_entries rest (if i >? max_index then i else max_index)
      end
  end.

Definition thd_read_default_thermal_sensors : EM unit :=
  ready <- on_w (gets (k_readdir "/sys/class/thermal/thermal_zone1/")) ;;
  match ready with None => on_w (fun w => (tt, k_sleep 2 w)) | Some _ => ret tt end ;;
  names <- on_w (gets (k_readdir thermal_base)) ;;
  max_index <- match names with Some l => sensor_entries l 0 | None => ret 0 end ;;
  e <- get ;;
  match m_sensors (mach e) with
  | [] => ret tt
  | _ => mode (fun e => e <| current_sensor_index := i32 (max_index + 1) |>)
  end.

(** * Zones *)

(** [cthd_zone_dynamic] *)
Section dynamic.
Context (trip_temp : Z) (trip_type : trip_point_type_t) (sensor_name cdev_name : string).

Definition new_zone_dynamic (idx : Z) (name : string) : zone :=
  (new_zone idx "" SENSOR_INDEPENDENT) <| z_type_str := name |>.

Definition dynamic_bind_sensors : ZM Z :=
  sn <- on_machine (gets (search_sensor sensor_name)) ;;
  match sn with
  | Some i => modz (bind_sensor i) ;; ret THD_SUCCESS
  | None => ret THD_ERROR
  end.

Definition dynamic_read_trip_points : ZM Z :=
  sn <- on_machine (gets (search_sensor sensor_name)) ;;
  match sn with
  | None => ret THD_ERROR
  | Some i =>
      z <- getz ;;
      id <- sensor_index i ;;
      c <- on_machine (gets (search_cdev cdev_name)) ;;
      match c with
      | None => ret THD_ERROR
      | Some p =>
          trip <- on_machine (fun s =>
            let '(_, (t, s')) := thd_trip_point_add_cdev p default_influence 0 0
              TRIP_PT_INVALID_TARGET_STATE None 0 0 0
              (new_trip 0 trip_type trip_temp 0 (z_index z) id PARALLEL, s) in (t, s')) ;;
          modz (fun z => z <| zone_cdev_binded_status := true |>
                           <| trip_points := trip_points z ++ [trip] |>) ;;
          ret THD_SUCCESS
      end
  end.

Definition dynamic_zone_update : ZM Z :=
  zone_update TDRUNDIR dynamic_bind_sensors dynamic_read_trip_points (ret 0).
End dynamic.

(** A zone is built and kept only when its update succeeds; [created] tells
    whether a sampling thread starts. *)
Definition user_add_zone (created : bool) (zone_name : string) (trip_temp : Z)
    (sensor_name cdev_name : string) : EM Z := fun e =>
  let z := new_zone_dynamic (current_zone_index e) zone_name in
  let '(r, (z, s)) := dynamic_zone_update trip_temp PASSIVE sensor_name cdev_name (z, mach e) in
  if r =? THD_SUCCESS then
    let '(_, (z, s)) := set_zone_active created (z, s) in
    (THD_SUCCESS, e <| mach := s |> <| zones := zones e ++ [z] |>
                    <| current_zone_index := i32 (current_zone_index e + 1) |>)
  else (THD_ERROR, e <| mach := s |>).

(** [thd_read_default_thermal_zones]: a zone per thermal zone directory; one
    that cannot be set up is destroyed. *)
Definition try_sysfs_zone (created : bool) (i : Z) : EM unit := fun e =>
  let '(z, s) := new_sysfs_zone i "/sys/class/thermal/thermal_zone" (mach e) in
  let '(r, (z, s)) := sysfs_zone_update TDRUNDIR (z, s) in
  if r =? THD_SUCCESS then
    let '(_, (z, s)) := (if bool_decide (control_mode e = EXCLUSIVE) then set_zone_active created
                         else ret tt) (z, s) in
    (tt, e <| mach := s |> <| zones := zones e ++ [z] |>)
  else
    let '(_, s) := destroy_zone z s in (tt, e <| mach := s |>).

Fixpoint zone_entries (created : bool) (names : list string) (max_index : Z) : EM Z :=
  match names with
  | [] => ret max_index
  | name :: rest =>
      match zone_number name with
      | None => zone_entries created rest max_index
      | Some i =>
          try_sysfs_zone created i ;;
          zone_entries created rest (if i >? max_index then i else max_index)
      end
  end.

Definition thd_read_default_thermal_zones (created : bool) : EM unit :=
  names <- on_w (gets (k_readdir thermal_base)) ;;
  max_index <- match names with Some l => zone_entries created l 0 | None => ret 0 end ;;
  e <- get ;;
  match zones e with
  | [] => ret tt
  | _ => mode (fun e => e <| current_zone_index := i32 (max_index + 1) |>)
  end.

(** A request on the zone of a name. *)
Definition with_zone (name : string) (m : ZM Z) : EM Z :=
  e <- get ;;
  match get_zone name e with
  | None => ret THD_ERROR
  | Some i => on_zone i THD_ERROR m
  end.

Definition user_set_psv_temp (name : string) (temp : Z) : EM Z :=
  with_zone name (update_psv_temperature TDRUNDIR (i32 temp)).
Definition user_set_max_temp (name : string) (temp : Z) : EM Z :=
  with_zone name (update_max_temperature TDRUNDIR (i32 temp)).

Definition user_set_zone_status (created : bool) (name : string) (status : Z) : EM Z :=
  with_zone name (
    (if truthy status then set_zone_active created else set_zone_inactive) ;; ret THD_SUCCESS).

Definition user_get_zone_status (name : string) (old : Z) : EM (Z * Z) :=
  e <- get ;;
  match get_zone name e with
  | None => ret (THD_ERROR, old)
  | Some i => ret (THD_SUCCESS, match zones e !! i with
                                | Some z => b2z (zone_active z) | None => old end)
  end.

Definition user_delete_zone (name : string) : EM Z :=
  e <- get ;;
  match get_zone name e with
  | Some i =>
      match zones e !! i with Some z => on_mach (destroy_zone z) | None => ret tt end ;;
      mode (fun e => e <| zones := delete i (zones e) |>)
  | None => ret tt
  end ;;
  ret THD_SUCCESS.

(** [thd_engine_set_user_psv_temp], [thd_engine_set_user_max_temp]: the set
    point is text and must start with a digit. *)
Definition set_user_temp (update : Z -> ZM Z) (zone_type user_set_point : string) : EM Z :=
  match user_set_point with
  | String c _ => if isdigit c then with_zone zone_type (update (atoi user_set_point)) else ret THD_ERROR
  | EmptyString => ret THD_ERROR
  end.
Definition thd_engine_set_user_psv_temp := set_user_temp (update_psv_temperature TDRUNDIR).
Definition thd_engine_set_user_max_temp := set_user_temp (update_max_temperature TDRUNDIR).

(** [thd_engine_terminate], without the thread that runs during the pause. *)
Definition thd_engine_terminate : EM (option unit) :=
  on_mach (send_message TERMINATE) ;;
  on_w (fun w => (tt, k_sleep 1 w)) ;;
  process_terminate.

(** * Cooling devices *)

(** [x_gen] and [x_sysfs] are the members of a fresh [cthd_gen_sysfs_cdev] and
    [cthd_sysfs_cdev]. *)
Section devices.
Context (x_gen x_sysfs : X).

Definition try_cdev (d : cdev X) : EM bool :=
  on_mach (modify (fun m => m <| m_cdevs := m_cdevs m ++ [d] |>)) ;;
  e <- get ;;
  let i := pred (length (m_cdevs (mach e))) in
  r <- on_mach (on_cdev i THD_ERROR m_update) ;;
  if r =? THD_SUCCESS then ret true else
  e <- get ;;
  on_w (fun w => (tt, match m_cdevs (mach e) !! i with
                      | Some d => destroy_csys_fs (cdev_sysfs d) w | None => w end)) ;;
  on_mach (modify (fun m => m <| m_cdevs := take i (m_cdevs m) |>)) ;; ret false.

Definition set_range_of (i : nat) (min_state_ max_state_ step : Z) : EM unit :=
  on_mach (modify (fun m => m <| m_cdevs := alter (fun d =>
    d <| min_state := min_state_ |> <| max_state := max_state_ |> <| inc_dec_val := step |>) i (m_cdevs m) |>)).

Definition user_add_cdev (cdev_name cdev_path : string) (min_state_ max_state_ step : Z) : EM Z :=
  e <- get ;;
  match search_cdev cdev_name (mach e) with
  | Some i => set_range_of i min_state_ max_state_ step ;; ret THD_SUCCESS
  | None =>
      ok <- try_cdev ((new_cdev (current_cdev_index e) cdev_path x_gen) <| type_str := cdev_name |>) ;;
      if negb ok then ret THD_ERROR else
      set_range_of (length (m_cdevs (mach e))) min_state_ max_state_ step ;;
      mode (fun e => e <| current_cdev_index := i32 (current_cdev_index e + 1) |>) ;;
      ret THD_SUCCESS
  end.

Definition cooling_number (name : string) : option Z :=
  if is_prefix "cooling_device" name then Some (atoi (after 14 name)) else None.

Fixpoint cdev_entries (names : list string) (max_index : Z) : EM Z :=
  match names with
  | [] => ret max_index
  | name :: rest =>
      match cooling_number name with
      | None => cdev_entries rest max_index
      | Some i =>
          try_cdev (new_cdev i thermal_base x_sysfs) ;;
          cdev_entries rest (if i >? max_index then i else max_index)
      end
  end.

Definition thd_read_default_cooling_devices : EM unit :=
  names <- on_w (gets (k_readdir thermal_base)) ;;
  max_index <- match names with Some l => cdev_entries l 0 | None => ret 0 end ;;
  e <- get ;;
  match m_cdevs (mach e) with
  | [] => ret tt
  | _ => mode (fun e => e <| current_cdev_index := i32 (max_index + 1) |>)
  end.
End devices.
End user.
