(* ===== verification/EngineTheorems.v ===== *)
(** What the engine thread promises: the polling it was asked for, messages
    obeyed in order while it is enabled, and what disabling it does
    (src/thd_engine.cpp). *)
From stdpp Require Import base gmap strings list.
From Stdlib Require Import ZArith Lia.
From Stdlib Require String.
From S2P Require Import Prelude CString SysFs CFloat Pid Cdev PowerMeter Machine Preference TripPoint Zone ZoneKinds ZoneFrame CdevDevices Engine.

Open Scope string_scope.
Open Scope list_scope.
Open Scope Z_scope.

(** * Frames *)

(** The polling members. *)
Definition polls {X W} (e : engine X W) : Z * Z * Z * Z :=
  (poll_timeout_msec e, poll_sensor_mask e, fast_poll_sensor_mask e, saved_poll_interval e).

(** The private members of the thread. *)
Definition private {X W} (e : engine X W) :=
  (polls e, (wakeup_fd e, uevent_fd e), control_mode e, (status e, terminate e),
   (thz_last_uevent_time e, thz_last_temp_ind_time e, thz_last_update_event_time e)).

(** Zones, devices and sensors may change; the thread's own members do not. *)
Definition calm {X W} (e e' : engine X W) : Prop := private e' = private e /\ quiet (mach e) (mach e').

#[export] Instance calm_preorder {X W} : PreOrder (@calm X W).
Proof.
  split; [intros e; split; reflexivity|].
  intros a b c [H1 H2] [G1 G2]. split; [congruence|by transitivity (mach b)].
Qed.

(** The virtual functions of a subclass cannot reach the private members. *)
Class EngineLaws (X W : Type) `{EngineMethods X W} := {
  law_read_zones : steps calm read_thermal_zones;
  law_update : steps calm update_engine_state;
  law_workarounds : steps calm workarounds;
}.

(** Also the preference and the on/off status may change. *)
Definition feeds {X W} (e e' : engine X W) : Prop :=
  polls e' = polls e /\ wakeup_fd e' = wakeup_fd e /\ terminate e' = terminate e /\
  m_poll_interval_sec (mach e') = m_poll_interval_sec (mach e) /\
  exists sent, m_pipe (mach e') = m_pipe (mach e) ++ sent.

#[export] Instance feeds_preorder {X W} : PreOrder (@feeds X W).
Proof.
  split.
  - intros e. repeat split. exists []. by rewrite app_nil_r.
  - intros a b c (H1 & H2 & H3 & H4 & l & H5) (G1 & G2 & G3 & G4 & k & G5).
    repeat split; try congruence. exists (l ++ k). by rewrite G5, H5, <- app_assoc.
Qed.

Lemma calm_feeds {X W} (e e' : engine X W) : calm e e' -> feeds e e'.
Proof.
  intros [Hp (_ & H2 & _ & _ & (l & H5 & _) & _)]. unfold private in Hp.
  apply pair_equal_spec in Hp as [Hp _]. apply pair_equal_spec in Hp as [Hp Hs].
  apply pair_equal_spec in Hp as [Hp _]. apply pair_equal_spec in Hp as [Hp Hf].
  repeat split; [done|congruence|congruence|done|by exists l].
Qed.

Section frames.
Context {X W : Type} `{Kernel W} `{!CdevMethods X W} `{!EngineMethods X W}.
Context (TDRUNDIR : string) (depth : nat).

Lemma c_on_mach {A} (m : State (machine X W) A) : steps quiet m -> steps calm (on_mach m).
Proof. intros Hm e. unfold on_mach. specialize (Hm (mach e)). by destruct (m (mach e)). Qed.

Lemma c_on_w {A} (m : State W A) : steps (@calm X W) (on_w m).
Proof. apply c_on_mach. auto with thd. Qed.

Lemma c_on_zone {A} i (dflt : A) (m : State (zone * machine X W) A) :
  steps quiet_z m -> steps calm (on_zone i dflt m).
Proof.
  intros Hm e. unfold on_zone. destruct (zones e !! i) as [z|]; [|reflexivity].
  specialize (Hm (z, mach e)). destruct (m (z, mach e)) as [a [z' s']]. by destruct Hm.
Qed.

Lemma c_for_zones (m : State (zone * machine X W) unit) : steps quiet_z m -> steps calm (for_zones m).
Proof. intros Hm. unfold for_zones. steps_tac. by apply c_on_zone. Qed.

Hint Resolve c_on_mach c_on_w : thd.

Lemma c_notify : steps (@calm X W) (for_zones (zone_temperature_notification depth)).
Proof. apply c_for_zones. unfold zone_temperature_notification. auto with thd. Qed.

Lemma c_zone_change : steps (@calm X W) (thermal_zone_change depth).
Proof.
  apply c_for_zones. unfold zone_temperature_notification. steps_tac.
Qed.

Lemma c_measure : steps (@calm X W) measure.
Proof. unfold measure. steps_tac. Qed.

Lemma c_zone_preferences l : steps (@calm X W) (mode (fun e => e <| zone_preferences := l |>)).
Proof. intros e. split; [done|reflexivity]. Qed.
Hint Resolve c_notify c_zone_change c_measure c_zone_preferences : thd.

Lemma c_takeover : steps (@calm X W) takeover_thermal_control.
Proof. unfold takeover_thermal_control. steps_tac. Qed.
Hint Resolve c_takeover : thd.

Lemma c_destroy_zones l : steps (@calm X W) (mfor l (fun z => on_mach (destroy_zone z))).
Proof. steps_tac. Qed.
Hint Resolve c_destroy_zones : thd.

Lemma calm_steps {A} (m : State (engine X W) A) : steps calm m -> steps feeds m.
Proof. intros Hm e. apply calm_feeds, Hm. Qed.

Lemma feeds_same (e e' : engine X W) :
  polls e' = polls e -> wakeup_fd e' = wakeup_fd e -> terminate e' = terminate e ->
  m_poll_interval_sec (mach e') = m_poll_interval_sec (mach e) -> m_pipe (mach e') = m_pipe (mach e) ->
  feeds e e'.
Proof. intros. repeat split; try done. exists []. by rewrite app_nil_r. Qed.

Lemma f_process_pref_change : steps (@feeds X W) (process_pref_change TDRUNDIR depth).
Proof.
  pose proof (@feeds_preorder X W).
  unfold process_pref_change. apply steps_bind; [done|intros e|intros _].
  { unfold on_pref. destruct (refresh _ _) as [u [p w]]. by apply feeds_same. }
  apply steps_bind; [done|by apply steps_get|intros e]. apply steps_if.
  { intros e1. by apply feeds_same. }
  apply steps_bind; [done|intros e1; by apply feeds_same|intros _].
  apply steps_bind; [done|apply calm_steps, c_for_zones; auto with thd|intros _].
  apply steps_if; [apply calm_steps; auto with thd|by apply steps_ret].
Qed.
End frames.

#[export] Hint Resolve c_on_mach c_on_w c_notify c_zone_change c_measure c_takeover c_destroy_zones
  f_process_pref_change : thd.

(** * Polling *)

(** The specification: the sets of sensors that asked for polling and for fast
    polling, the timeout and the timeout to return to. *)
Record poll_plan := mk_poll_plan {
  p_timeout : Z; p_poll : gset Z; p_fast : gset Z; p_saved : Z }.

Definition ask (enable : bool) (id : Z) (s : gset Z) : gset Z :=
  if enable then s ∪ {[ id ]} else s ∖ {[ id ]}.

Definition poll_spec (interval : Z) (msg : message) (p : poll_plan) : poll_plan :=
  let plain on id :=
    if interval =? 0 then
      let s := ask on id (p_poll p) in
      mk_poll_plan (if on : bool then 4000 else if decide (s = ∅) then -1 else p_timeout p)
        s (p_fast p) (p_saved p)
    else p in
  match msg with
  | POLL_ENABLE id => plain true id
  | POLL_DISABLE id => plain false id
  | FAST_POLL_ENABLE id =>
      mk_poll_plan 1000 (p_poll p) (ask true id (p_fast p))
        (if p_saved p =? 0 then p_timeout p else p_saved p)
  | FAST_POLL_DISABLE id =>
      let s := ask false id (p_fast p) in
      mk_poll_plan (if decide (s = ∅) then (if p_saved p =? 0 then p_timeout p else p_saved p)
                  else p_timeout p) (p_poll p) s (p_saved p)
  | _ => p
  end.

(** A mask holds a set of sensor ids. *)
Definition mask_of (m : Z) (s : gset Z) : Prop :=
  set_Forall (fun i => 0 <= i < 32) s /\ forall i, 0 <= i -> Z.testbit m i = bool_decide (i ∈ s).

Definition polling_of {X W} (e : engine X W) (p : poll_plan) : Prop :=
  poll_timeout_msec e = p_timeout p /\ saved_poll_interval e = p_saved p /\
  mask_of (poll_sensor_mask e) (p_poll p) /\ mask_of (fast_poll_sensor_mask e) (p_fast p).

Definition sensor_id_ok (msg : message) : Prop :=
  match msg with
  | POLL_ENABLE id | POLL_DISABLE id | FAST_POLL_ENABLE id | FAST_POLL_DISABLE id => 0 <= id < 32
  | _ => True
  end.

Lemma bit_of_one k i : 0 <= k -> 0 <= i -> Z.testbit (Z.shiftl 1 k) i = (i =? k).
Proof.
  intros Hk Hi. rewrite Z.shiftl_spec by done. destruct (Z.eqb_spec i k) as [->|Hne].
  - by rewrite Z.sub_diag.
  - destruct (Z.ltb_spec (i - k) 0); [by apply Z.testbit_neg_r|].
    apply Z.bits_above_log2; cbn; lia.
Qed.

Lemma u32_bit z i : 0 <= i -> Z.testbit (u32 z) i = (i <? 32) && Z.testbit z i.
Proof.
  intros Hi. unfold u32. destruct (Z.ltb_spec i 32).
  - by rewrite Z.mod_pow2_bits_low by lia.
  - by rewrite Z.mod_pow2_bits_high by lia.
Qed.

Lemma mask_of_set m s id : 0 <= id < 32 -> mask_of m s -> mask_of (mask_set m id) (ask true id s).
Proof.
  intros Hid [Hr Hm]. split.
  { intros i Hi. unfold ask in Hi. apply elem_of_union in Hi as [Hi|Hi]; [by apply Hr|].
    apply elem_of_singleton in Hi. lia. }
  intros i Hi. unfold mask_set, sensor_bit, ask.
  rewrite Z.lor_spec, (Z.mod_small id 32), u32_bit, bit_of_one, Hm by lia.
  destruct (Z.eqb_spec i id) as [->|Hne].
  - rewrite (proj2 (Z.ltb_lt id 32)) by lia. rewrite orb_true_r. symmetry.
    apply bool_decide_eq_true, elem_of_union_r, elem_of_singleton. done.
  - rewrite andb_false_r, orb_false_r. apply bool_decide_ext.
    rewrite elem_of_union, elem_of_singleton. intuition congruence.
Qed.

Lemma mask_of_clear m s id :
  0 <= id < 32 -> mask_of m s -> mask_of (mask_clear m id) (ask false id s).
Proof.
  intros Hid [Hr Hm]. split.
  { intros i Hi. unfold ask in Hi. apply elem_of_difference in Hi as [Hi _]. by apply Hr. }
  intros i Hi. unfold mask_clear, sensor_bit, ask.
  rewrite Z.land_spec, (Z.mod_small id 32), u32_bit, Z.lnot_spec, bit_of_one, Hm by lia.
  destruct (Z.eqb_spec i id) as [->|Hne]; cbn.
  - rewrite !andb_false_r. symmetry. apply bool_decide_eq_false.
    rewrite elem_of_difference, elem_of_singleton. intuition congruence.
  - rewrite andb_true_r. destruct (Z.ltb_spec i 32).
    + rewrite andb_true_r. apply bool_decide_ext.
      rewrite elem_of_difference, elem_of_singleton. intuition congruence.
    + rewrite andb_false_r. symmetry. apply bool_decide_eq_false.
      intros Hin. apply elem_of_difference in Hin as [Hin _]. pose proof (Hr i Hin) as Hb. cbn in Hb. lia.
Qed.

Lemma mask_of_empty m s : mask_of m s -> truthy m = negb (bool_decide (s = ∅)).
Proof.
  intros [Hr Hm]. unfold truthy. f_equal. apply eq_true_iff_eq.
  rewrite Z.eqb_eq, bool_decide_eq_true. split.
  - intros ->. apply elem_of_equiv_empty_L. intros i Hi.
    assert (Hi0 : 0 <= i) by (pose proof (Hr i Hi) as Hb; cbn in Hb; lia). specialize (Hm i Hi0).
    rewrite Z.bits_0 in Hm. symmetry in Hm. by apply bool_decide_eq_false in Hm.
  - intros ->. apply Z.bits_inj'. intros i Hi. by rewrite Z.bits_0, Hm.
Qed.

Section polling.
Context {X W : Type} `{Kernel W} `{!CdevMethods X W} `{!EngineMethods X W} `{!EngineLaws X W}.
Context (TDRUNDIR : string) (depth : nat).

(** Messages processed in order. *)
Definition proc_messages (ms : list message) : State (engine X W) unit :=
  mfor ms (fun m => proc_message TDRUNDIR depth m ;; ret tt).

Lemma plain_refines on id (e : engine X W) p :
  0 <= id < 32 -> polling_of e p ->
  polling_of (poll_enable_disable on id e)
    (poll_spec 0 (if on then POLL_ENABLE id else POLL_DISABLE id) p).
Proof.
  intros Hid (Ht & Hs & Hp & Hf). unfold poll_enable_disable. destruct on; cbn.
  - unfold polling_of; cbn; split_and!; try done. by apply mask_of_set.
  - pose proof (mask_of_clear _ _ _ Hid Hp) as Hc. pose proof (mask_of_empty _ _ Hc) as He.
    cbn in He. rewrite He. case_bool_decide as Hd; cbn; [rewrite decide_True by done|rewrite decide_False by done];
      unfold polling_of; cbn; by split_and!.
Qed.

Lemma fast_refines on interval id (e : engine X W) p :
  0 <= id < 32 -> polling_of e p ->
  polling_of (fast_poll_enable_disable on id e)
    (poll_spec interval (if on then FAST_POLL_ENABLE id else FAST_POLL_DISABLE id) p).
Proof.
  intros Hid (Ht & Hs & Hp & Hf). unfold fast_poll_enable_disable, truthy. destruct on; cbn.
  - rewrite Hs, <- Ht, <- Hs. destruct (Z.eqb_spec (saved_poll_interval e) 0); cbn;
      unfold polling_of; cbn; split_and!; try done; by apply mask_of_set.
  - pose proof (mask_of_clear _ _ _ Hid Hf) as Hc. pose proof (mask_of_empty _ _ Hc) as He.
    unfold truthy in He. cbn in He. rewrite He.
    rewrite <- Ht, <- Hs. case_bool_decide as Hd; cbn;
      [rewrite decide_True by done|rewrite decide_False by done].
    + destruct (Z.eqb_spec (saved_poll_interval e) 0); cbn; unfold polling_of; cbn; by split_and!.
    + unfold polling_of; cbn; by split_and!.
Qed.

Lemma polling_same (e e' : engine X W) p : polls e' = polls e -> polling_of e p -> polling_of e' p.
Proof. intros Hp. injection Hp as E1 E2 E3 E4. unfold polling_of. by rewrite E1, E2, E3, E4. Qed.

(** A message that is not about polling leaves the polling members. *)
Definition is_poll (m : message) : bool :=
  match m with
  | POLL_ENABLE _ | POLL_DISABLE _ | FAST_POLL_ENABLE _ | FAST_POLL_DISABLE _ => true
  | _ => false
  end.

Lemma message_frame msg (e : engine X W) :
  is_poll msg = false ->
  let e' := snd (proc_message TDRUNDIR depth msg e) in
  polls e' = polls e /\ m_poll_interval_sec (mach e') = m_poll_interval_sec (mach e).
Proof.
  intros Hnp.
  assert (Hf : forall (m : State (engine X W) unit), steps feeds m ->
    let e' := snd ((m ;; ret 0) e) in
    polls e' = polls e /\ m_poll_interval_sec (mach e') = m_poll_interval_sec (mach e)).
  { intros m Hm. specialize (Hm e). unfold bind. destruct (m e) as [[] e1]. cbn.
    destruct Hm as (H1 & _ & _ & H2 & _). done. }
  destruct msg; try discriminate Hnp; unfold proc_message, bind at 1, get; try done.
  - apply Hf, f_process_pref_change.
  - apply Hf. destruct (status e); [apply calm_steps, c_zone_change|apply steps_ret, _].
  - apply Hf. unfold thd_engine_reload_zones.
    apply steps_bind; [apply _|apply steps_get, _|intros e0].
    apply steps_bind; [apply _|apply calm_steps, c_destroy_zones|intros _].
    apply steps_bind; [apply _|intros e1; by apply feeds_same|intros _].
    apply steps_bind; [apply _|apply calm_steps, law_read_zones|intros _; apply steps_ret, _].
Qed.

Lemma plain_interval on id (e : engine X W) :
  m_poll_interval_sec (mach (poll_enable_disable on id e)) = m_poll_interval_sec (mach e).
Proof. unfold poll_enable_disable. destruct on; cbn; repeat case_match; reflexivity. Qed.

Lemma fast_interval on id (e : engine X W) :
  m_poll_interval_sec (mach (fast_poll_enable_disable on id e)) = m_poll_interval_sec (mach e).
Proof. unfold fast_poll_enable_disable. destruct on; cbn; repeat case_match; reflexivity. Qed.

Lemma message_interval msg (e : engine X W) :
  m_poll_interval_sec (mach (snd (proc_message TDRUNDIR depth msg e))) = m_poll_interval_sec (mach e).
Proof.
  destruct (is_poll msg) eqn:Ep; [|by apply message_frame].
  destruct msg; try discriminate Ep; unfold proc_message, bind, get, mode, modify, ret;
    try apply fast_interval; (destruct (truthy _); [done|apply plain_interval]).
Qed.

Lemma message_refines msg (e : engine X W) p :
  sensor_id_ok msg -> polling_of e p ->
  polling_of (snd (proc_message TDRUNDIR depth msg e)) (poll_spec (m_poll_interval_sec (mach e)) msg p).
Proof.
  intros Hok Hp. destruct (is_poll msg) eqn:Ep.
  - assert (Hset : forall on id, 0 <= id < 32 ->
      polling_of (if truthy (m_poll_interval_sec (mach e)) then e else poll_enable_disable on id e)
        (poll_spec (m_poll_interval_sec (mach e)) (if on then POLL_ENABLE id else POLL_DISABLE id) p)).
    { intros on id Hid. unfold truthy.
      destruct (Z.eqb_spec (m_poll_interval_sec (mach e)) 0) as [E|E]; cbn.
      - rewrite E. by apply plain_refines.
      - apply Z.eqb_neq in E. destruct on; cbn; by rewrite E. }
    destruct msg as [| | |type data| |id|id|id|id]; try discriminate Ep; cbn in Hok.
    + specialize (Hset true id Hok). cbn. by destruct (truthy _).
    + specialize (Hset false id Hok). cbn. by destruct (truthy _).
    + apply (fast_refines true); done.
    + apply (fast_refines false); done.
  - destruct (message_frame msg e Ep) as [Hq _].
    assert (Hspec : poll_spec (m_poll_interval_sec (mach e)) msg p = p) by (by destruct msg).
    rewrite Hspec. by eapply polling_same.
Qed.

Lemma proc_messages_cons m ms (e : engine X W) :
  snd (proc_messages (m :: ms) e) = snd (proc_messages ms (snd (proc_message TDRUNDIR depth m e))).
Proof.
  unfold proc_messages. cbn [mfor]. unfold bind at 1. unfold bind at 1.
  destruct (proc_message TDRUNDIR depth m e) as [r e1]. reflexivity.
Qed.

Lemma messages_refine ms (e : engine X W) p :
  Forall sensor_id_ok ms -> polling_of e p ->
  polling_of (snd (proc_messages ms e))
    (fold_left (fun p m => poll_spec (m_poll_interval_sec (mach e)) m p) ms p).
Proof.
  intros Hok. revert e p. induction Hok as [|m ms Hm Hms IH]; intros e p Hp; [done|].
  rewrite proc_messages_cons. cbn [fold_left].
  pose proof (IH _ _ (message_refines m e p Hm Hp)) as Hr. rewrite message_interval in Hr. exact Hr.
Qed.

End polling.

Section polling_consequences.
Context {X W : Type} `{Kernel W} `{!CdevMethods X W} `{!EngineMethods X W} `{!EngineLaws X W}.
Context (TDRUNDIR : string) (depth : nat).

Definition is_fast (m : message) : bool :=
  match m with FAST_POLL_ENABLE _ | FAST_POLL_DISABLE _ => true | _ => false end.
Definition mask_timeout (mask : Z) : Z := if truthy mask then def_poll_interval else -1.

(** Without fast polling, the timeout is a function of the mask: after
    any messages, the engine polls every 4 seconds if some sensor asked for it
    and has not withdrawn, and waits for events otherwise. *)
Theorem plain_polling_timeout ms (e : engine X W) :
  m_poll_interval_sec (mach e) = 0 -> existsb is_fast ms = false ->
  poll_timeout_msec e = mask_timeout (poll_sensor_mask e) -> Forall sensor_id_ok ms ->
  let e' := snd (proc_messages TDRUNDIR depth ms e) in
  poll_timeout_msec e' = mask_timeout (poll_sensor_mask e').
Proof.
  intros Hi Hf Ht Hok. revert e Hi Ht. induction Hok as [|m ms Hm Hms IH]; intros e Hi Ht; [done|].
  cbn in Hf. apply orb_false_iff in Hf as [Hfm Hf].
  rewrite proc_messages_cons. apply IH; [done|by rewrite message_interval|].
  destruct (is_poll m) eqn:Ep.
  2: { destruct (message_frame TDRUNDIR depth m e Ep) as [Hq _].
       unfold polls in Hq. apply pair_equal_spec in Hq as [Hq _]. apply pair_equal_spec in Hq as [Hq _].
       apply pair_equal_spec in Hq as [E1 E2]. by rewrite E1, E2. }
  destruct m as [| | |type data| |id|id|id|id]; try discriminate.
  - cbn. rewrite Hi. cbn. unfold mask_timeout.
    destruct (truthy _) eqn:E; [done|]. apply truthy_false in E. exfalso.
    assert (Hb : Z.testbit (mask_set (poll_sensor_mask e) id) id = true).
    { cbn in Hm. unfold mask_set, sensor_bit.
      rewrite Z.lor_spec, (Z.mod_small id 32), u32_bit, bit_of_one, Z.eqb_refl by lia.
      rewrite (proj2 (Z.ltb_lt id 32)) by lia. apply orb_true_r. }
    rewrite E, Z.bits_0 in Hb. discriminate.
  - cbn. rewrite Hi. cbn. unfold mask_timeout in *.
    destruct (truthy (mask_clear (poll_sensor_mask e) id)) eqn:E; cbn; rewrite E; [|done].
    destruct (truthy (poll_sensor_mask e)) eqn:E0; [done|].
    apply truthy_false in E0. rewrite E0 in E. done.
Qed.

(** What a polling trip sends when the temperature rises over it and falls
    back ([polling_check]). *)
Definition excursion (id : Z) : list message :=
  [POLL_ENABLE id; FAST_POLL_ENABLE id; POLL_DISABLE id; FAST_POLL_DISABLE id].

(** After one excursion over a polling trip the engine does not return to
    waiting for events: no sensor asks for polling any more, yet the timeout is
    the 4 seconds that fast polling saved, and every later excursion ends the
    same way. *)
Theorem excursion_leaves_polling_on id n (e : engine X W) :
  0 <= id < 32 -> m_poll_interval_sec (mach e) = 0 ->
  polling_of e (mk_poll_plan (-1) ∅ ∅ 0) ->
  let e' := snd (proc_messages TDRUNDIR depth (concat (replicate (S n) (excursion id))) e) in
  poll_timeout_msec e' = def_poll_interval /\ poll_sensor_mask e' = 0 /\ fast_poll_sensor_mask e' = 0.
Proof.
  intros Hid Hi Hp e'.
  assert (Hok : forall k, Forall sensor_id_ok (concat (replicate k (excursion id)))).
  { induction k as [|k IH]; cbn; [constructor|]. repeat (constructor; [done|]). exact IH. }
  assert (Hempty : (∅ ∪ {[ id ]}) ∖ {[ id ]} =@{gset Z} ∅).
  { apply set_eq. intros i. rewrite elem_of_difference, elem_of_union, !elem_of_singleton. set_solver +. }
  assert (Hs : forall k p, p_poll p = ∅ -> p_fast p = ∅ -> p_saved p = 4000 -> p_timeout p = 4000 ->
    fold_left (fun p m => poll_spec 0 m p) (concat (replicate k (excursion id))) p =
    mk_poll_plan 4000 ∅ ∅ 4000).
  { induction k as [|k IH]; intros [pt pp pf ps] H1 H2 H3 H4; cbn in *; subst; [done|].
    unfold poll_spec; cbn. rewrite !Hempty, !decide_True by done. by apply IH. }
  pose proof (messages_refine TDRUNDIR depth _ e _ (Hok (S n)) Hp) as (Ht & _ & Hm & Hf).
  fold e' in Ht, Hm, Hf. rewrite Hi in Ht, Hm, Hf.
  assert (Hfirst : fold_left (fun p m => poll_spec 0 m p) (concat (replicate (S n) (excursion id)))
    (mk_poll_plan (-1) ∅ ∅ 0) = mk_poll_plan 4000 ∅ ∅ 4000).
  { cbn. unfold poll_spec; cbn. rewrite !Hempty, !decide_True by done. by apply Hs. }
  rewrite Hfirst in Ht, Hm, Hf. split; [done|].
  split; [apply mask_of_empty in Hm|apply mask_of_empty in Hf];
    rewrite bool_decide_true in * by done; by apply truthy_false.
Qed.
End polling_consequences.

(** * The thread *)

Section disabled.
Context {X W : Type} `{Kernel W} `{!CdevMethods X W} `{!EngineMethods X W}.
Context (TDRUNDIR : string) (depth : nat) (thd_poll_interval poll_timeout_sec : Z).

(** Only the clock and the power meter moved. *)
Definition only_time (e e' : engine X W) : Prop :=
  zones e' = zones e /\ private e' = private e /\ exists w, mach e' = (mach e) <| m_w := w |>.

Lemma only_time_refl e : only_time e e.
Proof. split; [done|]. split; [done|]. exists (m_w (mach e)). by destruct (mach e). Qed.

Lemma only_time_trans a b c : only_time a b -> only_time b c -> only_time a c.
Proof.
  intros (H1 & H2 & w & H3) (G1 & G2 & v & G3). split; [congruence|]. split; [congruence|].
  exists v. by rewrite G3, H3.
Qed.

(** [due] holds of the worlds in which the time since [last] has passed the
    timeout; reading the clock and the power meter does not leave it. *)
Context (last : Z) (due : W -> Prop).
Context (due_past : forall w, due w -> fst (k_time w) - last >= poll_timeout_sec).
Context (due_clock : forall w, due w -> due (snd (k_time w))).
Context (due_meter : forall g w, due w -> due (snd (on_meter (rapl_measure_power g) w))).

Lemma disabled_run p (e : engine X W) (Q : engine X W -> Prop) :
  status e = false -> thz_last_temp_ind_time e = last -> due (m_w (mach e)) ->
  Q e ->
  (forall w, due w -> Q (e <| mach := (mach e) <| m_w := w |> |>)) ->
  Q (snd (iteration TDRUNDIR depth thd_poll_interval poll_timeout_sec p e)).
Proof.
  intros Hs Hl Hd Hstay Hmove. unfold iteration. destruct (poll_ret p <? 0); [done|].
  unfold bind at 1, on_w, on_mach, on_world.
  pose proof (due_past _ Hd) as Hpast. pose proof (due_clock _ Hd) as Hd1.
  destruct (k_time (m_w (mach e))) as [tm w1]. cbn in Hpast, Hd1.
  unfold bind at 1, measure, on_w, on_mach, on_world, gets, bind at 1. cbn -[poll_due on_meter].
  pose proof (due_meter (m_uninit (mach e)) _ Hd1) as Hd2.
  destruct (on_meter (rapl_measure_power (m_uninit (mach e))) w1) as [u w2].
  unfold bind at 1, get. specialize (Hmove w2 Hd2). cbn -[poll_due] in Hmove |- *.
  match goal with |- context [poll_due _ _ _ ?x] => set (e2 := x) in * end.
  assert (Hdue : poll_due poll_timeout_sec p tm e2 = true).
  { unfold poll_due. change (thz_last_temp_ind_time e2) with (thz_last_temp_ind_time e).
    rewrite Hl, (proj2 (Z.geb_le (tm - last) poll_timeout_sec)) by lia. apply orb_true_r. }
  rewrite Hdue, Hs. exact Hmove.
Qed.

Lemma disabled_iteration p (e : engine X W) :
  status e = false -> thz_last_temp_ind_time e = last -> due (m_w (mach e)) ->
  let e' := snd (iteration TDRUNDIR depth thd_poll_interval poll_timeout_sec p e) in
  only_time e e' /\ due (m_w (mach e')).
Proof.
  intros Hs Hl Hd.
  apply (disabled_run p e (fun e' => only_time e e' /\ due (m_w (mach e'))));
    try done.
  - split; [apply only_time_refl|done].
  - intros w Hd2. split; [|exact Hd2]. split; [done|]. split; [done|]. by exists w.
Qed.

(** C19: disabling the daemon is final.  Once the preference is "DISABLE" and
    the polling time has passed, no number of iterations of the thread, with
    any results of [poll], processes a message: neither the change of the
    preference that would enable it again nor a request to terminate.  Only
    the power meter and the clock move. *)
Theorem disabled_engine_is_deaf ps (e : engine X W) :
  status e = false -> thz_last_temp_ind_time e = last -> due (m_w (mach e)) ->
  only_time e (snd (thd_engine_thread TDRUNDIR depth thd_poll_interval poll_timeout_sec ps e)).
Proof.
  revert e. induction ps as [|p ps IH]; intros e Hs Hl Hd; [apply only_time_refl|].
  cbn [thd_engine_thread]. unfold bind at 1, get. destruct (terminate e); [apply only_time_refl|].
  destruct (disabled_iteration p e Hs Hl Hd) as [Ho Hd1]. unfold bind.
  destruct (iteration TDRUNDIR depth thd_poll_interval poll_timeout_sec p e) as [u e1]. cbn in Ho, Hd1.
  eapply only_time_trans; [exact Ho|].
  destruct Ho as (_ & Hp & _). unfold private in Hp.
  apply pair_equal_spec in Hp as [Hp Ht]. apply pair_equal_spec in Hp as [Hp Hq].
  apply IH; [congruence|congruence|exact Hd1].
Qed.
End disabled.

Section enabled.
Context {X W : Type} `{Kernel W} `{!CdevMethods X W} `{!EngineMethods X W} `{!EngineLaws X W}.
Context (TDRUNDIR : string) (depth : nat) (thd_poll_interval poll_timeout_sec : Z).

(** Enabled or not, terminating or not, as before; the pipe only grew. *)
Definition alive (e e' : engine X W) : Prop :=
  (status e', terminate e', wakeup_fd e') = (status e, terminate e, wakeup_fd e) /\
  exists sent, m_pipe (mach e') = m_pipe (mach e) ++ sent.

Instance alive_preorder : PreOrder alive.
Proof.
  split; [intros e; split; [done|]; exists []; by rewrite app_nil_r|].
  intros a b c [H1 [l H2]] [G1 [k G2]]. split; [congruence|].
  exists (l ++ k). by rewrite G2, H2, <- app_assoc.
Qed.

Lemma calm_alive {A} (m : State (engine X W) A) : steps calm m -> steps alive m.
Proof.
  intros Hm e. destruct (Hm e) as [Hp (_ & _ & _ & _ & (l & Hl & _) & _)]. unfold private in Hp.
  apply pair_equal_spec in Hp as [Hp _]. apply pair_equal_spec in Hp as [Hp Hs].
  apply pair_equal_spec in Hp as [Hp _]. apply pair_equal_spec in Hp as [_ Hf].
  split; [congruence|by exists l].
Qed.

Lemma alive_time (m : State (engine X W) unit) (f : engine X W -> engine X W) :
  steps calm m -> (forall e, alive e (f e)) -> steps alive (m ;; mode f).
Proof.
  intros Hm Hf. apply steps_bind; [apply _|by apply calm_alive|intros _ e; apply Hf].
Qed.

Lemma alive_same (e e' : engine X W) :
  (status e', terminate e', wakeup_fd e') = (status e, terminate e, wakeup_fd e) ->
  m_pipe (mach e') = m_pipe (mach e) -> alive e e'.
Proof. intros H1 H2. split; [done|]. exists []. by rewrite app_nil_r. Qed.

Lemma alive_kobj p : steps alive (kobj_event depth p).
Proof.
  unfold kobj_event. apply steps_bind; [apply _|apply steps_get, _|intros e].
  apply steps_if; [|apply steps_ret, _].
  apply steps_bind; [apply _|apply calm_alive, c_on_w|intros tm].
  apply steps_bind; [apply _|apply steps_get, _|intros e1].
  apply alive_time; [|intros e2; by apply alive_same].
  apply steps_if; [apply c_notify|apply steps_ret, _].
Qed.

Lemma alive_update tm : steps alive (update_event thd_poll_interval tm).
Proof.
  unfold update_event. apply steps_bind; [apply _|apply steps_get, _|intros e].
  apply steps_if; [|apply steps_ret, _].
  apply alive_time; [apply law_update|intros e2; by apply alive_same].
Qed.

(** A message that neither terminates nor changes the preference. *)
Definition routine (m : message) : bool :=
  match m with TERMINATE | PREF_CHANGED => false | _ => true end.

Lemma alive_message m : routine m = true -> steps alive (proc_message TDRUNDIR depth m).
Proof.
  intros Hr. unfold proc_message. apply steps_bind; [apply _|apply steps_get, _|intros e].
  assert (Hk : forall c : State (engine X W) unit, steps alive c -> steps alive (c ;; ret 0)).
  { intros c Hc. apply steps_bind; [apply _|exact Hc|intros _; apply steps_ret, _]. }
  destruct m; try discriminate Hr; try (apply steps_ret, _); apply Hk.
  - apply steps_if; [apply calm_alive, c_zone_change|apply steps_ret, _].
  - unfold thd_engine_reload_zones. apply steps_bind; [apply _|apply steps_get, _|intros e0].
    apply steps_bind; [apply _|apply calm_alive, c_destroy_zones|intros _].
    apply steps_bind; [apply _|intros e1; by apply alive_same|intros _].
    apply steps_bind; [apply _|apply calm_alive, law_read_zones|intros _; apply steps_ret, _].
  - apply steps_if; [apply steps_ret, _|]. intros e1. apply alive_same; reflexivity.
  - apply steps_if; [apply steps_ret, _|]. intros e1. unfold poll_enable_disable. cbn.
    destruct (truthy _); apply alive_same; reflexivity.
  - intros e1. unfold fast_poll_enable_disable. cbn. destruct (truthy _); apply alive_same; reflexivity.
  - intros e1. unfold fast_poll_enable_disable. cbn.
    destruct (truthy _); [|destruct (truthy _)]; apply alive_same; reflexivity.
Qed.

(** The part of an iteration before the pipe is read. *)
Lemma iteration_unfold p (e : engine X W) :
  poll_ret p >= 0 -> status e = true -> exists tm e1,
    alive e e1 /\
    iteration TDRUNDIR depth thd_poll_interval poll_timeout_sec p e =
    (go <- wakeup_event TDRUNDIR depth p ;;
     if negb go then ret tt else update_event thd_poll_interval tm ;; workarounds) e1.
Proof.
  intros Hp Hs. unfold iteration. rewrite (proj2 (Z.ltb_ge (poll_ret p) 0)) by lia.
  pose proof (calm_alive _ (c_on_w (X := X) (fun w : W => k_time w)) e) as A1. unfold bind at 1.
  destruct (on_w _ e) as [tm e1]. cbn in A1.
  pose proof (calm_alive _ c_measure e1) as A2. unfold bind at 1.
  destruct (measure e1) as [u e2]. cbn in A2. unfold bind at 1, get.
  assert (Hs2 : status e2 = true) by (destruct A1 as [A1 _], A2 as [A2 _]; congruence).
  rewrite Hs2, andb_false_r. unfold bind at 1.
  set (poll_zones := if poll_due poll_timeout_sec p tm e2 then _ else _).
  assert (A3 : steps alive poll_zones).
  { unfold poll_zones. apply steps_if; [|apply steps_ret, _].
    apply alive_time; [apply c_notify|intros e3; by apply alive_same]. }
  specialize (A3 e2). destruct (poll_zones e2) as [v e3].
  cbn in A3. pose proof (alive_kobj p e3) as A4. unfold bind at 1.
  destruct (kobj_event depth p e3) as [x e4]. cbn in A4. exists tm, e4. split; [|reflexivity].
  etransitivity; [exact A1|]. etransitivity; [exact A2|]. by etransitivity.
Qed.

Lemma alive_tail tm : steps alive (update_event thd_poll_interval tm ;; workarounds).
Proof.
  apply steps_bind; [apply _|apply alive_update|intros _; apply calm_alive, law_workarounds].
Qed.

Lemma wakeup_reads p (e : engine X W) m rest :
  poll_wakeup p = true -> wakeup_fd e >= 0 -> m_pipe (mach e) = m :: rest ->
  wakeup_event TDRUNDIR depth p e =
  (true, snd (proc_message TDRUNDIR depth m (e <| mach := (mach e) <| m_pipe := rest |> |>))).
Proof.
  intros Hw Hfd Hpipe. unfold wakeup_event, bind at 1, get.
  rewrite (proj2 (Z.geb_le (wakeup_fd e) 0)), Hw by lia. cbn [andb].
  unfold bind at 1, read_pipe. rewrite Hpipe. unfold bind. by destruct (proc_message _ _ m _).
Qed.

Lemma iteration_message p (e : engine X W) m rest :
  poll_ret p >= 0 -> poll_wakeup p = true -> status e = true -> wakeup_fd e >= 0 ->
  m_pipe (mach e) = m :: rest ->
  let e' := snd (iteration TDRUNDIR depth thd_poll_interval poll_timeout_sec p e) in
  (m = TERMINATE -> terminate e' = true) /\
  (routine m = true ->
   (status e', terminate e', wakeup_fd e') = (status e, terminate e, wakeup_fd e) /\
   exists sent, m_pipe (mach e') = rest ++ sent).
Proof.
  intros Hp Hw Hs Hfd Hpipe. destruct (iteration_unfold p e Hp Hs) as (tm & e1 & [A1 [l Hl]] & ->).
  rewrite Hpipe in Hl. unfold bind at 1.
  rewrite (wakeup_reads p e1 m (rest ++ l) Hw) by (done || (injection A1; intros; lia)).
  cbn [negb]. set (e2 := e1 <| mach := _ |>).
  destruct (alive_tail tm (snd (proc_message TDRUNDIR depth m e2))) as [A3 [l3 Hl3]]. split.
  - intros ->. by injection A3.
  - intros Hr. destruct (alive_message m Hr e2) as [A2 [l2 Hl2]]. split.
    + rewrite A3, A2. exact A1.
    + rewrite Hl3, Hl2. cbn. exists (l ++ l2 ++ l3). by rewrite <- !app_assoc.
Qed.

(** C18: an enabled daemon obeys.  While the pipe is reported readable, the
    thread processes one message per iteration, in the order they were sent,
    whatever the zones send meanwhile; a request to terminate that waits behind
    [n] routine messages ends the loop within [n+1] iterations. *)
Theorem terminate_is_obeyed routine_msgs rest ps (e : engine X W) :
  Forall (fun m => routine m = true) routine_msgs ->
  m_pipe (mach e) = routine_msgs ++ TERMINATE :: rest ->
  status e = true -> wakeup_fd e >= 0 ->
  Forall (fun p => poll_ret p >= 0 /\ poll_wakeup p = true) ps ->
  (length routine_msgs < length ps)%nat ->
  terminate (snd (thd_engine_thread TDRUNDIR depth thd_poll_interval poll_timeout_sec ps e)) = true.
Proof.
  intros Hr. revert rest ps e.
  induction Hr as [|m ms Hm Hms IH]; intros rest ps e Hpipe Hs Hfd Hps Hlen;
    destruct Hps as [|p ps [Hp Hw] Hps]; cbn in Hlen; try lia;
    cbn [thd_engine_thread]; unfold bind at 1, get;
    (destruct (terminate e) eqn:Et; [exact Et|]);
    pose proof (iteration_message p e _ _ Hp Hw Hs Hfd Hpipe) as Hi; unfold bind;
    destruct (iteration _ _ _ _ p e) as [u e1]; cbn in Hi.
  - destruct Hi as [Hi _]. specialize (Hi eq_refl).
    destruct ps; cbn; [exact Hi|]. unfold bind, get. by rewrite Hi.
  - destruct Hi as [_ Hi]. destruct (Hi Hm) as [Ha [sent Hsent]]. injection Ha as E1 E2 E3.
    apply (IH (rest ++ sent) ps e1); try congruence; [by rewrite Hsent, <- app_assoc|lia].
Qed.
End enabled.
