(* ===== verification/UserTheorems.v ===== *)
(** What the requests of a user promise (src/thd_engine.cpp, [user_]
    functions): sensors keep unique ids, a zone is added completely or not at
    all, and a set point is read back as it was set. *)
From stdpp Require Import base gmap strings list.
From Stdlib Require Import ZArith Lia.
From Stdlib Require String.
From S2P Require Import Prelude CString SysFs CFloat Pid Cdev PowerMeter Machine Preference TripPoint Zone ZoneTheorems ZoneFrame Engine EngineUser.

Open Scope string_scope.
Open Scope list_scope.
Open Scope Z_scope.

(** A file written through a stream reads back. *)
Class StreamLaws (W : Type) `{Kernel W} := {
  ofstream_reads_back path data w w' :
    k_ofstream path data w = (true, w') -> k_ifstream path w' = Some data;
}.
#[export] Instance sim_stream_laws : StreamLaws sim.
Proof. split. intros path data w w' E. cbn in E. simplify_eq. cbn. by rewrite lookup_insert_eq. Qed.

Section set_points.
Context {X W : Type} `{StreamLaws W} `{!CdevMethods X W} `{!EngineMethods X W} (TDRUNDIR : string).

(** The passive set point is a round trip.  A request for an unknown zone
    is an error and changes nothing.  When a request succeeds, the set point
    the zone reads at its next update is the one that was set, provided it is
    a temperature of at least 1000 millidegrees. *)
Theorem user_psv_roundtrip name temp (e : engine X W) :
  0 <= temp <= INT_MAX ->
  let '(r, e') := user_set_psv_temp TDRUNDIR name temp e in
  (get_zone name e = None -> r = THD_ERROR /\ e' = e) /\
  (r = THD_SUCCESS -> exists i z, get_zone name e = Some i /\ zones e !! i = Some z /\
     zones e' = zones e /\
     read_user_set_psv_temp TDRUNDIR z (m_w (mach e')) = (if temp <? 1000 then -1 else temp)).
Proof.
  intros Ht. unfold user_set_psv_temp, with_zone, bind at 1, get.
  destruct (get_zone name e) as [i|] eqn:Eg; [|split; [done|discriminate]].
  unfold get_zone in Eg. destruct (list_find _ (zones e)) as [[j z]|] eqn:Ef; [|done].
  cbn in Eg. simplify_eq. apply list_find_Some in Ef as (Hz & Hn & _).
  unfold on_zone. rewrite Hz. unfold update_psv_temperature, bind at 1, getz, gets. cbn [fst].
  unfold write_setting, bind, on_machine, on_world.
  destruct (k_ofstream (psv_file TDRUNDIR z) (string_of_Z (i32 temp)) (m_w (mach e))) as [[] w'] eqn:Eo;
    cbn; split; try done.
  intros _. exists i, z. split; [done|]. split; [done|]. split; [by apply list_insert_id|].
  unfold read_user_set_psv_temp. rewrite (ofstream_reads_back _ _ _ _ Eo).
  assert (Hi : is_i32 temp) by (unfold is_i32, INT_MIN, INT_MAX in *; lia).
  rewrite (i32_id _ Hi), istream_string_of_Z by done. reflexivity.
Qed.
End set_points.

Section sensors.
Context {X W : Type} `{Kernel W} `{!CdevMethods X W} `{!EngineMethods X W}.

(** The ids the polling masks use: distinct and below the next one. *)
Definition ids_ok (e : engine X W) : Prop :=
  NoDup (map s_index (m_sensors (mach e))) /\
  Forall (fun i => i < current_sensor_index e) (map s_index (m_sensors (mach e))).

(** ids and the next id are as before. *)
Definition same_ids (s s' : machine X W) : Prop :=
  map s_index (m_sensors s') = map s_index (m_sensors s).

Lemma ids_ok_same (e e' : engine X W) :
  map s_index (m_sensors (mach e')) = map s_index (m_sensors (mach e)) ->
  current_sensor_index e' = current_sensor_index e -> ids_ok e -> ids_ok e'.
Proof. unfold ids_ok. by intros -> ->. Qed.

Lemma ids_ok_push (e e' : engine X W) s :
  ids_ok e -> s_index s = current_sensor_index e ->
  m_sensors (mach e') = m_sensors (mach e) ++ [s] ->
  current_sensor_index e' = current_sensor_index e + 1 -> ids_ok e'.
Proof.
  intros [Hd Hf] Hs Hm Hc. unfold ids_ok. rewrite Hm, Hc, map_app. split.
  - apply NoDup_app. split; [done|]. split; [|apply NoDup_singleton].
    intros i Hi Hin. cbn in Hin. apply list_elem_of_singleton in Hin.
    rewrite Forall_forall in Hf. specialize (Hf i Hi). cbn in Hf. lia.
  - apply Forall_app. split; [|repeat constructor; cbn; lia].
    eapply Forall_impl; [exact Hf|]. cbn. lia.
Qed.

Lemma alter_ids f i (l : list sensor) :
  (forall x, s_index (f x) = s_index x) -> map s_index (alter f i l) = map s_index l.
Proof.
  intros Hf. revert i. induction l as [|x l IH]; intros [|i]; cbn; [done|done|by rewrite Hf|].
  f_equal. apply IH.
Qed.

(** Probing a raw sensor changes nothing but the vector. *)
Lemma try_raw_sensor s (e : engine X W) :
  s_type s = SENSOR_TYPE_RAW -> fd_cache (sensor_sysfs s) = ∅ ->
  let '(ok, e') := try_sensor s e in
  if ok : bool then e' = e <| mach := (mach e) <| m_sensors := m_sensors (mach e) ++ [s] |> |> else e' = e.
Proof.
  intros Ht Hfd. unfold try_sensor, bind at 1, on_mach at 1, modify. unfold bind at 1, get.
  set (e1 := e <| mach := _ |>).
  assert (Hl : pred (length (m_sensors (mach e1))) = length (m_sensors (mach e))).
  { cbn. rewrite length_app. cbn. lia. }
  rewrite Hl. set (i := length (m_sensors (mach e))).
  assert (Hat : m_sensors (mach e1) !! i = Some s) by (cbn; by apply list_lookup_middle).
  assert (Hup : exists r, sensor_update i (mach e1) = (r, mach e1)).
  { assert (Hsa : sensor_at i (mach e1) = s) by (unfold sensor_at; by rewrite Hat).
    unfold sensor_update, bind at 1, gets at 1. rewrite Hsa, Ht. cbn [Z.eqb].
    clearbody e1. clear Hl. unfold bind, on_sensor_fs. cbn. rewrite Hat.
    destruct (exists_path _ _) as [ex [fs w]] eqn:Ee. unfold exists_path, gets in Ee. injection Ee as _ <- <-.
    eexists. unfold ret. f_equal. rewrite list_insert_id by (rewrite Hat; by destruct s).
    by destruct (mach e1). }
  destruct Hup as [r Hr]. unfold bind at 1, on_mach at 1. rewrite Hr.
  destruct (r =? THD_SUCCESS); cbn -[i].
  - reflexivity.
  - unfold sensor_at. cbn -[i]. cbn -[i] in Hat. rewrite Hat. cbn -[i]. unfold destroy_csys_fs.
    rewrite Hfd, map_to_list_empty. cbn -[i]. unfold i. rewrite take_app_length.
    destruct e as [zs m]. by destruct m.
Qed.

(** Sensor ids stay unique.  Adding a sensor or a virtual sensor, or
    changing one that exists, keeps the ids distinct and below the next id,
    whatever the outcome; a request that is refused for its path leaves the
    engine as it was. *)
Theorem sensor_ids_unique name path dep slope intercept (e : engine X W) :
  ids_ok e -> is_i32 (current_sensor_index e + 1) ->
  ids_ok (snd (user_add_sensor name path e)) /\
  ids_ok (snd (user_add_virtual_sensor name dep slope intercept e)) /\
  (starts_with path "/sys/" = false -> user_add_sensor name path e = (THD_ERROR, e)).
Proof.
  intros Hids Hi. split; [|split].
  - unfold user_add_sensor. destruct (String.eqb path ""); [done|].
    destruct (negb _); [done|]. unfold bind at 1, get.
    destruct (sensor_named name (mach e)) as [i|].
    + apply (ids_ok_same e); [|done|done]. cbn. apply alter_ids. intros x.
      unfold sensor_update_path. by destruct (starts_with _ _).
    + set (s := new_sensor _ _ _ _). unfold bind at 1.
      pose proof (try_raw_sensor s e eq_refl eq_refl) as Hs. destruct (try_sensor s e) as [[] e1]; [|by rewrite Hs].
      subst e1. apply (ids_ok_push e _ s); [done|done|done|]. cbn. by apply i32_id.
  - unfold user_add_virtual_sensor, bind at 1, get. destruct (sensor_named name (mach e)) as [i|].
    + destruct (s_virtual _); [|done]. unfold on_mach.
      assert (Hsame : same_ids (mach e) (snd (sensor_update_param i dep slope intercept (mach e)))).
      { unfold sensor_update_param, bind, gets, same_ids. destruct (search_sensor dep (mach e)); [|done].
        cbn. by apply alter_ids. }
      destruct (sensor_update_param _ _ _ _ _) as [r s]. by apply (ids_ok_same e).
    + unfold bind at 1, on_mach at 1, modify. set (s := new_virtual _ _ _ _ _ _ _).
      apply (ids_ok_push e _ s); [done|done|done|]. cbn. by apply i32_id.
  - intros Hp. unfold user_add_sensor. destruct (String.eqb path ""); [done|]. by rewrite Hp.
Qed.
End sensors.

Section user_zones.
Context {X W : Type} `{Kernel W} `{!CdevMethods X W} `{!EngineMethods X W} (TDRUNDIR : string).

(** The name and the binding of a zone are as before. *)
Definition same_name (a b : zone * machine X W) : Prop :=
  z_type_str (fst b) = z_type_str (fst a) /\
  zone_cdev_binded_status (fst b) = zone_cdev_binded_status (fst a).
Instance same_name_preorder : PreOrder same_name.
Proof. split; [intros a; done|]. intros a b c [H1 H2] [G1 G2]. split; congruence. Qed.

Lemma name_machine {A} (m : State (machine X W) A) : steps same_name (on_machine m).
Proof. intros [z s]. unfold on_machine. by destruct (m s). Qed.

Lemma name_sort : steps same_name sort_and_update_poll_trip.
Proof.
  assert (Hget : steps same_name (getz (X := X) (W := W))) by (intros s; done).
  assert (Hmod : forall f, steps same_name (modz (X := X) (W := W) (fun z => z <| trip_points := f z |>)))
    by (intros f [z s]; done).
  pose proof (@name_machine). unfold sort_and_update_poll_trip, sensor_index. steps_tac.
Qed.

(** One ordinary trip: the update adds the polling trip and nothing else. *)
Lemma single_trip_sort z s i t :
  sensors z = [i] -> erase_first is_polling (trip_points z) = [t] -> is_polling t = false ->
  let z' := fst (snd (sort_and_update_poll_trip (X := X) (z, s))) in
  sensors z' = [i] /\ (exists p, trip_points z' = [t; p] /\ t_type p = POLLING) /\
  erase_first is_polling (trip_points z') = [t].
Proof.
  intros Hs Ht Hp. pose proof (sort_update_one_sensor z i s Hs) as Hone.
  destruct (snd (sort_and_update_poll_trip (z, s))) as [z1 s1]. cbn [fst].
  destruct Hone as (T1 & S1 & _). unfold with_poll in T1. rewrite Ht in T1. cbn -[new_trip] in T1.
  split; [by rewrite S1|]. split; [eexists; split; [exact T1|done]|].
  rewrite T1. cbn -[new_trip]. by rewrite Hp.
Qed.

(** The passive trip a user's zone is built with. *)
Lemma dynamic_trip i c idx trip_temp sensor_name cdev_name name (s : machine X W) :
  search_sensor sensor_name s = Some i -> search_cdev cdev_name s = Some c ->
  exists z t, dynamic_read_trip_points trip_temp PASSIVE sensor_name cdev_name
                (bind_sensor i (new_zone_dynamic idx name), s) = (THD_SUCCESS, (z, s)) /\
    z_type_str z = name /\ sensors z = [i] /\ zone_cdev_binded_status z = true /\
    trip_points z = [t] /\ t_type t = PASSIVE /\ temp t = u32 trip_temp /\ map tc_cdev (cdevs t) = [c].
Proof.
  intros Hs Hc. unfold dynamic_read_trip_points, bind, on_machine, gets. rewrite Hs.
  cbn -[new_trip]. rewrite Hc. cbn -[new_trip].
  do 2 eexists. split; [reflexivity|]. done.
Qed.

Lemma dynamic_no_cdev i trip_temp sensor_name cdev_name z (s : machine X W) :
  search_sensor sensor_name s = Some i -> search_cdev cdev_name s = None ->
  dynamic_read_trip_points trip_temp PASSIVE sensor_name cdev_name (z, s) = (THD_ERROR, (z, s)).
Proof.
  intros Hs Hc. unfold dynamic_read_trip_points, bind, on_machine, gets. rewrite Hs.
  cbn -[new_trip]. by rewrite Hc.
Qed.

Lemma dynamic_bind i sensor_name z (s : machine X W) :
  search_sensor sensor_name s = Some i ->
  dynamic_bind_sensors sensor_name (z, s) = (THD_SUCCESS, (bind_sensor i z, s)).
Proof. intros Hs. unfold dynamic_bind_sensors, bind, on_machine, gets. by rewrite Hs. Qed.

Lemma dynamic_bind_none sensor_name z (s : machine X W) :
  search_sensor sensor_name s = None ->
  dynamic_bind_sensors sensor_name (z, s) = (THD_ERROR, (z, s)).
Proof. intros Hs. unfold dynamic_bind_sensors, bind, on_machine, gets. by rewrite Hs. Qed.

(** The steps of [zone_update] after the trips are known. *)
Definition finish_update (psv : Z) (idx : Z) : State (zone * machine X W) Z :=
  (if psv >? 0
   then update_highest_trip_temp (new_trip 0 PASSIVE psv 0 idx DEFAULT_SENSOR_ID PARALLEL) else ret tt) ;;
  ret 0 ;; sort_and_update_poll_trip ;; ret THD_SUCCESS.

Lemma zone_update_run (b r : State (zone * machine X W) Z) z z1 z2 s s1 s2 :
  b (z, s) = (THD_SUCCESS, (z1, s1)) -> r (z1, s1) = (THD_SUCCESS, (z2, s2)) ->
  zone_update TDRUNDIR b r (ret 0) (z, s) =
  finish_update (read_user_set_psv_temp TDRUNDIR z2 (m_w s2)) (z_index z2) (z2, s2).
Proof.
  intros Eb Er. unfold zone_update. rewrite (bind_eq _ _ _ _ _ Eb). cbn [negb Z.eqb THD_SUCCESS].
  rewrite (bind_eq _ _ _ _ _ Er). reflexivity.
Qed.

(** The last steps keep the one passive trip, at the stored set point if there is one. *)
Lemma finish_single psv idx z s i t :
  sensors z = [i] -> trip_points z = [t] -> t_type t = PASSIVE ->
  exists z' s' p t', finish_update psv idx (z, s) = (THD_SUCCESS, (z', s')) /\
    z_type_str z' = z_type_str z /\ zone_cdev_binded_status z' = zone_cdev_binded_status z /\
    sensors z' = [i] /\ trip_points z' = [t'; p] /\ t_type p = POLLING /\ t_type t' = PASSIVE /\
    cdevs t' = cdevs t /\ temp t' = if psv >? 0 then u32 psv else temp t.
Proof.
  intros Hs Ht Hty.
  assert (Hlast : forall z1 (s1 : machine X W) t1, sensors z1 = [i] ->
    erase_first is_polling (trip_points z1) = [t1] ->
    t_type t1 = PASSIVE -> exists z' s' p,
    (ret 0 ;; sort_and_update_poll_trip ;; ret THD_SUCCESS) (z1, s1) = (THD_SUCCESS, (z', s')) /\
    z_type_str z' = z_type_str z1 /\ zone_cdev_binded_status z' = zone_cdev_binded_status z1 /\
    sensors z' = [i] /\ trip_points z' = [t1; p] /\ t_type p = POLLING /\
    erase_first is_polling (trip_points z') = [t1]).
  { intros z1 s1 t1 H1 H2 H3. unfold bind, ret. pose proof (name_sort (z1, s1)) as [N B].
    destruct (single_trip_sort z1 s1 i t1 H1 H2) as (S1 & (p & T1 & P1) & E1);
      [unfold is_polling; by rewrite H3|].
    destruct (sort_and_update_poll_trip (z1, s1)) as [u [z' s']]. cbn in *. by exists z', s', p. }
  unfold finish_update. destruct (psv >? 0).
  - set (np := new_trip 0 PASSIVE psv 0 idx DEFAULT_SENSOR_ID PARALLEL).
    set (z1 := z <| trip_points := [retemp np t] |>).
    assert (Eu : update_highest_trip_temp np (z, s) = sort_and_update_poll_trip (z1, s)).
    { unfold update_highest_trip_temp, bind at 1, getz, gets. cbn [fst]. rewrite Ht.
      unfold bind, modz, modify. cbn [rev app update_first]. unfold same_type.
      change (t_type np) with PASSIVE. by rewrite Hty. }
    unfold bind at 1. rewrite Eu. pose proof (name_sort (z1, s)) as [N B].
    destruct (single_trip_sort z1 s i (retemp np t)) as (S1 & _ & E1);
      [done|cbn; unfold is_polling; cbn; by rewrite Hty|unfold is_polling; cbn; by rewrite Hty|].
    destruct (sort_and_update_poll_trip (z1, s)) as [u [z2 s2]]. cbn [fst snd] in *.
    destruct (Hlast z2 s2 (retemp np t)) as (z' & s' & p & E & N' & B' & S' & T' & P' & _); try done.
    exists z', s', p, (retemp np t). split_and!; try done; [by rewrite N', N|by rewrite B', B].
  - unfold bind at 1, ret at 1.
    destruct (Hlast z s t) as (z' & s' & p & E & N' & B' & S' & T' & P' & _); try done.
    { rewrite Ht. cbn. unfold is_polling. by rewrite Hty. }
    exists z', s', p, t. by split_and!.
Qed.

Lemma activate_zone created z (s : machine X W) :
  fst (snd (set_zone_active created (z, s))) = z <| zone_active := true |>.
Proof.
  unfold set_zone_active, bind, getz, gets, on_machine. cbn. by destruct (first_virtual z s).
Qed.

(** C29: a user's zone is added completely or not at all.  The request fails
    exactly when the sensor or the device is unknown, and then the engine is
    unchanged.  Otherwise one zone is appended; it is active, named and bound,
    it watches the sensor alone, and its trips are the polling trip and one
    passive trip that drives the device, at the temperature asked for unless a
    passive set point is stored for a zone of that name. *)
Theorem user_add_zone_all_or_nothing created name trip_temp sensor_name cdev_name (e : engine X W) :
  let '(r, e') := user_add_zone TDRUNDIR created name trip_temp sensor_name cdev_name e in
  match search_sensor sensor_name (mach e), search_cdev cdev_name (mach e) with
  | Some i, Some c =>
      r = THD_SUCCESS /\ exists z t p,
        zones e' = zones e ++ [z] /\ zone_active z = true /\ z_type_str z = name /\
        zone_cdev_binded_status z = true /\ sensors z = [i] /\
        trip_points z = [t; p] /\ t_type p = POLLING /\ t_type t = PASSIVE /\
        map tc_cdev (cdevs t) = [c] /\
        let psv := read_user_set_psv_temp TDRUNDIR z (m_w (mach e)) in
        temp t = u32 (if psv >? 0 then psv else trip_temp)
  | _, _ => r = THD_ERROR /\ e' = e
  end.
Proof.
  unfold user_add_zone, dynamic_zone_update.
  assert (Hself : e <| mach := mach e |> = e) by (by destruct e).
  destruct (search_sensor sensor_name (mach e)) as [i|] eqn:Es.
  2: { unfold zone_update, bind at 1. rewrite dynamic_bind_none by done. done. }
  destruct (search_cdev cdev_name (mach e)) as [c|] eqn:Ec.
  2: { unfold zone_update. rewrite (bind_eq _ _ _ _ _ (dynamic_bind i _ _ _ Es)). cbn [negb Z.eqb THD_SUCCESS].
       rewrite (bind_eq _ _ _ _ _ (dynamic_no_cdev i _ _ _ _ _ Es Ec)). done. }
  destruct (dynamic_trip i c (current_zone_index e) trip_temp sensor_name cdev_name name (mach e) Es Ec)
    as (z1 & t1 & E1 & N1 & S1 & B1 & T1 & P1 & U1 & C1).
  rewrite (zone_update_run _ _ _ _ _ _ _ _ (dynamic_bind i _ _ _ Es) E1).
  destruct (finish_single (read_user_set_psv_temp TDRUNDIR z1 (m_w (mach e))) (z_index z1) z1 (mach e) i t1
              S1 T1 P1) as (z' & s' & p & t' & E & N & B & S & T & Pp & Pt & C & U).
  rewrite E. cbn [Z.eqb THD_SUCCESS].
  pose proof (activate_zone created z' s') as A. destruct (set_zone_active created (z', s')) as [u [z2 s2]].
  cbn [fst snd] in A. subst z2. split; [done|].
  exists (z' <| zone_active := true |>), t', p. split_and!; try done.
  - cbn. by rewrite N.
  - cbn. by rewrite B.
  - by rewrite C.
  - assert (Hpsv : read_user_set_psv_temp TDRUNDIR (z' <| zone_active := true |>) (m_w (mach e)) =
                   read_user_set_psv_temp TDRUNDIR z1 (m_w (mach e))).
    { unfold read_user_set_psv_temp, psv_file. cbn. by rewrite N. }
    cbn zeta. rewrite Hpsv, U, U1. by destruct (_ >? 0).
Qed.
End user_zones.
