(* ===== verification/Witnesses.v ===== *)
(** Concrete runs: the theorems about cooling devices, trips, zones and the
    engine applied to a fan behind a sysfs file of the simulated kernel. *)
From stdpp Require Import base gmap strings list.
From Stdlib Require Import ZArith Lia Sorted.
From Stdlib Require String.
From S2P Require Import Prelude CString MeterData SysFs CFloat Pid Cdev CdevLimits CdevControl CdevDevices PowerMeter Machine Preference TripPoint TripTheorems Zone ZoneTheorems ZoneFrame Engine EngineUser EngineTheorems UserTheorems.

Open Scope string_scope.
Open Scope list_scope.
Open Scope Z_scope.

(** A fan with the states 0 to 10, at rest. *)
Definition fan_world : sim := mk_sim {[ "/sys/fan" := "0" ]} [] 1000.
Definition fan : cdev gen_ext :=
  (new_cdev 0 "/sys/fan" GenSysfsCdev) <| type_str := "fan" |> <| max_state := 10 |> <| inc_dec_val := 1 |>.

(** A trip that asks for a state, and one that withdraws. *)
Definition ask_for (zone_id trip_id v : Z) : set_args :=
  mk_args 80000 80000 85000 0 1 zone_id trip_id 1 v None false 0 0 0.
Definition withdraw (zone_id trip_id : Z) : set_args :=
  mk_args 80000 80000 70000 0 0 zone_id trip_id 1 0 None false 0 0 0.

Definition held : zone_trip_limits_t := mk_limit 1 2 1 4 0 0 0.
Definition held_fan : cdev gen_ext := fan <| zone_trip_limits := [held] |> <| curr_state := 4 |>.

Section cdev.
Abbreviation pid := new_pid.

Lemma set_state_registry_witness :
  let d' := fst (snd (thd_cdev_set_state (ask_for 1 3 6) pid (held_fan, fan_world))) in
  zone_trip_limits d' = limits_after (ask_for 1 3 6) held_fan /\
  limits_ok d' /\ (1, 3) ∈ keys (zone_trip_limits d').
Proof.
  destruct (set_state_registry (ask_for 1 3 6) pid held_fan fan_world) as (H1 & H2 & H3).
  - apply NoDup_singleton.
  - split; [exact H1|]. split; [exact H2|]. apply H3. reflexivity.
Defined.

Lemma activation_last_witness :
  let l := zone_trip_limits (fst (snd (thd_cdev_set_state (ask_for 1 3 6) pid (held_fan, fan_world)))) in
  In held l /\ more_restrictive held_fan (target_value (List.last l no_limit)) (target_value held).
Proof.
  assert (Hin : In held (zone_trip_limits
    (fst (snd (thd_cdev_set_state (ask_for 1 3 6) pid (held_fan, fan_world)))))) by (vm_compute; auto).
  split; [exact Hin|].
  apply (activation_last_is_most_restrictive (ask_for 1 3 6) held_fan pid fan_world held);
    [reflexivity|reflexivity|reflexivity|reflexivity|exact Hin].
Defined.

Lemma exponential_command_witness :
  exists v s1,
    thd_cdev_exponential_controller 0 0 0 (held_fan, fan_world) =
      (m_set_curr_state v 0 ;; m_get_curr_state ;; ret THD_SUCCESS) s1 /\
    within_max (fst s1) v /\ (truthy 0 = false -> in_range (fst s1) v).
Proof. apply (exponential_command_in_range 0 0 0 (held_fan, fan_world)). done. Defined.


Lemma debounce_witness :
  let d := held_fan <| last_state := 1 |> <| last_action_time := 999 |> in
  thd_cdev_set_state (ask_for 1 2 4) pid (d, fan_world) = ((THD_SUCCESS, pid), (d, fan_world)).
Proof.
  apply (debounce_ignores_repeat _ _ _ fan_world fan_world 1000); try reflexivity. cbn.
  unfold default_debounce_interval. lia.
Defined.

Lemma other_trip_witness :
  thd_cdev_set_state (withdraw 1 7) pid (held_fan, fan_world) = ((THD_SUCCESS, pid), (held_fan, fan_world)).
Proof.
  apply (other_trip_cannot_deactivate _ _ _ fan_world fan_world 1000); try reflexivity. discriminate.
Defined.

End cdev.

(** The intel_pstate driver after its update. *)
Definition pstate_world : sim :=
  mk_sim {[ "/sys/devices/system/cpu/intel_pstate//max_perf_pct" := "100" ]} [] 0.

Lemma pstate_percent_witness :
  let d := fst (snd (pstate_update (new_pstate 0, pstate_world))) in
  pstate_percent (ext d) 3 = 70 /\
  (pstate_percent (ext d) 3 <= turbo_disable_percent <-> 3 <= 3) /\
  pstate_map_target_state d 1 (pstate_percent (ext d) 3) = 3.
Proof.
  apply (pstate_percent_exact (new_pstate 0, pstate_world)
           (snd (pstate_update (new_pstate 0, pstate_world))) 3).
  - vm_compute. reflexivity.
  - vm_compute. split; discriminate.
Defined.

(** * Trips *)

Definition fans : machine gen_ext sim :=
  mk_machine fan_world [fan; fan <| type_str := "fan2" |>] [new_sensor 0 "/sys/t" "cpu" SENSOR_TYPE_RAW]
    [] 0 0 false 0 0.
Definition fan_trip (c : trip_control_type_t) : trip_point :=
  (new_trip 0 PASSIVE 80000 5000 1 0 c) <| cdevs := [new_trip_cdev 0; new_trip_cdev 1] |>.

Lemma trip_hysteresis_witness :
  let t := (fan_trip PARALLEL) <| trip_on := true |> in
  let '((r, reset), (t', s')) := thd_trip_point_check 0 77000 PREF_ENERGY_CONSERVE (t, fans) in
  r = true /\ reset = false /\
  (temp t <= 77000 -> trip_on t' = true) /\
  (trip_on t = true -> temp t - hyst t <= 77000 < temp t -> t' = t /\ s' = fans) /\
  (77000 < temp t - hyst t -> trip_on t' = false).
Proof.
  apply (trip_hysteresis 0 77000 PREF_ENERGY_CONSERVE ((fan_trip PARALLEL) <| trip_on := true |>) fans);
    [reflexivity|reflexivity|right; reflexivity|vm_compute; discriminate|lia|vm_compute; discriminate].
Defined.

Lemma critical_power_off_witness :
  let t := new_trip 0 CRITICAL 100000 0 1 0 PARALLEL in
  let '(t', s') := check_run 0 0 (replicate 7 105000) (t, fans) in
  Z.of_nat (m_power_offs s') = 1 /\ crit_trip_count t' = 2 /\
  (forall r, r < temp t ->
     let '(t2, s2) := snd (thd_trip_point_check 0 r 0 (t', s')) in
     crit_trip_count t2 = 0 /\ m_power_offs s2 = m_power_offs s').
Proof.
  apply (critical_power_off 0 0 (replicate 7 105000) (new_trip 0 CRITICAL 100000 0 1 0 PARALLEL) fans).
  - split; [reflexivity|]. split; [reflexivity|]. split; [right; reflexivity|reflexivity].
  - cbn. lia.
  - repeat constructor; vm_compute; discriminate.
Defined.

Lemma fan_pointers c : pointers_valid (fan_trip c) fans.
Proof.
  intros k p sp Hk. destruct k as [|[|k]]; cbn in Hk; simplify_eq; try (eexists; reflexivity).
Qed.

Lemma sequential_drives_one_witness :
  exists k, forall j, j <> k ->
    m_cdevs (snd (snd (activate_cdevs 2 0 85000 (fan_trip SEQUENTIAL, fans)))) !! j = m_cdevs fans !! j.
Proof.
  apply (sequential_drives_one 2 0 85000 (fan_trip SEQUENTIAL) fans);
    [reflexivity|apply fan_pointers|cbn; lia].
Defined.


(** * Zones *)

Lemma correlated_zone_witness :
  let z := two_sensor_zone <| sensor_rel := SENSORS_CORELATED |> <| zone_active := true |> in
  read_zone_temp 1 (z, two_sensors) =
  let '(ts, s1) := read_all 1 (sensors z) two_sensors in
  let m := fold_left Z.max ts 0 in
  let z1 := z <| zone_temp := m |> in
  match sensors z with
  | s0 :: _ => if truthy m
               then thermal_zone_temp_change (s_index (sensor_at s0 s1)) m (m_preference s1) (z1, s1)
               else (tt, (z1, s1))
  | [] => (tt, (z1, s1))
  end.
Proof.
  apply (correlated_zone_takes_max 1
    (two_sensor_zone <| sensor_rel := SENSORS_CORELATED |> <| zone_active := true |>) two_sensors);
    reflexivity.
Defined.

(** * The engine *)

(** [cthd_engine] itself, without a subclass. *)
#[export] Instance base_engine_methods {X W} : EngineMethods X W := {|
  read_thermal_zones := ret THD_SUCCESS;
  update_engine_state := ret tt;
  workarounds := ret tt |}.
#[export] Instance base_engine_laws {X W} : EngineLaws X W.
Proof. split; apply steps_ret, _. Qed.

Definition fan_engine : engine gen_ext sim :=
  (new_engine "" (mk_preference 0 0) fans) <| wakeup_fd := 0 |>.

Lemma fan_engine_idle : polling_of fan_engine (mk_poll_plan (-1) ∅ ∅ 0).
Proof.
  assert (Hm : mask_of 0 ∅).
  { split; [apply set_Forall_empty|]. intros i _. rewrite Z.bits_0. symmetry.
    apply bool_decide_eq_false, not_elem_of_empty. }
  split; [reflexivity|]. split; [reflexivity|]. by split.
Qed.


Lemma plain_polling_witness :
  let e' := snd (proc_messages "/run" 1 [POLL_ENABLE 3; POLL_ENABLE 4; POLL_DISABLE 3] fan_engine) in
  poll_timeout_msec e' = mask_timeout (poll_sensor_mask e').
Proof.
  apply (plain_polling_timeout "/run" 1 [POLL_ENABLE 3; POLL_ENABLE 4; POLL_DISABLE 3] fan_engine);
    [reflexivity|reflexivity|reflexivity|]. repeat constructor; cbn; lia.
Defined.

Lemma excursion_witness :
  let e' := snd (proc_messages "/run" 1 (concat (replicate 2 (excursion 3))) fan_engine) in
  poll_timeout_msec e' = def_poll_interval /\ poll_sensor_mask e' = 0 /\ fast_poll_sensor_mask e' = 0.
Proof.
  apply (excursion_leaves_polling_on "/run" 1 3 1 fan_engine); [lia|reflexivity|apply fan_engine_idle].
Defined.

(** The preference says "ENERGY_CONSERVE" again and a request to terminate
    follows; the disabled engine reads neither. *)
Definition disabled_engine : engine gen_ext sim :=
  fan_engine <| status := false |> <| mach := fans <| m_pipe := [PREF_CHANGED; TERMINATE] |> |>.

Lemma disabled_witness :
  only_time disabled_engine
    (snd (thd_engine_thread "/run" 1 4 0 (replicate 3 (mk_poll_in 1 false false true)) disabled_engine)).
Proof.
  apply (disabled_engine_is_deaf "/run" 1 4 0 0 (fun w => sim_meter w = no_meter /\ 0 <= sim_clock w)).
  - intros w [_ Hc]. cbn in *. lia.
  - intros w [Hm Hc]. done.
  - intros g w [Hm Hc]. unfold on_meter. cbn. by rewrite Hm.
  - reflexivity.
  - reflexivity.
  - split; [reflexivity|]. cbn. lia.
Defined.

Lemma terminate_witness :
  let e := fan_engine <| mach := fans <| m_pipe := [POLL_ENABLE 3; WAKEUP; TERMINATE] |> |> in
  terminate (snd (thd_engine_thread "/run" 1 4 0 (replicate 3 (mk_poll_in 1 false false true)) e)) = true.
Proof.
  apply (terminate_is_obeyed "/run" 1 4 0 [POLL_ENABLE 3; WAKEUP] []); try reflexivity.
  - repeat constructor.
  - cbn. lia.
  - repeat constructor; cbn; lia.
  - cbn. lia.
Defined.

(** * Users *)

Definition named_engine : engine gen_ext sim :=
  fan_engine <| zones := [(new_zone 0 "" SENSOR_INDEPENDENT) <| z_type_str := "cpu" |>] |>.

Lemma user_psv_witness :
  let '(r, e') := user_set_psv_temp "/run" "cpu" 70000 named_engine in
  (get_zone "cpu" named_engine = None -> r = THD_ERROR /\ e' = named_engine) /\
  (r = THD_SUCCESS -> exists i z, get_zone "cpu" named_engine = Some i /\ zones named_engine !! i = Some z /\
     zones e' = zones named_engine /\
     read_user_set_psv_temp "/run" z (m_w (mach e')) = (if 70000 <? 1000 then -1 else 70000)).
Proof. apply (user_psv_roundtrip "/run" "cpu" 70000 named_engine). unfold INT_MAX. lia. Defined.

Lemma sensor_ids_witness :
  let e := fan_engine <| current_sensor_index := 1 |> in
  ids_ok (snd (user_add_sensor "skin" "/sys/t" e)) /\
  ids_ok (snd (user_add_virtual_sensor "skin" "cpu" (double_of_Z 1) (double_of_Z 0) e)) /\
  (starts_with "/sys/t" "/sys/" = false -> user_add_sensor "skin" "/sys/t" e = (THD_ERROR, e)).
Proof.
  apply (sensor_ids_unique "skin" "/sys/t" "cpu" (double_of_Z 1) (double_of_Z 0)
           (fan_engine <| current_sensor_index := 1 |>)).
  - split; [apply NoDup_singleton|]. repeat constructor; cbn; lia.
  - cbn. unfold is_i32, INT_MIN, INT_MAX. lia.
Defined.
