(* ===== verification/Emergency.v ===== *)
(** The emergency power-off end to end: from the sensor of a zone through its
    trips to the engine's thread (src/thd_zone.cpp, src/thd_trip_point.cpp,
    src/thd_engine.cpp).  TripTheorems shows what one trip does with a sequence
    of readings; here the readings are those that the thread takes, between the
    checks of other trips and zones and the messages they send. *)
From stdpp Require Import base gmap strings list.
From Stdlib Require Import ZArith Lia.
From Stdlib Require String.
From S2P Require Import Prelude CString SysFs CFloat Pid Cdev PowerMeter Machine Preference TripPoint TripTheorems CdevControl CdevDevices Zone ZoneKinds ZoneTheorems ZoneFrame Engine EngineTheorems Witnesses.

Open Scope list_scope.
Open Scope Z_scope.

(** * What a check leaves of a trip *)

(** The members that no check writes. *)
Definition trip_face (t : trip_point) : trip_point :=
  t <| cdevs := [] |> <| trip_on := false |> <| poll_on := false |> <| crit_trip_count := 0 |>.

Section trips.
Context {X W : Type} `{Kernel W} `{!CdevMethods X W}.
Abbreviation face := (fun s : trip_point * machine X W => trip_face (fst s)).
Abbreviation count := (fun s : trip_point * machine X W => (trip_face (fst s), crit_trip_count (fst s))).

Lemma core_face {A} (m : State (trip_point * machine X W) A) :
  preserves (fun s => trip_core (fst s)) m -> preserves count m.
Proof.
  intros Hm s. specialize (Hm s). f_equal; [apply (f_equal trip_face) in Hm|apply (f_equal crit_trip_count) in Hm]; exact Hm.
Qed.

Lemma count_face {A} (m : State (trip_point * machine X W) A) : preserves count m -> preserves face m.
Proof. intros Hm s. apply (f_equal fst (Hm s)). Qed.

Lemma reset_count force : preserves count (thd_trip_cdev_state_reset (X := X) (W := W) force).
Proof.
  apply core_face. unfold thd_trip_cdev_state_reset. apply preserves_bind; [done|]. intros t.
  generalize (length (cdevs t)). intros i. induction i as [|i IH]; cbn [cdev_state_reset]; [done|].
  apply preserves_bind; [done|]. intros t0.
  apply preserves_bind; [apply preserves_if; [done|apply core_onm]|]. intros [].
  - by apply preserves_bind.
  - apply preserves_bind; [|done]. apply preserves_bind; [apply core_onm|done].
Qed.

Lemma face_modt f : (forall t, trip_face (f t) = trip_face t) -> preserves face (modt (X := X) (W := W) f).
Proof. intros Hf [t s]. apply Hf. Qed.

Lemma face_onm {A} (m : State (machine X W) A) : preserves face (onm m).
Proof. intros [t s]. unfold onm. by destruct (m s). Qed.

Lemma face_polling r : preserves face (polling_check (X := X) (W := W) r).
Proof.
  unfold polling_check. apply preserves_bind; [done|]. intros t.
  apply preserves_bind; [apply face_onm|]. intros [sn|]; [|done].
  repeat first [ apply preserves_if | apply preserves_bind; [|intros] | apply face_onm | by apply face_modt
               | apply preserves_ret ].
Qed.

Lemma face_emergency r : preserves face (emergency_check (X := X) (W := W) r).
Proof.
  unfold emergency_check, count_event. apply preserves_bind; [done|]. intros t.
  repeat first [ apply preserves_if | apply preserves_bind; [|intros] | apply face_onm | by apply face_modt
               | apply preserves_ret | done ].
Qed.

Lemma face_control r pref : preserves face (control_check (X := X) (W := W) r pref).
Proof.
  unfold control_check. apply preserves_bind; [done|]. intros t. apply preserves_if; [done|].
  destruct (trip_decision t r) as [on|]; [|done]. apply preserves_bind; [by apply face_modt|]. intros _.
  apply preserves_bind; [|done].
  apply preserves_if; apply count_face, core_face; [apply core_activate|apply core_deactivate].
Qed.

Lemma face_dependency r : preserves face (dependency_met (X := X) (W := W) r).
Proof.
  unfold dependency_met. apply preserves_bind; [done|]. intros t. destruct (depend_cdev t); [|done].
  apply preserves_if; [|done]. apply preserves_bind; [apply face_onm|done].
Qed.

Lemma face_check id r pref : preserves face (thd_trip_point_check (X := X) (W := W) id r pref).
Proof.
  unfold thd_trip_point_check. apply preserves_bind; [done|]. intros t.
  apply preserves_if; [done|]. apply preserves_bind; [apply face_dependency|]. intros met. apply preserves_if; [done|]. apply preserves_if; [done|].
  apply preserves_bind; [apply face_emergency|]. intros d. apply preserves_if; [done|]. apply preserves_if.
  - apply preserves_bind; [apply face_polling|done].
  - apply preserves_bind; [apply face_control|done].
Qed.

Lemma polling_no_reset r t (s : machine X W) : temp t <= r -> fst (polling_check r (t, s)) = false.
Proof.
  intros Ht. unfold polling_check. unfold bind at 1, gett, gets at 1. cbn [fst]. unfold bind at 1, onm at 1, gets at 1.
  destruct (get_sensor (sensor_id t) s) as [sn|]; [|done].
  replace (r >=? temp t) with true by (symmetry; rewrite Z.geb_leb; by apply Z.leb_le).
  replace (r <? temp t) with false by (symmetry; by apply Z.ltb_ge). rewrite andb_false_r, andb_true_r.
  destruct (poll_on t); [done|]. cbn [negb].
  do 5 (unfold bind at 1; match goal with |- context [let '(_, _) := ?m in _] => destruct m as [? [? ?]] end); done.
Qed.

(** A trip at or below the reading asks for no reset. *)
Lemma check_no_reset id r pref t (s : machine X W) :
  temp t <= r -> snd (fst (thd_trip_point_check id r pref (t, s))) = false.
Proof.
  intros Ht. assert (Hf : forall t', trip_face t' = trip_face t -> temp t' <= r).
  { intros t' E. apply (f_equal temp) in E. cbn in E. lia. }
  unfold thd_trip_point_check. unfold bind at 1, gett at 1, gets at 1. cbn [fst].
  destruct (is_type (t_type t) INVALID_TRIP_TYPE); [done|]. unfold bind at 1.
  pose proof (face_dependency r (t, s)) as F1. destruct (dependency_met r (t, s)) as [met [t1 s1]]. cbn [fst snd] in F1.
  destruct met; [|done]. cbn [negb]. destruct (_ && _); [done|]. unfold bind at 1.
  pose proof (face_emergency r (t1, s1)) as F2. destruct (emergency_check r (t1, s1)) as [dn [t2 s2]]. cbn [fst snd] in F2.
  destruct dn; [done|]. destruct (_ && _).
  - unfold bind at 1. assert (Hr : fst (polling_check r (t2, s2)) = false) by (apply polling_no_reset, Hf; congruence).
    destruct (polling_check r (t2, s2)) as [b st]. cbn in *. by subst.
  - unfold bind. by destruct (control_check r pref (t2, s2)).
Qed.
End trips.

(** * What a check leaves of a zone *)

Definition zone_face (z : zone) :=
  (zone_active z, sensors z, sensor_rel z, trip_face <$> trip_points z).
Definition trip_count (k : nat) (z : zone) : Z := from_option crit_trip_count 0 (trip_points z !! k).

(** Five times the power-offs plus the count of trip [k]. *)
Definition score {X W} (k : nat) (st : zone * machine X W) : Z :=
  5 * Z.of_nat (m_power_offs (snd st)) + trip_count k (fst st).

(** Everything but the count of trip [k] stays as [quiet] says, and that stays too. *)
Definition keeps {X W} (k : nat) (a b : zone * machine X W) : Prop :=
  zone_face (fst b) = zone_face (fst a) /\ trip_count k (fst b) = trip_count k (fst a) /\ quiet (snd a) (snd b).

#[export] Instance keeps_preorder {X W} k : PreOrder (@keeps X W k).
Proof.
  split; [intros a; split; [done|split; [done|reflexivity]]|].
  intros a b c (H1 & H2 & H3) (G1 & G2 & G3). split; [congruence|]. split; [congruence|]. by transitivity (snd b).
Qed.

Lemma keeps_score {X W} k (a b : zone * machine X W) : keeps k a b -> score k a <= score k b.
Proof. intros (_ & E & _ & _ & _ & _ & _ & Hp). unfold score. rewrite E. lia. Qed.

Section zones.
Context {X W : Type} `{Kernel W} `{!CdevMethods X W} (depth k : nat).

Lemma k_on_trip {A} j (dflt : A) (m : State (trip_point * machine X W) A) :
  preserves (fun s => trip_face (fst s)) m -> steps quiet_t m ->
  (j = k -> preserves (fun s => crit_trip_count (fst s)) m) -> steps (keeps k) (on_trip j dflt m).
Proof.
  intros Hf Hq Hc [z s]. unfold on_trip. destruct (trip_points z !! j) as [t|] eqn:Ht; [|reflexivity].
  specialize (Hf (t, s)). specialize (Hq (t, s)).
  assert (Hk : j = k -> crit_trip_count (fst (snd (m (t, s)))) = crit_trip_count t) by (intros E; apply (Hc E (t, s))).
  destruct (m (t, s)) as [a [t' s']]. cbn [fst snd] in *. split; [|split; [|exact Hq]].
  - unfold zone_face. f_equal. change (trip_face <$> <[j := t']> (trip_points z) = trip_face <$> trip_points z).
    rewrite list_fmap_insert, Hf. apply list_insert_id. by rewrite list_lookup_fmap, Ht.
  - change (from_option crit_trip_count 0 (<[j := t']> (trip_points z) !! k) = trip_count k z). unfold trip_count.
    destruct (decide (j = k)) as [->|Hjk].
    + rewrite list_lookup_insert_eq by (by eapply lookup_lt_Some). rewrite Ht. cbn. auto.
    + by rewrite list_lookup_insert_ne.
Qed.

Lemma k_getz : steps (@keeps X W k) getz.
Proof. apply steps_gets, _. Qed.

Lemma k_on_machine {A} (m : State (machine X W) A) : steps quiet m -> steps (keeps k) (on_machine m).
Proof. intros Hm [z s]. unfold on_machine. specialize (Hm s). by destruct (m s). Qed.

Lemma k_modz f : (forall z, zone_face (f z) = zone_face z) -> (forall z, trip_count k (f z) = trip_count k z) ->
  steps (@keeps X W k) (modz f).
Proof. intros Hf Hc [z s]. split; [apply Hf|]. split; [apply Hc|reflexivity]. Qed.

Lemma k_zone_reset force : steps (@keeps X W k) (zone_reset force).
Proof.
  unfold zone_reset. apply steps_bind; [apply _|apply k_getz|]. intros z.
  apply steps_if; [|apply steps_ret, _]. generalize (length (trip_points z)). intros i.
  induction i as [|i IH]; cbn [reset_trips]; [apply steps_ret, _|].
  apply steps_bind; [apply _| |by intros _]. apply k_on_trip; [apply count_face, reset_count|apply q_trip_reset|].
  intros _ st. apply (f_equal snd (reset_count force st)).
Qed.

(** The trips after [k]. *)
Lemma k_check_trips n i id r pref : (k < i)%nat -> steps (@keeps X W k) (check_trips n i id r pref).
Proof.
  revert i. induction n as [|n IH]; intros i Hi; cbn [check_trips]; [apply steps_ret, _|].
  apply steps_bind; [apply _| |].
  - apply k_on_trip; [apply face_check|apply q_trip_check|lia].
  - intros [a reset]. apply steps_if; [apply k_zone_reset|apply IH; lia].
Qed.
End zones.

(** Trip [k] is an unconditional critical one for every sensor, and neither it
    nor a trip before it is above [T]. *)
Definition guarded (k : nat) (T : Z) (z : zone) : Prop :=
  (exists t, trip_points z !! k = Some t /\
    t_type t = CRITICAL /\ depend_cdev t = None /\ sensor_id t = DEFAULT_SENSOR_ID) /\
  (forall j t, (j <= k)%nat -> trip_points z !! j = Some t -> temp t <= T) /\
  0 <= trip_count k z <= 4.

Lemma face_lookup z z' j t' : zone_face z' = zone_face z -> trip_points z' !! j = Some t' ->
  exists t, trip_points z !! j = Some t /\ trip_face t = trip_face t'.
Proof.
  intros E Ht. apply (f_equal snd) in E. cbn [zone_face snd] in E.
  assert (Hj : (trip_face <$> trip_points z) !! j = Some (trip_face t')) by (rewrite <- E, list_lookup_fmap, Ht; done).
  rewrite list_lookup_fmap in Hj. destruct (trip_points z !! j) as [t|]; [|done]. exists t.
  split; [done|exact (f_equal (default (trip_face t)) Hj)].
Qed.

Lemma face_fields t t' : trip_face t = trip_face t' ->
  (t_type t', depend_cdev t', sensor_id t', temp t') = (t_type t, depend_cdev t, sensor_id t, temp t).
Proof. destruct t, t'. intros E. by inversion E. Qed.

Lemma guarded_face k T z z' :
  zone_face z' = zone_face z -> 0 <= trip_count k z' <= 4 -> guarded k T z -> guarded k T z'.
Proof.
  intros E Hc ((t & Ht & Hty & Hd & Hs) & Hle & _). split; [|split; [|done]].
  - destruct (face_lookup z' z k t (eq_sym E) Ht) as (t' & Ht' & Hf). exists t'.
    apply face_fields in Hf. simplify_eq. repeat split; congruence.
  - intros j t' Hj Hlt. destruct (face_lookup z z' j t' E Hlt) as (t0 & Ht0 & Hf).
    specialize (Hle j t0 Hj Ht0). apply face_fields in Hf. simplify_eq. congruence.
Qed.

Lemma guarded_keeps {X W} k T (a b : zone * machine X W) : keeps k a b -> guarded k T (fst a) -> guarded k T (fst b).
Proof. intros (E & Hc & _) Hg. eapply guarded_face; [exact E| |exact Hg]. rewrite Hc. apply Hg. Qed.

(** A reading at or above the trip, between the other checks of the zone. *)
Definition hits {X W} (k : nat) (a b : zone * machine X W) : Prop :=
  zone_face (fst b) = zone_face (fst a) /\ quiet (snd a) (snd b) /\
  0 <= trip_count k (fst b) <= 4 /\ score k a + 1 <= score k b.

Lemma keeps_hits {X W} k (a b c : zone * machine X W) : keeps k a b -> hits k b c -> hits k a c.
Proof.
  intros Hk (G1 & G2 & G3 & G4). pose proof (keeps_score k a b Hk). destruct Hk as (K1 & K2 & K3).
  split; [congruence|]. split; [by transitivity (snd b)|]. split; [done|lia].
Qed.

Lemma hits_keeps {X W} k (a b c : zone * machine X W) : hits k a b -> keeps k b c -> hits k a c.
Proof.
  intros (G1 & G2 & G3 & G4) Hk. pose proof (keeps_score k b c Hk). destruct Hk as (K1 & K2 & K3).
  split; [congruence|]. split; [by transitivity (snd b)|]. split; [by rewrite K2|lia].
Qed.

Section hot.
Context {X W : Type} `{Kernel W} `{!CdevMethods X W} (depth k : nat) (T : Z).

Lemma on_trip_hit id r pref z (s : machine X W) :
  guarded k T z -> m_ignore_critical s = false -> T <= r ->
  snd (fst (on_trip k (false, false) (thd_trip_point_check id r pref) (z, s))) = false /\
  hits k (z, s) (snd (on_trip k (false, false) (thd_trip_point_check id r pref) (z, s))).
Proof.
  intros ((t & Ht & Hty & Hd & Hs) & Hle & Hc) Hi Hr. unfold on_trip. rewrite Ht.
  assert (Hcrit : critical_trip id t s) by (split; [done|]; split; [done|]; split; [by left|done]).
  assert (Hlt : temp t <= r) by (specialize (Hle k t ltac:(lia) Ht); lia).
  rewrite (critical_over id r pref t s Hcrit Hlt). unfold trip_count in Hc. rewrite Ht in Hc. cbn [from_option] in Hc.
  assert (Hcnt : forall t' s', trip_face t' = trip_face t -> quiet s s' -> 0 <= crit_trip_count t' <= 4 ->
    5 * Z.of_nat (m_power_offs s) + crit_trip_count t + 1 <= 5 * Z.of_nat (m_power_offs s') + crit_trip_count t' ->
    hits k (z, s) (z <| trip_points := <[k := t']> (trip_points z) |>, s')).
  { intros t' s' Hf Hq Hb Hsc. assert (Hk : trip_count k (z <| trip_points := <[k := t']> (trip_points z) |>) = crit_trip_count t').
    { change (from_option crit_trip_count 0 (<[k := t']> (trip_points z) !! k) = crit_trip_count t').
      by rewrite list_lookup_insert_eq by (by eapply lookup_lt_Some). }
    split; [|split; [exact Hq|]].
    - unfold zone_face. f_equal. change (trip_face <$> <[k := t']> (trip_points z) = trip_face <$> trip_points z).
      rewrite list_fmap_insert, Hf. apply list_insert_id. by rewrite list_lookup_fmap, Ht.
    - cbn [fst]. rewrite Hk. split; [done|]. unfold score. cbn [fst snd]. rewrite Hk. unfold trip_count. rewrite Ht. exact Hsc. }
  destruct (Z.ltb_spec (crit_trip_count t) 4); (split; [done|]); apply Hcnt; try done; try (cbn; lia).
  apply (q_power_off s).
Qed.

(** All the trips of the zone. *)
Lemma check_trips_hit n i id r pref (st : zone * machine X W) :
  guarded k T (fst st) -> m_ignore_critical (snd st) = false -> T <= r -> (i <= k < i + n)%nat ->
  hits k st (snd (check_trips n i id r pref st)).
Proof.
  revert i st. induction n as [|n IH]; intros i [z s] Hg Hi Hr Hk; [lia|]. cbn [check_trips]. unfold bind at 1.
  destruct (decide (i = k)) as [->|Hne].
  - destruct (on_trip_hit id r pref z s Hg Hi Hr) as [Hrs Hh].
    destruct (on_trip k _ _ (z, s)) as [[a reset] st']. cbn [fst snd] in *. subst reset.
    eapply hits_keeps; [exact Hh|]. apply k_check_trips. lia.
  - assert (Hkp : keeps k (z, s) (snd (on_trip i (false, false) (thd_trip_point_check id r pref) (z, s)))).
    { apply k_on_trip; [apply face_check|apply q_trip_check|lia]. }
    assert (Hrs : snd (fst (on_trip i (false, false) (thd_trip_point_check id r pref) (z, s))) = false).
    { unfold on_trip. destruct (trip_points z !! i) as [t|] eqn:Ht; [|done].
      pose proof (check_no_reset id r pref t s) as Hn. destruct (thd_trip_point_check id r pref (t, s)) as [ab [t' s']].
      apply Hn. destruct Hg as (_ & Hle & _). specialize (Hle i t ltac:(lia) Ht). lia. }
    destruct (on_trip i _ _ (z, s)) as [[a reset] st']. cbn [fst snd] in *. subst reset.
    eapply keeps_hits; [exact Hkp|]. apply IH; [by eapply guarded_keeps|by rewrite (proj1 (proj2 (proj2 (proj2 (proj2 Hkp)))))|done|lia].
Qed.

(** The zone has one sensor, which reads at least [T]. *)
Definition one_sensor (sn : nat) (z : zone) : Prop := zone_active z = true /\ sensors z = [sn].

Lemma temp_change_hit id r pref (st : zone * machine X W) :
  guarded k T (fst st) -> m_ignore_critical (snd st) = false -> T <= r ->
  hits k st (snd (thermal_zone_temp_change id r pref st)).
Proof.
  intros Hg Hi Hr. unfold thermal_zone_temp_change, bind at 1, getz, gets. apply check_trips_hit; try done.
  destruct Hg as ((t & Ht & _) & _). apply lookup_lt_Some in Ht. lia.
Qed.

Lemma read_zone_temp_hit sn z (s : machine X W) :
  guarded k T z -> one_sensor sn z -> m_ignore_critical s = false -> 0 < T ->
  T <= fst (read_temperature depth sn s) -> hits k (z, s) (snd (read_zone_temp depth (z, s))).
Proof.
  intros Hg [Ha Hs] Hi HT Hr. unfold read_zone_temp. unfold bind at 1, getz at 1, gets at 1. cbn [fst]. rewrite Ha, Hs.
  cbn [negb mfor]. unfold bind at 1, modz at 1, modify at 1. unfold read_one.
  pose proof (q_read_temperature (X := X) (W := W) depth sn s) as Hq.
  unfold bind, modz, modify, getz, gets, sensor_index, on_machine, ret.
  destruct (read_temperature depth sn s) as [r s1]. cbn [fst snd] in *.
  set (z1 := z <| zone_temp := r |>).
  assert (Hk : keeps k (z, s) (z1, s1)) by (split; [done|]; split; [done|exact Hq]).
  assert (Hh : forall id pref, hits k (z, s) (snd (thermal_zone_temp_change id r pref (z1, s1)))).
  { intros id pref. eapply keeps_hits; [exact Hk|]. apply temp_change_hit; [by eapply guarded_keeps| |done].
    cbn [snd]. by rewrite (proj1 (proj2 (proj2 Hq))). }
  cbn [fst snd]. change (zone_temp (z <| zone_temp := 0 |>)) with 0. replace (0 <? r) with true by (symmetry; apply Z.ltb_lt; lia).
  change (z <| zone_temp := 0 |> <| zone_temp := r |>) with z1. change (sensor_rel z1) with (sensor_rel z).
  destruct (sensor_rel z) eqn:Hrel; unfold gets; cbv beta iota.
  - specialize (Hh (s_index (sensor_at sn s1)) (m_preference s1)).
    destruct (thermal_zone_temp_change _ r _ (z1, s1)) as [u st']. cbn [snd] in Hh.
    assert (Hrel' : sensor_rel (fst st') = SENSOR_INDEPENDENT).
    { rewrite <- Hrel. exact (f_equal (fun p => snd (fst p)) (proj1 Hh)). }
    by rewrite Hrel'.
  - change (sensor_rel (fst (z1, s1))) with (sensor_rel z). change (sensors (fst (z1, s1))) with (sensors z).
    change (zone_temp (fst (z1, s1))) with r. rewrite Hrel, Hs. unfold truthy.
    replace (r =? 0) with false by (symmetry; apply Z.eqb_neq; lia). cbn [negb]. apply Hh.
Qed.
End hot.

(** * The thread *)

(** The thread runs on: enabled, not terminating, critical trips obeyed, only
    requests to poll waiting; power-offs are not called off. *)
Definition steady {X W} (e e' : engine X W) : Prop :=
  status e' = status e /\ terminate e' = terminate e /\
  m_ignore_critical (mach e') = m_ignore_critical (mach e) /\
  (Forall poll_message (m_pipe (mach e)) -> Forall poll_message (m_pipe (mach e'))) /\
  (m_power_offs (mach e) <= m_power_offs (mach e'))%nat.

#[export] Instance steady_preorder {X W} : PreOrder (@steady X W).
Proof.
  split; [intros e; repeat split; auto|].
  intros a b c (H1 & H2 & H3 & H4 & H5) (G1 & G2 & G3 & G4 & G5).
  repeat split; try congruence; [auto|lia].
Qed.

Lemma calm_steady {X W} (e e' : engine X W) : calm e e' -> steady e e'.
Proof.
  intros [Hp (_ & _ & Hi & _ & (l & Hl & Hf) & Ho)]. unfold private in Hp.
  apply pair_equal_spec in Hp as [Hp _]. apply pair_equal_spec in Hp as [_ Hs].
  split; [congruence|]. split; [congruence|]. split; [done|]. split; [|done].
  intros Hm. rewrite Hl. by apply Forall_app.
Qed.

(** Zone [i] is left alone too. *)
Definition spares {X W} (i : nat) (e e' : engine X W) : Prop := zones e' !! i = zones e !! i /\ steady e e'.

#[export] Instance spares_preorder {X W} i : PreOrder (@spares X W i).
Proof.
  split; [intros e; split; [done|reflexivity]|].
  intros a b c [H1 H2] [G1 G2]. split; [congruence|by transitivity b].
Qed.

(** What a subclass does periodically leaves the zones alone. *)
Class EngineStill (X W : Type) `{EngineMethods X W} := {
  still_update : forall i, steps (spares i) update_engine_state;
  still_workarounds : forall i, steps (spares i) workarounds;
}.

(** Zone [i] has the critical trip [k] and one sensor; the thread is running. *)
Definition armed {X W} (i k sn : nat) (T : Z) (e : engine X W) : Prop :=
  (exists z, zones e !! i = Some z /\ guarded k T z /\ one_sensor sn z) /\
  status e = true /\ terminate e = false /\ m_ignore_critical (mach e) = false /\
  Forall poll_message (m_pipe (mach e)).

Definition engine_score {X W} (i k : nat) (e : engine X W) : Z :=
  5 * Z.of_nat (m_power_offs (mach e)) + from_option (trip_count k) 0 (zones e !! i).

Lemma spares_armed {X W} i k sn T (e e' : engine X W) :
  spares i e e' -> armed i k sn T e -> armed i k sn T e' /\ engine_score i k e <= engine_score i k e'.
Proof.
  intros (Hz & H1 & H2 & H3 & H4 & H5) (G0 & G1 & G2 & G3 & G4). split.
  - rewrite <- Hz in G0. split; [done|]. repeat split; try congruence. auto.
  - unfold engine_score. rewrite Hz. lia.
Qed.

Section thread.
Context {X W : Type} `{Kernel W} `{!CdevMethods X W} `{!EngineMethods X W} `{!EngineStill X W}.
Context (TDRUNDIR : string) (depth i k sn : nat) (T : Z).
Abbreviation EM := (State (engine X W)).

Lemma s_calm {A} (m : EM A) : steps calm m -> preserves zones m -> steps (spares i) m.
Proof. intros Hc Hz e. split; [by rewrite Hz|apply calm_steady, Hc]. Qed.

Lemma s_on_mach {A} (m : State (machine X W) A) : steps quiet m -> steps (spares i) (on_mach m).
Proof.
  intros Hm. apply s_calm; [by apply c_on_mach|]. intros e. unfold on_mach. by destruct (m (mach e)).
Qed.

Lemma s_on_zone j (m : State (zone * machine X W) unit) : steps quiet_z m -> j <> i -> steps (spares i) (on_zone j tt m).
Proof.
  intros Hm Hj e. split; [|apply calm_steady, c_on_zone, Hm].
  unfold on_zone. destruct (zones e !! j) as [z|]; [|done]. destruct (m (z, mach e)) as [a [z' s']].
  by apply list_lookup_insert_ne.
Qed.

Lemma s_other_zones l (m : State (zone * machine X W) unit) : steps quiet_z m -> i ∉ l ->
  steps (spares i) (mfor l (fun j => on_zone j tt m)).
Proof.
  intros Hm. induction l as [|j l IH]; cbn [mfor]; [intros _; apply steps_ret, _|].
  intros [Hj Hl]%not_elem_of_cons. apply steps_bind; [apply _|by apply s_on_zone|auto].
Qed.

Lemma mfor_app {S A} (l l' : list A) (body : A -> State S unit) s :
  mfor (l ++ l') body s = mfor l' body (snd (mfor l body s)).
Proof.
  revert s. induction l as [|a l IH]; intros s; [done|]. cbn [app mfor]. unfold bind. destruct (body a s) as [u s']. apply IH.
Qed.

(** The zones before [i] are checked. *)
Definition before_zone : EM unit := mfor (seq 0 i) (fun j => on_zone j tt (zone_temperature_notification depth)).
Definition reading_at (e : engine X W) : Z := fst (read_temperature depth sn (mach (snd (before_zone e)))).

Lemma on_zone_hit (e : engine X W) : armed i k sn T e -> 0 < T -> T <= fst (read_temperature depth sn (mach e)) ->
  let e' := snd (on_zone i tt (zone_temperature_notification depth) e) in
  armed i k sn T e' /\ engine_score i k e + 1 <= engine_score i k e'.
Proof.
  intros ((z & Hz & Hg & Hs) & H1 & H2 & H3 & H4) HT Hr.
  pose proof (calm_steady _ _ (c_on_zone i tt (zone_temperature_notification depth) (q_read_zone_temp depth) e)) as Hst.
  pose proof (read_zone_temp_hit depth k T sn z (mach e) Hg Hs H3 HT Hr) as (F1 & F2 & F3 & F4).
  unfold on_zone in *. rewrite Hz in *. change (zone_temperature_notification depth) with (read_zone_temp (X := X) (W := W) depth) in *.
  destruct (read_zone_temp depth (z, mach e)) as [u [z' s']]. cbn [fst snd] in *. destruct Hst as (S1 & S2 & S3 & S4 & S5).
  set (e' := e <| zones := _ |> <| mach := _ |>) in *.
  assert (Hz' : zones e' !! i = Some z') by (apply list_lookup_insert_eq; by eapply lookup_lt_Some).
  split; [|unfold engine_score; rewrite Hz', Hz; exact F4].
  split; [|repeat split; try congruence; auto]. exists z'. split; [done|]. split; [by eapply guarded_face|].
  unfold one_sensor in *. injection F1 as -> -> _ _. done.
Qed.

Lemma notify_hit (e : engine X W) : armed i k sn T e -> 0 < T -> T <= reading_at e ->
  let e' := snd (for_zones (zone_temperature_notification depth) e) in
  armed i k sn T e' /\ engine_score i k e + 1 <= engine_score i k e'.
Proof.
  intros Ha HT Hr. unfold for_zones, bind, get. cbv zeta.
  assert (Hi : (i < length (zones e))%nat) by (destruct Ha as [(z & Hz & _) _]; by eapply lookup_lt_Some).
  replace (length (zones e)) with (i + S (length (zones e) - S i))%nat by lia. rewrite seq_app. cbn [plus seq].
  rewrite mfor_app. cbn [mfor]. fold before_zone. unfold reading_at in Hr. unfold bind.
  pose proof (s_other_zones (seq 0 i) (zone_temperature_notification depth) (q_read_zone_temp depth)
    ltac:(rewrite elem_of_seq; lia) e) as Hb. fold before_zone in Hb.
  destruct (spares_armed _ k sn T _ _ Hb Ha) as [Ha1 Hs1].
  destruct (on_zone_hit (snd (before_zone e)) Ha1 HT Hr) as [Ha2 Hs2].
  destruct (on_zone i tt _ (snd (before_zone e))) as [u e2]. cbn [snd] in *.
  pose proof (s_other_zones (seq (S i) (length (zones e) - S i)) (zone_temperature_notification depth) (q_read_zone_temp depth)
    ltac:(rewrite elem_of_seq; lia) e2) as Hb2.
  destruct (spares_armed _ k sn T _ _ Hb2 Ha2) as [Ha3 Hs3]. split; [done|lia].
Qed.

(** ** One iteration *)

Lemma s_mode f : (forall e, zones (f e) = zones e /\ mach (f e) = mach e /\ status (f e) = status e /\ terminate (f e) = terminate e) ->
  steps (@spares X W i) (mode f).
Proof.
  intros Hf e. destruct (Hf e) as (H1 & H2 & H3 & H4). split; [exact (f_equal (lookup i) H1)|].
  unfold steady, mode, modify. cbn [snd]. rewrite H2. auto.
Qed.

(** Handling a request to poll. *)
Lemma s_poll_message m : poll_message m -> steps (spares i) (proc_message TDRUNDIR depth m).
Proof.
  intros Hm e. unfold proc_message, bind at 1, get.
  assert (Hk : forall c : EM unit, steps (spares i) c -> steps (spares i) (c ;; ret 0)).
  { intros c Hc. apply steps_bind; [apply _|exact Hc|intros _; apply steps_ret, _]. }
  destruct m; try done; apply Hk; try (apply steps_if; [apply steps_ret, _|]); apply s_mode; intros e0;
    unfold poll_enable_disable, fast_poll_enable_disable; cbn; repeat destruct (truthy _); done.
Qed.

Lemma s_wakeup p (e : engine X W) : Forall poll_message (m_pipe (mach e)) ->
  spares i e (snd (wakeup_event TDRUNDIR depth p e)).
Proof.
  intros Hp. unfold wakeup_event, bind at 1, get. destruct (_ && _); [|reflexivity].
  unfold bind at 1, read_pipe. destruct (m_pipe (mach e)) as [|m rest] eqn:E; [reflexivity|].
  apply Forall_cons in Hp as [Hm Hrest]. set (e1 := e <| mach := _ |>).
  assert (H1 : spares i e e1) by (split; [done|]; unfold steady; cbn; auto).
  unfold bind. pose proof (s_poll_message m Hm e1) as H2. destruct (proc_message _ _ m e1) as [v e2]. by transitivity e1.
Qed.

Section loop.
Context (thd_poll_interval poll_timeout_sec : Z).

Lemma s_update_event tm : steps (spares i) (update_event thd_poll_interval tm).
Proof.
  unfold update_event. apply steps_bind; [apply _|apply steps_get, _|intros e]. apply steps_if; [|apply steps_ret, _].
  apply steps_bind; [apply _|apply still_update|intros _; by apply s_mode].
Qed.

Lemma s_measure : steps (spares i) (measure (X := X) (W := W)).
Proof.
  unfold measure. apply steps_bind; [apply _|apply steps_gets, _|intros g]. apply s_on_mach. auto with thd.
Qed.

(** No event of a thermal zone is reported. *)
Definition no_uevent (p : poll_in) : Prop := poll_uevent p && uevent_match p = false.

Lemma no_kobj p (e : engine X W) : no_uevent p -> kobj_event depth p e = (tt, e).
Proof.
  unfold no_uevent. intros Hp. unfold kobj_event, bind at 1, get. by rewrite <- andb_assoc, Hp, andb_false_r.
Qed.

(** When this iteration polls the zones, the sensor reads [T] or more. *)
Definition hot_iteration (p : poll_in) (e : engine X W) : Prop :=
  let '(tm, e1) := on_w (fun w => k_time w) e in
  let e2 := snd (measure e1) in
  poll_due poll_timeout_sec p tm e2 = true -> T <= reading_at e2.

Lemma tail_armed p tm (e : engine X W) : no_uevent p -> armed i k sn T e ->
  let e' := snd ((kobj_event depth p ;; go <- wakeup_event TDRUNDIR depth p ;;
    if negb go then ret tt else update_event thd_poll_interval tm ;; workarounds) e) in
  armed i k sn T e' /\ engine_score i k e <= engine_score i k e'.
Proof.
  intros Hp Ha. cbv zeta. apply (spares_armed i k sn T); [|done]. unfold bind at 1. rewrite (no_kobj p e Hp). unfold bind at 1.
  pose proof (s_wakeup p e (proj2 (proj2 (proj2 (proj2 Ha))))) as Hw.
  destruct (wakeup_event _ _ p e) as [go e1]. etrans; [exact Hw|]. destruct go; [|reflexivity].
  refine (steps_bind _ (update_event thd_poll_interval tm) (fun _ => workarounds) (s_update_event tm) _ e1).
  intros _. apply still_workarounds.
Qed.

Lemma iteration_hit p (e : engine X W) : armed i k sn T e -> 0 < T -> no_uevent p -> hot_iteration p e ->
  let e' := snd (iteration TDRUNDIR depth thd_poll_interval poll_timeout_sec p e) in
  armed i k sn T e' /\ engine_score i k e + (if poll_ret p =? 0 then 1 else 0) <= engine_score i k e'.
Proof.
  intros Ha HT Hp Hh. set (Q (e' : engine X W) := armed i k sn T e' /\ engine_score i k e + (if poll_ret p =? 0 then 1 else 0)
    <= engine_score i k e').
  change (Q (snd (iteration TDRUNDIR depth thd_poll_interval poll_timeout_sec p e))). unfold iteration. destruct (Z.ltb_spec (poll_ret p) 0) as [Hneg|Hpos].
  { unfold Q. rewrite (proj2 (Z.eqb_neq (poll_ret p) 0)) by lia. split; [done|cbn; lia]. }
  unfold hot_iteration in Hh. pose proof (s_on_mach _ (q_on_world (fun w : W => k_time w)) e) as S1. unfold bind at 1.
  change (on_mach (on_world (fun w : W => k_time w)) e) with (on_w (X := X) (fun w : W => k_time w) e) in S1.
  destruct (on_w _ e) as [tm e1]. cbn [snd] in S1. pose proof (s_measure e1) as S2. unfold bind at 1.
  destruct (measure e1) as [u e2]. cbn [snd] in S2, Hh. unfold bind at 1, get.
  destruct (spares_armed i k sn T e e2 ltac:(by etrans) Ha) as [A2 C2].
  rewrite (proj1 (proj2 A2)), andb_false_r. unfold bind at 1.
  destruct (poll_due poll_timeout_sec p tm e2) eqn:Hdue.
  - destruct (notify_hit e2 A2 HT (Hh eq_refl)) as [A3 C3]. unfold bind at 1.
    destruct (for_zones _ e2) as [v e3]. cbn [snd] in A3, C3.
    destruct (spares_armed i k sn T e3 (e3 <| thz_last_temp_ind_time := tm |>)
      ltac:(by apply (s_mode (fun e => e <| thz_last_temp_ind_time := tm |>))) A3) as [A4 C4].
    destruct (tail_armed p tm _ Hp A4) as [A5 C5]. split; [exact A5|]. etrans; [|exact C5].
    etrans; [|exact C4]. destruct (poll_ret p =? 0); lia.
  - destruct (tail_armed p tm _ Hp A2) as [A5 C5]. split; [exact A5|]. unfold poll_due in Hdue.
    apply orb_false_iff in Hdue as [-> _]. etrans; [|exact C5]. lia.
Qed.

(** ** The loop *)

Fixpoint stays_hot (ps : list poll_in) (e : engine X W) : Prop :=
  match ps with
  | [] => True
  | p :: rest => hot_iteration p e /\
      stays_hot rest (snd (iteration TDRUNDIR depth thd_poll_interval poll_timeout_sec p e))
  end.
(** The calls of [poll] that timed out. *)
Definition timeouts (ps : list poll_in) : Z := Z.of_nat (length (List.filter (fun p => poll_ret p =? 0) ps)).

Lemma thread_hits ps (e : engine X W) : armed i k sn T e -> 0 < T -> Forall no_uevent ps -> stays_hot ps e ->
  let e' := snd (thd_engine_thread TDRUNDIR depth thd_poll_interval poll_timeout_sec ps e) in
  armed i k sn T e' /\ engine_score i k e + timeouts ps <= engine_score i k e'.
Proof.
  intros Ha HT Hp. revert e Ha. induction Hp as [|p ps Hp Hps IH]; intros e Ha Hh.
  - split; [done|]. change (timeouts []) with 0. cbn [thd_engine_thread ret snd]. lia.
  - destruct Hh as [Hh Hrest].
    destruct (iteration_hit p e Ha HT Hp Hh) as [A1 C1]. destruct (IH _ A1 Hrest) as [A2 C2].
    assert (E : thd_engine_thread TDRUNDIR depth thd_poll_interval poll_timeout_sec (p :: ps) e =
      thd_engine_thread TDRUNDIR depth thd_poll_interval poll_timeout_sec ps
        (snd (iteration TDRUNDIR depth thd_poll_interval poll_timeout_sec p e))).
    { cbn [thd_engine_thread]. unfold bind at 1, get. rewrite (proj1 (proj2 (proj2 Ha))). unfold bind. by destruct (iteration _ _ _ _ p e). }
    rewrite E. split; [done|]. etrans; [|exact C2]. unfold timeouts in *. cbn [List.filter].
    destruct (poll_ret p =? 0); cbn [length]; lia.
Qed.

End loop.
End thread.

(** ** When the trips of a zone are deleted *)

Lemma filter_split {A} (f : A -> bool) (l1 l2 : list A) x : f x = true ->
  List.filter f (l1 ++ x :: l2) = List.filter f l1 ++ x :: List.filter f l2.
Proof. intros Hx. rewrite List.filter_app. cbn. by rewrite Hx. Qed.

(** Deleting the trips of a zone, as a change of policy does, takes the
    emergency with them; the variant for Android keeps it. *)
Theorem deletion_and_emergency k T z : guarded k T z ->
  (exists k', guarded k' T (android_trip_delete_all z)) /\ forall k', ~ guarded k' T (trip_delete_all z).
Proof.
  intros ((t & Ht & Hty & Hd & Hs) & Hle & Hc). split.
  2: { intros k' ((t' & Ht' & _) & _). cbn in Ht'. by rewrite lookup_nil in Ht'. }
  pose proof (take_drop_middle _ _ _ Ht) as El. set (l1 := take k (trip_points z)) in *. set (l2 := drop (S k) (trip_points z)) in *.
  assert (Hf : List.filter emergency_trip (trip_points z) = List.filter emergency_trip l1 ++ t :: List.filter emergency_trip l2).
  { rewrite <- El at 1. apply filter_split. unfold emergency_trip. by rewrite Hty. }
  exists (length (List.filter emergency_trip l1)).
  assert (Hk : trip_points (android_trip_delete_all z) !! length (List.filter emergency_trip l1) = Some t).
  { change (List.filter emergency_trip (trip_points z) !! length (List.filter emergency_trip l1) = Some t).
    rewrite Hf. by apply list_lookup_middle. }
  split; [by exists t|]. split.
  - intros j t' Hj Hlt. change (List.filter emergency_trip (trip_points z) !! j = Some t') in Hlt. rewrite Hf in Hlt.
    destruct (decide (j = length (List.filter emergency_trip l1))) as [->|Hne].
    + rewrite list_lookup_middle in Hlt by done. injection Hlt as <-. by apply (Hle k).
    + rewrite lookup_app_l in Hlt by lia. apply list_elem_of_lookup_2, list_elem_of_In, List.filter_In in Hlt as [Hlt _].
      apply list_elem_of_In, list_elem_of_lookup in Hlt as [i Hi]. unfold l1 in Hi. apply lookup_take_Some in Hi as [Hi Hik].
      apply (Hle i t'); [lia|done].
  - unfold trip_count in *. rewrite Hk. by rewrite Ht in Hc.
Qed.

(** [cthd_engine] itself does nothing in these places. *)
#[export] Instance base_engine_still {X W} : EngineStill X W.
Proof. split; intros i; apply steps_ret, _. Qed.

(** A zone whose sensor reads 105 degrees, with a passive trip before the
    critical one and a polling trip behind it; another zone comes first. *)
Definition hot_world : sim := mk_sim {[ "/sys/t" := "105000"; "/sys/fan" := "0" ]} [] 1000.
Definition hot_zone : zone :=
  (new_zone 1 "" SENSOR_INDEPENDENT) <| zone_active := true |> <| sensors := [0%nat] |>
    <| trip_points := [fan_trip PARALLEL; new_trip 1 CRITICAL 100000 0 1 DEFAULT_SENSOR_ID PARALLEL;
                       new_trip 2 POLLING 72000 0 1 0 PARALLEL] |>.
Definition hot_engine : engine gen_ext sim :=
  fan_engine <| mach := fans <| m_w := hot_world |> |>
    <| zones := [(new_zone 0 "" SENSOR_INDEPENDENT) <| zone_active := true |> <| sensors := [0%nat] |>
                   <| trip_points := [fan_trip PARALLEL] |>; hot_zone] |>.

(** Five polls that time out, and three wake-ups for the requests that the first
    poll sent. *)
Definition hot_polls : list poll_in :=
  let timeout := mk_poll_in 0 false false false in
  let wakeup := mk_poll_in 1 false false true in
  [timeout; wakeup; wakeup; timeout; timeout; wakeup; timeout; timeout].

