(* ===== verification/Gddv.v ===== *)
(** The data vault of the platform firmware (src/thd_gddv.cpp): the readers of
    typed objects, the tables (APPC, APAT, APCT, PPCC, PSVT, ITMT, VSCT, VSPT,
    IDSP, trip points) and the container of keys.

    A buffer is the list of its bytes.  What can happen to a parse is an
    [outcome]: it returns, it throws [gddv_exception], or it reads outside the
    buffer, which is undefined and therefore an outcome of its own.  The bytes
    are untrusted, so [int] offsets wrap around where the code lets them. *)
From stdpp Require Import base gmap strings list.
From Stdlib Require Import ZArith Lia Ascii.
From Stdlib Require String.
From S2P Require Import Prelude CString SysFs CFloat Pid Cdev PowerMeter CdevRapl Machine Preference TripPoint.

Open Scope string_scope.
Open Scope list_scope.
Open Scope Z_scope.

(** * Outcomes *)

Inductive outcome (A : Type) :=
| Done (a : A)
| Throw          (* gddv_exception *)
| Oob            (* a read outside the buffer, or through a null pointer *)
| OutOfFuel.
Arguments Done {A}. Arguments Throw {A}. Arguments Oob {A}. Arguments OutOfFuel {A}.

Definition obind {A B} (m : outcome A) (k : A -> outcome B) : outcome B :=
  match m with
  | Done a => k a
  | Throw => Throw
  | Oob => Oob
  | OutOfFuel => OutOfFuel
  end.

(** * Memory *)

(** Little-endian value of some bytes. *)
Fixpoint le_val (l : list Z) : Z :=
  match l with [] => 0 | b :: l' => b + 256 * le_val l' end.

(** The unsigned value of [n] bytes at offset [off]. *)
Definition load (n : nat) (off : Z) (buf : list Z) : outcome Z :=
  if (0 <=? off) && (off + Z.of_nat n <=? Z.of_nat (length buf))
  then Done (le_val (take n (drop (Z.to_nat off) buf))) else Oob.

(** The bytes up to the terminating zero; there must be one. *)
Fixpoint c_chars (l : list Z) : outcome string :=
  match l with
  | [] => Oob
  | b :: l' => if b =? 0 then Done "" else obind (c_chars l') (fun s => Done (String (char_of b) s))
  end.
Definition c_string (off : Z) (buf : list Z) : outcome string :=
  if 0 <=? off then c_chars (drop (Z.to_nat off) buf) else Oob.

(** * Readers of a table *)

(** [DECI_KELVIN_TO_CELSIUS]. *)
Definition DECI_KELVIN_TO_CELSIUS (t : Z) : Z :=
  let d := i32 (t - 2732) in
  if d >=? 0 then cdiv (i32 (d + 5)) 10 else cdiv (i32 (d - 5)) 10.

(** A reader takes the offset and returns the new one. *)
Definition Rd (A : Type) : Type := Z -> outcome (A * Z).

Definition rret {A} (a : A) : Rd A := fun off => Done (a, off).
Definition rbind {A B} (m : Rd A) (k : A -> Rd B) : Rd B := fun off =>
  obind (m off) (fun '(a, off') => k a off').
Definition rthrow {A} : Rd A := fun _ => Throw.
Definition rlift {A} (o : outcome A) : Rd A := fun off => obind o (fun a => Done (a, off)).
(** [offset += 12] without a check. *)
Definition skip12 : Rd unit := fun off => Done (tt, i32 (off + 12)).

Notation "'let!' x ':=' m 'in' k" := (rbind m (fun x => k))
  (at level 10, x pattern, m at level 200, k at level 200) : thd_scope.

(** The result of a reader started at offset 0. *)
Definition run {A} (m : Rd A) : outcome A := obind (m 0) (fun '(a, _) => Done a).

Section readers.
(** The buffer and [gddv_cur_buf_len]. *)
Context (buf : list Z) (gddv_cur_buf_len : Z).

(** The check before the type field of an object is read. *)
Definition type_readable (off : Z) : bool :=
  negb ((off <? 0) || (i32 (off + 4) >? gddv_cur_buf_len)).

Definition get_type : Rd Z := fun off =>
  if type_readable off then obind (load 4 off buf) (fun v => Done (i32 v, off)) else Throw.

Definition get_uint64 : Rd Z := fun off =>
  if negb (type_readable off) then Throw else
  obind (load 4 off buf) (fun type =>
  if negb (i32 type =? 4) then Throw else
  let off := i32 (off + 4) in
  if i32 (off + 8) >? gddv_cur_buf_len then Throw else
  obind (load 8 off buf) (fun value => Done (value, i32 (off + 8)))).

(** [get_string]: the offset of the characters. *)
Definition get_string : Rd Z := fun off =>
  if negb (type_readable off) then Throw else
  obind (load 4 off buf) (fun type =>
  if negb (i32 type =? 8) then Throw else
  let off := i32 (off + 4) in
  if i32 (off + 8) >? gddv_cur_buf_len then Throw else
  obind (load 8 off buf) (fun length =>
  let off := i32 (off + 8) in
  if (length >? INT_MAX) || (i32 (off + i32 length) >? gddv_cur_buf_len) then Throw
  else Done (off, i32 (off + length)))).

(** [get_string_obj]; [None] is [nullptr]. *)
Definition get_string_obj : Rd (option Z) := fun saved =>
  obind (get_string saved) (fun '(p, off) =>
    Done (if i32 (i32 (off - saved) - 12) <? 0 then None else Some p, off)).

(** A [std::string] assigned from [get_string_obj]: a C string. *)
Definition get_str : Rd string :=
  let! p := get_string_obj in
  match p with
  | Some p => rlift (c_string p buf)
  | None => rlift Oob
  end.

(** An [int] member assigned from [get_uint64]. *)
Definition get_int : Rd Z := let! v := get_uint64 in rret (i32 v).

(** [while (offset < len) body], collecting the entries. *)
Fixpoint entries {A} (fuel : nat) (len : Z) (body : Rd A) : Rd (list A) := fun off =>
  match fuel with
  | O => OutOfFuel
  | S f => if off <? len
           then (let! a := body in let! l := entries f len body in rret (a :: l)) off
           else Done ([], off)
  end.
End readers.

(** Enough rounds for a table of [len] bytes: each consumes at least one. *)
Definition rounds (len : Z) : nat := S (S (Z.to_nat len)).

(** * The tables *)

Record condition_t := mk_condition {
  c_condition : Z;
  c_device : string;
  c_comparison : Z;
  c_argument : Z;
  c_operation : Z;
  c_time_comparison : Z;
  c_time : Z;
  c_target : Z;
  c_state : Z;
  c_state_entry_time : Z;
  c_ignore_condition : Z;
}.
#[export] Instance eta_condition : Eta condition_t := {| eta_of := fun x =>
  mk_condition (c_condition x) (c_device x) (c_comparison x) (c_argument x) (c_operation x)
    (c_time_comparison x) (c_time x) (c_target x) (c_state x) (c_state_entry_time x)
    (c_ignore_condition x) |}.

Record custom_condition := mk_custom {
  cc_condition : Z; cc_name : string; cc_participant : string; cc_domain : Z; cc_type : Z
}.

Record psv := mk_psv {
  psv_source : string; psv_target : string; psv_priority : Z; psv_sample_period : Z;
  psv_temp : Z; psv_domain : Z; psv_control_knob : Z; psv_limit : string;
  psv_step_size : Z; psv_limit_coeff : Z; psv_unlimit_coeff : Z
}.
Record psvt := mk_psvt { psvt_name : string; psvs : list psv }.

Record itmt_entry := mk_itmt_entry {
  itmt_target : string; itmt_trip_point : Z; itmt_pl1_min : string; itmt_pl1_max : string;
  itmt_unused : string
}.
Record itmt := mk_itmt { itmt_version : Z; itmt_name : string; itmt_entries : list itmt_entry }.

Record trippoint := mk_trippoint {
  tp_name : string; tp_type_str : string; tp_type : trip_point_type_t; tp_temp : Z
}.

Record vsct_entry := mk_vsct {
  vsct_target : string; vsct_domain_type : Z; vsct_coeff_type : Z; vsct_coeff : Z;
  vsct_operation : Z; vsct_alpha : Z; vsct_trigger_point : Z
}.
Record vspt_entry := mk_vspt { vspt_virtual_temp : Z; vspt_sample_period : Z }.

(** The members of [cthd_gddv] that hold tables. *)
Record gddv := mk_gddv {
  ppccs : list ppcc_t;
  custom_conditions : list custom_condition;
  psvts : list psvt;
  itmts : list itmt;
  idsps : list string;
  trippoints : list trippoint;
  conditions : list (list condition_t);
  targets : list adaptive_target;
  vscts_name : string;
  vscts : list vsct_entry;
  vspts : list vspt_entry;
  power_slider : Z;
  current_target_matched : Z;
}.
#[export] Instance eta_gddv : Eta gddv := {| eta_of := fun x =>
  mk_gddv (ppccs x) (custom_conditions x) (psvts x) (itmts x) (idsps x) (trippoints x)
    (conditions x) (targets x) (vscts_name x) (vscts x) (vspts x) (power_slider x)
    (current_target_matched x) |}.

Definition new_gddv : gddv := mk_gddv [] [] [] [] [] [] [] [] "" [] [] 75 (-1).

(** The operations of [enum adaptive_operation]. *)
Definition AND : Z := 1.
Definition FOR : Z := 2.

(** What a table parser hands back: its [int] and the object.  An object that
    an exception leaves behind is not modelled: [gddv_init] reports it as a
    fatal error. *)
Section tables.
(** [buf] is the copy of the value with its terminating zero, [len] its length. *)
Context (buf : list Z) (len : Z).
Abbreviation u64_ := (get_uint64 buf len).
Abbreviation int_ := (get_int buf len).
Abbreviation str_ := (get_str buf len).
Abbreviation rows body := (entries (rounds len) len body).

Definition appc_entry : Rd custom_condition :=
  let! c := u64_ in let! n := str_ in let! p := str_ in let! d := int_ in let! t := int_ in
  rret (mk_custom (u32 c) n p d t).

(** A malformed APPC table is ignored. *)
Definition parse_appc (g : gddv) : outcome (Z * gddv) :=
  if len <? 1 then Done (0, g) else
  obind (load 1 0 buf) (fun b0 =>
  if negb (b0 =? 4) then Done (0, g) else
  run (let! version := u64_ in
       if negb (version =? 1) then rret (0, g) else
       let! l := rows appc_entry in
       rret (0, g <| custom_conditions := custom_conditions g ++ l |>))).

Definition apat_entry : Rd adaptive_target :=
  let! id := u64_ in let! n := str_ in let! p := str_ in let! d := u64_ in
  let! c := str_ in let! a := str_ in
  rret (mk_adaptive_target id n p d c a).

Definition parse_apat (g : gddv) : outcome (Z * gddv) :=
  run (let! version := u64_ in
       if negb (version =? 2) then rthrow else
       let! l := rows apat_entry in
       rret (0, g <| targets := targets g ++ l |>)).

(** A fresh condition of the given target. *)
Definition blank_condition (target : Z) : condition_t :=
  mk_condition 0 "" 0 0 0 0 0 (i32 target) 0 0 0.

(** The operation after a condition and, for [FOR], the time; [gap] is what
    stands before the time.  The flag tells that a [FOR] took a place. *)
Definition read_operation (more : bool) (gap : Rd unit) (c : condition_t) : Rd (condition_t * bool) :=
  if negb more then rret (c, false) else
  let! op := u64_ in
  let c := c <| c_operation := u8 op |> in
  if negb (c_operation c =? FOR) then rret (c, false) else
  let! _ := gap in
  let! tc := u64_ in
  let! t := u64_ in
  let! _ := skip12 in
  rret (c <| c_time_comparison := u8 tc |> <| c_time := i64 t |>, true).

(** One condition; [i] is its place, [last] the place without an operation. *)
Definition apct_v1_condition (target i : Z) : Rd (condition_t * bool) := fun off =>
  if off >=? len then Throw else
  (let! cond := u64_ in let! cmp := u64_ in let! arg := int_ in
   read_operation (i <? 9) skip12
     ((blank_condition target) <| c_condition := u32 cond |> <| c_comparison := u8 cmp |>
        <| c_argument := arg |>)) off.

Definition apct_v2_condition (target count i : Z) : Rd (condition_t * bool) := fun off =>
  if off >=? len then Throw else
  (let! cond := u64_ in let! dev := str_ in let! _ := skip12 in let! cmp := u64_ in let! arg := int_ in
   read_operation (i <? i32 (u64 (count - 1)))
     (let! _ := skip12 in let! _ := get_string buf len in skip12)
     ((blank_condition target) <| c_condition := u32 cond |> <| c_device := dev |>
        <| c_comparison := u8 cmp |> <| c_argument := arg |>)) off.

(** [for (i = 0; i < n; i++)] over the conditions of a set. *)
Fixpoint condition_loop (fuel : nat) (n i : Z) (one : Z -> Rd (condition_t * bool)) : Rd (list condition_t) :=
  match fuel with
  | O => fun _ => OutOfFuel
  | S f =>
      if i <? n then
        let! (c, took) := one i in
        let! l := condition_loop f n (i32 ((if took : bool then i32 (i + 1) else i) + 1)) one in
        rret (c :: l)
      else rret []
  end.

Definition apct_v1_set : Rd (list condition_t) :=
  let! target := u64_ in
  if i32 target =? -1 then rthrow else
  condition_loop (rounds len) 10 0 (apct_v1_condition target).

Definition apct_v2_set : Rd (list condition_t) :=
  let! target := u64_ in
  if i32 target =? -1 then rthrow else
  let! count := u64_ in
  condition_loop (rounds len) (i32 count) 0 (apct_v2_condition target count).

Definition parse_apct (g : gddv) : outcome (Z * gddv) :=
  run (let! version := u64_ in
       if version =? 1 then
         let! l := rows apct_v1_set in rret (0, g <| conditions := conditions g ++ l |>)
       else if version =? 2 then
         let! l := rows apct_v2_set in rret (0, g <| conditions := conditions g ++ l |>)
       else rthrow).

(** PPCC: fixed positions; the second limit needs a longer table. *)
Definition ppcc_int (off : Z) : outcome Z := obind (load 8 off buf) (fun v => Done (i32 v)).

Definition parse_ppcc (name : string) (g : gddv) : outcome (Z * gddv) :=
  if len <? 84 then Done (0, g) else
  obind (ppcc_int 28) (fun pmin => obind (ppcc_int 40) (fun pmax =>
  obind (ppcc_int 52) (fun tmin => obind (ppcc_int 64) (fun tmax =>
  obind (ppcc_int 76) (fun step =>
  if len <? 156 then Done (0, g) else
  let start := 76 + 12 in
  obind (ppcc_int (start + 12)) (fun pmin1 => obind (ppcc_int (start + 24)) (fun pmax1 =>
  obind (ppcc_int (start + 36)) (fun tmin1 => obind (ppcc_int (start + 48)) (fun tmax1 =>
  obind (ppcc_int (start + 60)) (fun step1 =>
  let valid1 := b2z (truthy pmax1 && truthy pmin1 && truthy tmin1 && truthy tmax1 && truthy step1) in
  Done (0, g <| ppccs := ppccs g ++
    [mk_ppcc name 1 pmin pmax tmin tmax step valid1 pmin1 pmax1 tmin1 tmax1 step1] |>))))))))))).

(** The limit of a PSV row is a string or a number. *)
Definition psv_limit_field : Rd string :=
  let! ty := get_type buf len in
  if ty =? 8 then str_ else let! v := u64_ in rret (string_of_Z v).

Definition psvt_entry : Rd psv :=
  let! source := str_ in let! target := str_ in let! priority := int_ in
  let! sample_period := int_ in let! temp := int_ in let! domain := int_ in
  let! control_knob := int_ in let! limit := psv_limit_field in
  let! step_size := int_ in let! limit_coeff := int_ in let! unlimit_coeff := int_ in
  let! _ := skip12 in
  rret (mk_psv source target priority sample_period temp domain control_knob limit step_size
          limit_coeff unlimit_coeff).

Definition parse_psvt (name : option string) (g : gddv) : outcome (Z * gddv) :=
  run (let! version := int_ in
       if version >? 2 then rthrow else
       let! l := rows psvt_entry in
       rret (0, g <| psvts := psvts g ++ [mk_psvt (default "Default" name) l] |>)).

(** ITMT version 3: packed records of 296 bytes after a header of 12.  [None]
    is a table cut short. *)
Definition itmt3_header_size : Z := 12.
Definition itmt3_size : Z := 296.

Fixpoint itmt3_rows (fuel : nat) (off : Z) : outcome (option (list itmt_entry)) :=
  match fuel with
  | O => OutOfFuel
  | S f =>
      if off <? len then
        if len - off <? itmt3_size then Done None else
        obind (c_string off buf) (fun target =>
        obind (load 8 (off + 64) buf) (fun temp =>
        obind (c_string (off + 80) buf) (fun pl1_min =>
        obind (c_string (off + 144) buf) (fun pl1_max =>
        obind (itmt3_rows f (off + itmt3_size)) (fun rest =>
        Done (option_map (cons (mk_itmt_entry target (i32 temp) pl1_min pl1_max "")) rest))))))
      else Done (Some [])
  end.

Definition parse_itmt3 (name : option string) (g : gddv) : outcome (Z * gddv) :=
  if len <? itmt3_header_size then Done (THD_ERROR, g) else
  if len - itmt3_header_size <? itmt3_size then Done (THD_ERROR, g) else
  obind (itmt3_rows (rounds len) itmt3_header_size) (fun r =>
  match r with
  | None => Done (THD_ERROR, g)
  | Some l => Done (0, g <| itmts := itmts g ++ [mk_itmt 3 (default "Default" name) l] |>)
  end).

Definition itmt_row (version : Z) : Rd itmt_entry :=
  let! target := str_ in let! trip := int_ in let! pl1_min := str_ in let! pl1_max := str_ in
  let! unused := str_ in
  let! _ := (if version =? 2
             then let! _ := u64_ in let! _ := str_ in let! _ := u64_ in let! _ := u64_ in rret tt
             else skip12) in
  rret (mk_itmt_entry target trip pl1_min pl1_max unused).

Definition parse_itmt (name : option string) (g : gddv) : outcome (Z * gddv) :=
  run (let! version := int_ in
       if version >? 2 then rret (THD_ERROR, g) else
       let! l := rows (itmt_row version) in
       rret (0, g <| itmts := itmts g ++ [mk_itmt 1 (default "Default" name) l] |>)).

Definition vspt_row : Rd vspt_entry :=
  let! t := int_ in let! p := u64_ in
  rret (mk_vspt (DECI_KELVIN_TO_CELSIUS t) (i32 (p / 10))).

Definition parse_vspt (g : gddv) : outcome (Z * gddv) :=
  run (let! version := int_ in
       if version >? 1 then rret (THD_ERROR, g) else
       let! l := rows vspt_row in
       rret (THD_SUCCESS, g <| vspts := vspts g ++ l |>)).

Definition vsct_row : Rd vsct_entry :=
  let! target := str_ in let! domain_type := int_ in let! coeff_type := int_ in
  let! coeff := int_ in let! operation := int_ in let! alpha := int_ in let! trigger := int_ in
  rret (mk_vsct target domain_type coeff_type coeff operation alpha trigger).

Definition parse_vsct (name : option string) (g : gddv) : outcome (Z * gddv) :=
  let g := g <| vscts_name := default "vsct" name |> in
  run (let! version := int_ in
       if version >? 1 then rret (THD_ERROR, g) else
       let! l := rows vsct_row in
       rret (THD_SUCCESS, g <| vscts := vscts g ++ l |>)).

(** The TRT table is read and reported, not kept. *)
Definition trt_row : Rd unit :=
  let! _ := str_ in let! _ := str_ in let! _ := int_ in let! _ := int_ in
  let! _ := int_ in let! _ := int_ in let! _ := int_ in let! _ := int_ in rret tt.

Definition parse_trt (g : gddv) : outcome (Z * gddv) :=
  run (let! _ := rows trt_row in rret (THD_SUCCESS, g)).

(** IDSP: UUIDs in binary, printed in upper case with a line feed. *)
Definition hex_digit (d : Z) : ascii := char_of (if d <? 10 then 48 + d else 87 + d).
Definition hex2 (b : Z) : string := String (hex_digit (b / 16)) (String (hex_digit (b mod 16)) "").

Definition idsp_format (str : list Z) : string :=
  let x i := hex2 (List.nth i str 0) in
  smap toupper (x 3%nat +:+ x 2%nat +:+ x 1%nat +:+ x 0%nat +:+ "-" +:+ x 5%nat +:+ x 4%nat +:+ "-" +:+
    x 7%nat +:+ x 6%nat +:+ "-" +:+ x 8%nat +:+ x 9%nat +:+ "-" +:+ x 10%nat +:+ x 11%nat +:+
    x 12%nat +:+ x 13%nat +:+ x 14%nat +:+ x 15%nat +:+ String (char_of 10) "").

(** [n] bytes at an offset. *)
Definition slice (n off : Z) (b : list Z) : outcome (list Z) :=
  if (0 <=? off) && (off + n <=? Z.of_nat (length b))
  then Done (take (Z.to_nat n) (drop (Z.to_nat off) b)) else Oob.

Fixpoint idsp_rows (fuel : nat) (i : Z) : outcome (list string) :=
  match fuel with
  | O => OutOfFuel
  | S f =>
      if negb (i <? len) then Done [] else
      if len - i <? 28 then Done [] else
      obind (load 1 i buf) (fun type =>
      if negb (type =? 7) then Done [] else
      obind (load 4 (i + 4) buf) (fun l =>
      let n := i32 l in
      if (n <? 16) || (n >? len - (i + 4) - 8) then Done [] else
      obind (slice 16 (i + 12) buf) (fun str =>
      obind (idsp_rows f (i + 12 + n)) (fun rest => Done (idsp_format str :: rest)))))
  end.

Definition parse_idsp (g : gddv) : outcome (Z * gddv) :=
  if len <? 0 then Done (0, g) else
  obind (idsp_rows (rounds len) 0) (fun l => Done (0, g <| idsps := idsps g ++ l |>)).

Definition trip_type_of (type_str : string) : trip_point_type_t :=
  if compare_prefix type_str 2 "_c" then CRITICAL
  else if compare_prefix type_str 2 "_p" then PASSIVE
  else if compare_prefix type_str 2 "_h" then HOT
  else if compare_prefix type_str 2 "_a" then ACTIVE
  else INVALID_TRIP_TYPE.

Definition parse_trip_point (name type : string) (g : gddv) : outcome (Z * gddv) :=
  if len <? 4 then Done (0, g) else
  obind (load 4 0 buf) (fun v =>
  Done (0, g <| trippoints := trippoints g ++
    [mk_trippoint name type (trip_type_of type) (DECI_KELVIN_TO_CELSIUS (i32 v))] |>)).
End tables.

(** * Keys *)

(** [strtok(key, "/")] called until it returns [nullptr]. *)
Fixpoint tokens_aux (s cur : string) : list string :=
  match s with
  | EmptyString => match cur with EmptyString => [] | _ => [cur] end
  | String c s' =>
      if Ascii.eqb c "/"
      then match cur with EmptyString => tokens_aux s' "" | _ => cur :: tokens_aux s' "" end
      else tokens_aux s' (cur +:+ String c "")
  end.
Definition tokens (s : string) : list string := tokens_aux s "".

(** The parts of a key: [name], [type] and [point]. *)
Definition key_parts (toks : list string) : option string * option string * option string :=
  match toks with
  | [] => (None, None, None)
  | s :: rest =>
      if thd_strcmp_n (Some s) (Some "participants") =? 0 then (rest !! 0%nat, rest !! 1%nat, rest !! 2%nat)
      else if thd_strcmp_n (Some s) (Some "shared") =? 0 then
        (None, rest !! 1%nat,
         if thd_strcmp_n (rest !! 0%nat) (Some "tables") =? 0 then rest !! 2%nat else None)
      else (None, None, None)
  end.

(** A table parser applied when the key names its type. *)
Definition when_table (b : bool) (p : gddv -> outcome (Z * gddv)) (g : gddv) : outcome gddv :=
  if b then obind (p g) (fun '(_, g') => Done g') else Done g.

(** Lines 1179-1246: the value goes to the parser of its type. *)
Definition dispatch (parts : option string * option string * option string) (val : list Z) (len : Z)
    (g : gddv) : outcome gddv :=
  let '(name, type, point) := parts in
  let is_a t := match type with Some _ => thd_strcmp_n type (Some t) =? 0 | None => false end in
  let has (o : option string) := match o with Some _ => true | None => false end in
  let label := match point with None => name | Some _ => point end in
  let itmt3 := match type with Some t => strncmp t "itmt3" 5 =? 0 | None => false end in
  obind (when_table (has name && is_a "ppcc") (parse_ppcc val len (or_empty name)) g) (fun g =>
  obind (when_table (is_a "psvt") (parse_psvt val len label) g) (fun g =>
  obind (when_table (is_a "appc") (parse_appc val len) g) (fun g =>
  obind (when_table (is_a "apct") (parse_apct val len) g) (fun g =>
  obind (when_table (is_a "apat") (parse_apat val len) g) (fun g =>
  obind (when_table itmt3 (parse_itmt3 val len label) g) (fun g =>
  obind (when_table (is_a "itmt") (parse_itmt val len label) g) (fun g =>
  obind (when_table (has name && is_a "idsp") (parse_idsp val len) g) (fun g =>
  obind (when_table (has name && has point && is_a "trippoint")
           (parse_trip_point val len (or_empty name) (or_empty point)) g) (fun g =>
  obind (when_table (is_a "_trt") (parse_trt val len) g) (fun g =>
  obind (when_table (is_a "vsct") (parse_vsct val len label) g) (fun g =>
  when_table (is_a "vspt") (parse_vspt val len) g))))))))))).

(** [parse_gddv_key]: the result, [*end_offset] and the object. *)
Definition parse_gddv_key (buf : list Z) (size : Z) (g : gddv) : outcome (Z * Z * gddv) :=
  if size <? 8 then Throw else
  obind (load 4 4 buf) (fun keylength =>
  if (keylength =? 0) || (keylength >=? INT_MAX) || (i32 (8 + i32 keylength) >? size) then Throw else
  obind (slice keylength 8 buf) (fun key =>
  let offset := i32 (8 + keylength) in
  if i32 (offset + 8) >? size then Throw else
  obind (load 4 (offset + 4) buf) (fun vallength =>
  let offset := i32 (offset + 8) in
  if (vallength >=? INT_MAX) || (i32 (offset + i32 vallength) >? size) then Throw else
  obind (slice vallength offset buf) (fun val =>
  obind (c_chars (key ++ [0])) (fun key_str =>
  obind (dispatch (key_parts (tokens key_str)) (val ++ [0]) vallength g) (fun g =>
  Done (THD_SUCCESS, i32 (offset + vallength), g))))))).

(** * The container *)

(** [sizeof(struct header)]: signature 2, headersize 2, version 4, flags 4,
    segmentid 32, comment 64, payload_hash 32, payload_size 4, payload_class 4. *)
Definition header_size : Z := 148.
Definition ESIFDV_HEADER_SIGNATURE : Z := 8165.            (* 0x1FE5 *)
Definition ESIFDV_ITEM_KEYS_REV0_SIGNATURE : Z := 41176.   (* 0xA0D8 *)
Definition ESIF_SERVICE_CONFIG_COMPRESSED : Z := 1073741824. (* 0x40000000 *)
Definition ESIFHDR_GET_MAJOR (version : Z) : Z := Z.land (Z.shiftr version 24) 255.

Fixpoint le_bytes (n : nat) (v : Z) : list Z :=
  match n with O => [] | S n' => v mod 256 :: le_bytes n' (v / 256) end.

(** [n] bytes stored at an offset. *)
Definition put_bytes (n : nat) (off v : Z) (buf : list Z) : outcome (list Z) :=
  if (0 <=? off) && (off + Z.of_nat n <=? Z.of_nat (length buf))
  then Done (take (Z.to_nat off) buf ++ le_bytes n v ++ drop (Z.to_nat off + n) buf) else Oob.

Section container.
(** [LzmaDecode] of the LZMA SDK: from the source with its header and the size
    of the destination, the status and the bytes it wrote.  [can_alloc] tells
    whether an array of some size can be allocated. *)
Context (LzmaDecode : list Z -> Z -> Z * list Z) (can_alloc : Z -> bool).

(** [sizeof(struct LzmaHeader)]: 5 bytes of properties and the original size. *)
Definition lzma_header_size : Z := 13.
Definition original_size (src : list Z) : Z := le_val (take 8 (drop 5 src)).

(** [lzma_decompress] without a destination: the size it asks for. *)
Definition lzma_size (src : list Z) : option Z :=
  if negb (Z.of_nat (length src) >? lzma_header_size) then None else
  let n := original_size src in
  if bool_decide (take 2 src = [93; 0]) && (n >? 0) && negb (n =? 2 ^ 64 - 1) then Some n else None.

(** [lzma_decompress] into a destination of [destLen] bytes; [None] is an error. *)
Definition lzma_decompress (destLen : Z) (src : list Z) : option (list Z) :=
  if negb (Z.of_nat (length src) >? lzma_header_size) then None else
  let '(rc, out) := LzmaDecode src destLen in
  let written := Z.of_nat (length out) in
  if written <? original_size src then None else
  if written >? 2 ^ 63 - 2 then None else
  if truthy rc then None else Some out.

(** The parser of a (nested) repository: the result, [*end_offset] when it is
    assigned, and the object. *)
Abbreviation Repo := (list Z -> Z -> gddv -> outcome (Z * option Z * gddv)).

(** [handle_compressed_gddv]: the payload is decompressed behind a copy of the
    header, which is marked as plain, and parsed.  The sum of the sizes is of 64
    bits; when it overflows, the payload is written outside the array. *)
Definition handle_compressed_gddv (rec : Repo) : Repo := fun buf size g =>
  if size <=? header_size then Done (THD_ERROR, None, g) else
  obind (load 2 2 buf) (fun headersize =>
  if headersize >? size then Done (THD_ERROR, None, g) else
  let src := drop (Z.to_nat headersize) buf in
  match lzma_size src with
  | None => Done (THD_ERROR, None, g)
  | Some destlen =>
      let output_size := u64 (headersize + destlen) in
      if negb (can_alloc output_size) then Throw else
      if output_size <? headersize + destlen then Oob else
      match lzma_decompress destlen src with
      | None => Done (THD_ERROR, None, g)
      | Some out =>
          let whole := take (Z.to_nat headersize) buf ++ out in
          obind (load 4 8 whole) (fun flags =>
          obind (put_bytes 4 8 (Z.land flags (u32 (Z.lnot ESIF_SERVICE_CONFIG_COMPRESSED))) whole) (fun whole =>
          obind (put_bytes 4 140 (u32 (Z.of_nat (length out))) whole) (fun whole =>
          obind (rec whole (i32 output_size) g) (fun '(res, _, g) =>
          Done (res, None, g)))))
      end
  end).

Definition key_item (buf : list Z) (offset size : Z) (g : gddv) : outcome (Z * option Z * gddv) :=
  obind (parse_gddv_key (drop (Z.to_nat offset) buf) (size - offset) g) (fun '(res, e, g) =>
  Done (res, Some e, g)).

(** The loop over the items of a repository; an item that does not report its
    end leaves [end_offset] at 0. *)
Fixpoint gddv_items (rec : Repo) (n : nat) (major headersize : Z) (buf : list Z) (size offset : Z)
    (g : gddv) : outcome (Z * option Z * gddv) :=
  match n with
  | O => OutOfFuel
  | S n' =>
      if negb (i32 (offset + headersize) <? size) then Done (0, Some offset, g) else
      let next start item := obind item (fun '(res, e, g) =>
        if res =? THD_SUCCESS
        then gddv_items rec n' major headersize buf size (i32 (start + default 0 e)) g
        else Done (res, None, g)) in
      if major =? 2 then
        obind (load 2 offset buf) (fun signature =>
        if signature =? ESIFDV_ITEM_KEYS_REV0_SIGNATURE
        then next (offset + 2) (key_item buf (offset + 2) size g)
        else if signature =? ESIFDV_HEADER_SIGNATURE
        then next offset (rec (drop (Z.to_nat offset) buf) (size - offset) g)
        else Done (THD_ERROR, None, g))
      else next offset (key_item buf offset size g)
  end.

(** [parse_gddv]; [fuel] bounds the nesting and, at each level, the items. *)
Fixpoint parse_gddv (fuel : nat) (buf : list Z) (size : Z) (g : gddv) : outcome (Z * option Z * gddv) :=
  match fuel with
  | O => OutOfFuel
  | S f =>
      if size <? header_size then Done (THD_ERROR, None, g) else
      obind (load 2 0 buf) (fun signature =>
      if negb (signature =? ESIFDV_HEADER_SIGNATURE) then Throw else
      obind (load 4 4 buf) (fun version =>
      let major := ESIFHDR_GET_MAJOR version in
      if negb (major =? 1) && negb (major =? 2) then Done (THD_ERROR, None, g) else
      obind (load 2 2 buf) (fun headersize =>
      obind (load 4 8 buf) (fun flags =>
      if (major =? 2) && truthy (Z.land flags ESIF_SERVICE_CONFIG_COMPRESSED)
      then handle_compressed_gddv (parse_gddv f) buf size g
      else gddv_items (parse_gddv f) f major headersize buf size headersize g))))
  end.
End container.

(** * What is read from the tables *)

Definition merge_custom (custom : custom_condition) (c : condition_t) : condition_t :=
  c <| c_device := cc_participant custom |> <| c_condition := u32 (cc_type custom) |>.

(** [merge_appc]: each custom condition in turn, over all conditions. *)
Definition merge_appc (g : gddv) : gddv :=
  g <| conditions := fold_left (fun sets custom =>
    map (map (fun c => if cc_condition custom =? c_condition c then merge_custom custom c else c)) sets)
    (custom_conditions g) (conditions g) |>.

Definition gddv_get_ppcc_param (name : string) (g : gddv) : option ppcc_t :=
  if negb (String.eqb name "TCPU.D0") then None
  else List.find (fun p => String.eqb (ppcc_name p) name) (ppccs g).

Definition find_def_psvt (g : gddv) : option psvt :=
  match List.find (fun p => String.eqb (psvt_name p) "generic_os") (psvts g) with
  | Some p => Some p
  | None => List.find (fun p => String.eqb (psvt_name p) "IETM.D0") (psvts g)
  end.

Definition gddv_search_idsp (name : string) (g : gddv) : Z :=
  if existsb (fun i => compare_prefix i 36 name) (idsps g) then THD_SUCCESS else THD_ERROR.

Definition get_trip_temp (name : string) (type : trip_point_type_t) (g : gddv) : Z :=
  match List.find (fun t => String.eqb (tp_name t) (name +:+ ".D0") && is_type (tp_type t) type)
          (trippoints g) with
  | Some t => tp_temp t
  | None => THD_ERROR
  end.

Definition find_psvt (name : string) (g : gddv) : option psvt :=
  List.find (fun p => thd_strcasecmp_n (Some (psvt_name p)) (Some name) =? 0) (psvts g).

(** A table is used only when the platform has the policy of its version. *)
Definition find_itmt (name : string) (g : gddv) : option itmt :=
  let supported t :=
    if itmt_version t =? 3
    then gddv_search_idsp "4215267F-F429-4776-9D84-D6C5992848A4" g =? THD_SUCCESS
    else if itmt_version t <? 3
    then gddv_search_idsp "6BD40D2D-98AA-A44B-1A92-D22BDE3117F1" g =? THD_SUCCESS
    else true in
  List.find (fun t => supported t && (thd_strcasecmp_n (Some (itmt_name t)) (Some name) =? 0)) (itmts g).

(** [find_agressive_target]: the position of the first largest power limit. *)
Fixpoint agressive_loop (i max_pl1_max max_target_id : Z) (l : list adaptive_target) : Z :=
  match l with
  | [] => max_target_id
  | t :: rest =>
      if negb (String.eqb (target_code t) "PL1MAX") && negb (String.eqb (target_code t) "PL1PowerLimit")
      then agressive_loop (i + 1) max_pl1_max max_target_id rest
      else match stoi (target_argument t) with
           | None => agressive_loop (i + 1) max_pl1_max max_target_id rest
           | Some argument =>
               if max_pl1_max <? argument then agressive_loop (i + 1) argument i rest
               else agressive_loop (i + 1) max_pl1_max max_target_id rest
           end
  end.
Definition find_agressive_target (g : gddv) : Z := agressive_loop 0 0 (-1) (targets g).

(** ** The name of a data vault file *)

(** [crc ^= *p++] with a signed [char]. *)
Definition crc_bit (crc : Z) : Z :=
  Z.lxor (Z.shiftr crc 1) (if truthy (Z.land crc 1) then 3988292384 else 0).
Definition crc_char (crc : Z) (c : ascii) : Z :=
  let b := char_code c in
  let signed := if b <? 128 then b else b - 256 in
  Nat.iter 8 crc_bit (Z.lxor crc (u32 signed)).
Fixpoint crc32_from (crc : Z) (s : string) : Z :=
  match s with EmptyString => crc | String c s' => crc32_from (crc_char crc c) s' end.
Definition crc32 (s : string) : Z := crc32_from 0 s.

Definition dv_filename (sys_vendor product_family product_name product_sku : string) : string :=
  "/lib/firmware/intel/dtt/dtt_data_vault_" +:+ string_of_Z (crc32 sys_vendor) +:+ "_" +:+
  string_of_Z (crc32 product_family) +:+ "_" +:+ string_of_Z (crc32 product_name) +:+ "_" +:+
  string_of_Z (crc32 product_sku) +:+ ".bin".
