(* ===== verification/GddvTheorems.v ===== *)
(** What the data vault parsers promise on untrusted bytes
    (src/thd_gddv.cpp): they end, they stay inside the buffer, and they read
    back what was encoded. *)
From stdpp Require Import base gmap strings list.
From Stdlib Require Import ZArith Lia Ascii.
From Stdlib Require String.
From S2P Require Import Prelude CString SysFs CFloat Pid Cdev PowerMeter CdevRapl Machine Preference TripPoint Gddv.

Open Scope string_scope.
Open Scope list_scope.
Open Scope Z_scope.

(** * Memory *)

Definition byte_ok (b : Z) : Prop := 0 <= b < 256.

Lemma le_val_range l : Forall byte_ok l -> 0 <= le_val l < 256 ^ Z.of_nat (length l).
Proof.
  induction 1 as [|b l Hb Hl IH]; [cbn; lia|]. cbn [le_val length].
  rewrite Nat2Z.inj_succ, Z.pow_succ_r by lia. unfold byte_ok in Hb. nia.
Qed.

Lemma load_done n off buf :
  0 <= off -> off + Z.of_nat n <= Z.of_nat (length buf) ->
  load n off buf = Done (le_val (take n (drop (Z.to_nat off) buf))).
Proof.
  intros H1 H2. unfold load.
  rewrite (proj2 (Z.leb_le _ _) H1), (proj2 (Z.leb_le _ _) H2). done.
Qed.

Lemma load_range n off buf v :
  Forall byte_ok buf -> load n off buf = Done v -> 0 <= v < 256 ^ Z.of_nat n.
Proof.
  intros Hb. unfold load. destruct (_ && _) eqn:E; [|done]. intros X. simplify_eq. b2p.
  pose proof (le_val_range (take n (drop (Z.to_nat off) buf))) as Hr.
  rewrite length_take, length_drop, Nat.min_l in Hr by lia.
  apply Hr. by apply Forall_take, Forall_drop.
Qed.

Lemma load_app n off (val tl : list Z) :
  0 <= off -> off + Z.of_nat n <= Z.of_nat (length val) -> load n off (val ++ tl) = load n off val.
Proof.
  intros H1 H2. rewrite !load_done by (rewrite ?length_app; lia).
  rewrite drop_app_le by lia. by rewrite take_app_le by (rewrite length_drop; lia).
Qed.

Lemma c_chars_terminated l : exists s, c_chars (l ++ [0]) = Done s.
Proof.
  induction l as [|b l [s IH]]; cbn; [by eexists|]. destruct (b =? 0); [by eexists|].
  rewrite IH. by eexists.
Qed.

Lemma c_string_terminated off val :
  0 <= off <= Z.of_nat (length val) -> exists s, c_string off (val ++ [0]) = Done s.
Proof.
  intros Ho. unfold c_string. rewrite (proj2 (Z.leb_le _ _)) by lia.
  rewrite drop_app_le by lia. apply c_chars_terminated.
Qed.

(** [int] arithmetic is arithmetic modulo [2^32]. *)
Lemma i32_sub_l a b : i32 (i32 a - b) = i32 (a - b).
Proof.
  unfold i32. f_equal.
  replace ((a + 2 ^ 31) mod 2 ^ 32 - 2 ^ 31 - b + 2 ^ 31) with ((a + 2 ^ 31) mod 2 ^ 32 - b) by lia.
  rewrite Zminus_mod_idemp_l. f_equal. lia.
Qed.

Lemma i32_turn a k : i32 (a + k * 2 ^ 32) = i32 a.
Proof. unfold i32. f_equal. rewrite <- (Z_mod_plus_full (a + 2 ^ 31) k). f_equal. lia. Qed.

(** * Safe outcomes: the parse returns or throws *)

Definition safe {A} (o : outcome A) : Prop :=
  match o with Done _ | Throw => True | Oob | OutOfFuel => False end.

Lemma safe_bind {A B} (o : outcome A) (k : A -> outcome B) :
  safe o -> (forall a, o = Done a -> safe (k a)) -> safe (obind o k).
Proof. destruct o; cbn; auto. Qed.

Lemma safe_load n off buf :
  0 <= off -> off + Z.of_nat n <= Z.of_nat (length buf) -> safe (load n off buf).
Proof. intros H1 H2. by rewrite load_done. Qed.

(** * Readers stay in bounds and advance *)

Section sound.
Context (val : list Z).
Hypothesis Hbytes : Forall byte_ok val.
Let buf := val ++ [0].
Let len := Z.of_nat (length val).
Hypothesis Hlen : len + 64 <= INT_MAX.

(** An offset at most [p] bytes past the end, or one that wrapped around. *)
Definition at_most (p off : Z) : Prop := INT_MIN <= off <= p - 64 \/ 0 <= off <= len + p.

(** From offsets at most [p] past the end the reader ends inside the buffer at
    most [q] past it; it does not go back unless the offset wraps, and a wrapped
    offset stays so. *)
Definition sound {A} (p q : Z) (m : Rd A) : Prop := forall off, at_most p off ->
  match m off with
  | Done (_, off') => at_most q off' /\ (off < 0 -> off' < 0) /\ (off' < 0 \/ off <= off')
  | Throw => True
  | _ => False
  end.

(** The reader succeeds on no wrapped offset and consumes something. *)
Definition advances {A} (m : Rd A) : Prop := forall off, at_most 12 off ->
  match m off with
  | Done (_, off') => 0 <= off /\ (off' < 0 \/ off < off')
  | _ => True
  end.

Lemma sound_ret {A} p q (a : A) : p <= q -> sound p q (rret a).
Proof. intros Hp off Ho. cbn. unfold at_most in *. lia. Qed.

Lemma sound_throw {A} p q : sound p q (@rthrow A).
Proof. intros off Ho. done. Qed.

Lemma sound_conseq {A} p p' q q' (m : Rd A) : sound p q m -> p' <= p -> q <= q' -> sound p' q' m.
Proof.
  intros Hm Hp Hq off Ho. assert (Ho' : at_most p off) by (unfold at_most in *; lia).
  specialize (Hm off Ho'). destruct (m off) as [[a off']| | |]; [|done..].
  destruct Hm as [H1 H2]. split; [|done]. unfold at_most in *. lia.
Qed.

Lemma sound_bind {A B} p q r (m : Rd A) (k : A -> Rd B) :
  sound p q m -> (forall a, sound q r (k a)) -> sound p r (rbind m k).
Proof.
  intros Hm Hk off Ho. unfold rbind. specialize (Hm off Ho).
  destruct (m off) as [[a off1]| | |]; [|done..]. cbn. destruct Hm as [H1 H2].
  specialize (Hk a off1 H1). destruct (k a off1) as [[b off2]| | |]; [|done..].
  destruct Hk as [H3 H4]. split; [done|]. lia.
Qed.

Lemma advances_bind {A B} q r (m : Rd A) (k : A -> Rd B) :
  sound 12 q m -> advances m -> (forall a, sound q r (k a)) -> advances (rbind m k).
Proof.
  intros Hs Ha Hk off Ho. unfold rbind. specialize (Hs off Ho). specialize (Ha off Ho).
  destruct (m off) as [[a off1]| | |]; [|done..]. cbn. destruct Hs as [H1 H2].
  specialize (Hk a off1 H1). destruct (k a off1) as [[b off2]| | |]; [|done..].
  destruct Hk as [H3 H4]. lia.
Qed.

Lemma sound_skip p : p <= 0 -> sound p 12 skip12.
Proof.
  intros Hp off Ho. cbn. unfold at_most in *. rewrite i32_id.
  - unfold INT_MIN in *. lia.
  - unfold is_i32, INT_MIN, INT_MAX in *. lia.
Qed.

(** Where the type field can be read. *)
Lemma type_readable_spec off :
  at_most 12 off -> type_readable len off = true -> 0 <= off /\ off + 4 <= len.
Proof.
  unfold type_readable, at_most. intros Ho H. b2p. rewrite i32_id in *.
  - lia.
  - unfold is_i32, INT_MIN, INT_MAX in *. lia.
Qed.

Lemma load_buf n off :
  0 <= off -> off + Z.of_nat n <= len -> load n off buf = Done (le_val (take n (drop (Z.to_nat off) val))).
Proof. intros H1 H2. unfold buf. rewrite load_app by (unfold len in *; lia). by apply load_done. Qed.

Lemma get_uint64_cases off :
  at_most 12 off ->
  match get_uint64 buf len off with
  | Done (_, off') => 0 <= off /\ off' = off + 12 /\ off' <= len
  | Throw => True
  | _ => False
  end.
Proof.
  intros Ho. unfold get_uint64. destruct (type_readable len off) eqn:Et; [|done].
  apply type_readable_spec in Et as [H1 H2]; [|done]. cbn [negb].
  rewrite load_buf by (cbn; lia). cbn [obind]. destruct (negb _); [done|].
  rewrite !(i32_id (off + 4)) by (unfold is_i32, INT_MIN, INT_MAX in *; lia).
  rewrite !(i32_id (off + 4 + 8)) by (unfold is_i32, INT_MIN, INT_MAX in *; lia).
  destruct (_ >? _) eqn:Eg; [done|]. b2p. rewrite load_buf by (cbn; lia). cbn. lia.
Qed.

Lemma get_string_cases off :
  at_most 12 off ->
  match get_string buf len off with
  | Done (p, off') => 0 <= off /\ p = off + 12 /\ p <= len /\ exists n, 0 <= n <= INT_MAX /\
      ((off' = p + n /\ off' <= len) \/ (INT_MIN <= off' <= -64 /\ off' = p + n - 2 ^ 32))
  | Throw => True
  | _ => False
  end.
Proof.
  intros Ho. unfold get_string. destruct (type_readable len off) eqn:Et; [|done].
  apply type_readable_spec in Et as [H1 H2]; [|done]. cbn [negb].
  rewrite load_buf by (cbn; lia). cbn [obind]. destruct (negb _); [done|].
  rewrite !(i32_id (off + 4)) by (unfold is_i32, INT_MIN, INT_MAX in *; lia).
  rewrite !(i32_id (off + 4 + 8)) by (unfold is_i32, INT_MIN, INT_MAX in *; lia).
  destruct (_ >? _) eqn:Eg; [done|]. b2p. rewrite load_buf by (cbn; lia). cbn [obind].
  set (n := le_val _). destruct (_ || _) eqn:Eo; [done|]. b2p.
  assert (Hn : 0 <= n).
  { apply le_val_range. by apply Forall_take, Forall_drop. }
  rewrite (i32_id n) in * by (unfold is_i32, INT_MIN, INT_MAX in *; lia).
  split; [done|]. split; [lia|]. split; [lia|]. exists n. split; [lia|].
  replace (off + 4 + 8) with (off + 12) in * by lia.
  destruct (Z_le_gt_dec (off + 12 + n) INT_MAX) as [Hs|Hb].
  - left. rewrite i32_id in * by (unfold is_i32, INT_MIN, INT_MAX in *; lia). lia.
  - right. assert (E : i32 (off + 12 + n) = off + 12 + n - 2 ^ 32).
    { unfold i32. rewrite <- (Z.mod_unique_pos _ _ 1 (off + 12 + n - 2 ^ 31)); unfold INT_MAX in *; lia. }
    rewrite E. unfold INT_MIN, INT_MAX in *. lia.
Qed.

(** [get_string_obj] never returns [nullptr]. *)
Lemma get_str_cases off :
  at_most 12 off ->
  match get_str buf len off with
  | Done (_, off') => 0 <= off /\ at_most 0 off' /\ (off' < 0 \/ off + 12 <= off')
  | Throw => True
  | _ => False
  end.
Proof.
  intros Ho. unfold get_str, rbind, get_string_obj. pose proof (get_string_cases off Ho) as Hc.
  destruct (get_string buf len off) as [[p off']| | |]; [|done..]. cbn [obind].
  destruct Hc as (H1 & -> & H3 & n & Hn & Hoff).
  assert (E : i32 (i32 (off' - off) - 12) = n).
  { rewrite i32_sub_l. destruct Hoff as [[-> _]|[_ ->]].
    - rewrite i32_id by (unfold is_i32, INT_MIN, INT_MAX in *; lia). lia.
    - replace (off + 12 + n - 2 ^ 32 - off - 12) with (n + (-1) * 2 ^ 32) by lia.
      rewrite i32_turn. apply i32_id. unfold is_i32, INT_MIN, INT_MAX in *; lia. }
  rewrite E. rewrite (proj2 (Z.ltb_ge _ _)) by lia. unfold rlift.
  unfold buf. destruct (c_string_terminated (off + 12) val) as [s ->]; [unfold len in *; lia|]. cbn.
  split; [done|]. unfold at_most. unfold INT_MIN in *. lia.
Qed.

Lemma sound_u64 p : p <= 12 -> sound p 0 (get_uint64 buf len).
Proof.
  intros Hp off Ho. assert (Ho' : at_most 12 off) by (unfold at_most in *; lia).
  pose proof (get_uint64_cases off Ho') as H. destruct (get_uint64 _ _ _) as [[v off']| | |]; [|done..].
  unfold at_most in *. lia.
Qed.

Lemma advances_u64 : advances (get_uint64 buf len).
Proof.
  intros off Ho. pose proof (get_uint64_cases off Ho) as H.
  destruct (get_uint64 _ _ _) as [[v off']| | |]; [|done..]. lia.
Qed.

Lemma sound_str p : p <= 12 -> sound p 0 (get_str buf len).
Proof.
  intros Hp off Ho. assert (Ho' : at_most 12 off) by (unfold at_most in *; lia).
  pose proof (get_str_cases off Ho') as H. destruct (get_str _ _ _) as [[v off']| | |]; [|done..].
  destruct H as (H1 & H2 & H3). split; [done|]. lia.
Qed.

Lemma advances_str : advances (get_str buf len).
Proof.
  intros off Ho. pose proof (get_str_cases off Ho) as H.
  destruct (get_str _ _ _) as [[v off']| | |]; [|done..]. lia.
Qed.

Lemma sound_string p : p <= 12 -> sound p 0 (get_string buf len).
Proof.
  intros Hp off Ho. assert (Ho' : at_most 12 off) by (unfold at_most in *; lia).
  pose proof (get_string_cases off Ho') as H. destruct (get_string _ _ _) as [[v off']| | |]; [|done..].
  destruct H as (H1 & -> & H3 & n & Hn & Hoff). unfold at_most, INT_MIN in *. lia.
Qed.

Lemma sound_type p : p <= 12 -> sound p 0 (get_type buf len).
Proof.
  intros Hp off Ho. unfold get_type. destruct (type_readable len off) eqn:Et; [|done].
  apply type_readable_spec in Et as [H1 H2]; [|unfold at_most in *; lia].
  rewrite load_buf by (cbn; lia). cbn. unfold at_most. lia.
Qed.

Lemma sound_int p : p <= 12 -> sound p 0 (get_int buf len).
Proof. intros Hp. eapply sound_bind; [by apply sound_u64|]. intros v. by apply sound_ret. Qed.

Lemma advances_int : advances (get_int buf len).
Proof. eapply advances_bind; [by apply sound_u64|apply advances_u64|]. intros v. by apply (sound_ret 0 0). Qed.

(** Rounds that suffice from an offset: none succeeds on a wrapped one. *)
Definition enough (fuel : nat) (off : Z) : Prop :=
  1 <= Z.of_nat fuel /\ (0 <= off -> len - off + 1 <= Z.of_nat fuel).

Lemma sound_entries {A} (body : Rd A) :
  sound 12 12 body -> advances body -> forall fuel off, at_most 12 off -> enough fuel off ->
  match entries fuel len body off with
  | Done (_, off') => at_most 12 off' /\ (off < 0 -> off' < 0) /\ (off' < 0 \/ off <= off')
  | Throw => True
  | _ => False
  end.
Proof.
  intros Hs Ha. induction fuel as [|f IH]; intros off Ho He; [unfold enough in He; lia|].
  cbn [entries]. destruct (off <? len) eqn:El; [|split; [done|lia]]. b2p. unfold rbind.
  specialize (Hs off Ho). specialize (Ha off Ho). destruct (body off) as [[a off1]| | |]; [|done..].
  destruct Hs as [H1 H2]. cbn [obind]. assert (He1 : enough f off1) by (unfold enough in *; lia).
  specialize (IH off1 H1 He1). destruct (entries f len body off1) as [[l off2]| | |]; [|done..].
  cbn. destruct IH as [H3 H4]. split; [done|]. lia.
Qed.

Lemma enough_rounds off : enough (rounds len) off.
Proof. unfold enough, rounds, len. lia. Qed.

Lemma sound_rows {A} p (body : Rd A) :
  p <= 12 -> sound 12 12 body -> advances body -> sound p 12 (entries (rounds len) len body).
Proof.
  intros Hp Hs Ha off Ho. apply sound_entries; [done..| |apply enough_rounds].
  unfold at_most in *. lia.
Qed.

(** A condition is read only before the end of the table. *)
Lemma sound_condition_loop (one : Z -> Rd (condition_t * bool)) n :
  (forall i, sound 12 12 (one i)) -> (forall i, advances (one i)) ->
  (forall i off, len <= off -> one i off = Throw) ->
  forall fuel i off, at_most 12 off -> enough fuel off ->
  match condition_loop fuel n i one off with
  | Done (_, off') => at_most 12 off' /\ (off < 0 -> off' < 0) /\ (off' < 0 \/ off <= off')
  | Throw => True
  | _ => False
  end.
Proof.
  intros Hs Ha Ht. induction fuel as [|f IH]; intros i off Ho He; [unfold enough in He; lia|].
  cbn [condition_loop]. destruct (i <? n); [|split; [done|lia]]. unfold rbind.
  specialize (Hs i off Ho). specialize (Ha i off Ho). specialize (Ht i off).
  destruct (one i off) as [[[c took] off1]| | |]; [|done..].
  destruct Hs as [H1 H2]. cbn [obind].
  assert (Hl : off < len). { destruct (Z.lt_ge_cases off len) as [|Hge]; [done|]. by specialize (Ht Hge). }
  assert (He1 : enough f off1) by (unfold enough in *; lia).
  match goal with |- context [condition_loop f n ?j one off1] => specialize (IH j off1 H1 He1) end.
  destruct (condition_loop f n _ one off1) as [[l off2]| | |]; [|done..].
  cbn. destruct IH as [H3 H4]. split; [done|]. lia.
Qed.

Lemma sound_conditions p (one : Z -> Rd (condition_t * bool)) n :
  p <= 12 -> (forall i, sound 12 12 (one i)) -> (forall i, advances (one i)) ->
  (forall i off, len <= off -> one i off = Throw) -> sound p 12 (condition_loop (rounds len) n 0 one).
Proof.
  intros Hp Hs Ha Ht off Ho. apply sound_condition_loop; [done..| |apply enough_rounds].
  unfold at_most in *. lia.
Qed.

(** A reader that first checks that the table has not ended. *)
Lemma sound_guarded {A} p q (m : Rd A) :
  sound p q m -> sound p q (fun off => if off >=? len then Throw else m off).
Proof. intros Hm off Ho. destruct (off >=? len); [done|]. by apply Hm. Qed.

Lemma advances_guarded {A} (m : Rd A) :
  advances m -> advances (fun off => if off >=? len then Throw else m off).
Proof. intros Hm off Ho. destruct (off >=? len); [done|]. by apply Hm. Qed.
End sound.

(** ** The tables *)

(** Reads a chain of readers left to right; a checked reader ends inside the
    table, anything else at most 12 bytes past its end. *)
Ltac sound_leaf lem := apply (sound_conseq _ 12 _ 0); [apply lem; (assumption || reflexivity)|lia|lia].
Ltac past m :=
  lazymatch m with
  | get_uint64 _ _ => constr:(0) | get_int _ _ => constr:(0) | get_str _ _ => constr:(0)
  | get_string _ _ => constr:(0) | get_type _ _ => constr:(0) | _ => constr:(12)
  end.
Ltac sound_step :=
  lazymatch goal with
  | |- sound _ _ _ (rret _) => apply sound_ret; lia
  | |- sound _ _ _ rthrow => apply sound_throw
  | |- sound _ _ _ (rbind ?m _) =>
      let q := past m in
      eapply (sound_bind _ _ q); [|intros ?; try match goal with x : _ * _ |- _ => destruct x end]
  | |- sound _ _ _ (get_uint64 _ _) => sound_leaf sound_u64
  | |- sound _ _ _ (get_int _ _) => sound_leaf sound_int
  | |- sound _ _ _ (get_str _ _) => sound_leaf sound_str
  | |- sound _ _ _ (get_string _ _) => sound_leaf sound_string
  | |- sound _ _ _ (get_type _ _) => sound_leaf sound_type
  | |- sound _ _ _ skip12 => apply sound_skip; [done|lia]
  | |- sound _ _ _ (if ?b then _ else _) => destruct b
  end.
Ltac sound_tac := repeat sound_step.

(** A row stays inside the table and consumes something. *)
Definition row_ok {A} (val : list Z) (m : Rd A) : Prop := sound val 12 12 m /\ advances val m.

Ltac row_tac :=
  split;
  [ sound_tac
  | eapply (advances_bind _ 0 12);
    [ sound_tac
    | first [apply advances_u64 | apply advances_str | apply advances_int]; assumption
    | intros ?; sound_tac ] ].

Section tables.
Context (val : list Z).
Hypothesis Hbytes : Forall byte_ok val.
Let buf := val ++ [0].
Let len := Z.of_nat (length val).
Hypothesis Hlen : len + 64 <= INT_MAX.

Lemma appc_ok : row_ok val (appc_entry buf len).
Proof. unfold appc_entry. row_tac. Qed.

Lemma apat_ok : row_ok val (apat_entry buf len).
Proof. unfold apat_entry. row_tac. Qed.

Lemma psvt_ok : row_ok val (psvt_entry buf len).
Proof. unfold psvt_entry, psv_limit_field. row_tac. Qed.

Lemma itmt_ok version : row_ok val (itmt_row buf len version).
Proof. unfold itmt_row. row_tac. Qed.

Lemma vspt_ok : row_ok val (vspt_row buf len).
Proof. unfold vspt_row. row_tac. Qed.

Lemma vsct_ok : row_ok val (vsct_row buf len).
Proof. unfold vsct_row. row_tac. Qed.

Lemma trt_ok : row_ok val (trt_row buf len).
Proof. unfold trt_row. row_tac. Qed.

Lemma sound_operation more gap c :
  sound val 0 12 gap -> sound val 0 12 (read_operation buf len more gap c).
Proof. intros Hg. unfold read_operation. sound_tac. done. Qed.

Lemma apct_v1_condition_ok target i : row_ok val (apct_v1_condition buf len target i).
Proof.
  assert (H : row_ok val (let! cond := get_uint64 buf len in let! cmp := get_uint64 buf len in
    let! arg := get_int buf len in read_operation buf len (i <? 9) skip12
      ((blank_condition target) <| c_condition := u32 cond |> <| c_comparison := u8 cmp |>
        <| c_argument := arg |>))).
  { row_tac; apply sound_operation; sound_tac. }
  destruct H as [H1 H2]. split; [by apply sound_guarded|by apply advances_guarded].
Qed.

Lemma apct_v2_condition_ok target count i : row_ok val (apct_v2_condition buf len target count i).
Proof.
  assert (H : row_ok val (let! cond := get_uint64 buf len in let! dev := get_str buf len in
    let! _ := skip12 in let! cmp := get_uint64 buf len in let! arg := get_int buf len in
    read_operation buf len (i <? i32 (u64 (count - 1)))
      (let! _ := skip12 in let! _ := get_string buf len in skip12)
      ((blank_condition target) <| c_condition := u32 cond |> <| c_device := dev |>
        <| c_comparison := u8 cmp |> <| c_argument := arg |>))).
  { row_tac; apply sound_operation; sound_tac. }
  destruct H as [H1 H2]. split; [by apply sound_guarded|by apply advances_guarded].
Qed.

Lemma apct_v1_ok : row_ok val (apct_v1_set buf len).
Proof.
  assert (Hl : forall target, sound val 0 12 (condition_loop (rounds len) 10 0 (apct_v1_condition buf len target))).
  { intros target. apply sound_conditions; [done|..]; try apply apct_v1_condition_ok.
    intros i off Ho. unfold apct_v1_condition. by rewrite (proj2 (Z.geb_le _ _)) by done. }
  unfold apct_v1_set. row_tac; done.
Qed.

Lemma apct_v2_ok : row_ok val (apct_v2_set buf len).
Proof.
  assert (Hl : forall target count,
    sound val 0 12 (condition_loop (rounds len) (i32 count) 0 (apct_v2_condition buf len target count))).
  { intros target count. apply sound_conditions; [done|..]; try apply apct_v2_condition_ok.
    intros i off Ho. unfold apct_v2_condition. by rewrite (proj2 (Z.geb_le _ _)) by done. }
  unfold apct_v2_set. row_tac; done.
Qed.

Lemma safe_run {A} q (m : Rd A) : sound val 0 q m -> safe (run m).
Proof.
  intros Hm. specialize (Hm 0). unfold run. destruct (m 0) as [[a off]| | |]; cbn in *; [done..| |];
    apply Hm; unfold at_most; lia.
Qed.

Lemma rows_ok {A} (body : Rd A) : row_ok val body -> sound val 0 12 (entries (rounds len) len body).
Proof. intros [H1 H2]. by apply sound_rows. Qed.

Ltac table_tac ok :=
  apply (safe_run 12); sound_tac; try (apply rows_ok, ok).

Lemma safe_ppcc name g : safe (parse_ppcc buf len name g).
Proof.
  assert (Hp : forall off, 0 <= off -> off + 8 <= len -> safe (ppcc_int buf off)).
  { intros off H1 H2. unfold ppcc_int. apply safe_bind; [|done].
    apply safe_load; [done|]. unfold buf. rewrite length_app. unfold len in *. cbn. lia. }
  unfold parse_ppcc. destruct (len <? 84) eqn:E1; [done|]. b2p.
  do 5 (apply safe_bind; [apply Hp; lia|intros ? _]).
  destruct (len <? 156) eqn:E2; [done|]. b2p.
  do 5 (apply safe_bind; [apply Hp; lia|intros ? _]). done.
Qed.

Lemma safe_psvt name g : safe (parse_psvt buf len name g).
Proof. unfold parse_psvt. table_tac psvt_ok. Qed.

Lemma safe_appc g : safe (parse_appc buf len g).
Proof.
  unfold parse_appc. destruct (len <? 1) eqn:E; [done|]. b2p. apply safe_bind.
  { apply safe_load; [done|]. unfold buf. rewrite length_app. unfold len in *. cbn. lia. }
  intros b0 _. destruct (negb _); [done|]. table_tac appc_ok.
Qed.

Lemma safe_apct g : safe (parse_apct buf len g).
Proof. unfold parse_apct. table_tac apct_v1_ok; apply rows_ok, apct_v2_ok. Qed.

Lemma safe_apat g : safe (parse_apat buf len g).
Proof. unfold parse_apat. table_tac apat_ok. Qed.

Lemma safe_itmt name g : safe (parse_itmt buf len name g).
Proof. unfold parse_itmt. table_tac itmt_ok. Qed.

Lemma safe_trt g : safe (parse_trt buf len g).
Proof. unfold parse_trt. table_tac trt_ok. Qed.

Lemma safe_vsct name g : safe (parse_vsct buf len name g).
Proof. unfold parse_vsct. table_tac vsct_ok. Qed.

Lemma safe_vspt g : safe (parse_vspt buf len g).
Proof. unfold parse_vspt. table_tac vspt_ok. Qed.

Lemma safe_c_string off : 0 <= off <= len -> safe (c_string off buf).
Proof. intros H. unfold buf. by destruct (c_string_terminated off val H) as [s ->]. Qed.

Lemma safe_itmt3_rows fuel off :
  0 <= off -> enough val fuel off -> safe (itmt3_rows buf len fuel off).
Proof.
  revert off. induction fuel as [|f IH]; intros off Ho He; [unfold enough in He; lia|].
  cbn [itmt3_rows]. destruct (off <? len) eqn:El; [|done]. destruct (_ <? itmt3_size) eqn:E; [done|]. b2p.
  unfold itmt3_size in *.
  apply safe_bind; [apply safe_c_string; lia|intros ? _].
  apply safe_bind; [apply safe_load; [lia|]|intros ? _].
  { unfold buf. rewrite length_app. unfold len in *. cbn. lia. }
  apply safe_bind; [apply safe_c_string; lia|intros ? _].
  apply safe_bind; [apply safe_c_string; lia|intros ? _].
  apply safe_bind; [|done]. apply IH; [lia|]. unfold enough in He |- *. fold len in He |- *. lia.
Qed.

Lemma safe_itmt3 name g : safe (parse_itmt3 buf len name g).
Proof.
  unfold parse_itmt3. do 2 (destruct (_ <? _); [done|]).
  apply safe_bind; [|by intros [l|] _]. apply safe_itmt3_rows; [done|apply enough_rounds].
Qed.

Lemma safe_idsp_rows fuel i :
  0 <= i -> enough val fuel i -> safe (idsp_rows buf len fuel i).
Proof.
  revert i. induction fuel as [|f IH]; intros i Hi He; [unfold enough in He; lia|].
  assert (Hb : Z.of_nat (length buf) = len + 1) by (unfold buf, len; rewrite length_app; cbn; lia).
  cbn [idsp_rows]. destruct (negb _) eqn:El; [done|]. destruct (_ <? 28) eqn:E; [done|]. b2p.
  apply safe_bind; [apply safe_load; cbn; lia|intros ty _].
  destruct (negb (ty =? 7)); [done|].
  apply safe_bind; [apply safe_load; cbn; lia|intros l _].
  destruct (_ || _) eqn:En; [done|]. b2p.
  apply safe_bind; [|intros str _].
  { unfold slice. rewrite !(proj2 (Z.leb_le _ _)) by lia. done. }
  apply safe_bind; [|done]. apply IH; [lia|]. unfold enough in He |- *. fold len in He |- *. lia.
Qed.

Lemma safe_idsp g : safe (parse_idsp buf len g).
Proof.
  unfold parse_idsp. destruct (len <? 0); [done|]. apply safe_bind; [|done].
  apply safe_idsp_rows; [done|apply enough_rounds].
Qed.

Lemma safe_trip_point name type g : safe (parse_trip_point buf len name type g).
Proof.
  unfold parse_trip_point. destruct (len <? 4) eqn:E; [done|]. b2p. apply safe_bind; [|done].
  apply safe_load; [done|]. unfold buf. rewrite length_app. unfold len in *. cbn. lia.
Qed.

Lemma safe_when b p g : safe (p g) -> safe (when_table b p g).
Proof. intros H. unfold when_table. destruct b; [|done]. apply safe_bind; [done|]. by intros [r g'] _. Qed.

Lemma safe_dispatch parts g : safe (dispatch parts buf len g).
Proof.
  destruct parts as [[name type] point]. unfold dispatch.
  repeat (apply safe_bind; [apply safe_when|intros ? _]); [..|apply safe_when];
    auto using safe_ppcc, safe_psvt, safe_appc, safe_apct, safe_apat, safe_itmt3, safe_itmt, safe_idsp,
      safe_trip_point, safe_trt, safe_vsct, safe_vspt.
Qed.
End tables.

(** * Keys *)

(** A length field so large that [int] addition of the offset overflows. *)
Definition overflows (off n : Z) : Prop := INT_MAX - off < n < INT_MAX.

(** The key length does, or the key fits and the length of the value does. *)
Definition length_overflow (buf : list Z) (size : Z) : Prop := exists k,
  load 4 4 buf = Done k /\
  (overflows 8 k \/
   (0 < k /\ 16 + k <= size /\ exists v, load 4 (12 + k) buf = Done v /\ overflows (16 + k) v)).

(** What the check [n >= INT_MAX || off + n > size] lets through. *)
Lemma length_check off n size :
  0 <= off <= INT_MAX -> 0 <= n -> 0 <= size < INT_MAX ->
  (n >=? INT_MAX) || (i32 (off + i32 n) >? size) = false <-> overflows off n \/ off + n <= size.
Proof.
  intros Ho Hn Hs. unfold overflows. destruct (Z_lt_le_dec n INT_MAX) as [Hlt|Hge].
  - rewrite (i32_id n) by (unfold is_i32, INT_MIN, INT_MAX in *; lia).
    destruct (Z_lt_le_dec INT_MAX (off + n)) as [Hb|Hf].
    + assert (E : i32 (off + n) = off + n - 2 ^ 32).
      { replace (off + n) with (off + n - 2 ^ 32 + 1 * 2 ^ 32) at 1 by lia. rewrite i32_turn.
        apply i32_id. unfold is_i32, INT_MIN, INT_MAX in *; lia. }
      rewrite E. destruct (_ || _) eqn:Eo; b2p; split; try lia; unfold INT_MAX in *; lia.
    + rewrite i32_id by (unfold is_i32, INT_MIN, INT_MAX in *; lia).
      destruct (_ || _) eqn:Eo; b2p; split; (lia || done).
  - destruct (n >=? INT_MAX) eqn:Eo; b2p; [|lia]. cbn. split; [done|lia].
Qed.

Lemma slice_done n off b :
  0 <= off -> off + n <= Z.of_nat (length b) ->
  slice n off b = Done (take (Z.to_nat n) (drop (Z.to_nat off) b)).
Proof. intros H1 H2. unfold slice. by rewrite (proj2 (Z.leb_le _ _) H1), (proj2 (Z.leb_le _ _) H2). Qed.

Lemma slice_oob n off b : Z.of_nat (length b) < off + n -> slice n off b = Oob.
Proof. intros H. unfold slice. rewrite (proj2 (Z.leb_gt (off + n) _)) by done. by rewrite andb_false_r. Qed.

(** The parse of the value and what follows it, for a key that fits. *)
Lemma parse_value_outcome buf size k (rest : list Z -> Z -> outcome (Z * Z * gddv)) :
  Forall byte_ok buf -> size = Z.of_nat (length buf) -> size + 64 <= INT_MAX -> 0 <= k -> 16 + k <= size ->
  (forall v, Z.of_nat (length v) < INT_MAX - 64 -> Forall byte_ok v -> safe (rest v (Z.of_nat (length v)))) ->
  forall v, load 4 (12 + k) buf = Done v ->
  match (if (v >=? INT_MAX) || (i32 (16 + k + i32 v) >? size) then Throw
         else obind (slice v (16 + k) buf) (fun val => rest val v)) with
  | Done _ | Throw => ~ overflows (16 + k) v
  | Oob => overflows (16 + k) v
  | OutOfFuel => False
  end.
Proof.
  intros Hb Es Hs Hk Hk16 Hrest v Hv. assert (Hvr := load_range _ _ _ _ Hb Hv).
  pose proof (length_check (16 + k) v size) as Hc.
  destruct ((v >=? INT_MAX) || _) eqn:E.
  { intros Ho. assert (true = false) by (apply Hc; unfold INT_MAX in *; lia || auto). done. }
  destruct (proj1 (Hc ltac:(lia) ltac:(lia) ltac:(lia)) eq_refl) as [Ho|Hf].
  - rewrite slice_oob; [done|]. unfold overflows in Ho. lia.
  - rewrite slice_done by lia. cbn [obind].
    set (val := take _ _). assert (El : Z.of_nat (length val) = v).
    { unfold val. rewrite length_take, length_drop. lia. }
    assert (Hsafe := Hrest val). rewrite El in Hsafe.
    assert (Hn : ~ overflows (16 + k) v) by (unfold overflows; lia).
    assert (Hx : safe (rest val v)) by (apply Hsafe; [lia|by apply Forall_take, Forall_drop]).
    by destruct (rest val v).
Qed.

(** C20: untrusted keys.  Whatever the bytes of a container that fits in an
    [int], the parse of a key and of the table it holds ends, by returning or
    by throwing, and reads outside the container exactly when the length of the
    key or of the value is so near [INT_MAX] that its check overflows. *)
Theorem parse_gddv_key_outcome buf size g :
  Forall byte_ok buf -> size = Z.of_nat (length buf) -> size + 64 <= INT_MAX ->
  match parse_gddv_key buf size g with
  | Done _ | Throw => size < 8 \/ ~ length_overflow buf size
  | Oob => 8 <= size /\ length_overflow buf size
  | OutOfFuel => False
  end.
Proof.
  intros Hb Es Hs. unfold parse_gddv_key. destruct (size <? 8) eqn:E8; b2p; [by left|].
  assert (Hk : load 4 4 buf = Done (le_val (take 4 (drop (Z.to_nat 4) buf)))) by (rewrite load_done by (cbn; lia); done).
  revert Hk. generalize (le_val (take 4 (drop (Z.to_nat 4) buf))). intros k Hk.
  assert (Hkr := load_range _ _ _ _ Hb Hk). unfold length_overflow. rewrite Hk. cbn [obind].
  pose proof (length_check 8 k size ltac:(unfold INT_MAX; lia) ltac:(lia) ltac:(lia)) as Hc.
  rewrite <- orb_assoc. destruct (k =? 0) eqn:Ek0; b2p; cbn [orb].
  { right. intros (k' & ? & H); simplify_eq. unfold overflows, INT_MAX in H. lia. }
  destruct ((k >=? INT_MAX) || _) eqn:Ec.
  { right. intros (k' & ? & H); simplify_eq.
    assert (true = false) by (apply Hc; destruct H; [auto|lia]). done. }
  destruct (proj1 Hc eq_refl) as [Ho|Hf].
  { rewrite slice_oob by (unfold overflows in Ho; lia). cbn. split; [done|]. exists k. auto. }
  rewrite slice_done by lia. cbn [obind].
  rewrite !(i32_id (8 + k)) by (unfold is_i32, INT_MIN, INT_MAX in *; lia).
  rewrite !(i32_id (8 + k + 8)) by (unfold is_i32, INT_MIN, INT_MAX in *; lia).
  clear Ec Hc. destruct (8 + k + 8 >? size) eqn:E16; b2p.
  { right. intros (k' & ? & H); simplify_eq. unfold overflows in H. lia. }
  replace (8 + k + 4) with (12 + k) by lia. replace (8 + k + 8) with (16 + k) by lia.
  assert (Hv : exists v, load 4 (12 + k) buf = Done v) by (eexists; apply load_done; cbn; lia).
  destruct Hv as [v Hv]. rewrite Hv. cbn [obind].
  pose proof (parse_value_outcome buf size k (fun val v =>
    obind (c_chars (take (Z.to_nat k) (drop (Z.to_nat 8) buf) ++ [0])) (fun key_str =>
    obind (dispatch (key_parts (tokens key_str)) (val ++ [0]) v g) (fun g =>
    Done (THD_SUCCESS, i32 (16 + k + v), g))))) as Hp.
  specialize (Hp Hb Es Hs ltac:(lia) ltac:(lia)). cbn beta in Hp.
  match type of Hp with ?P -> _ => assert (Hr : P) end.
  { intros val Hl Hvb. destruct (c_chars_terminated (take (Z.to_nat k) (drop (Z.to_nat 8) buf))) as [s ->].
    cbn [obind]. apply safe_bind; [|done]. apply safe_dispatch; [done|lia]. }
  specialize (Hp Hr v Hv). match type of Hp with match ?o with _ => _ end => destruct o as [r| | |] end;
    [right|right| |done].
  1,2: intros (k' & ? & H); simplify_eq; unfold overflows in *; destruct H as [|(_ & _ & v' & Hv' & ?)];
    [lia|]; rewrite Hv in Hv'; simplify_eq; lia.
  split; [done|]. exists k. split; [done|]. right. eauto with lia.
Qed.

(** * The container *)

Lemma obind_done {A B} (m : outcome A) (k : A -> outcome B) b :
  obind m k = Done b -> exists a, m = Done a /\ k a = Done b.
Proof. destruct m; cbn; [eauto|done..]. Qed.

Lemma obind_fuel {A B} (m : outcome A) (k : A -> outcome B) :
  m <> OutOfFuel -> (forall a, m = Done a -> k a <> OutOfFuel) -> obind m k <> OutOfFuel.
Proof. destruct m; cbn; auto. Qed.

Lemma load_fuel n off buf : load n off buf <> OutOfFuel.
Proof. unfold load. by destruct (_ && _). Qed.

(** A key that was read ends inside the container, past its headers. *)
Lemma parse_gddv_key_end buf size g r e g' :
  Forall byte_ok buf -> size = Z.of_nat (length buf) -> size + 64 <= INT_MAX ->
  parse_gddv_key buf size g = Done (r, e, g') -> r = THD_SUCCESS /\ 16 <= e <= size.
Proof.
  intros Hb Es Hs. unfold parse_gddv_key. destruct (size <? 8); [done|].
  intros (k & Hk & H)%obind_done. apply load_range in Hk; [|done]. destruct (_ || _ || _); [done|].
  apply obind_done in H as (key & Hkey & H). unfold slice in Hkey. destruct (_ && _) eqn:E1; [|done]. b2p.
  rewrite (i32_id (8 + k)), (i32_id (8 + k + 8)) in H by (unfold is_i32, INT_MIN, INT_MAX in *; lia).
  destruct (_ >? _); [done|]. apply obind_done in H as (v & Hv & H). apply load_range in Hv; [|done].
  destruct (_ || _); [done|]. apply obind_done in H as (val & Hval & H).
  unfold slice in Hval. destruct (_ && _) eqn:E2 in Hval; [|done]. b2p.
  apply obind_done in H as (s & _ & H). apply obind_done in H as (g2 & _ & H). simplify_eq.
  rewrite i32_id by (unfold is_i32, INT_MIN, INT_MAX in *; lia). split; [done|lia].
Qed.

(** Every header in the bytes gives its size and none is compressed. *)
Definition plain_headers (buf : list Z) : Prop := forall off,
  load 2 off buf = Done ESIFDV_HEADER_SIGNATURE ->
  load 2 (off + 2) buf <> Done 0 /\
  forall flags, load 4 (off + 8) buf = Done flags -> Z.land flags ESIF_SERVICE_CONFIG_COMPRESSED = 0.

Lemma load_drop n k off buf :
  0 <= k <= Z.of_nat (length buf) -> 0 <= off -> load n off (drop (Z.to_nat k) buf) = load n (k + off) buf.
Proof.
  intros Hk Ho. unfold load. rewrite length_drop, drop_drop.
  rewrite (proj2 (Z.leb_le 0 off)), (proj2 (Z.leb_le 0 (k + off))) by lia. cbn [andb].
  replace (off + Z.of_nat n <=? Z.of_nat (length buf - Z.to_nat k))
    with (k + off + Z.of_nat n <=? Z.of_nat (length buf)).
  - by replace (Z.to_nat k + Z.to_nat off)%nat with (Z.to_nat (k + off)) by lia.
  - apply eq_true_iff_eq. rewrite !Z.leb_le. lia.
Qed.

Lemma load_nonneg n off buf v : load n off buf = Done v -> 0 <= off.
Proof. unfold load. destruct (_ && _) eqn:E; [|done]. b2p. done. Qed.

Lemma plain_drop k buf :
  0 <= k <= Z.of_nat (length buf) -> plain_headers buf -> plain_headers (drop (Z.to_nat k) buf).
Proof.
  intros Hk Hp off Hl. assert (Ho := load_nonneg _ _ _ _ Hl). rewrite load_drop in Hl by done.
  destruct (Hp _ Hl) as [H1 H2]. rewrite !load_drop by lia. rewrite !Z.add_assoc. auto.
Qed.

Section termination.
Context (LzmaDecode : list Z -> Z -> Z * list Z) (can_alloc : Z -> bool).

(** Containers are at most this long: the sum of an offset and a header size
    then stays an [int]. *)
Definition container (buf : list Z) (size : Z) : Prop :=
  Forall byte_ok buf /\ size = Z.of_nat (length buf) /\ size + 2 ^ 17 <= INT_MAX /\ plain_headers buf.

Lemma container_drop k buf size :
  0 <= k <= size -> container buf size -> container (drop (Z.to_nat k) buf) (size - k).
Proof.
  intros Hk (H1 & H2 & H3 & H4). split_and!; [by apply Forall_drop|rewrite length_drop; lia|lia|].
  apply plain_drop; [lia|done].
Qed.

(** What a repository reports when it succeeds: it ends and makes progress. *)
Definition repo_ok (size : Z) (o : outcome (Z * option Z * gddv)) : Prop :=
  o <> OutOfFuel /\
  forall e g', o = Done (THD_SUCCESS, e, g') -> exists n, e = Some n /\ 0 < n <= size + 65535.

Lemma key_item_ok buf size offset g :
  container buf size -> 0 <= offset <= size -> repo_ok (size - offset) (key_item buf offset size g).
Proof.
  intros Hc Ho. destruct (container_drop offset buf size Ho Hc) as (H1 & H2 & H3 & _). unfold key_item. split.
  - apply obind_fuel; [|by intros [[r e] g'] _].
    pose proof (parse_gddv_key_outcome (drop (Z.to_nat offset) buf) (size - offset) g H1 H2 ltac:(lia)) as Hk.
    by destruct (parse_gddv_key _ _ _).
  - intros e g' ([[r n] g2] & Hk & H)%obind_done. simplify_eq.
    apply parse_gddv_key_end in Hk as [_ Hk]; [|done..|lia]. exists n. split; [done|lia].
Qed.

Lemma gddv_items_ok rec major headersize buf size :
  container buf size -> 0 < headersize <= 65535 ->
  (forall buf' size' g, container buf' size' -> size' < size -> repo_ok size' (rec buf' size' g)) ->
  forall n offset g, headersize <= offset <= size + 65535 -> 1 <= Z.of_nat n -> size - offset < Z.of_nat n ->
  repo_ok size (gddv_items rec n major headersize buf size offset g).
Proof.
  intros Hc Hh Hrec. assert (Hs : size + 2 ^ 17 <= INT_MAX) by apply Hc.
  induction n as [|n IH]; intros offset g Ho Hn Hf; [lia|]. cbn [gddv_items].
  rewrite i32_id by (unfold is_i32, INT_MIN, INT_MAX in *; lia).
  destruct (offset + headersize <? size) eqn:El; cbn [negb]; b2p.
  2:{ split; [done|]. intros e g' H. simplify_eq. exists offset. split; [done|lia]. }
  assert (Hnext : forall start item, offset <= start <= size -> repo_ok (size - start) item ->
    repo_ok size (obind item (fun '(res, e, g) => if res =? THD_SUCCESS
      then gddv_items rec n major headersize buf size (i32 (start + default 0 e)) g else Done (res, None, g)))).
  { intros start item Hst [Hi1 Hi2]. destruct item as [[[r e] g1]| | |]; cbn; [|split; done..|done].
    destruct (Z.eqb_spec r THD_SUCCESS) as [->|Hr]; [|split; [done|congruence]].
    destruct (Hi2 e g1 eq_refl) as (m & -> & Hm). cbn.
    rewrite i32_id by (unfold is_i32, INT_MIN, INT_MAX in *; lia). apply IH; lia. }
  destruct (major =? 2); [|apply Hnext; [lia|apply key_item_ok; [done|lia]]].
  pose proof (load_fuel 2 offset buf) as Hl.
  destruct (load 2 offset buf) as [sig| | |]; cbn [obind]; [|by split..|done].
  destruct (sig =? _); [apply Hnext; [lia|apply key_item_ok; [done|lia]]|].
  destruct (sig =? _); [apply Hnext; [lia|]|by split].
  apply Hrec; [apply container_drop; [lia|done]|lia].
Qed.

(** C21: Termination.  A repository without compressed parts whose headers all
    give a size other than 0 is parsed within as many items and levels of
    nesting as it has bytes, and a successful parse reports an end past its
    start. *)
Theorem parse_gddv_terminates fuel buf size g :
  container buf size -> size < Z.of_nat fuel -> repo_ok size (parse_gddv LzmaDecode can_alloc fuel buf size g).
Proof.
  revert buf size g. induction fuel as [|f IH]; intros buf size g Hc Hf.
  { destruct Hc as (_ & -> & _). lia. }
  cbn [parse_gddv]. destruct (size <? header_size) eqn:Eh; b2p; [by split|]. unfold header_size in Eh.
  destruct Hc as (H1 & H2 & H3 & H4) eqn:Ec.
  pose proof (load_done 2 0 buf ltac:(lia) ltac:(cbn; lia)) as L0. pose proof (load_done 2 2 buf ltac:(lia) ltac:(cbn; lia)) as L2.
  pose proof (load_done 4 8 buf ltac:(lia) ltac:(cbn; lia)) as L8. rewrite L0. cbn [obind].
  destruct (Z.eqb_spec (le_val (take 2 (drop (Z.to_nat 0) buf))) ESIFDV_HEADER_SIGNATURE) as [Esig|]; cbn [negb]; [|by split].
  rewrite Esig in L0. destruct (H4 0 L0) as [Hh Hp].
  rewrite (load_done 4 4) by (cbn; lia). cbn [obind]. destruct (_ && _); [by split|].
  rewrite L2, L8. cbn [obind]. rewrite (Hp _ L8). cbn [truthy Z.eqb negb]. rewrite andb_false_r.
  assert (R2 := load_range _ _ _ _ H1 L2). cbn in R2.
  assert (Hne : le_val (take 2 (drop (Z.to_nat 2) buf)) <> 0) by (intros E0; rewrite E0 in L2; done).
  apply gddv_items_ok; [done|lia| |lia..]. intros buf' size' g' Hc' Hlt. apply IH; [done|lia].
Qed.
End termination.

(** A repository that gives 0 as the size of its header contains itself: its
    first item is its own header.  No fuel is enough for it. *)
Lemma self_header LzmaDecode can_alloc buf size g fuel :
  size = Z.of_nat (length buf) -> header_size <= size ->
  load 2 0 buf = Done ESIFDV_HEADER_SIGNATURE -> load 2 2 buf = Done 0 ->
  load 4 4 buf = Done (2 * 2 ^ 24) -> load 4 8 buf = Done 0 ->
  parse_gddv LzmaDecode can_alloc fuel buf size g = OutOfFuel.
Proof.
  intros Es Hs L0 L2 L4 L8. revert g. induction fuel as [|f IH]; intros g; [done|].
  cbn [parse_gddv]. rewrite (proj2 (Z.ltb_ge _ _)) by done. rewrite L0, L4, L2, L8. cbn.
  destruct f as [|f']; [done|]. cbn [gddv_items]. change (i32 (0 + 0)) with 0.
  unfold header_size in Hs. rewrite (proj2 (Z.ltb_lt 0 size)) by lia. cbn [negb Z.eqb Pos.eqb].
  rewrite L0. cbn [obind Z.to_nat drop]. change (ESIFDV_HEADER_SIGNATURE =? ESIFDV_ITEM_KEYS_REV0_SIGNATURE) with false.
  cbn iota. rewrite Z.eqb_refl, Z.sub_0_r, IH. done.
Qed.
