(* ===== verification/GddvCodec.v ===== *)
(** Tables of the data vault written down and read back: an encoder of the
    typed objects and of the APAT table, which src/thd_gddv.cpp only reads. *)
From stdpp Require Import base gmap strings list.
From Stdlib Require Import ZArith Lia Ascii.
From Stdlib Require String.
From S2P Require Import Prelude CString SysFs CFloat Pid Cdev PowerMeter CdevRapl Machine Preference TripPoint Gddv GddvTheorems.

Open Scope string_scope.
Open Scope list_scope.
Open Scope Z_scope.

(** * Objects *)

Definition enc_u64 (v : Z) : list Z := le_bytes 4 4 ++ le_bytes 8 v.

Fixpoint chars (s : string) : list Z :=
  match s with EmptyString => [] | String c s' => char_code c :: chars s' end.

(** The length counts the terminating zero. *)
Definition enc_str (s : string) : list Z :=
  le_bytes 4 8 ++ le_bytes 8 (Z.of_nat (length (chars s)) + 1) ++ chars s ++ [0].

(** A string that a C string can hold. *)
Fixpoint c_clean (s : string) : Prop :=
  match s with EmptyString => True | String c s' => char_code c <> 0 /\ c_clean s' end.

Definition is_u64 (v : Z) : Prop := 0 <= v < 2 ^ 64.

Lemma length_le_bytes n v : length (le_bytes n v) = n.
Proof. revert v. induction n as [|n IH]; intros v; cbn; [done|by rewrite IH]. Qed.

Lemma le_val_bytes n v : 0 <= v < 256 ^ Z.of_nat n -> le_val (le_bytes n v) = v.
Proof.
  revert v. induction n as [|n IH]; intros v Hv; [cbn in *; lia|]. cbn [le_bytes le_val].
  rewrite Nat2Z.inj_succ, Z.pow_succ_r in Hv by lia.
  rewrite IH by (split; [apply Z.div_pos; lia|apply Z.div_lt_upper_bound; lia]).
  pose proof (Z.div_mod v 256). lia.
Qed.

Lemma load_at n v pre post :
  0 <= v < 256 ^ Z.of_nat n -> load n (Z.of_nat (length pre)) (pre ++ le_bytes n v ++ post) = Done v.
Proof.
  intros Hv. rewrite load_done by (rewrite ?length_app, ?length_le_bytes; lia).
  rewrite Nat2Z.id, drop_app_length. rewrite take_app_length' by (by rewrite length_le_bytes).
  by rewrite le_val_bytes.
Qed.

Lemma c_chars_at s post : c_clean s -> c_chars (chars s ++ [0] ++ post) = Done s.
Proof.
  induction s as [|c s IH]; intros Hc; [done|]. destruct Hc as [H1 H2]. cbn [chars].
  rewrite <- app_comm_cons. cbn [c_chars].
  rewrite (proj2 (Z.eqb_neq _ _) H1), IH by done. cbn [obind]. unfold char_of, char_code.
  by rewrite N2Z.id, ascii_N_embedding.
Qed.

(** * What reads what *)

(** The reader [m] finds [x] where [enc] stands, whatever is around it, and
    goes on behind it. *)
Definition reads {A} (enc : list Z) (x : A) (m : list Z -> Z -> Rd A) : Prop := forall pre post,
  let val := pre ++ enc ++ post in
  Z.of_nat (length val) + 64 <= INT_MAX ->
  m (val ++ [0]) (Z.of_nat (length val)) (Z.of_nat (length pre)) = Done (x, Z.of_nat (length pre + length enc)).

Lemma reads_ret {A} (x : A) : reads [] x (fun _ _ => rret x).
Proof. intros pre post val Hl. unfold rret. by rewrite Nat.add_0_r. Qed.

Lemma reads_bind {A B} e1 e2 (x : A) (y : B) m k :
  reads e1 x m -> reads e2 y (fun buf len => k buf len x) ->
  reads (e1 ++ e2) y (fun buf len => rbind (m buf len) (k buf len)).
Proof.
  intros Hm Hk pre post val Hl. unfold rbind.
  specialize (Hm pre (e2 ++ post)). specialize (Hk (pre ++ e1) post). cbn zeta in Hm, Hk.
  unfold val in *. rewrite <- !app_assoc in *. rewrite Hm by done. cbn.
  rewrite <- (length_app pre e1). rewrite Hk by done.
  by rewrite !length_app, Nat.add_assoc.
Qed.

Lemma type_at off len : 0 <= off -> off + 4 <= len -> len + 64 <= INT_MAX -> type_readable len off = true.
Proof.
  intros H1 H2 H3. unfold type_readable. rewrite i32_id by (unfold is_i32, INT_MIN, INT_MAX in *; lia).
  destruct (off <? 0) eqn:E1, (off + 4 >? len) eqn:E2; b2p; (done || lia).
Qed.

Lemma reads_u64 v : is_u64 v -> reads (enc_u64 v) v get_uint64.
Proof.
  intros Hv pre post val Hl. unfold get_uint64, val, enc_u64 in *.
  rewrite !length_app, !length_le_bytes in *.
  rewrite type_at by lia. cbn [negb]. rewrite <- !app_assoc.
  rewrite load_at by done. cbn [obind]. change (negb (i32 4 =? 4)) with false. cbn iota.
  rewrite !(i32_id (_ + 4)) by (unfold is_i32, INT_MIN, INT_MAX in *; lia).
  rewrite !(i32_id (_ + 4 + 8)) by (unfold is_i32, INT_MIN, INT_MAX in *; lia).
  destruct (_ >? _) eqn:E; b2p; [lia|].
  replace (Z.of_nat (length pre) + 4) with (Z.of_nat (length (pre ++ le_bytes 4 4))) by (rewrite length_app, length_le_bytes; lia).
  rewrite (app_assoc pre). rewrite load_at by exact Hv. cbn [obind]. do 2 f_equal.
  rewrite !length_app, !length_le_bytes. lia.
Qed.

Lemma reads_string s :
  c_clean s -> forall pre post, let val := pre ++ enc_str s ++ post in
  Z.of_nat (length val) + 64 <= INT_MAX ->
  get_string (val ++ [0]) (Z.of_nat (length val)) (Z.of_nat (length pre)) =
    Done (Z.of_nat (length pre) + 12, Z.of_nat (length pre + length (enc_str s))).
Proof.
  intros Hc pre post val Hl. unfold get_string, val, enc_str in *. set (n := Z.of_nat (length (chars s))).
  rewrite !length_app, !length_le_bytes in *. cbn [length] in *.
  rewrite type_at by lia. cbn [negb]. rewrite <- !app_assoc.
  rewrite load_at by done. cbn [obind]. change (negb (i32 8 =? 8)) with false. cbn iota.
  rewrite !(i32_id (_ + 4)) by (unfold is_i32, INT_MIN, INT_MAX in *; lia).
  rewrite !(i32_id (_ + 4 + 8)) by (unfold is_i32, INT_MIN, INT_MAX in *; lia).
  destruct (_ >? _) eqn:E; b2p; [lia|].
  replace (Z.of_nat (length pre) + 4) with (Z.of_nat (length (pre ++ le_bytes 4 8))) by (rewrite length_app, length_le_bytes; lia).
  rewrite (app_assoc pre). rewrite load_at by (unfold INT_MAX in *; cbn; lia). cbn [obind].
  rewrite length_app, length_le_bytes. rewrite (i32_id (n + 1)) by (unfold is_i32, INT_MIN, INT_MAX in *; lia).
  rewrite !(i32_id (_ + (n + 1))) by (unfold is_i32, INT_MIN, INT_MAX in *; lia).
  destruct (_ || _) eqn:E2; b2p; [exfalso; destruct E2; b2p; unfold INT_MAX in *; lia|].
  do 2 f_equal; lia.
Qed.

Lemma reads_str s : c_clean s -> reads (enc_str s) s get_str.
Proof.
  intros Hc pre post val Hl. unfold get_str, rbind, get_string_obj.
  pose proof (reads_string s Hc pre post Hl) as Hs. fold val in Hs. rewrite Hs. cbn [obind].
  assert (El : Z.of_nat (length (enc_str s)) = 13 + Z.of_nat (length (chars s))).
  { unfold enc_str. rewrite !length_app, !length_le_bytes. cbn [length]. lia. }
  unfold val in Hl. rewrite !length_app in Hl.
  rewrite !i32_id by (rewrite ?i32_id; unfold is_i32, INT_MIN, INT_MAX in *; lia).
  destruct (_ <? 0) eqn:E; b2p; [lia|]. unfold rlift, c_string. destruct (0 <=? _) eqn:E0; b2p; [|lia].
  replace (drop _ (val ++ [0])) with (chars s ++ [0] ++ (post ++ [0])); [by rewrite c_chars_at|].
  unfold val, enc_str. rewrite <- !app_assoc. rewrite (app_assoc pre), (app_assoc _ (le_bytes 8 _)).
  rewrite drop_app_length'; [done|]. rewrite !length_app, !length_le_bytes. lia.
Qed.

Lemma reads_int v : is_u64 v -> reads (enc_u64 v) (i32 v) get_int.
Proof.
  intros Hv. rewrite <- (app_nil_r (enc_u64 v)). eapply reads_bind; [by apply reads_u64|]. apply reads_ret.
Qed.

(** Rows up to the end of the table. *)
Lemma entries_read {A} (body : list Z -> Z -> Rd A) (enc : A -> list Z) (l : list A) :
  Forall (fun x => enc x <> [] /\ reads (enc x) x body) l -> forall pre fuel, (length l < fuel)%nat ->
  let val := pre ++ List.concat (map enc l) in
  Z.of_nat (length val) + 64 <= INT_MAX ->
  entries fuel (Z.of_nat (length val)) (body (val ++ [0]) (Z.of_nat (length val))) (Z.of_nat (length pre)) =
    Done (l, Z.of_nat (length val)).
Proof.
  induction 1 as [|x l [Hne Hx] Hl IH]; intros pre fuel Hf val Hlen; (destruct fuel as [|f]; [lia|]); cbn [entries].
  - unfold val. cbn. rewrite app_nil_r. by rewrite Z.ltb_irrefl.
  - cbn [length] in Hf. unfold val in *. cbn [map List.concat] in *.
    assert (Hpos : (0 < length (enc x))%nat) by (destruct (enc x); [done|cbn; lia]).
    destruct (_ <? _) eqn:E; b2p; [|rewrite !length_app in E; lia]. unfold rbind.
    rewrite (Hx pre (List.concat (map enc l))) by done. cbn [obind].
    specialize (IH (pre ++ enc x) f ltac:(lia)). cbn zeta in IH. rewrite <- !app_assoc in IH.
    rewrite <- length_app, app_assoc in *. rewrite <- !app_assoc in *. by rewrite IH.
Qed.

Lemma reads_skip junk : length junk = 12%nat -> reads junk tt (fun _ _ => skip12).
Proof.
  intros Hj pre post val Hl. unfold skip12, val in *. rewrite !length_app in Hl.
  rewrite i32_id by (unfold is_i32, INT_MIN, INT_MAX in *; lia). do 2 f_equal. lia.
Qed.

(** An [int] as 64 bits. *)
Definition enc_int (v : Z) : list Z := enc_u64 (u64 v).

Lemma i32_u64 v : i32 (u64 v) = i32 v.
Proof.
  unfold i32, u64. f_equal. rewrite <- Zplus_mod_idemp_l, Z.mod_mod_divide by (by exists (2 ^ 32)).
  apply Zplus_mod_idemp_l.
Qed.

Lemma reads_enc_int v : is_i32 v -> reads (enc_int v) v get_int.
Proof.
  intros Hv. pose proof (reads_int (u64 v)) as H. rewrite i32_u64, i32_id in H by done. apply H, u64_range.
Qed.

(** * Tables *)

(** Closes a chain of readers over a chain of encodings. *)
Ltac reads_tac :=
  repeat (eapply reads_bind;
    [first [by apply reads_u64 | by apply reads_enc_int | by apply reads_str | by apply reads_skip]|cbv beta]);
  try apply reads_ret.

Definition enc_target (t : adaptive_target) : list Z :=
  enc_u64 (target_id t) ++ enc_str (target_name t) ++ enc_str (target_participant t) ++
  enc_u64 (target_domain t) ++ enc_str (target_code t) ++ enc_str (target_argument t) ++ [].

Definition target_ok (t : adaptive_target) : Prop :=
  is_u64 (target_id t) /\ c_clean (target_name t) /\ c_clean (target_participant t) /\
  is_u64 (target_domain t) /\ c_clean (target_code t) /\ c_clean (target_argument t).


Lemma reads_target t : target_ok t -> reads (enc_target t) t apat_entry.
Proof.
  destruct t as [id n p d c a]. intros (H1 & H2 & H3 & H4 & H5 & H6).
  unfold enc_target, apat_entry.
  cbn [target_id target_name target_participant target_domain target_code target_argument] in *.
  reads_tac.
Qed.

(** A table: its version and its rows. *)
Definition enc_rows {A} (enc : A -> list Z) (version : Z) (l : list A) : list Z :=
  enc_u64 version ++ List.concat (map enc l).

(** Reading the version and then all rows. *)
Lemma read_rows {A B} (enc : A -> list Z) (body : list Z -> Z -> Rd A) version l (ret : list A -> B) (k : Z -> Rd B) :
  let val := enc_rows enc version l in
  is_u64 version -> Z.of_nat (length val) + 64 <= INT_MAX ->
  Forall (fun x => enc x <> [] /\ reads (enc x) x body) l ->
  k version = (let! l := entries (rounds (Z.of_nat (length val))) (Z.of_nat (length val))
                 (body (val ++ [0]) (Z.of_nat (length val))) in rret (ret l)) ->
  run (rbind (get_uint64 (val ++ [0]) (Z.of_nat (length val))) k) = Done (ret l).
Proof.
  intros val Hv Hl Hx Hk. unfold run, rbind at 1.
  pose proof (reads_u64 version Hv [] (List.concat (map enc l)) Hl) as Hr. cbn [app] in Hr.
  fold (enc_rows enc version l) in Hr. fold val in Hr. change (Z.of_nat (length [])) with 0 in Hr. rewrite Hr.
  cbn [obind]. rewrite Hk. unfold rbind.
  assert (Hfuel : (length l < rounds (Z.of_nat (length val)))%nat).
  { unfold rounds, val, enc_rows. rewrite length_app.
    enough (length l <= length (List.concat (map enc l)))%nat by lia.
    clear -Hx. induction Hx as [|x l [Hne _] _ IH]; [done|]. cbn. rewrite length_app. destruct (enc x); [done|cbn; lia]. }
  pose proof (entries_read body enc l Hx (enc_u64 version) _ Hfuel Hl) as He.
  fold (enc_rows enc version l) in He. fold val in He.
  rewrite Nat.add_0_l, He. done.
Qed.

Lemma enc_u64_cons v l : enc_u64 v ++ l <> [].
Proof. done. Qed.

Lemma enc_str_cons s l : enc_str s ++ l <> [].
Proof. done. Qed.

(** What was written down as an APAT table is what the parser adds. *)
Theorem apat_round_trip l g :
  Forall target_ok l -> Z.of_nat (length (enc_rows enc_target 2 l)) + 64 <= INT_MAX ->
  parse_apat (enc_rows enc_target 2 l ++ [0]) (Z.of_nat (length (enc_rows enc_target 2 l))) g =
    Done (0, g <| targets := targets g ++ l |>).
Proof.
  intros Hl Hlen. unfold parse_apat.
  apply (read_rows enc_target apat_entry 2 l (fun l => (0, g <| targets := targets g ++ l |>))); [done|done| |done].
  eapply Forall_impl; [exact Hl|]. intros t Ht. split; [apply enc_u64_cons|by apply reads_target].
Qed.

(** ** Conditions: APCT version 2 *)

(** An object the parser skips. *)
Definition pad : list Z := enc_u64 0.

(** A [FOR] is followed by its time, which takes the place of a condition. *)
Definition is_for (c : condition_t) : bool := c_operation c =? FOR.
Definition places (c : condition_t) : Z := if is_for c then 2 else 1.
Definition count_places (l : list condition_t) : Z := fold_right (fun c n => places c + n) 0 l.

Definition enc_operation (more : bool) (c : condition_t) : list Z :=
  if more then
    enc_u64 (c_operation c) ++
    (if is_for c then (pad ++ enc_str "" ++ pad) ++ enc_u64 (c_time_comparison c) ++
       enc_u64 (u64 (c_time c)) ++ pad ++ [] else [])
  else [].

Definition enc_condition (more : bool) (c : condition_t) : list Z :=
  enc_u64 (c_condition c) ++ enc_str (c_device c) ++ pad ++ enc_u64 (c_comparison c) ++
  enc_int (c_argument c) ++ enc_operation more c.

(** The conditions from place [i] of [count]; the last place has no operation. *)
Fixpoint enc_conditions (count i : Z) (l : list condition_t) : list Z :=
  match l with
  | [] => []
  | c :: l' => enc_condition (i <? count - 1) c ++ enc_conditions count (i + places c) l'
  end.

Definition set_target (l : list condition_t) : Z := match l with c :: _ => c_target c | [] => 0 end.
Definition enc_set (l : list condition_t) : list Z :=
  enc_u64 (u64 (set_target l)) ++ enc_u64 (count_places l) ++ enc_conditions (count_places l) 0 l.

(** A condition as the parser builds it; [more] tells that an operation follows. *)
Definition condition_ok (target : Z) (more : bool) (c : condition_t) : Prop :=
  0 <= c_condition c < 2 ^ 32 /\ c_clean (c_device c) /\ 0 <= c_comparison c < 2 ^ 8 /\
  is_i32 (c_argument c) /\ c_target c = target /\ c_state c = 0 /\ c_state_entry_time c = 0 /\
  c_ignore_condition c = 0 /\ 0 <= c_operation c < 2 ^ 8 /\ (more = false -> c_operation c = 0) /\
  (if is_for c then 0 <= c_time_comparison c < 2 ^ 8 /\ - 2 ^ 63 <= c_time c < 2 ^ 63
   else c_time_comparison c = 0 /\ c_time c = 0).

Fixpoint conditions_ok (target count i : Z) (l : list condition_t) : Prop :=
  match l with
  | [] => True
  | c :: l' => condition_ok target (i <? count - 1) c /\ conditions_ok target count (i + places c) l'
  end.

(** A set names a target other than -1 and its places fit an [int]. *)
Definition set_ok (l : list condition_t) : Prop :=
  is_i32 (set_target l) /\ set_target l <> -1 /\ count_places l < INT_MAX /\
  conditions_ok (set_target l) (count_places l) 0 l.

Lemma reads_guard {A} e (x : A) m :
  e <> [] -> reads e x m -> reads e x (fun buf len off => if off >=? len then Throw else m buf len off).
Proof.
  intros He Hm pre post val Hl. specialize (Hm pre post Hl). fold val in Hm.
  destruct (_ >=? _) eqn:E; [|done]. b2p. exfalso. unfold val in E. rewrite !length_app in E.
  destruct e; [done|cbn in E; lia].
Qed.

Lemma reads_gap s : c_clean s -> reads (pad ++ enc_str s ++ pad) tt (fun buf len =>
  let! _ := skip12 in let! _ := get_string buf len in skip12).
Proof.
  intros Hs. eapply reads_bind; [by apply reads_skip|]. cbv beta.
  intros pre post val Hl. unfold val in *. unfold rbind.
  rewrite <- (app_assoc (enc_str s)) in *. rewrite (reads_string s Hs pre (pad ++ post) Hl). cbn [obind].
  pose proof (reads_skip pad eq_refl (pre ++ enc_str s) post) as Hk. cbn zeta beta in Hk.
  rewrite <- (length_app pre (enc_str s)). rewrite Hk by (rewrite !length_app in *; lia).
  do 2 f_equal. rewrite !length_app. lia.
Qed.

Lemma i64_u64 t : - 2 ^ 63 <= t < 2 ^ 63 -> i64 (u64 t) = t.
Proof.
  intros Ht. unfold i64, u64. rewrite Zplus_mod_idemp_l, Z.mod_small; lia.
Qed.

Lemma u64_is v : is_u64 (u64 v).
Proof. apply u64_range. Qed.

Lemma u8_id z : 0 <= z < 2 ^ 8 -> u8 z = z.
Proof. intros H. unfold u8. apply Z.mod_small. lia. Qed.

(** The operation completes a condition that does not have it yet. *)
Lemma reads_operation target more c :
  condition_ok target more c ->
  reads (enc_operation more c) (c, more && is_for c) (fun buf len =>
    read_operation buf len more (let! _ := skip12 in let! _ := get_string buf len in skip12)
      (c <| c_operation := 0 |> <| c_time_comparison := 0 |> <| c_time := 0 |>)).
Proof.
  destruct c as [cond dev cmp arg op tc t tgt st en ig]. unfold condition_ok, enc_operation, is_for, read_operation.
  cbn -[enc_u64 enc_str u64 FOR Z.pow Z.le Z.lt].
  intros (H1 & H2 & H3 & H4 & H5 & H6 & H7 & H8 & H9 & H10 & H11).
  destruct more; cbn [negb andb].
  2:{ rewrite H10 in * by done. destruct H11 as [-> ->]. apply reads_ret. }
  rewrite <- (u8_id op H9) at 2 3.
  eapply reads_bind; [apply reads_u64; unfold is_u64; lia|]. cbv beta. rewrite !(u8_id op) by done.
  destruct (op =? FOR) eqn:Ef; cbn [negb].
  - destruct H11 as [H11 H12]. eapply reads_bind; [by apply reads_gap|]. cbv beta.
    eapply reads_bind; [apply reads_u64; unfold is_u64; lia|]. cbv beta.
    eapply reads_bind; [apply reads_u64, u64_is|]. cbv beta.
    eapply reads_bind; [by apply reads_skip|]. cbv beta.
    rewrite u8_id, i64_u64 by done. apply reads_ret.
  - destruct H11 as [-> ->]. apply reads_ret.
Qed.

Lemma reads_condition target count i c :
  0 <= target < 2 ^ 64 -> 1 <= count < INT_MAX ->
  condition_ok (i32 target) (i <? count - 1) c ->
  reads (enc_condition (i <? count - 1) c) (c, (i <? count - 1) && is_for c)
    (fun buf len => apct_v2_condition buf len target count i).
Proof.
  intros Ht Hc Hok. unfold apct_v2_condition.
  rewrite (u64_id (count - 1)), (i32_id (count - 1)) by (unfold is_i32, INT_MIN, INT_MAX in *; lia).
  apply reads_guard; [apply enc_u64_cons|]. unfold enc_condition.
  pose proof (reads_operation _ _ _ Hok) as Hop. destruct Hok as (H1 & H2 & H3 & H4 & H5 & H6 & H7 & H8 & _).
  eapply reads_bind; [apply reads_u64; unfold is_u64; lia|]. cbv beta.
  eapply reads_bind; [by apply reads_str|]. cbv beta.
  eapply reads_bind; [by apply reads_skip|]. cbv beta.
  eapply reads_bind; [apply reads_u64; unfold is_u64; lia|]. cbv beta.
  eapply reads_bind; [by apply reads_enc_int|]. cbv beta.
  rewrite u32_id, u8_id by (unfold is_u32, UINT_MAX; lia). unfold blank_condition.
  revert Hop. destruct c as [cond dev cmp arg op tc t tgt st en ig]. cbn -[enc_operation u64] in *. subst. done.
Qed.

Lemma count_places_nonneg l : 0 <= count_places l.
Proof.
  induction l as [|c l IH]; [done|]. change (0 <= places c + count_places l).
  unfold places. destruct (is_for c); lia.
Qed.

Lemma reads_conditions target count l fuel i :
  0 <= target < 2 ^ 64 -> 0 <= i -> i + count_places l = count -> count < INT_MAX ->
  conditions_ok (i32 target) count i l -> (length l < fuel)%nat ->
  reads (enc_conditions count i l) l
    (fun buf len => condition_loop fuel count i (apct_v2_condition buf len target count)).
Proof.
  intros Ht. revert i fuel. induction l as [|c l IH]; intros i fuel Hi Hc Hm Hok Hf; (destruct fuel as [|f]; [lia|]).
  - cbn in *. rewrite Z.add_0_r in Hc. subst. rewrite Z.ltb_irrefl. apply reads_ret.
  - destruct Hok as [Hok Hrest]. cbn [count_places fold_right enc_conditions condition_loop length] in *.
    fold (count_places l) in Hc. pose proof (count_places_nonneg l) as Hp.
    assert (Hpl : 1 <= places c <= 2) by (unfold places; destruct (is_for c); lia).
    rewrite (proj2 (Z.ltb_lt i count)) by lia.
    eapply reads_bind; [apply reads_condition; [done|lia|done]|]. cbv beta iota.
    assert (Hn : i32 ((if (i <? count - 1) && is_for c then i32 (i + 1) else i) + 1) = i + places c).
    { unfold places in *. destruct (is_for c) eqn:Ef; unfold is_for in Ef.
      - destruct (i <? count - 1); cbn [andb].
        + rewrite (i32_id (i + 1)), i32_id by (unfold is_i32, INT_MIN, INT_MAX in *; lia). lia.
        + destruct Hok as (_ & _ & _ & _ & _ & _ & _ & _ & _ & H10 & _). b2p. rewrite H10 in Ef by done. unfold FOR in Ef. lia.
      - rewrite andb_false_r. rewrite i32_id by (unfold is_i32, INT_MIN, INT_MAX in *; lia). done. }
    rewrite Hn. rewrite <- (app_nil_r (enc_conditions _ _ l)).
    eapply reads_bind; [apply IH; [lia|lia|done|done|lia]|]. apply reads_ret.
Qed.

(** The rounds grow with the table. *)
Lemma reads_rounds {A} e (x : A) (m : nat -> list Z -> Z -> Rd A) n :
  (n <= length e)%nat -> (forall fuel, (n < fuel)%nat -> reads e x (m fuel)) ->
  reads e x (fun buf len => m (rounds len) buf len).
Proof.
  intros Hn Hm pre post val Hl. apply Hm; [|done]. unfold rounds, val. rewrite !length_app. lia.
Qed.

Lemma length_conditions count i l : (length l <= length (enc_conditions count i l))%nat.
Proof.
  revert i. induction l as [|c l IH]; intros i; [done|]. cbn [enc_conditions length]. rewrite length_app.
  unfold enc_condition at 1. rewrite length_app. change (length (enc_u64 (c_condition c))) with 12%nat.
  specialize (IH (i + places c)). lia.
Qed.

Lemma reads_set l : set_ok l -> reads (enc_set l) l apct_v2_set.
Proof.
  intros (H1 & H2 & H3 & H4). pose proof (count_places_nonneg l) as Hp. unfold enc_set, apct_v2_set.
  eapply reads_bind; [apply reads_u64, u64_range|]. cbv beta. rewrite i32_u64, i32_id by done.
  rewrite (proj2 (Z.eqb_neq _ _) H2).
  eapply reads_bind; [apply reads_u64; unfold is_u64, INT_MAX in *; lia|]. cbv beta.
  rewrite (i32_id (count_places l)) by (unfold is_i32, INT_MIN, INT_MAX in *; lia).
  apply (reads_rounds _ _ (fun fuel buf len => condition_loop fuel (count_places l) 0
    (apct_v2_condition buf len (u64 (set_target l)) (count_places l))) (length l)); [apply length_conditions|].
  intros fuel Hf. apply reads_conditions; [apply u64_range|done|done|done| |done].
  by rewrite i32_u64, i32_id.
Qed.

(** C22: round trip.  Condition sets encoded as an APCT table of version 2,
    with the times of their FOR operations, are read back as they were, and are
    added to the conditions. *)
Theorem apct_round_trip l g :
  Forall set_ok l -> Z.of_nat (length (enc_rows enc_set 2 l)) + 64 <= INT_MAX ->
  parse_apct (enc_rows enc_set 2 l ++ [0]) (Z.of_nat (length (enc_rows enc_set 2 l))) g =
    Done (0, g <| conditions := conditions g ++ l |>).
Proof.
  intros Hl Hlen. unfold parse_apct.
  apply (read_rows enc_set apct_v2_set 2 l (fun l => (0, g <| conditions := conditions g ++ l |>))); [done|done| |done].
  eapply Forall_impl; [exact Hl|]. intros t Ht. split; [apply enc_u64_cons|by apply reads_set].
Qed.
