(* ===== verification/GddvConditions.v ===== *)
(** The conditions of the adaptive policy (src/thd_gddv.cpp, from
    [verify_condition] to [evaluate_conditions]): which target the state of the
    platform selects.

    The lid and tablet switches (libevdev) and the power source (UPower) are
    given as what those libraries report. *)
From stdpp Require Import base gmap strings list.
From Stdlib Require Import ZArith Lia Ascii.
From Stdlib Require String.
From S2P Require Import Prelude CString SysFs CFloat Pid Cdev PowerMeter CdevRapl Machine Preference TripPoint Gddv.

Open Scope string_scope.
Open Scope list_scope.
Open Scope Z_scope.

(** [enum adaptive_condition], the ones the code names. *)
Definition Default : Z := 1.
Definition Motion : Z := 4.
Definition Workload : Z := 6.
Definition Power_source : Z := 8.
Definition Lid_state : Z := 10.
Definition Platform_type : Z := 11.
Definition Temperature : Z := 17.
Definition Oem0 : Z := 19.
Definition Oem5 : Z := 24.
Definition Temperature_without_hysteresis : Z := 48.
Definition Power_slider : Z := 56.
Definition OS_type : Z := 86.

(** [enum adaptive_comparison]. *)
Definition ADAPTIVE_EQUAL : Z := 1.
Definition ADAPTIVE_LESSER_OR_EQUAL : Z := 2.
Definition ADAPTIVE_GREATER_OR_EQUAL : Z := 3.
Definition ADAPTIVE_NOT_EQUAL : Z := 4.

(** The devices [setup_input_devices] and [gddv_init] opened and what they
    report: the lid and tablet-mode switches, and whether UPower runs on battery. *)
Record platform := mk_platform {
  lid_dev : option Z;
  tablet_dev : option Z;
  upower_client : bool;
  on_battery : bool;
}.

Definition is_oem (c : Z) : bool :=
  ((Oem0 <=? c) && (c <=? Oem5)) || ((4096 <=? c) && (c <? 65536)).
Definition is_temperature (c : Z) : bool :=
  (c =? Temperature) || (c =? Temperature_without_hysteresis) || (c =? 0).
Definition has_dev {A} (o : option A) : bool := match o with Some _ => true | None => false end.

Definition verify_condition (p : platform) (c : condition_t) : Z :=
  let k := c_condition c in
  if is_oem k || (k =? Default) || is_temperature k
     || ((k =? Lid_state) && has_dev (lid_dev p)) || ((k =? Power_source) && upower_client p)
     || (k =? Workload) || (k =? Platform_type) || (k =? Power_slider) || (k =? OS_type)
  then 0 else THD_ERROR.

Definition verify_conditions (p : platform) (g : gddv) : Z :=
  fold_left (fun result set => fold_left (fun result c =>
    if truthy (verify_condition p c) then THD_ERROR else result) set result) (conditions g) 0.

(** The comparison [cmp] of a value with an argument. *)
Definition compare (cmp value argument : Z) : Z :=
  let result (b : bool) := if b then THD_SUCCESS else THD_ERROR in
  if cmp =? ADAPTIVE_EQUAL then result (value =? argument)
  else if cmp =? ADAPTIVE_LESSER_OR_EQUAL then result (value <=? argument)
  else if cmp =? ADAPTIVE_GREATER_OR_EQUAL then result (value >=? argument)
  else if cmp =? ADAPTIVE_NOT_EQUAL then result (negb (value =? argument))
  else THD_ERROR.

Definition compare_condition (c : condition_t) (value : Z) : Z :=
  compare (c_comparison c) value (c_argument c).

(** With the time of the call. *)
Definition compare_time (c : condition_t) (now : Z) : Z :=
  compare (c_time_comparison c) (i32 (now - c_state_entry_time c)) (c_time c).

(** The characters behind the last dot. *)
Fixpoint after_last_dot (s : string) : option string :=
  match s with
  | EmptyString => None
  | String c s' =>
      match after_last_dot s' with
      | Some t => Some t
      | None => if Ascii.eqb c "." then Some s' else None
      end
  end.
Definition last_part (s : string) : string := default s (after_last_dot s).

Inductive selection := Matched (target : Z) | Unmatched | NoFirst.

Section evaluate.
Context {X W : Type} `{Kernel W}.
Abbreviation MM := (State (machine X W)).

(** [int3400_base_path], the devices, [power_slider] (a member no evaluation
    changes) and the depth of links between virtual sensors. *)
Context (base : string) (p : platform) (slider : Z) (depth : nat).

Definition evaluate_oem_condition (c : condition_t) : MM Z :=
  let k := c_condition c in
  let oem_condition :=
    if (Oem0 <=? k) && (k <=? Oem5) then i32 (i32 k - Oem0)
    else if (4096 <=? k) && (k <? 65536) then i32 (i32 k - 4096 + 6) else -1 in
  if oem_condition =? -1 then ret THD_ERROR else
  u <- gets m_uninit ;;
  let* (n, value) := on_world (with_fs base (read_int ("odvp" +:+ string_of_Z oem_condition) u)) in
  if n <? 0 then ret THD_ERROR else ret (compare_condition c value).

(** The condition is passed by value: the mark that there is no sensor is set
    on a copy and lost. *)
Definition evaluate_temperature_condition (c : condition_t) : MM Z :=
  if truthy (c_ignore_condition c) then ret THD_ERROR else
  sn <- gets (search_sensor (last_part (c_device c))) ;;
  match sn with
  | None => ret THD_ERROR
  | Some i =>
      t <- read_temperature depth i ;;
      ret (compare_condition c (i32 (cdiv (i32 t) 100 + 2732)))
  end.

Definition evaluate_lid_condition (c : condition_t) : Z :=
  compare_condition c (match lid_dev p with Some closed => b2z (negb (truthy closed)) | None => 0 end).

Definition evaluate_workload_condition (c : condition_t) : Z := compare_condition c 3.

Definition evaluate_platform_type_condition (c : condition_t) : Z :=
  compare_condition c (match tablet_dev p with Some t => if truthy t then 2 else 1 | None => 1 end).

Definition evaluate_power_slider_condition (c : condition_t) : Z := compare_condition c slider.

Definition evaluate_ac_condition (c : condition_t) : Z := compare_condition c (b2z (on_battery p)).

Definition evaluate_os_type_condition (c : condition_t) : Z := compare_condition c 3.

(** The value of a condition without its time: the ifs of [evaluate_condition]
    in their order, a later one replacing the result of an earlier one. *)
Definition evaluate_state (c : condition_t) : MM Z :=
  let k := c_condition c in
  let r := THD_ERROR in
  let r := if k =? OS_type then evaluate_os_type_condition c else r in
  r <- (if is_oem k then evaluate_oem_condition c else ret r) ;;
  r <- (if is_temperature k then evaluate_temperature_condition c else ret r) ;;
  let r := if k =? Lid_state then evaluate_lid_condition c else r in
  let r := if k =? Power_source then evaluate_ac_condition c else r in
  let r := if k =? Workload then evaluate_workload_condition c else r in
  let r := if k =? Platform_type then evaluate_platform_type_condition c else r in
  let r := if k =? Power_slider then evaluate_power_slider_condition c else r in
  ret (if (k =? Motion) && (c_argument c =? 0) then THD_SUCCESS else r).

(** [evaluate_condition]: the result and the condition, whose
    [state_entry_time] it maintains. *)
Definition evaluate_condition (current : Z) (c : condition_t) : MM (Z * condition_t) :=
  if c_condition c =? Default then ret (THD_SUCCESS, c) else
  r <- evaluate_state c ;;
  if negb (r =? 0) then ret (r, c <| c_state_entry_time := 0 |>) else
  if c_target c =? current then ret (r, c) else
  if negb (truthy (c_time c)) then ret (r, c) else
  now <- on_world k_time ;;
  if c_state_entry_time c =? 0 then ret (THD_ERROR, c <| c_state_entry_time := now |>) else
  let r := compare_time c now in
  ret (r, if r =? 0 then c <| c_state_entry_time := 0 |> else c).

(** A set holds when all its conditions do; the rest is not looked at after the
    first that does not. *)
Fixpoint evaluate_condition_set (current : Z) (l : list condition_t) : MM (Z * list condition_t) :=
  match l with
  | [] => ret (THD_SUCCESS, [])
  | c :: l' =>
      let* (r, c') := evaluate_condition current c in
      if negb (r =? 0) then ret (THD_ERROR, c' :: l') else
      let* (r, l'') := evaluate_condition_set current l' in
      ret (r, c' :: l'')
  end.

(** What the loop of [evaluate_conditions] comes to: the target of the first
    condition of a set that holds, or no set holds, or the set that holds is
    empty and has no first condition. *)
Fixpoint evaluate_sets (current : Z) (sets : list (list condition_t)) :
    MM (selection * list (list condition_t)) :=
  match sets with
  | [] => ret (Unmatched, [])
  | set :: rest =>
      let* (r, set') := evaluate_condition_set current set in
      if r =? THD_SUCCESS
      then ret (match set' with c :: _ => Matched (c_target c) | [] => NoFirst end, set' :: rest) else
      let* (t, rest') := evaluate_sets current rest in
      ret (t, set' :: rest')
  end.

End evaluate.

(** [evaluate_conditions] on the object: a match also becomes the current
    target.  [None] is the access to an element that is not there. *)
Definition evaluate_conditions {X W} `{Kernel W} (base : string) (p : platform) (depth : nat) (g : gddv) :
    State (machine X W) (option Z * gddv) :=
  let* (t, sets) := evaluate_sets base p (power_slider g) depth (current_target_matched g) (conditions g) in
  let g := g <| conditions := sets |> in
  ret match t with
      | Matched t => (Some t, g <| current_target_matched := t |>)
      | Unmatched => (Some (-1), g)
      | NoFirst => (None, g)
      end.

(** [update_power_slider]: the active profile of the power profiles daemon. *)
Definition slider_of_profile (profile : option string) : Z :=
  match profile with
  | Some s =>
      if thd_strcmp_n (Some s) (Some "power-saver") =? 0 then 25
      else if thd_strcmp_n (Some s) (Some "balanced") =? 0 then 75
      else if thd_strcmp_n (Some s) (Some "performance") =? 0 then 100
      else 75
  | None => 75
  end.
Definition update_power_slider (profile : option string) (g : gddv) : gddv :=
  g <| power_slider := slider_of_profile profile |>.

(** * What is selected *)

(** The time part: does a condition whose state holds also hold at [now]? *)
Definition time_ok (current now : Z) (c : condition_t) : bool :=
  (c_target c =? current) || negb (truthy (c_time c))
  || (negb (c_state_entry_time c =? 0) && (compare_time c now =? 0)).

(** With the values [v] of the states of the conditions at the time [now]. *)
Definition holds (v : condition_t -> Z) (current now : Z) (c : condition_t) : bool :=
  (c_condition c =? Default) || ((v c =? 0) && time_ok current now c).

(** A condition as an evaluation leaves it: only its entry time may differ. *)
Definition same_condition (c c' : condition_t) : Prop := c' = c <| c_state_entry_time := c_state_entry_time c' |>.

(** The first set all of whose conditions hold. *)
Definition first_set (v : condition_t -> Z) (current now : Z) (sets : list (list condition_t)) :
    option (list condition_t) :=
  List.find (forallb (holds v current now)) sets.

Section steady.
Context {X W : Type} `{Kernel W}.
Context (base : string) (p : platform) (slider : Z) (depth : nat).
Abbreviation state_of := (@evaluate_state X W _ base p slider depth).

(** The platform does not change during an evaluation: in all machines of [I],
    a set that reading does not leave, the states have the values [v] and the
    time is [now]. *)
Context (I : machine X W -> Prop) (v : condition_t -> Z) (now : Z).
Hypothesis Hstate : forall c m, I m -> exists m', state_of c m = (v c, m') /\ I m'.
Hypothesis Htime : forall m, I m -> exists m', on_world k_time m = (now, m') /\ I m'.

Lemma same_condition_refl c : same_condition c c.
Proof. by destruct c. Qed.
Lemma same_condition_set c t : same_condition c (c <| c_state_entry_time := t |>).
Proof. by destruct c. Qed.
#[local] Hint Resolve same_condition_refl same_condition_set : core.

Lemma same_conditions_refl l : Forall2 same_condition l l.
Proof. induction l; auto. Qed.

Lemma evaluate_condition_holds current c m :
  I m -> exists r c' m', evaluate_condition base p slider depth current c m = ((r, c'), m') /\ I m' /\
    (r =? 0) = holds v current now c /\ same_condition c c'.
Proof.
  intros Hm. unfold evaluate_condition, holds, time_ok. destruct (c_condition c =? Default); [by eauto 10|].
  unfold bind. destruct (Hstate c m Hm) as (m1 & -> & Hm1). cbn [orb].
  destruct (v c =? 0) eqn:Ev; cbn [negb andb]; [|by eauto 10].
  destruct (c_target c =? current); [by eauto 10|].
  destruct (truthy (c_time c)); cbn [negb orb]; [|by eauto 10].
  destruct (Htime m1 Hm1) as (m2 & -> & Hm2).
  destruct (c_state_entry_time c =? 0); cbn [negb andb]; [by eauto 10|].
  eexists _, _, m2. split; [reflexivity|]. split_and!; [done|done|]. by destruct (compare_time c now =? 0).
Qed.

Lemma evaluate_condition_set_holds current l m :
  I m -> exists r l' m', evaluate_condition_set base p slider depth current l m = ((r, l'), m') /\ I m' /\
    (r =? THD_SUCCESS) = forallb (holds v current now) l /\ Forall2 same_condition l l'.
Proof.
  revert m. induction l as [|c l IH]; intros m Hm; [by cbn; eauto 10|]. cbn [evaluate_condition_set forallb].
  destruct (evaluate_condition_holds current c m Hm) as (r & c' & m1 & E & Hm1 & Er & Et).
  unfold bind. rewrite E. rewrite Er. destruct (holds v current now c); cbn [negb andb].
  - destruct (IH m1 Hm1) as (r2 & l' & m2 & -> & Hm2 & Er2 & Et2).
    eexists _, _, m2. split; [reflexivity|]. auto.
  - eexists _, _, m1. split; [reflexivity|]. auto using same_conditions_refl.
Qed.

Lemma evaluate_sets_first current sets m :
  I m -> exists t sets' m', evaluate_sets base p slider depth current sets m = ((t, sets'), m') /\ I m' /\
    t = match first_set v current now sets with
        | Some (c :: _) => Matched (c_target c)
        | Some [] => NoFirst
        | None => Unmatched
        end /\ Forall2 (Forall2 same_condition) sets sets'.
Proof.
  unfold first_set. revert m. induction sets as [|l sets IH]; intros m Hm; [by cbn; eauto 10|].
  cbn [evaluate_sets List.find].
  destruct (evaluate_condition_set_holds current l m Hm) as (r & l' & m1 & E & Hm1 & Er & Et).
  unfold bind. rewrite E, Er. destruct (forallb _ l).
  - eexists _, _, m1. split; [reflexivity|]. split_and!; [done| |constructor; [done|]].
    + destruct Et as [|c c' l l' Hc]; [done|]. by rewrite Hc.
    + clear. induction sets; auto using same_conditions_refl.
  - destruct (IH m1 Hm1) as (t & sets' & m2 & -> & Hm2 & -> & Es). by eauto 10.
Qed.
End steady.

(** The readings of a platform that does not change during evaluations. *)
Definition steady {X W} `{Kernel W} base p slider depth (I : machine X W -> Prop) (v : condition_t -> Z)
    (now : Z) : Prop :=
  (forall c m, I m -> exists m', evaluate_state base p slider depth c m = (v c, m') /\ I m') /\
  (forall m, I m -> exists m', on_world k_time m = (now, m') /\ I m').

(** C23: [evaluate_conditions] selects the target of the first set all of whose
    conditions hold, -1 when there is none, and remembers what it selected; a
    set without conditions that comes first has no target to select. *)
Theorem evaluate_conditions_first {X W} `{Kernel W} base p depth (I : machine X W -> Prop) v now g m :
  steady base p (power_slider g) depth I v now -> I m ->
  exists g' m', I m' /\
    match first_set v (current_target_matched g) now (conditions g) with
    | Some (c :: _) =>
        evaluate_conditions base p depth g m = ((Some (c_target c), g'), m') /\
        current_target_matched g' = c_target c
    | Some [] => evaluate_conditions base p depth g m = ((None, g'), m')
    | None =>
        evaluate_conditions base p depth g m = ((Some (-1), g'), m') /\
        current_target_matched g' = current_target_matched g
    end.
Proof.
  intros [Hs Ht] Hm. unfold evaluate_conditions, bind.
  destruct (evaluate_sets_first base p (power_slider g) depth I v now Hs Ht (current_target_matched g)
    (conditions g) m Hm) as (t & sets' & m' & -> & Hm' & -> & _).
  destruct (first_set _ _ _ _) as [[|c l]|]; eexists _, m'; (split; [done|]); cbn; repeat split.
Qed.

(** ** The selected target stays *)

(** The states do not depend on when they were entered. *)
Definition timeless (v : condition_t -> Z) : Prop := forall c c', same_condition c c' -> v c' = v c.

Lemma same_holds v current current' now now' c c' :
  timeless v -> same_condition c c' -> c_target c = current' -> holds v current now c = true ->
  holds v current' now' c' = true.
Proof.
  intros Hv Hc Ht. unfold holds, time_ok. rewrite (Hv c c' Hc). rewrite Hc. cbn. rewrite Ht, Z.eqb_refl. cbn.
  destruct (c_condition c =? Default); [done|]. intros [-> _]%andb_true_iff. done.
Qed.

Lemma same_fails v current current' now now' c c' :
  timeless v -> same_condition c c' -> c_time c = 0 -> holds v current now c = false ->
  holds v current' now' c' = false.
Proof.
  intros Hv Hc Ht. unfold holds, time_ok. rewrite (Hv c c' Hc). rewrite Hc. cbn. rewrite Ht. cbn.
  rewrite !orb_true_r. cbn. rewrite !andb_true_r. done.
Qed.

Lemma same_set_holds v current current' now now' l l' :
  timeless v -> Forall2 same_condition l l' -> Forall (fun c => c_target c = current') l ->
  forallb (holds v current now) l = true -> forallb (holds v current' now') l' = true.
Proof.
  intros Hv. induction 1 as [|c c' l l' Hc Hl IH]; intros Ht H; [done|]. apply Forall_cons in Ht as [Ht1 Ht2].
  cbn in *. apply andb_true_iff in H as [H1 H2]. rewrite (same_holds v current current' now now' c c') by done.
  by apply IH.
Qed.

Lemma same_set_fails v current current' now now' l l' :
  timeless v -> Forall2 same_condition l l' -> Forall (fun c => c_time c = 0) l ->
  forallb (holds v current now) l = false -> forallb (holds v current' now') l' = false.
Proof.
  intros Hv. induction 1 as [|c c' l l' Hc Hl IH]; intros Ht H; [done|]. apply Forall_cons in Ht as [Ht1 Ht2].
  cbn in *. apply andb_false_iff in H as [H|H].
  - by rewrite (same_fails v current current' now now' c c').
  - rewrite IH by done. apply andb_false_r.
Qed.

(** Sets of a table: each names one target. *)
Definition one_target (l : list condition_t) : Prop := forall c d, c ∈ l -> d ∈ l -> c_target c = c_target d.

Lemma first_set_stays v current now now' sets sets' c l :
  timeless v -> Forall2 (Forall2 same_condition) sets sets' -> Forall one_target sets ->
  (forall pre post, sets = pre ++ (c :: l) :: post -> Forall (Forall (fun c => c_time c = 0)) pre) ->
  first_set v current now sets = Some (c :: l) ->
  exists c' l', first_set v (c_target c) now' sets' = Some (c' :: l') /\ c_target c' = c_target c.
Proof.
  intros Hv Hs. unfold first_set. revert c l. induction Hs as [|x x' sets sets' Hx Hs IH]; intros c l Ho Hp Hf; [done|].
  apply Forall_cons in Ho as [Ho1 Ho2]. cbn [List.find] in *.
  destruct (forallb (holds v current now) x) eqn:Ex.
  - simplify_eq. inversion Hx as [|? c' ? l' Hc Hl]; subst.
    rewrite (same_set_holds v current (c_target c) now now' (c :: l) (c' :: l')); [|done|done| |done].
    + exists c', l'. split; [done|]. by rewrite Hc.
    + apply Forall_forall. intros d Hd. apply Ho1; [done|]. apply elem_of_cons. by left.
  - assert (Hin : exists pre post, sets = pre ++ (c :: l) :: post).
    { apply List.find_some in Hf as [Hf _]. apply list_elem_of_In, list_elem_of_split in Hf as (pre & post & ->). eauto. }
    destruct Hin as (pre & post & E). specialize (Hp (x :: pre) post) as Hp1. rewrite E in Hp1.
    specialize (Hp1 eq_refl). apply Forall_cons in Hp1 as [Hx0 _].
    rewrite (same_set_fails v current (c_target c) now now' x x') by done.
    apply (IH c l); [done| |done]. intros pre' post' E'. specialize (Hp (x :: pre') post'). rewrite E' in Hp.
    specialize (Hp eq_refl). by apply Forall_cons in Hp as [_ Hp].
Qed.

(** C25: once a target is selected, time alone does not take it away.  As long
    as the states stay what they are and no set before it waits for time to
    pass, the next evaluation, at any time, selects it again, although its own
    conditions may have waited. *)
Theorem matched_target_stays {X W} `{Kernel W} base p depth (I I2 : machine X W -> Prop) v now now2 g m g' m' m2 c l :
  steady base p (power_slider g) depth I v now -> steady base p (power_slider g) depth I2 v now2 -> timeless v ->
  Forall one_target (conditions g) ->
  first_set v (current_target_matched g) now (conditions g) = Some (c :: l) ->
  (forall pre post, conditions g = pre ++ (c :: l) :: post -> Forall (Forall (fun c => c_time c = 0)) pre) ->
  I m -> I2 m2 -> evaluate_conditions base p depth g m = ((Some (c_target c), g'), m') ->
  exists g2 m3, evaluate_conditions base p depth g' m2 = ((Some (c_target c), g2), m3).
Proof.
  intros [Hs Ht] [Hs2 Ht2] Hv Ho Hf Hp Hm Hm2 E. unfold evaluate_conditions, bind in E.
  destruct (evaluate_sets_first base p (power_slider g) depth I v now Hs Ht (current_target_matched g)
    (conditions g) m Hm) as (t & sets' & m1 & E1 & Hm1 & -> & Hss).
  rewrite E1, Hf in E. unfold ret in E. simplify_eq.
  destruct (first_set_stays v _ now now2 _ _ c l Hv Hss Ho Hp Hf) as (c' & l' & Hf' & Hc').
  unfold evaluate_conditions, bind. cbn.
  destruct (evaluate_sets_first base p (power_slider g) depth I2 v now2 Hs2 Ht2 (c_target c)
    sets' m2 Hm2) as (t & sets2 & m3 & E2 & _ & -> & _).
  rewrite E2, Hf'. cbn. rewrite Hc'. eauto.
Qed.

(** * Waiting *)

Section waiting.
Context {X W : Type} `{Kernel W}.
Context (base : string) (p : platform) (slider : Z) (depth : nat) (current : Z).

(** Evaluations of one condition one after the other: the value of its state,
    the time and the result of each. *)
Inductive evaluations : condition_t -> list (Z * Z * Z) -> condition_t -> Prop :=
| no_evaluation c : evaluations c [] c
| next_evaluation c (m m1 m2 m' : machine X W) v now r c' l c'' :
    evaluate_state base p slider depth c m = (v, m1) -> on_world k_time m1 = (now, m2) ->
    evaluate_condition base p slider depth current c m = ((r, c'), m') ->
    evaluations c' l c'' -> evaluations c ((v, now, r) :: l) c''.

(** A condition of another target that waits for at least its time. *)
Definition waits (c : condition_t) : Prop :=
  c_condition c <> Default /\ c_target c <> current /\ 0 < c_time c <= INT_MAX /\
  c_time_comparison c = ADAPTIVE_GREATER_OR_EQUAL.

Lemma waits_same c t : waits c -> waits (c <| c_state_entry_time := t |>).
Proof. by destruct c. Qed.

(** One evaluation while the state holds. *)
Lemma wait_step c (m m1 m2 : machine X W) now :
  waits c -> evaluate_state base p slider depth c m = (0, m1) -> on_world k_time m1 = (now, m2) ->
  evaluate_condition base p slider depth current c m =
    (if c_state_entry_time c =? 0 then (THD_ERROR, c <| c_state_entry_time := now |>)
     else if i32 (now - c_state_entry_time c) >=? c_time c then (THD_SUCCESS, c <| c_state_entry_time := 0 |>)
     else (THD_ERROR, c), m2).
Proof.
  intros (H1 & H2 & H3 & H4) Es Et. unfold evaluate_condition.
  rewrite (proj2 (Z.eqb_neq _ _) H1). unfold bind. rewrite Es. cbn [Z.eqb negb].
  rewrite (proj2 (Z.eqb_neq _ _) H2). rewrite (proj2 (truthy_true (c_time c))) by lia. cbn [negb]. rewrite Et.
  destruct (c_state_entry_time c =? 0); [done|]. unfold compare_time, compare. rewrite H4. cbn.
  by destruct (_ >=? _).
Qed.

(** A state that does not hold starts the wait anew. *)
Lemma wait_reset c (m : machine X W) v m1 :
  c_condition c <> Default -> v <> 0 -> evaluate_state base p slider depth c m = (v, m1) ->
  evaluate_condition base p slider depth current c m = ((v, c <| c_state_entry_time := 0 |>), m1).
Proof.
  intros H1 H2 Es. unfold evaluate_condition. rewrite (proj2 (Z.eqb_neq _ _) H1). unfold bind. rewrite Es.
  by rewrite (proj2 (Z.eqb_neq _ _) H2).
Qed.

Lemma wait_on c t0 l tn rn c' :
  waits c -> c_state_entry_time c = t0 -> t0 <> 0 -> evaluations c (l ++ [(0, tn, rn)]) c' ->
  Forall (fun '(v, t, _) => v = 0 /\ 0 <= t - t0 < c_time c) l -> c_time c <= tn - t0 <= INT_MAX ->
  Forall (fun '(_, _, r) => r = THD_ERROR) l /\ rn = THD_SUCCESS /\ c' = c <| c_state_entry_time := 0 |>.
Proof.
  intros Hw Hc H0. induction l as [|[[v t] r] l IH]; cbn [app]; intros He Hl Hn.
  - inversion He as [|? m m1 m2 m' ? ? ? c1 ? ? Es Et Ev Hrest]; subst. inversion Hrest; subst.
    rewrite (wait_step c m m1 m2 tn Hw Es Et) in Ev. rewrite (proj2 (Z.eqb_neq _ _) H0) in Ev.
    destruct Hw as (_ & _ & H3 & _).
    rewrite i32_id in Ev by (unfold is_i32, INT_MIN, INT_MAX in *; lia).
    rewrite (proj2 (Z.geb_le _ _)) in Ev by lia. by simplify_eq.
  - inversion He as [|? m m1 m2 m' ? ? ? c1 ? ? Es Et Ev Hrest]; subst.
    apply Forall_cons in Hl as [[-> Ht] Hl]. pose proof Hw as (_ & _ & H3 & _).
    rewrite (wait_step c m m1 m2 t Hw Es Et) in Ev. rewrite (proj2 (Z.eqb_neq _ _) H0) in Ev.
    rewrite i32_id in Ev by (unfold is_i32, INT_MIN, INT_MAX in *; lia).
    destruct (_ >=? _) eqn:Eg in Ev; b2p; [lia|]. simplify_eq.
    destruct (IH Hrest Hl Hn) as (Hr & -> & ->). auto.
Qed.

(** C24: a condition of another target that must hold for at least [c_time]
    seconds: while its state holds, evaluations fail until those seconds have
    passed since the first of them; the first evaluation after that succeeds and
    leaves the condition as it was before the wait. *)
Theorem condition_waits c t0 r0 l tn rn c' :
  waits c -> c_state_entry_time c = 0 -> t0 <> 0 ->
  evaluations c ((0, t0, r0) :: l ++ [(0, tn, rn)]) c' ->
  Forall (fun '(v, t, _) => v = 0 /\ 0 <= t - t0 < c_time c) l -> c_time c <= tn - t0 <= INT_MAX ->
  r0 = THD_ERROR /\ Forall (fun '(_, _, r) => r = THD_ERROR) l /\ rn = THD_SUCCESS /\ c' = c.
Proof.
  intros Hw Hc H0 He Hl Hn. inversion He as [|? m m1 m2 m' ? ? ? c1 ? ? Es Et Ev Hrest]; subst.
  rewrite (wait_step c m m1 m2 t0 Hw Es Et), Hc in Ev. cbn in Ev. simplify_eq.
  destruct (wait_on _ t0 l tn rn c' (waits_same c t0 Hw) eq_refl H0 Hrest) as (Hr & -> & ->); [by destruct c..|].
  split_and!; [done..|]. destruct c. cbn in *. by subst.
Qed.
End waiting.
