(* ===== verification/GddvWitnesses.v ===== *)
(** Concrete data vaults and platforms: the theorems about the parsers and the
    conditions of the adaptive policy applied to them. *)
From stdpp Require Import base gmap strings list.
From Stdlib Require Import ZArith Lia Ascii.
From Stdlib Require String.
From S2P Require Import Prelude CString SysFs CFloat Pid Cdev CdevDevices PowerMeter CdevRapl Machine Preference TripPoint Gddv GddvTheorems GddvCodec GddvConditions.

Open Scope string_scope.
Open Scope list_scope.
Open Scope Z_scope.

(** * Keys *)

Definition bytes_ok (l : list Z) : bool := forallb (fun b => (0 <=? b) && (b <? 256)) l.

Lemma bytes_ok_spec l : bytes_ok l = true -> Forall byte_ok l.
Proof.
  unfold bytes_ok. rewrite forallb_forall. intros Hl. apply Forall_forall. intros b Hb%list_elem_of_In%Hl.
  unfold byte_ok. b2p. lia.
Qed.

(** A key and its value as the container holds them. *)
Definition enc_key (key : string) (val : list Z) : list Z :=
  le_bytes 4 0 ++ le_bytes 4 (Z.of_nat (length (chars key))) ++ chars key ++
  le_bytes 4 0 ++ le_bytes 4 (Z.of_nat (length val)) ++ val.

(** The passive trip of the processor at 95 C. *)
Definition psv_key : list Z := enc_key "/participants/TCPU.D0/trippoint/_psv" (le_bytes 4 3682).

(** A key length just below [INT_MAX]. *)
Definition huge_key : list Z := le_bytes 4 0 ++ le_bytes 4 2147483646.

Lemma parse_gddv_key_outcome_witness :
  parse_gddv_key psv_key 56 new_gddv =
    Done (0, 56, new_gddv <| trippoints := [mk_trippoint "TCPU.D0" "_psv" PASSIVE 95] |>) /\
  ~ length_overflow psv_key 56 /\
  parse_gddv_key huge_key 8 new_gddv = Oob /\ length_overflow huge_key 8.
Proof.
  assert (E1 : parse_gddv_key psv_key 56 new_gddv =
    Done (0, 56, new_gddv <| trippoints := [mk_trippoint "TCPU.D0" "_psv" PASSIVE 95] |>)) by (vm_compute; reflexivity).
  assert (E2 : parse_gddv_key huge_key 8 new_gddv = Oob) by (vm_compute; reflexivity).
  pose proof (parse_gddv_key_outcome psv_key 56 new_gddv ltac:(apply bytes_ok_spec; reflexivity) eq_refl
    ltac:(unfold INT_MAX; lia)) as H1. rewrite E1 in H1.
  pose proof (parse_gddv_key_outcome huge_key 8 new_gddv ltac:(apply bytes_ok_spec; reflexivity) eq_refl
    ltac:(unfold INT_MAX; lia)) as H2. rewrite E2 in H2.
  destruct H1 as [H1|H1]; [lia|]. destruct H2 as [_ H2]. auto.
Defined.

(** * A repository *)

Definition enc_header (headersize : Z) : list Z :=
  le_bytes 2 ESIFDV_HEADER_SIGNATURE ++ le_bytes 2 headersize ++ le_bytes 4 (2 * 2 ^ 24) ++
  repeat 0 140.

Definition repository : list Z := enc_header 148 ++ le_bytes 2 ESIFDV_ITEM_KEYS_REV0_SIGNATURE ++ psv_key ++ repeat 0 148.

(** Checks the headers at the offsets of a list. *)
Definition plain_at (buf : list Z) (off : Z) : bool :=
  match load 2 off buf with
  | Done s =>
      negb (s =? ESIFDV_HEADER_SIGNATURE) ||
      (match load 2 (off + 2) buf with Done h => negb (h =? 0) | _ => true end
       && match load 4 (off + 8) buf with
          | Done f => Z.land f ESIF_SERVICE_CONFIG_COMPRESSED =? 0 | _ => true end)
  | _ => true
  end.

Lemma plain_check buf :
  forallb (fun n => plain_at buf (Z.of_nat n)) (seq 0 (length buf)) = true -> plain_headers buf.
Proof.
  rewrite forallb_forall. intros Hc off Hl.
  assert (Hr : 0 <= off < Z.of_nat (length buf)).
  { unfold load in Hl. destruct (_ && _) eqn:E; [|done]. b2p. cbn in *. lia. }
  specialize (Hc (Z.to_nat off)). rewrite in_seq, Z2Nat.id in Hc by lia. specialize (Hc ltac:(lia)).
  unfold plain_at in Hc. rewrite Hl in Hc. cbn in Hc. apply andb_true_iff in Hc as [H1 H2]. split.
  - intros E. by rewrite E in H1.
  - intros f E. rewrite E in H2. by apply Z.eqb_eq.
Qed.

(** A decoder that rejects everything. *)
Definition no_lzma (src : list Z) (destLen : Z) : Z * list Z := (1, []).

Lemma parse_gddv_terminates_witness :
  container repository 354 /\
  exists e g', parse_gddv no_lzma (fun _ => true) 355 repository 354 new_gddv = Done (THD_SUCCESS, e, g') /\
    length (trippoints g') = 1%nat /\ exists n, e = Some n /\ 0 < n <= 354 + 65535.
Proof.
  assert (Hc : container repository 354).
  { split_and!; [apply bytes_ok_spec; vm_compute; reflexivity|vm_compute; reflexivity|unfold INT_MAX; lia|].
    apply plain_check. vm_compute. reflexivity. }
  split; [exact Hc|].
  destruct (parse_gddv_terminates no_lzma (fun _ => true) 355 repository 354 new_gddv Hc ltac:(lia)) as [_ Hp].
  assert (E : exists e g', parse_gddv no_lzma (fun _ => true) 355 repository 354 new_gddv = Done (THD_SUCCESS, e, g')
    /\ length (trippoints g') = 1%nat) by (vm_compute; eauto).
  destruct E as (e & g' & E & Et). exists e, g'. split; [exact E|]. split; [exact Et|]. exact (Hp e g' E).
Defined.

(** * Conditions *)

(** Workload 3 for at least 10 seconds selects target 7; otherwise target 1. *)
Definition busy : condition_t := mk_condition Workload "" ADAPTIVE_EQUAL 3 FOR ADAPTIVE_GREATER_OR_EQUAL 10 7 0 0 0.
Definition always : condition_t := mk_condition Default "" ADAPTIVE_EQUAL 0 0 0 0 1 0 0 0.
Definition policy : list (list condition_t) := [[busy]; [always]].

Lemma apct_round_trip_witness :
  let table := enc_rows enc_set 2 policy in
  Z.of_nat (length table) = 267 /\
  parse_apct (table ++ [0]) 267 new_gddv = Done (0, new_gddv <| conditions := policy |>).
Proof.
  split; [vm_compute; reflexivity|]. apply (apct_round_trip policy new_gddv).
  - repeat apply Forall_cons_2; [..|apply Forall_nil_2]; unfold set_ok, is_i32, INT_MIN, INT_MAX; cbn;
      unfold condition_ok, is_i32, INT_MIN, INT_MAX, is_for; cbn; split_and!; (lia || done).
  - vm_compute. done.
Defined.

(** A platform without sensors and without OEM variables, at a time. *)
Definition bare (t : Z) : machine gen_ext sim := mk_machine (mk_sim ∅ [] t) [] [] [] 0 4 false 0 0.
Definition desk : platform := mk_platform None None false false.
Definition state_value (c : condition_t) : Z := fst (evaluate_state "/sys/int3400/" desk 75 4 c (bare 0)).

Lemma bare_oem c t :
  evaluate_oem_condition "/sys/int3400/" c (bare t) = (THD_ERROR, bare t).
Proof.
  unfold evaluate_oem_condition. destruct (_ =? -1); [done|]. unfold bind, gets, on_world, with_fs, read_int, full_path, bind, gets.
  unfold get_cached_fd, bind, get. cbn. rewrite lookup_empty. cbn. unfold sim_open. cbn. rewrite lookup_empty. cbn.
  done.
Qed.

Lemma bare_state c t : evaluate_state "/sys/int3400/" desk 75 4 c (bare t) = (state_value c, bare t).
Proof.
  unfold state_value, evaluate_state, bind. destruct (is_oem _); [rewrite !bare_oem|]; cbn;
    (destruct (is_temperature _); [unfold evaluate_temperature_condition; destruct (truthy _)|]); done.
Qed.

Lemma bare_steady t : steady "/sys/int3400/" desk 75 4 (fun m => m = bare t) state_value t.
Proof.
  split.
  - intros c m ->. exists (bare t). split; [apply bare_state|done].
  - intros m ->. exists (bare t). done.
Qed.

Definition vault : gddv := new_gddv <| conditions := policy |>.

Lemma evaluate_conditions_first_witness :
  exists g' m', evaluate_conditions "/sys/int3400/" desk 4 vault (bare 1000) = ((Some 1, g'), m') /\
    current_target_matched g' = 1.
Proof.
  destruct (evaluate_conditions_first "/sys/int3400/" desk 4 (fun m => m = bare 1000) state_value 1000 vault
    (bare 1000) (bare_steady 1000) eq_refl) as (g' & m' & _ & Hm).
  exists g', m'. exact Hm.
Defined.

Lemma condition_waits_witness :
  exists r0 r1 r2 c', evaluations (X := gen_ext) (W := sim) "/sys/int3400/" desk 75 4 1 busy
    [(0, 1000, r0); (0, 1004, r1); (0, 1010, r2)] c' /\
    r0 = THD_ERROR /\ Forall (fun '(_, _, r) => r = THD_ERROR) [(0, 1004, r1)] /\ r2 = THD_SUCCESS /\ c' = busy.
Proof.
  assert (He : exists r0 r1 r2 c', evaluations (X := gen_ext) (W := sim) "/sys/int3400/" desk 75 4 1 busy
    [(0, 1000, r0); (0, 1004, r1); (0, 1010, r2)] c').
  { do 4 eexists. eapply (next_evaluation _ _ _ _ _ _ (bare 1000)); [reflexivity..|].
    eapply (next_evaluation _ _ _ _ _ _ (bare 1004)); [reflexivity..|].
    eapply (next_evaluation _ _ _ _ _ _ (bare 1010)); [reflexivity..|]. apply no_evaluation. }
  destruct He as (r0 & r1 & r2 & c' & He). exists r0, r1, r2, c'. split; [exact He|].
  apply (condition_waits (X := gen_ext) (W := sim) "/sys/int3400/" desk 75 4 1 busy 1000 r0 [(0, 1004, r1)] 1010 r2 c');
    [unfold waits, INT_MAX; cbn; split_and!; (lia || done)|done|done|exact He| |unfold INT_MAX; cbn; lia].
  repeat constructor; cbn; lia.
Defined.

(** Target 7 was selected after its wait; 3 seconds later it is selected again. *)
Lemma matched_target_stays_witness :
  let g := vault <| conditions := [[busy <| c_state_entry_time := 1000 |>]; [always]] |> in
  exists g' g2 m' m3, evaluate_conditions "/sys/int3400/" desk 4 g (bare 1010) = ((Some 7, g'), m') /\
    evaluate_conditions "/sys/int3400/" desk 4 g' (bare 1013) = ((Some 7, g2), m3).
Proof.
  intros g.
  assert (E : exists g' m', evaluate_conditions "/sys/int3400/" desk 4 g (bare 1010) = ((Some 7, g'), m'))
    by (do 2 eexists; reflexivity).
  destruct E as (g' & m' & E).
  destruct (matched_target_stays "/sys/int3400/" desk 4 (fun m => m = bare 1010) (fun m => m = bare 1013)
    state_value 1010 1013 g (bare 1010) g' m' (bare 1013) (busy <| c_state_entry_time := 1000 |>) []) as (g2 & m3 & E2).
  - apply bare_steady.
  - apply bare_steady.
  - intros c c' ->. reflexivity.
  - repeat constructor; intros a b Ha%list_elem_of_singleton Hb%list_elem_of_singleton; congruence.
  - reflexivity.
  - intros [|x pre] post Hp; [constructor|]. destruct pre as [|y pre]; [|destruct pre]; inversion Hp.
  - reflexivity.
  - reflexivity.
  - exact E.
  - exists g', g2, m', m3. split; [exact E|exact E2].
Defined.
