(* ===== verification/InputDevices.v ===== *)
(** What the adaptive engine listens to (src/thd_gddv.cpp): the lid and the
    tablet mode switch, found among the event devices of /dev/input
    ([setup_input_devices]), the connections to UPower and to the power profiles
    daemon (the end of [gddv_init]), and their release
    ([destroy_dynamic_sources], [gddv_free]).

    libevdev, GLib, the directory and the descriptors are the operations of the
    class [Evdev]; [EvdevLaws] says what they do to the descriptors, to the
    libevdev objects and to the references that are live.  Nothing is said of closing a descriptor
    that is not open or of freeing an object that is not live, so a theorem from
    these laws shows that the code does neither. *)
From stdpp Require Import base gmap gmultiset strings list.
From Stdlib Require Import ZArith Lia.
From S2P Require Import Prelude CString Gddv GddvConditions.

#[local] Set Warnings "-clear-no-such-hyp".

Open Scope string_scope.
Open Scope list_scope.
Open Scope Z_scope.

Definition EV_SW : Z := 5.
Definition SW_LID : Z := 0.
Definition SW_TABLET_MODE : Z := 1.

Class Evdev (W : Type) := {
  ev_scandir : (string -> bool) -> W -> option (list string);  (* /dev/input, by version *)
  ev_open : string -> W -> (Z + Z) * W;                        (* O_RDONLY|O_NONBLOCK|O_CLOEXEC *)
  ev_new_from_fd : Z -> W -> option nat * W;                   (* the object, None on failure *)
  ev_has_event_code : nat -> Z -> Z -> W -> bool;
  ev_get_fd : nat -> W -> Z;
  ev_free : nat -> W -> W;
  ev_close : Z -> W -> W;
  ev_value : nat -> Z -> Z -> State W Z;                       (* pending events read, then the value *)
  up_client_new : W -> option nat * W;
  up_on_battery : nat -> W -> bool;
  bus_get : W -> option nat * W;
  proxy_new : nat -> W -> option nat * W;                      (* on a bus *)
  active_profile : nat -> W -> option string;                  (* ActiveProfile, when it is a string *)
  g_unref : nat -> W -> W;
}.

(** The members that name what the vault holds open; [None] is the null pointer. *)
Record sources := mk_sources {
  upower_client : option nat;
  power_profiles_daemon : option nat;
  tablet_dev : option nat;
  lid_dev : option nat;
}.
#[export] Instance eta_sources : Eta sources := {| eta_of := fun x =>
  mk_sources (upower_client x) (power_profiles_daemon x) (tablet_dev x) (lid_dev x) |}.

Definition no_sources : sources := mk_sources None None None None.

Definition is_event_device (d_name : string) : bool := strncmp "event" d_name 5 =? 0.

(** [snprintf] into 267 characters. *)
Definition event_file (d_name : string) : string := String.substring 0 266 ("/dev/input/" +:+ d_name).

Section input.
Context {W : Type} `{Evdev W}.
Abbreviation SM := (State (sources * W)).

Definition on_sys {A} (m : State W A) : SM A := fun '(x, w) => let '(a, w') := m w in (a, (x, w')).
Definition do_sys (f : W -> W) : SM unit := modify (fun '(x, w) => (x, f w)).
Definition sources_now : SM sources := gets fst.
Definition set_sources (f : sources -> sources) : SM unit := modify (fun '(x, w) => (f x, w)).

(** Lines 1866-1874: the first device with a switch is kept for it. *)
Definition take_device (dev : nat) (fd : Z) : SM unit :=
  let* (_, w) := get in
  set_sources (fun x =>
    if bool_decide (tablet_dev x = None) && ev_has_event_code dev EV_SW SW_TABLET_MODE w
    then x <| tablet_dev := Some dev |> else x) ;;
  set_sources (fun x =>
    if bool_decide (lid_dev x = None) && ev_has_event_code dev EV_SW SW_LID w
    then x <| lid_dev := Some dev |> else x) ;;
  x <- sources_now ;;
  if bool_decide (lid_dev x <> Some dev) && bool_decide (tablet_dev x <> Some dev)
  then do_sys (ev_free dev) ;; do_sys (ev_close fd)
  else ret tt.

(** One entry of the directory: lines 1851-1874. *)
Definition try_input_device (d_name : string) : SM unit :=
  r <- on_sys (ev_open (event_file d_name)) ;;
  match r with
  | inl _ => ret tt
  | inr fd =>
      d <- on_sys (ev_new_from_fd fd) ;;
      match d with
      | None => do_sys (ev_close fd)
      | Some dev => take_device dev fd
      end
  end.

Fixpoint try_input_devices (names : list string) : SM unit :=
  match names with
  | [] => ret tt
  | d_name :: rest => try_input_device d_name ;; try_input_devices rest
  end.

Definition setup_input_devices : SM unit :=
  names <- on_sys (fun w => (ev_scandir is_event_device w, w)) ;;
  match names with
  | None => ret tt
  | Some l => try_input_devices l
  end.

(** [close(libevdev_get_fd(dev)); libevdev_free(dev)]. *)
Definition release_switch (dev : nat) : SM unit := do_sys (fun w => ev_free dev (ev_close (ev_get_fd dev w) w)).

Definition destroy_dynamic_sources : SM unit :=
  x <- sources_now ;;
  (match upower_client x with
   | Some o => do_sys (g_unref o) ;; set_sources (fun x => x <| upower_client := None |>)
   | None => ret tt
   end) ;;
  (match power_profiles_daemon x with
   | Some o => do_sys (g_unref o) ;; set_sources (fun x => x <| power_profiles_daemon := None |>)
   | None => ret tt
   end) ;;
  (match tablet_dev x with
   | Some dev =>
       release_switch dev ;;
       set_sources (fun x => if bool_decide (lid_dev x = Some dev) then x <| lid_dev := None |> else x) ;;
       set_sources (fun x => x <| tablet_dev := None |>)
   | None => ret tt
   end) ;;
  x <- sources_now ;;
  match lid_dev x with
  | Some dev => release_switch dev ;; set_sources (fun x => x <| lid_dev := None |>)
  | None => ret tt
  end.
Definition gddv_free : SM unit := destroy_dynamic_sources.

(** The end of [gddv_init], lines 2126-2157: the connections, and the power
    slider when the power profiles daemon answers.  The bus is an [autoptr]. *)
Definition connect_sources (g : gddv) : SM gddv :=
  setup_input_devices ;;
  up <- on_sys up_client_new ;;
  set_sources (fun x => x <| upower_client := up |>) ;;
  bus <- on_sys bus_get ;;
  match bus with
  | None => ret g
  | Some b =>
      ppd <- on_sys (proxy_new b) ;;
      set_sources (fun x => x <| power_profiles_daemon := ppd |>) ;;
      let* (_, w) := get in
      do_sys (g_unref b) ;;
      ret (match ppd with Some o => update_power_slider (active_profile o w) g | None => g end)
  end.

(** The platform the conditions see (GddvConditions.v): the value of a switch
    after its pending events were read, and the power source. *)
Definition switch_value (dev : option nat) (code : Z) : SM (option Z) :=
  match dev with
  | None => ret None
  | Some d => v <- on_sys (ev_value d EV_SW code) ;; ret (Some v)
  end.
Definition platform_now : SM platform :=
  x <- sources_now ;;
  lid <- switch_value (lid_dev x) SW_LID ;;
  tablet <- switch_value (tablet_dev x) SW_TABLET_MODE ;;
  let* (_, w) := get in
  ret (GddvConditions.mk_platform lid tablet (has_dev (upower_client x))
         (from_option (fun o => up_on_battery o w) false (upower_client x))).
End input.

(** * What is open and live *)

(** The open descriptors, the live libevdev objects, each with its descriptor and
    the codes of its switches, and the references to GObjects, counted. *)
Record footprint := mk_footprint { fds : gset Z; devs : gmap nat (Z * list Z); refs : gmultiset nat }.
#[export] Instance eta_footprint : Eta footprint := {| eta_of := fun v =>
  mk_footprint (fds v) (devs v) (refs v) |}.

Definition add_fd (fd : Z) (v : footprint) : footprint := v <| fds := {[fd]} ∪ fds v |>.
Definition del_fd (fd : Z) (v : footprint) : footprint := v <| fds := fds v ∖ {[fd]} |>.
Definition add_dev (d : nat) (fd : Z * list Z) (v : footprint) : footprint := v <| devs := <[d := fd]> (devs v) |>.
Definition del_dev (d : nat) (v : footprint) : footprint := v <| devs := delete d (devs v) |>.
Definition add_ref (o : nat) (v : footprint) : footprint := v <| refs := {[+ o +]} ⊎ refs v |>.
Definition del_ref (o : nat) (v : footprint) : footprint := v <| refs := refs v ∖ {[+ o +]} |>.
Definition add_refs (r : option nat) (v : footprint) : footprint := from_option add_ref id r v.

Class EvdevLaws (W : Type) `{Evdev W} := {
  view : W -> footprint;
  law_open path w r w' : ev_open path w = (r, w') ->
    match r with
    | inl _ => view w' = view w
    | inr fd => (fd ∉ fds (view w)) /\ view w' = add_fd fd (view w)
    end;
  law_new fd w r w' : ev_new_from_fd fd w = (r, w') ->
    match r with
    | None => view w' = view w
    | Some d => devs (view w) !! d = None /\ exists cs, view w' = add_dev d (fd, cs) (view w)
    end;
  law_fd d fd cs w : devs (view w) !! d = Some (fd, cs) -> ev_get_fd d w = fd;
  law_code d fd cs code w : devs (view w) !! d = Some (fd, cs) ->
    ev_has_event_code d EV_SW code w = bool_decide (code ∈ cs);
  law_free d w : is_Some (devs (view w) !! d) -> view (ev_free d w) = del_dev d (view w);
  law_close fd w : fd ∈ fds (view w) -> view (ev_close fd w) = del_fd fd (view w);
  law_up w r w' : up_client_new w = (r, w') -> view w' = add_refs r (view w);
  law_bus w r w' : bus_get w = (r, w') -> view w' = add_refs r (view w);
  law_proxy b w r w' : proxy_new b w = (r, w') -> view w' = add_refs r (view w);
  law_unref o w : o ∈ refs (view w) -> view (g_unref o w) = del_ref o (view w);
}.

(** [v0] with the objects of [l] and the references of [rs] on top of it. *)
Definition on_top (v0 : footprint) (l : list (nat * (Z * list Z))) (rs : list nat) : footprint :=
  mk_footprint (list_to_set l.*2.*1 ∪ fds v0) (list_to_map l ∪ devs v0) (list_to_set_disj rs ⊎ refs v0).

(** The objects are new, each with a descriptor of its own. *)
Definition apart (v0 : footprint) (l : list (nat * (Z * list Z))) : Prop :=
  NoDup l.*1 /\ NoDup l.*2.*1 /\ Forall (fun p => devs v0 !! p.1 = None /\ p.2.1 ∉ fds v0) l.

Definition keeps (v0 : footprint) (l : list (nat * (Z * list Z))) (rs : list nat) (v : footprint) : Prop :=
  apart v0 l /\ v = on_top v0 l rs.

Lemma keeps_nil v : keeps v [] [] v.
Proof.
  split; [repeat constructor|]. unfold on_top. destruct v as [a b c]. f_equal; cbn [fds devs refs].
  - set_solver.
  - symmetry. apply (left_id_L ∅ (∪)).
  - by rewrite list_to_set_disj_nil, (left_id_L ∅ (⊎)).
Qed.

Lemma keeps_nil_inv v0 v : keeps v0 [] [] v -> v = v0.
Proof.
  intros [_ ->]. destruct (keeps_nil v0) as [_ E]. by rewrite E at 2.
Qed.

Lemma keeps_perm v0 l l' rs v : l ≡ₚ l' -> keeps v0 l rs v -> keeps v0 l' rs v.
Proof.
  intros P [(H1 & H2 & H3) ->]. split.
  - split; [|split]; [by rewrite <- P|by rewrite <- P|by rewrite <- P].
  - unfold on_top. f_equal.
    + apply leibniz_equiv. by rewrite P.
    + f_equal. by apply list_to_map_proper.
Qed.

Lemma keeps_perm_refs v0 l rs rs' v : rs ≡ₚ rs' -> keeps v0 l rs v -> keeps v0 l rs' v.
Proof. intros P [Ha ->]. split; [done|]. unfold on_top. f_equal. by rewrite P. Qed.

Lemma keeps_push v0 l rs v d fd cs :
  keeps v0 l rs v -> fd ∉ fds v -> devs v !! d = None ->
  keeps v0 ((d, (fd, cs)) :: l) rs (add_dev d (fd, cs) (add_fd fd v)).
Proof.
  intros [(H1 & H2 & H3) ->] Hf Hd. cbn in Hf, Hd. apply lookup_union_None in Hd as [Hd1 Hd2].
  split; [split; [|split]|]; cbn.
  - constructor; [by apply not_elem_of_list_to_map|done].
  - constructor; [set_solver|done].
  - constructor; [split; [done|set_solver]|done].
  - unfold on_top, add_dev, add_fd. cbn. f_equal; [set_solver|]. by rewrite insert_union_l.
Qed.

Lemma keeps_pop v0 l rs v d fd cs :
  keeps v0 ((d, (fd, cs)) :: l) rs v -> keeps v0 l rs (del_dev d (del_fd fd v)).
Proof.
  intros [(H1 & H2 & H3) ->]. cbn in *.
  apply NoDup_cons in H1 as [H1 H1']. apply NoDup_cons in H2 as [H2 H2'].
  apply Forall_cons in H3 as [[H3 H4] H3']. split; [done|].
  unfold on_top, del_dev, del_fd. cbn in *. f_equal; [set_solver|].
  rewrite <- insert_union_l, delete_insert_id; [done|].
  apply lookup_union_None. split; [by apply not_elem_of_list_to_map_1|done].
Qed.
Lemma keeps_lookup v0 l rs v d : keeps v0 l rs v -> d ∈ l.*1 ->
  exists fd cs l', l ≡ₚ (d, (fd, cs)) :: l' /\ devs v !! d = Some (fd, cs) /\ fd ∈ fds v.
Proof.
  intros Hk Hd. apply list_elem_of_fmap in Hd as ([d' [fd cs]] & -> & Hin). cbn [fst]. rename d' into d.
  apply list_elem_of_split in Hin as (l1 & l2 & ->). exists fd, cs, (l1 ++ l2).
  assert (P : l1 ++ (d, (fd, cs)) :: l2 ≡ₚ (d, (fd, cs)) :: l1 ++ l2) by (by rewrite Permutation_middle).
  split; [done|]. apply (keeps_perm _ _ _ _ _ P) in Hk as [_ ->]. cbn. split.
  - by rewrite <- insert_union_l, lookup_insert_eq.
  - set_solver.
Qed.

Lemma keeps_refs v0 l rs v r : keeps v0 l rs v -> keeps v0 l (option_list r ++ rs) (add_refs r v).
Proof.
  intros [Ha ->]. split; [done|]. destruct r as [o|]; [|done]. unfold on_top, add_refs, add_ref. cbn [from_option].
  cbn -[disj_union]. f_equal. by rewrite (assoc_L _).
Qed.

Lemma keeps_unref v0 l rs v o : keeps v0 l (o :: rs) v -> o ∈ refs v /\ keeps v0 l rs (del_ref o v).
Proof.
  intros [Ha ->]. unfold on_top, del_ref. cbn -[disj_union difference]. split; [multiset_solver|].
  split; [done|]. unfold on_top. f_equal. multiset_solver.
Qed.

Lemma ref_under b p v :
  b ∈ refs (add_refs p (add_ref b v)) /\ del_ref b (add_refs p (add_ref b v)) = add_refs p v.
Proof.
  destruct v as [a d r], p as [o|]; unfold add_refs, add_ref, del_ref; cbn -[disj_union difference];
    (split; [multiset_solver|f_equal; multiset_solver]).
Qed.

(** The objects the members name. *)
Definition held (x : sources) : list nat :=
  match tablet_dev x, lid_dev x with
  | Some t, Some d => if bool_decide (t = d) then [t] else [t; d]
  | t, d => option_list t ++ option_list d
  end.
Definition held_refs (x : sources) : list nat := option_list (power_profiles_daemon x) ++ option_list (upower_client x).

Section released.
Context {W : Type} `{EvdevLaws W}.

(** Each switch reports the events it is kept for. *)
Definition right_switches (x : sources) (w : W) : Prop :=
  (forall d, tablet_dev x = Some d -> ev_has_event_code d EV_SW SW_TABLET_MODE w = true) /\
  (forall d, lid_dev x = Some d -> ev_has_event_code d EV_SW SW_LID w = true).

(** What is open is what was open in [v0] and what the members name. *)
Definition holds (v0 : footprint) (a : sources * W) : Prop :=
  (exists l, keeps v0 l (held_refs (fst a)) (view (snd a)) /\ l.*1 ≡ₚ held (fst a)) /\
  right_switches (fst a) (snd a).

Lemma held_tablet x d : tablet_dev x = Some d -> d ∈ held x.
Proof. unfold held. intros ->. destruct (lid_dev x); [case_bool_decide|]; cbn; set_solver. Qed.
Lemma held_lid x d : lid_dev x = Some d -> d ∈ held x.
Proof.
  unfold held. intros ->. destruct (tablet_dev x); [case_bool_decide; subst|]; cbn; set_solver.
Qed.

Lemma switches_stay v0 x w w' :
  holds v0 (x, w) -> (forall d, d ∈ held x -> devs (view w') !! d = devs (view w) !! d) -> right_switches x w'.
Proof.
  intros [(l & Hk & Hl) [Ht Hd]] Hs. cbn [fst snd] in *.
  assert (Hc : forall d code, d ∈ held x -> ev_has_event_code d EV_SW code w = ev_has_event_code d EV_SW code w').
  { intros d code Hin. pose proof (Hs d Hin) as E. rewrite <- Hl in Hin.
    destruct (keeps_lookup _ _ _ _ _ Hk Hin) as (fd & cs & ? & ? & E1 & ?). rewrite E1 in E.
    by rewrite (law_code d fd cs), (law_code d fd cs). }
  split; intros d E.
  - rewrite <- Hc by (by apply held_tablet). auto.
  - rewrite <- Hc by (by apply held_lid). auto.
Qed.

(** An entry that could not be opened, or is no event device. *)
Lemma holds_same v0 x w w' : view w' = view w -> holds v0 (x, w) -> holds v0 (x, w').
Proof.
  intros E Hh. split; cbn [fst snd]; [rewrite E; apply Hh|].
  apply (switches_stay v0 x w); [done|]. intros d _. by rewrite E.
Qed.

(** A device that no member takes is freed and closed. *)
Lemma view_freed d fd cs w v :
  view w = add_dev d (fd, cs) (add_fd fd v) -> fd ∉ fds v -> devs v !! d = None ->
  view (ev_close fd (ev_free d w)) = v.
Proof.
  intros E Hf Hd. assert (E1 : view (ev_free d w) = add_fd fd v).
  { rewrite law_free; rewrite E; cbn; rewrite ?lookup_insert_eq; [|done]. unfold del_dev, add_dev, add_fd.
    cbn. by rewrite delete_insert_id. }
  rewrite law_close; rewrite E1; cbn; [|set_solver]. destruct v as [a b c]. unfold del_fd, add_fd. cbn in *.
  f_equal. set_solver.
Qed.

Lemma view_closed fd w v : view w = add_fd fd v -> fd ∉ fds v -> view (ev_close fd w) = v.
Proof.
  intros E Hf. rewrite law_close; rewrite E; cbn; [|set_solver]. destruct v as [a b c]. unfold del_fd, add_fd.
  cbn in *. f_equal. set_solver.
Qed.

(** A device that is kept: [x'] names it besides what [x] named. *)
Lemma holds_taken v0 x x' d fd cs w w' :
  holds v0 (x, w) -> fd ∉ fds (view w) -> devs (view w) !! d = None ->
  view w' = add_dev d (fd, cs) (add_fd fd (view w)) -> held x' ≡ₚ d :: held x -> held_refs x' = held_refs x ->
  right_switches x' w' -> holds v0 (x', w').
Proof.
  intros [(l & Hk & Hl) _] Hf Hd E Hh Hr Hs. split; [|done]. exists ((d, (fd, cs)) :: l). cbn [fst snd] in *.
  rewrite E, Hr, Hh. cbn. rewrite Hl. split; [|done]. by apply keeps_push.
Qed.

(** Lines 1866-1874. *)
Lemma take_or_free v0 x w d fd cs w2 :
  holds v0 (x, w) -> fd ∉ fds (view w) -> devs (view w) !! d = None ->
  view w2 = add_dev d (fd, cs) (add_fd fd (view w)) -> right_switches x w2 ->
  tablet_dev x <> Some d -> lid_dev x <> Some d -> holds v0 (snd (take_device d fd (x, w2))).
Proof.
  intros Hh Hf Hd E2 [Hs1 Hs2] Ht Hl. unfold take_device, bind, set_sources, sources_now, do_sys, modify, gets, get. cbn.
  destruct x as [up ppd t l]. cbn in *.
  destruct (ev_has_event_code d EV_SW SW_TABLET_MODE w2) eqn:C1, (ev_has_event_code d EV_SW SW_LID w2) eqn:C2;
    destruct t as [t|], l as [l|]; cbn; repeat (case_bool_decide; cbn; try congruence);
    first [ apply (holds_same _ _ w); [by apply (view_freed _ _ cs)|done]
          | apply (holds_taken _ (mk_sources up ppd _ _) _ d fd cs w w2 Hh Hf Hd E2); [|done|] ].
  all: cbn; try (case_bool_decide; [congruence|]); rewrite ?bool_decide_eq_true_2 by done;
    try reflexivity; try apply perm_swap.
  all: split; cbn; intros d' E; simplify_eq; auto.
Qed.

Lemma try_input_device_holds v0 name a : holds v0 a -> holds v0 (snd (try_input_device name a)).
Proof.
  destruct a as [x w]. intros Hh. unfold try_input_device, bind, on_sys.
  destruct (ev_open (event_file name) w) as [[e|fd] w1] eqn:Eo; pose proof (law_open _ _ _ _ Eo) as Ho; cbn.
  { by apply (holds_same _ _ w). }
  destruct Ho as [Hf E1]. destruct (ev_new_from_fd fd w1) as [[d|] w2] eqn:En; pose proof (law_new _ _ _ _ En) as Hn; cbn.
  2:{ apply (holds_same _ _ w); [|done]. apply view_closed; [by rewrite Hn|done]. }
  destruct Hn as [Hd [cs E2]]. rewrite E1 in Hd, E2. cbn [devs add_fd] in Hd.
  assert (Hnew : d ∉ held x).
  { intros Hin. destruct Hh as [(l & Hk & Hl) _]. rewrite <- Hl in Hin. cbn in *.
    destruct (keeps_lookup _ _ _ _ _ Hk Hin) as (? & ? & ? & ? & X & ?). cbn in X. congruence. }
  assert (Hsw : right_switches x w2).
  { apply (switches_stay v0 x w); [done|]. intros d' Hd'. rewrite E2. cbn. apply lookup_insert_ne. set_solver. }
  assert (Ht : tablet_dev x <> Some d) by (intros X; by apply Hnew, held_tablet).
  assert (Hl : lid_dev x <> Some d) by (intros X; by apply Hnew, held_lid).
  eapply take_or_free; eauto.
Qed.

Lemma setup_input_devices_holds v0 a : holds v0 a -> holds v0 (snd (setup_input_devices a)).
Proof.
  intros Ha. unfold setup_input_devices, bind, on_sys. destruct a as [x w].
  destruct (ev_scandir is_event_device w) as [l|]; [|done]. cbn. revert Ha. generalize (x, w). clear x w.
  induction l as [|n l IH]; intros a Ha; [done|]. cbn. unfold bind.
  pose proof (try_input_device_holds v0 n a Ha) as H1. destruct (try_input_device n a) as [[] a1]. by apply IH.
Qed.

(** A reference that a member takes. *)
Lemma holds_ref v0 x x' r w w' :
  holds v0 (x, w) -> view w' = add_refs r (view w) -> held x' = held x ->
  tablet_dev x' = tablet_dev x -> lid_dev x' = lid_dev x ->
  held_refs x' = option_list r ++ held_refs x -> holds v0 (x', w').
Proof.
  intros Hh E Hx Ht Hl Hr. assert (Hv : devs (view w') = devs (view w)) by (rewrite E; by destruct r).
  pose proof (switches_stay v0 x w w' Hh ltac:(intros; by rewrite Hv)) as Hs.
  destruct Hh as [(l & Hk & Hp) _]. split; cbn [fst snd] in *.
  - exists l. rewrite Hx, Hr, E. split; [by apply keeps_refs|done].
  - unfold right_switches. by rewrite Ht, Hl.
Qed.

(** The search for switches leaves the other members alone. *)
Lemma setup_keeps_refs x w : held_refs (fst (snd (setup_input_devices (x, w)))) = held_refs x.
Proof.
  set (f := fun a : sources * W => held_refs (fst a)). change (f (snd (setup_input_devices (x, w))) = f (x, w)).
  revert x w. assert (Hs : forall A (m : State W A), preserves f (on_sys m)).
  { intros A m [x w]. unfold on_sys. by destruct (m w). }
  assert (Hd : forall g, preserves f (do_sys g)) by (intros g; by apply preserves_modify; intros [x w]).
  assert (Ht : forall d fd, preserves f (take_device d fd)).
  { intros d fd. unfold take_device. apply preserves_bind; [done|]. intros [_ w].
    repeat (apply preserves_bind; [apply preserves_modify; intros [x w']; cbn; by destruct (_ && _)|intros []]).
    apply preserves_bind; [done|]. intros x. apply preserves_if; [|apply preserves_ret].
    by apply preserves_bind. }
  assert (Hl : forall l, preserves f (try_input_devices l)).
  { induction l as [|n l IH]; [done|]. apply preserves_bind; [|done]. unfold try_input_device.
    apply preserves_bind; [done|]. intros [e|fd]; [done|]. apply preserves_bind; [done|]. by intros [d|]. }
  intros x w. apply (preserves_bind f); [apply Hs|]. intros [l|]; [apply Hl|apply preserves_ret].
Qed.

Lemma connect_sources_holds w g : holds (view w) (snd (connect_sources g (no_sources, w))).
Proof.
  assert (Hw : holds (view w) (no_sources, w)).
  { split; [exists []; split; [apply keeps_nil|done]|by split]. }
  pose proof (setup_input_devices_holds _ _ Hw) as Hin. pose proof (setup_keeps_refs no_sources w) as Hr.
  unfold connect_sources, bind at 1. destruct (setup_input_devices (no_sources, w)) as [[] [x w1]]. cbn [fst snd] in Hin, Hr.
  destruct x as [up ppd t l]. destruct up, ppd; cbn in Hr; try discriminate. clear Hr.
  unfold bind, on_sys, set_sources, modify, get, do_sys, ret. cbn.
  destruct (up_client_new w1) as [up w2] eqn:E2. pose proof (law_up _ _ _ E2) as V2. cbn.
  eapply (holds_ref _ _ (mk_sources up None t l) up w1 w2) in Hin; [|done|done|done|done|by destruct up].
  destruct (bus_get w2) as [[b|] w3] eqn:E3; pose proof (law_bus _ _ _ E3) as V3; cbn [add_refs from_option] in V3; cbn.
  2:{ by apply (holds_same _ _ w2). }
  destruct (proxy_new b w3) as [p w4] eqn:E4. pose proof (law_proxy _ _ _ _ E4) as V4. cbn.
  eapply (holds_ref _ _ (mk_sources up p t l) p w2); [done| |done|done|done|done].
  destruct (ref_under b p (view w2)) as [Hb Hv]. by rewrite law_unref, V4, V3; [|rewrite V4, V3].
Qed.

(** ** Release *)

Lemma unref_keeps v0 l rs o w : keeps v0 l (o :: rs) (view w) -> keeps v0 l rs (view (g_unref o w)).
Proof. intros Hk. destruct (keeps_unref _ _ _ _ _ Hk) as [Hin Hk']. by rewrite law_unref. Qed.

Lemma release_keeps v0 l rs d w :
  keeps v0 l rs (view w) -> d ∈ l.*1 ->
  exists l', l.*1 ≡ₚ d :: l'.*1 /\ keeps v0 l' rs (view (ev_free d (ev_close (ev_get_fd d w) w))).
Proof.
  intros Hk Hd. destruct (keeps_lookup _ _ _ _ _ Hk Hd) as (fd & cs & l' & P & El & Hf). exists l'.
  split; [by rewrite P|]. rewrite (law_fd _ _ _ _ El).
  rewrite law_free by (rewrite law_close by done; cbn; by rewrite El). rewrite law_close by done.
  apply keeps_pop with cs. by eapply keeps_perm.
Qed.

(** The two references, in the order of lines 74-78. *)
Lemma release_refs v0 l x w :
  keeps v0 l (held_refs x) (view w) ->
  let w1 := from_option g_unref id (upower_client x) w in
  keeps v0 l [] (view (from_option g_unref id (power_profiles_daemon x) w1)).
Proof.
  intros Hk. apply (keeps_perm_refs _ _ _ (option_list (upower_client x) ++ option_list (power_profiles_daemon x))) in Hk;
    [|apply Permutation_app_comm].
  destruct (upower_client x), (power_profiles_daemon x); cbn in *; auto using unref_keeps.
Qed.

(** The switches, lines 80-95. *)
Lemma release_switches v0 l t d w :
  keeps v0 l [] (view w) -> l.*1 ≡ₚ held (mk_sources None None t d) ->
  let '(_, (x, w')) :=
    ((match t with
      | Some dev =>
          release_switch dev ;;
          set_sources (fun x => if bool_decide (lid_dev x = Some dev) then x <| lid_dev := None |> else x) ;;
          set_sources (fun x => x <| tablet_dev := None |>)
      | None => ret tt
      end) ;;
     x <- sources_now ;;
     match lid_dev x with
     | Some dev => release_switch dev ;; set_sources (fun x => x <| lid_dev := None |>)
     | None => ret tt
     end) (mk_sources None None t d, w) in
  x = no_sources /\ keeps v0 [] [] (view w').
Proof.
  intros Hk Hl. unfold release_switch, set_sources, do_sys, sources_now, bind, modify, gets, ret.
  destruct t as [t|].
  - destruct (release_keeps v0 l [] t w Hk) as (l' & P & Hk').
    { rewrite Hl. by apply held_tablet. }
    rewrite Hl in P. cbn in P |- *. destruct d as [d|]; cbn in P |- *.
    + repeat case_bool_decide; simplify_eq; cbn.
      * split; [done|]. apply Permutation_cons_inv, Permutation_nil_l in P. by destruct l'.
      * apply Permutation_cons_inv in P.
        destruct (release_keeps v0 l' [] d _ Hk') as (l2 & P2 & Hk2); [rewrite <- P; set_solver|].
        split; [done|]. rewrite <- P in P2. apply Permutation_cons_inv, Permutation_nil_l in P2. by destruct l2.
    + split; [done|]. apply Permutation_cons_inv, Permutation_nil_l in P. by destruct l'.
  - cbn in *. destruct d as [d|]; cbn in *.
    + destruct (release_keeps v0 l [] d w Hk) as (l' & P & Hk'); [rewrite Hl; set_solver|].
      split; [done|]. rewrite Hl in P. apply Permutation_cons_inv, Permutation_nil_l in P. by destruct l'.
    + split; [done|]. apply Permutation_nil_r in Hl. by destruct l.
Qed.

Lemma held_devices v0 l rs v h :
  keeps v0 l rs v -> l.*1 ≡ₚ h -> dom (devs v) = list_to_set h ∪ dom (devs v0).
Proof.
  intros [_ ->] Hl. cbn. rewrite dom_union_L, dom_list_to_map_L. f_equal. apply leibniz_equiv. by rewrite Hl.
Qed.

(** C26: lid and tablet switches and connections are released exactly.  Whatever
    /dev/input, UPower and the bus answer, the search keeps open at most one
    device for each switch, one that reports it; [gddv_free] then closes every
    descriptor, frees every libevdev object and drops every reference that was
    taken, each of them once and while it is live, also when one device is both
    switches, and leaves all pointers null. *)
Theorem sources_released g (w : W) :
  let a := snd (connect_sources g (no_sources, w)) in
  let b := snd (gddv_free a) in
  right_switches (fst a) (snd a) /\ (length (held (fst a)) <= 2)%nat /\
  dom (devs (view (snd a))) = list_to_set (held (fst a)) ∪ dom (devs (view w)) /\
  fst b = no_sources /\ view (snd b) = view w.
Proof.
  intros a b. pose proof (connect_sources_holds w g) as Hh. fold a in Hh.
  split; [apply Hh|]. split.
  { unfold held. destruct (tablet_dev (fst a)), (lid_dev (fst a)); try case_bool_decide; cbn; lia. }
  destruct Hh as [(l & Hk & Hl) _]. split; [by eapply held_devices|].
  subst b. clearbody a. destruct a as [x w1]. cbn [fst snd] in *.
  pose proof (release_refs _ _ _ _ Hk) as Hr. destruct x as [up ppd t d]. cbn in Hr, Hl.
  pose proof (release_switches _ _ t d _ Hr Hl) as Hs.
  enough (He : exists w2, fst (snd (gddv_free (mk_sources up ppd t d, w1))) = no_sources /\
    view (snd (snd (gddv_free (mk_sources up ppd t d, w1)))) = view w2 /\ keeps (view w) [] [] (view w2)).
  { destruct He as (w2 & E1 & E2 & E3). split; [done|]. by rewrite E2, (keeps_nil_inv _ _ E3). }
  unfold gddv_free, destroy_dynamic_sources, release_switch, set_sources, do_sys, sources_now, bind, modify, gets, ret in *.
  destruct up, ppd, t, d; cbn in Hs |- *; repeat case_bool_decide; cbn in Hs |- *; destruct Hs as [Hs1 Hs2];
    simplify_eq; eauto.
Qed.
End released.

(** * A convertible

    A keyboard, a device libevdev refuses, one that is both switches and a lid
    switch; UPower runs and the power profiles daemon does not. *)
Record hub := mk_hub {
  h_fp : footprint;
  h_nodes : gmap string (option (list Z));   (* by path: no event device, or its switches *)
  h_paths : gmap Z string;
}.
Definition set_fp (f : footprint -> footprint) (w : hub) : hub := mk_hub (f (h_fp w)) (h_nodes w) (h_paths w).

Definition hub_open (path : string) (w : hub) : (Z + Z) * hub :=
  match h_nodes w !! path with
  | None => (inl 13, w)
  | Some _ =>
      let fd := fresh (fds (h_fp w)) in
      (inr fd, mk_hub (add_fd fd (h_fp w)) (h_nodes w) (<[fd := path]> (h_paths w)))
  end.
Definition hub_new (fd : Z) (w : hub) : option nat * hub :=
  match h_nodes w !! default "" (h_paths w !! fd) with
  | Some (Some cs) =>
      let d := fresh (dom (devs (h_fp w))) in (Some d, set_fp (add_dev d (fd, cs)) w)
  | _ => (None, w)
  end.
Definition hub_dev (d : nat) (w : hub) : Z * list Z := default (-1, []) (devs (h_fp w) !! d).

#[export] Instance hub_evdev : Evdev hub := {
  ev_scandir := fun keep w => Some (List.filter keep ["mouse0"; "event0"; "event1"; "event2"; "event3"]);
  ev_open := hub_open;
  ev_new_from_fd := hub_new;
  ev_has_event_code := fun d type code w => bool_decide (code ∈ snd (hub_dev d w));
  ev_get_fd := fun d w => fst (hub_dev d w);
  ev_free := fun d w => set_fp (del_dev d) w;
  ev_close := fun fd w => set_fp (del_fd fd) w;
  ev_value := fun d type code w => (1, w);
  up_client_new := fun w => (Some 100%nat, set_fp (add_ref 100) w);
  up_on_battery := fun _ _ => true;
  bus_get := fun w => (Some 101%nat, set_fp (add_ref 101) w);
  proxy_new := fun _ w => (None, w);
  active_profile := fun _ _ => None;
  g_unref := fun o w => set_fp (del_ref o) w;
}.

#[export] Instance hub_laws : EvdevLaws hub.
Proof.
  refine {| view := h_fp |}; cbn.
  - intros path w r w'. unfold hub_open. destruct (_ !! _); intros E; simplify_eq; cbn; [|done].
    split; [apply is_fresh|done].
  - intros fd w r w'. unfold hub_new. destruct (h_nodes w !! _) as [[cs|]|]; intros E; simplify_eq; cbn; [|done|done].
    split; [|by exists cs]. apply not_elem_of_dom, is_fresh.
  - intros d fd cs w E. unfold hub_dev. by rewrite E.
  - intros d fd cs code w E. unfold hub_dev. by rewrite E.
  - done.
  - done.
  - intros w r w' E. by simplify_eq.
  - intros w r w' E. by simplify_eq.
  - intros b w r w' E. by simplify_eq.
  - done.
Defined.

Definition convertible : hub :=
  mk_hub (mk_footprint ∅ ∅ ∅)
    {["/dev/input/event0" := Some []; "/dev/input/event1" := None;
      "/dev/input/event2" := Some [SW_LID; SW_TABLET_MODE]; "/dev/input/event3" := Some [SW_LID]]} ∅.

(** The device that is both switches is kept, alone, and released once. *)
Lemma sources_released_witness :
  let a := snd (connect_sources new_gddv (no_sources, convertible)) in
  let b := snd (gddv_free a) in
  tablet_dev (fst a) = lid_dev (fst a) /\ is_Some (lid_dev (fst a)) /\ length (held (fst a)) = 1%nat /\
  fst (platform_now a) = GddvConditions.mk_platform (Some 1) (Some 1) true true /\
  fst b = no_sources /\ h_fp (snd b) = mk_footprint ∅ ∅ ∅.
Proof.
  intros a b. destruct (sources_released new_gddv convertible) as (_ & _ & _ & H1 & H2).
  split; [vm_compute; reflexivity|]. split; [vm_compute; by eexists|]. split; [vm_compute; reflexivity|].
  split; [vm_compute; reflexivity|]. split; [exact H1|exact H2].
Defined.
