(* ===== verification/EngineAdaptive.v ===== *)
(** The adaptive engine, [cthd_engine_adaptive] (src/thd_engine_adaptive.cpp):
    which tables of the firmware it installs into the zones as the conditions
    of src/thd_gddv.cpp select a target, the fallback and default policies, and
    its start.

    A run the process does not survive ends with the reason: [exit], an
    exception nobody catches, or an access outside a vector. *)
From stdpp Require Import base gmap strings list.
From Stdlib Require Import ZArith Lia Ascii.
From Stdlib Require String.
From S2P Require Import Prelude CString SysFs CFloat Pid Cdev PowerMeter CdevRapl Machine Preference TripPoint Xml Zone ZoneKinds Engine EngineUser Gddv GddvConditions.

Open Scope string_scope.
Open Scope list_scope.
Open Scope Z_scope.

(** The members [cthd_engine_adaptive] adds and its [cthd_gddv]. *)
Record adaptive := mk_adaptive {
  policy_active : Z;
  fallback_id : Z;
  int3400_path : string;
  adaptive_base_path : string;        (* int3400_base_path *)
  passive_def_only : Z;
  int3400_installed : Z;
  current_matched_target : Z;
  the_gddv : gddv;
}.
#[export] Instance eta_adaptive : Eta adaptive := {| eta_of := fun x =>
  mk_adaptive (policy_active x) (fallback_id x) (int3400_path x) (adaptive_base_path x)
    (passive_def_only x) (int3400_installed x) (current_matched_target x) (the_gddv x) |}.

Definition new_adaptive : adaptive := mk_adaptive 0 (-1) "" "" 0 0 (-1) new_gddv.
Definition adaptive_uuid : string := "63BE270F-1C11-48FD-A6F7-3AF253FF3E2D".

Definition itmt_hyst : Z := 2000.
Definition DEFAULT_SAMPLE_TIME_SEC : Z := 5.

(** Why the process ended. *)
Inductive stop := Exited | Threw | Undefined.

(** [cthd_cdev::set_adaptive_target], virtual; [None] is an exception. *)
Class AdaptiveCdev (X W : Type) := {
  m_set_adaptive_target : adaptive_target -> State (cdev X * W) (option unit);
}.

(** The base class does nothing. *)
Definition base_set_adaptive_target {X W} (target : adaptive_target) : State (cdev X * W) (option unit) :=
  ret (Some tt).

(** The name after the last dot, without the underscores at its end. *)
Definition part_name (s : string) : string := pop_back_while "_" (last_part s).

(** The state a limit of a table names. *)
Definition limit_state (limit : string) : Z :=
  if String.eqb limit "" then 0
  else if strncasecmp limit "MAX" 3 =? 0 then TRIP_PT_INVALID_TARGET_STATE
  else if strncasecmp limit "MIN" 3 =? 0 then 0
  else i32 (istream_int limit 0 * 1000).

Section adaptive.
Context {X W : Type} `{Kernel W} `{!CdevMethods X W} `{!AdaptiveCdev X W}.

(** The run directory, the depth of links between virtual sensors, and whether
    the sampling thread of a virtual sensor can be created. *)
Context (TDRUNDIR : string) (depth : nat) (created : bool).
Abbreviation EM := (State (engine X W)).
Abbreviation ZM := (State (zone * machine X W)).

(** * Passive tables *)

(** The zone of a name, and the name it was found under. *)
Definition find_zone (name : string) (e : engine X W) : option nat * string :=
  match search_zone name e with
  | Some i => (Some i, name)
  | None =>
      let '(z, name) := if compare_prefix name 4 "B0D4" then (search_zone "TCPU" e, "TCPU") else (None, name) in
      match z with
      | Some i => (Some i, name)
      | None => if compare_prefix name 4 "TCPU" then (search_zone "B0D4" e, "B0D4") else (None, name)
      end
  end.

Definition find_cdev (name : string) (e : engine X W) : option nat :=
  match search_cdev name (mach e) with
  | Some c => Some c
  | None => if compare_prefix name 4 "TCPU" then search_cdev "B0D4" (mach e) else None
  end.

(** A trip with one device joins the zone, which becomes active. *)
Definition install_trip (temp hyst sensor_id : Z) (add : State (trip_point * machine X W) unit) : ZM unit :=
  z <- getz ;;
  t <- on_machine (fun s =>
    let '(_, (t, s')) := add (new_trip (Z.of_nat (length (trip_points z))) PASSIVE temp hyst
      (z_index z) sensor_id SEQUENTIAL, s) in (t, s')) ;;
  add_trip t 1 ;;
  modz (fun z => z <| zone_cdev_binded_status := true |>) ;;
  set_zone_active created.

Definition install_passive (p : psv) : EM Z :=
  e <- get ;;
  let '(zone, psv_zone) := find_zone (part_name (psv_target p)) e in
  match zone, find_cdev (part_name (psv_source p)) e, search_sensor psv_zone (mach e) with
  | Some z, Some c, Some sn =>
      let temp := i32 (DECI_KELVIN_TO_CELSIUS (psv_temp p) * 1000) in
      let target_state := limit_state (psv_limit p) in
      on_zone z tt (install_trip temp 0 (s_index (sensor_at sn (mach e)))
        (thd_trip_point_add_cdev c default_influence (cdiv (psv_sample_period p) 10)
           (b2z (truthy target_state)) target_state None 0 0 0)) ;;
      ret 0
  | _, _, _ => ret THD_ERROR
  end.

(** [set_trip]: the first passive trip of the zone gets the temperature. *)
Definition set_trip (target argument : string) : EM (option stop) :=
  match stof argument with
  | None => ret (Some Threw)
  | Some float_temp =>
      let temp := int_of_float (float_mul float_temp (float_of_Z 1000)) in
      e <- get ;;
      match search_zone (part_name target) e with
      | None => ret None
      | Some i =>
          on_zone i tt (modz (fun z => z <| trip_points :=
            update_first (fun t => is_type (t_type t) PASSIVE) (fun t => t <| TripPoint.temp := u32 temp |>)
              (trip_points z) |>)) ;;
          ret None
      end
  end.

(** ** Consolidation *)

Definition get_first_cdev (t : trip_point) : option nat := tc_cdev <$> head (cdevs t).

(** Lines 204-205: the target of the last "MAX" trip is dropped, 1 C later. *)
Definition bump_trip (t : trip_point) : trip_point :=
  (snd (set_first_target_invalid t)) <| TripPoint.temp := u32 (TripPoint.temp t + 1000) |>.

(** Whether the next trip has the same sensor and device, and its target. *)
Definition next_target (t next : trip_point) : option Z :=
  if (sensor_id t =? sensor_id next) && bool_decide (get_first_cdev t = get_first_cdev next)
  then match is_target_valid next with
       | (r, target) => if r =? THD_SUCCESS then Some target else None
       end
  else None.

(** Half way to the next trip, with the target in the middle. *)
Definition middle_trip (min_state next_target_state : Z) (t next : trip_point) : trip_point :=
  (snd (set_first_target (cdiv (i32 (min_state + next_target_state)) 2) t))
    <| TripPoint.temp := u32 (TripPoint.temp next + TripPoint.temp t) / 2 |>.

Definition consolidate_trip (count j : nat) : ZM unit :=
  z <- getz ;;
  match trip_points z !! j with
  | None => ret tt
  | Some t =>
      let '(r, target_state) := is_target_valid t in
      if (r =? THD_SUCCESS) && (target_state =? TRIP_PT_INVALID_TARGET_STATE) then
        let bump := modz (fun z => z <| trip_points := <[j := bump_trip t]> (trip_points z) |>) in
        if (j =? pred count)%nat then bump else
        match trip_points z !! S j with
        | None => ret tt
        | Some next =>
            match get_first_cdev next, next_target t next with
            | Some c, Some next_target_state =>
                m <- on_machine (on_cdev c 0 (gets (fun '(d, _) => get_min_state d))) ;;
                modz (fun z => z <| trip_points :=
                  <[j := middle_trip m next_target_state t next]> (trip_points z) |>)
            | _, _ => bump
            end
        end
      else ret tt
  end.

(** A single trip with a target (beside the polling trip) gets a second one,
    1 C higher and without a target. *)
Definition consolidate_zone : ZM unit :=
  z <- getz ;;
  let count := length (trip_points z) in
  let all := mfor (seq 0 count) (consolidate_trip count) in
  match trip_points z with
  | t :: _ =>
      if (count =? 2)%nat && (fst (is_target_valid t) =? THD_SUCCESS) then
        match get_first_cdev t with
        | None => ret tt
        | Some c =>
            t' <- on_machine (add_default_cdev c
              (new_trip 1 PASSIVE (u32 (TripPoint.temp t + 1000)) 0 (z_index z) (sensor_id t) SEQUENTIAL)) ;;
            add_trip t' 1
        end
      else all
  | [] => all
  end.

Definition psvt_consolidate : EM unit := for_zones consolidate_zone.

(** * ITMT tables *)

Definition install_itmt (it : itmt_entry) : EM Z :=
  e <- get ;;
  let '(zone, itmt_zone) := find_zone (part_name (itmt_target it)) e in
  match zone, search_cdev "rapl_controller_mmio" (mach e), search_sensor itmt_zone (mach e) with
  | Some z, Some c, Some sn =>
      let temp := i32 (i32 (itmt_trip_point it - 2732) * 100) in
      let _max_state := limit_state (itmt_pl1_max it) in
      let _min_state := limit_state (itmt_pl1_min it) in
      on_zone z tt (install_trip temp itmt_hyst (s_index (sensor_at sn (mach e)))
        (thd_trip_point_add_cdev c default_influence DEFAULT_SAMPLE_TIME_SEC 0 0 None 1
           _max_state _min_state)) ;;
      ret 0
  | _, _, _ => ret THD_ERROR
  end.

(** * Installing targets *)

(** A zone loses its trips: the devices go back to their minimum first. *)
Definition clear_zone : ZM unit :=
  zone_reset 1 ;;
  modz trip_delete_all ;;
  z <- getz ;;
  if zone_active z then set_zone_inactive else ret tt.

Definition plot_zone (z : zone) : bool :=
  String.eqb (z_type_str z) "rapl_pkg_power" || String.eqb (z_type_str z) "power_floor".

Definition clear_zones (keep : zone -> bool) : EM unit :=
  for_zones (z <- getz ;; if keep z then ret tt else clear_zone).

Definition debug_mode_on (w : W) : bool :=
  match k_stat (TDRUNDIR +:+ "/debug_mode") w with Some _ => true | None => false end.

Abbreviation AM := (State (adaptive * engine X W)).
Definition geta : AM adaptive := gets fst.
Definition moda (f : adaptive -> adaptive) : AM unit := modify (fun '(a, e) => (f a, e)).
Definition on_engine {A} (m : EM A) : AM A := fun '(a, e) => let '(r, e') := m e in (r, (a, e')).

(** The rest of a body runs unless the process has ended. *)
Definition unless_stopped (m : AM (option stop)) (k : AM (option stop)) : AM (option stop) :=
  r <- m ;; match r with Some s => ret (Some s) | None => k end.

Definition set_itmt_target (target : adaptive_target) : AM Z :=
  a <- geta ;;
  match find_itmt (target_argument target) (the_gddv a) with
  | None => ret THD_ERROR
  | Some t =>
      (if truthy (int3400_installed a) then ret tt else
         on_engine (for_zones (
           z <- getz ;;
           d <- on_machine (gets (fun s => debug_mode_on (m_w s))) ;;
           if d && plot_zone z then ret tt else clear_zone))) ;;
      on_engine (mfor (itmt_entries t) (fun it => install_itmt it ;; ret tt)) ;;
      ret THD_SUCCESS
  end.

(** Lines 399-429; [false]: the named table is missing and the function
    returns. *)
Definition set_psvt_target (target : adaptive_target) : AM bool :=
  if negb (String.eqb (target_code target) "PSVT") then ret true else
  a <- geta ;;
  match find_psvt (target_argument target) (the_gddv a) with
  | None => ret false
  | Some t =>
      (if truthy (int3400_installed a) then ret tt else on_engine (clear_zones plot_zone)) ;;
      on_engine (mfor (psvs t) (fun p => install_passive p ;; ret tt)) ;;
      moda (fun a => a <| int3400_installed := 1 |>) ;;
      ret true
  end.

Definition active_zones (e : engine X W) : nat := length (List.filter zone_active (zones e)).

(** Without an active zone the daemon leaves a mark and exits. *)
Definition ignore_adaptive : string := TDRUNDIR +:+ "/" +:+ "ignore_adaptive".

Definition set_int3400_target (target : adaptive_target) : AM (option stop) :=
  (if String.eqb (target_code target) "ITMT" || String.eqb (target_code target) "ITMT3" then
     r <- set_itmt_target target ;;
     if r =? THD_SUCCESS then moda (fun a => a <| int3400_installed := 1 |>) else ret tt
   else ret tt) ;;
  go <- set_psvt_target target ;;
  if negb go then ret None else
  on_engine psvt_consolidate ;;
  n <- on_engine (gets active_zones) ;;
  if (n =? 0)%nat then
    on_engine (on_w (with_fs ignore_adaptive create)) ;; ret (Some Exited)
  else if String.eqb (target_code target) "PSV"
  then on_engine (set_trip (target_participant target) (target_argument target))
  else ret None.

(** [install_passive_default]: the default table of the firmware. *)
Definition install_passive_default : AM unit :=
  on_engine (clear_zones (fun _ => false)) ;;
  a <- geta ;;
  match find_def_psvt (the_gddv a) with
  | None => ret tt
  | Some t =>
      on_engine (mfor (psvs t) (fun p => install_passive p ;; ret tt)) ;;
      on_engine psvt_consolidate
  end.

(** A target for a device, or a table for the whole platform. *)
Definition execute_target (target : adaptive_target) : AM (option stop) :=
  c <- on_engine (gets (find_cdev (last_part (target_participant target)))) ;;
  a <- geta ;;
  if bool_decide (c = None) && String.eqb (target_participant target) (int3400_path a)
  then set_int3400_target target
  else if String.eqb (target_code target) "PSVT" then set_int3400_target target
  else
    match stoi (target_argument target), c with
    | Some _, Some p =>
        r <- on_engine (on_mach (on_cdev p None (m_set_adaptive_target target))) ;;
        ret (match r with Some _ => None | None => Some Threw end)
    | _, _ => ret None
    end.

(** The targets with an id, in the order of the table. *)
Fixpoint execute_targets (id : Z) (l : list adaptive_target) : AM (option stop) :=
  match l with
  | [] => ret None
  | t :: rest =>
      if target_id t =? u64 id then unless_stopped (execute_target t) (execute_targets id rest)
      else execute_targets id rest
  end.

Definition exec_fallback_target (target : Z) : AM (option stop) :=
  moda (fun a => a <| int3400_installed := 0 |>) ;;
  a <- geta ;;
  execute_targets target (targets (the_gddv a)).

(** * The policy *)

(** [gddv.evaluate_conditions()] with the platform [p] at this time. *)
Definition evaluate (p : platform) : AM (option Z) := fun '(a, e) =>
  let '((t, g), s) := evaluate_conditions (adaptive_base_path a) p depth (the_gddv a) (mach e) in
  (t, (a <| the_gddv := g |>, e <| mach := s |>)).

(** Lines 573-595, after a change of target. *)
Definition apply_target (target : Z) : AM (option stop) :=
  a <- geta ;;
  if (target =? -1) && (fallback_id a >=? 0) && negb (truthy (policy_active a)) then
    match targets (the_gddv a) !! Z.to_nat (fallback_id a) with
    | None => ret (Some Undefined)
    | Some t =>
        unless_stopped (exec_fallback_target (i32 (target_id t)))
          (moda (fun a => a <| policy_active := 1 |>) ;; ret None)
    end
  else
    moda (fun a => a <| int3400_installed := 0 |>) ;;
    unless_stopped
      (if target >? 0
       then unless_stopped (execute_targets target (targets (the_gddv a)))
              (moda (fun a => a <| policy_active := 1 |>) ;; ret None)
       else ret None)
      (a <- geta ;;
       (if truthy (int3400_installed a) then ret tt else install_passive_default) ;;
       ret None).

Definition update_adaptive_state (p : platform) : AM (option stop) :=
  a <- geta ;;
  if truthy (passive_def_only a) then ret None else
  target <- (if fallback_id a <? 0 then evaluate p else ret (Some (-1))) ;;
  match target with
  | None => ret (Some Undefined)
  | Some target =>
      a <- geta ;;
      if current_matched_target a =? target then ret None else
      moda (fun a => a <| current_matched_target := target |>) ;;
      apply_target target
  end.

(** [set_int3400_base_path]: the first INT device of the driver. *)
Definition set_int3400_base_path : AM Z :=
  path <- on_engine (on_w (gets (fun w => int_base_path (new_INT3400 adaptive_uuid w)))) ;;
  if String.eqb path "" then ret THD_ERROR else
  moda (fun a => a <| adaptive_base_path := path |>) ;;
  ret THD_SUCCESS.

(** ** Start *)
(** Lines 812-842: the fallback when the platform lacks what the conditions
    ask for.  [false]: the engine cannot start. *)
Definition choose_fallback (p : platform) : AM (option bool) :=
  a <- geta ;;
  if negb (truthy (verify_conditions p (the_gddv a))) then ret (Some true) else
  target <- evaluate p ;;
  match target with
  | None => ret None
  | Some target =>
      if negb (target =? -1) then ret (Some true) else
      a <- geta ;;
      let i := find_agressive_target (the_gddv a) in
      if i >=? 0 then moda (fun a => a <| fallback_id := i |>) ;; ret (Some true)
      else match find_def_psvt (the_gddv a) with
           | Some _ => install_passive_default ;; ret (Some true)
           | None => ret (Some false)
           end
  end.

(** What happens before the base class starts: [Some false] when the engine
    cannot start, [None] is an access outside a vector. *)
Definition prepare_start (p : platform) : AM (option bool) :=
  a <- geta ;;
  if truthy (passive_def_only a) then install_passive_default ;; ret (Some true) else
  go <- choose_fallback p ;;
  match go with
  | Some true =>
      on_engine (mode (fun e => e <| control_mode := EXCLUSIVE |>)) ;;
      target <- evaluate p ;;
      match target with
      | None => ret None
      | Some t => (if t =? -1 then install_passive_default else ret tt) ;; ret (Some true)
      end
  | _ => ret go
  end.

(** [engine_start] is [cthd_engine::thd_engine_start]. *)
Definition thd_adaptive_start (engine_start : EM Z) (p : platform) : AM (option Z) :=
  go <- prepare_start p ;;
  match go with
  | None => ret None
  | Some false => ret (Some THD_ERROR)
  | Some true => r <- on_engine engine_start ;; ret (Some r)
  end.
End adaptive.
