(* ===== verification/EngineAdaptiveTheorems.v ===== *)
(** Theorems about the adaptive engine: what consolidation does to the trips of
    a zone, that the default policy leaves nothing of an earlier one behind, and
    that the fallback target chosen at the start is never executed. *)
From stdpp Require Import base gmap strings list.
From Stdlib Require Import ZArith Lia.
From Stdlib Require String.
From S2P Require Import Prelude CString SysFs CFloat Pid Cdev CdevDevices PowerMeter CdevRapl Machine Preference TripPoint Xml Zone ZoneKinds ZoneTheorems Engine EngineUser Witnesses Gddv GddvConditions EngineAdaptive.

Open Scope string_scope.
Open Scope list_scope.
Open Scope Z_scope.

(** * Consolidation *)

(** A trip that asks for the "MAX" of its device. *)
Definition asks_max (t : trip_point) : bool :=
  let '(r, target_state) := is_target_valid t in
  (r =? THD_SUCCESS) && (target_state =? TRIP_PT_INVALID_TARGET_STATE).

(** The trip 1 C higher, without a target. *)
Definition raised (t : trip_point) : trip_point :=
  (snd (set_first_target_invalid t)) <| TripPoint.temp := u32 (TripPoint.temp t + 1000) |>.

(** The trip half way to the next one, with a target half way to its target. *)
Definition halfway (min state : Z) (t n : trip_point) : trip_point :=
  (snd (set_first_target (cdiv (i32 (min + state)) 2) t))
    <| TripPoint.temp := u32 (TripPoint.temp n + TripPoint.temp t) / 2 |>.

(** What becomes of a trip, from the one after it alone; [min] gives the
    minimum state of a device. *)
Definition consolidated_trip (min : nat -> Z) (t : trip_point) (next : option trip_point) : trip_point :=
  if asks_max t then
    match next with
    | None => raised t
    | Some n =>
        match get_first_cdev n, is_target_valid n with
        | Some c, (r, state) =>
            if (sensor_id t =? sensor_id n) && bool_decide (get_first_cdev t = Some c) && (r =? THD_SUCCESS)
            then halfway (min c) state t n else raised t
        | None, _ => raised t
        end
    end
  else t.

Fixpoint consolidated (min : nat -> Z) (l : list trip_point) : list trip_point :=
  match l with
  | [] => []
  | t :: rest => consolidated_trip min t (head rest) :: consolidated min rest
  end.

Section consolidation.
Context {X W : Type} `{Kernel W} `{!CdevMethods X W}.

Definition min_of (s : machine X W) (c : nat) : Z :=
  match m_cdevs s !! c with Some d => get_min_state d | None => 0 end.

Lemma ask_min c z (s : machine X W) :
  on_machine (on_cdev c 0 (gets (fun '(d, _) => get_min_state d))) (z, s) = (min_of s c, (z, s)).
Proof.
  unfold on_machine, on_cdev, gets, min_of. destruct (m_cdevs s !! c) as [d|] eqn:E; [|done].
  rewrite (list_insert_id _ _ _ E). by destruct s.
Qed.

Lemma zone_same_trips (z : zone) l : trip_points z = l -> z <| trip_points := l |> = z.
Proof. intros <-. by destruct z. Qed.

Lemma insert_here {A} (pre rest : list A) t t' : <[length pre := t']> (pre ++ t :: rest) = pre ++ t' :: rest.
Proof. rewrite insert_app_r_alt, Nat.sub_diag; [done|lia]. Qed.

Lemma lookup_here {A} (pre rest : list A) t : (pre ++ t :: rest) !! length pre = Some t.
Proof. by rewrite lookup_app_r, Nat.sub_diag by lia. Qed.

Lemma lookup_next {A} (pre rest : list A) t : (pre ++ t :: rest) !! S (length pre) = head rest.
Proof. rewrite lookup_app_r, Nat.sub_succ_l, Nat.sub_diag by lia. by destruct rest. Qed.

Lemma consolidate_step pre t rest z (s : machine X W) :
  trip_points z = pre ++ t :: rest ->
  consolidate_trip (length pre + S (length rest)) (length pre) (z, s) =
  (tt, (z <| trip_points := pre ++ consolidated_trip (min_of s) t (head rest) :: rest |>, s)).
Proof.
  intros Hz. unfold consolidate_trip, bind at 1, getz, gets at 1. cbn [fst].
  rewrite Hz, lookup_here, lookup_next. unfold consolidated_trip, asks_max.
  destruct (is_target_valid t) as [r state]. destruct (_ && _); cbn match; cbn beta iota.
  2: { unfold ret. by rewrite zone_same_trips. }
  assert (Hm : forall t', modz (fun z0 => z0 <| trip_points := <[length pre := t']> (trip_points z0) |>) (z, s) =
    (tt, (z <| trip_points := pre ++ t' :: rest |>, s))).
  { intros t'. unfold modz, modify. by rewrite Hz, insert_here. }
  destruct rest as [|n rest]; cbn [length head].
  - replace (_ =? _)%nat with true by (symmetry; apply Nat.eqb_eq; lia). apply Hm.
  - replace (_ =? _)%nat with false by (symmetry; apply Nat.eqb_neq; lia).
    unfold next_target. destruct (get_first_cdev n) as [c|]; [|apply Hm].
    destruct (is_target_valid n) as [rn st]. destruct (_ && bool_decide _); [|apply Hm]. cbn [andb].
    destruct (rn =? THD_SUCCESS); [|apply Hm].
    rewrite (bind_eq _ _ _ _ _ (ask_min c z s)). apply Hm.
Qed.

Lemma consolidate_loop l : forall pre z (s : machine X W) n,
  trip_points z = pre ++ l -> n = (length pre + length l)%nat ->
  mfor (seq (length pre) (length l)) (consolidate_trip n) (z, s) =
  (tt, (z <| trip_points := pre ++ consolidated (min_of s) l |>, s)).
Proof.
  induction l as [|t rest IH]; intros pre z s n Hz ->; cbn [length seq mfor consolidated].
  - unfold ret. by rewrite zone_same_trips.
  - rewrite (bind_eq _ _ _ _ _ (consolidate_step pre t rest z s Hz)).
    specialize (IH (pre ++ [consolidated_trip (min_of s) t (head rest)])
      (z <| trip_points := pre ++ consolidated_trip (min_of s) t (head rest) :: rest |>) s
      (length pre + S (length rest))%nat).
    rewrite length_app, Nat.add_1_r, <- !app_assoc in IH. rewrite IH; [done|done|].
    cbn. lia.
Qed.

(** ** No trip keeps the "MAX" target *)

Lemma half_not_max v : cdiv (i32 v) 2 <> TRIP_PT_INVALID_TARGET_STATE.
Proof.
  pose proof (i32_range v) as Hr. unfold is_i32, INT_MIN, INT_MAX in Hr.
  unfold cdiv, TRIP_PT_INVALID_TARGET_STATE, INT_MAX.
  generalize dependent (i32 v). intros x Hr. Z.to_euclidean_division_equations. lia.
Qed.

Lemma bump_not_max t : (length (cdevs t) <= 1)%nat -> asks_max (raised t) = false.
Proof.
  unfold asks_max, raised, set_first_target_invalid, is_target_valid.
  destruct (cdevs t) as [|c [|c' l]] eqn:E; cbn; try lia; rewrite ?E; reflexivity.
Qed.

Lemma middle_not_max m v t n :
  (length (cdevs t) <= 1)%nat -> asks_max (halfway m v t n) = false.
Proof.
  unfold asks_max, halfway, set_first_target, is_target_valid.
  destruct (cdevs t) as [|c [|c' l]] eqn:E; cbn -[cdiv i32]; try lia; rewrite ?E; [reflexivity|].
  intros _. apply Z.eqb_neq, half_not_max.
Qed.

Lemma consolidated_no_max min l :
  Forall (fun t => length (cdevs t) <= 1)%nat l -> Forall (fun t => asks_max t = false) (consolidated min l).
Proof.
  induction 1 as [|t rest Ht Hrest IH]; cbn [consolidated]; constructor; [|done].
  unfold consolidated_trip. destruct (asks_max t) eqn:E; [|done].
  destruct (head rest) as [n|]; [|by apply bump_not_max].
  destruct (get_first_cdev n); [|by apply bump_not_max].
  destruct (is_target_valid n). destruct (_ && _); [by apply middle_not_max|by apply bump_not_max].
Qed.

End consolidation.

(** * The default policy *)

(** A trip of an installed table, or a polling trip. *)
Definition policy_trip (t : trip_point) : Prop :=
  (t_type t = PASSIVE /\ length (cdevs t) = 1%nat) \/ (t_type t = POLLING /\ cdevs t = []).

(** A zone of the policy: active exactly when it has trips, all of the policy. *)
Definition policy_zone (z : zone) : Prop :=
  (zone_active z = true <-> trip_points z <> []) /\ Forall policy_trip (trip_points z).

(** A zone with the activity [b] that holds a passive trip of the policy. *)
Definition holds_policy (b : bool) (z : zone) : Prop :=
  zone_active z = b /\ Forall policy_trip (trip_points z) /\
  Exists (fun t => t_type t = PASSIVE) (trip_points z).

Section default_policy.
Context {X W : Type} `{Kernel W} `{!CdevMethods X W} `{!AdaptiveCdev X W}.
Context (TDRUNDIR : string) (depth : nat) (created : bool).

(** A triple about the zone alone. *)
Definition on_zones {A} (P : zone -> Prop) (m : State (zone * machine X W) A) (Q : zone -> Prop) : Prop :=
  hoare (fun zs => P (fst zs)) m (fun _ zs => Q (fst zs)).

Lemma oz_bind {A} P (m : State (zone * machine X W) A) R (k : A -> State (zone * machine X W) unit) Q :
  on_zones P m R -> (forall a, on_zones R (k a) Q) ->
  on_zones P (bind m k) Q.
Proof. intros Hm Hk. by eapply hoare_bind. Qed.

Lemma oz_machine {A} P (m : State (machine X W) A) :
  on_zones P (on_machine m) P.
Proof. intros [z s] Hz. unfold on_machine. by destruct (m s). Qed.

Lemma oz_getz (P Q : zone -> Prop) (k : zone -> State (zone * machine X W) unit) :
  (forall z, P z -> on_zones (fun z' => z' = z) (k z) Q) -> on_zones P (bind getz k) Q.
Proof. intros Hk [z s] Hz. exact (Hk z Hz (z, s) eq_refl). Qed.

Lemma oz_modz (P Q : zone -> Prop) f : (forall z, P z -> Q (f z)) -> on_zones P (modz f) Q.
Proof. intros Hf [z s] Hz. by apply Hf. Qed.

Lemma oz_ret (P Q : zone -> Prop) : (forall z, P z -> Q z) -> on_zones P (ret tt) Q.
Proof. intros HQ [z s] Hz. by apply HQ. Qed.

Lemma oz_mfor {A} P (l : list A) body :
  (forall a, on_zones P (body a) P) -> on_zones P (mfor l body) P.
Proof. intros Hb s Hs. apply (mfor_inv (fun zs => P (fst zs))); [|done]. intros a t _ Ht. by apply Hb. Qed.

Lemma oz_weaken {A} (P P' : zone -> Prop) (m : State (zone * machine X W) A) Q :
  on_zones P' m Q -> (forall z, P z -> P' z) -> on_zones P m Q.
Proof. intros Hm HP zs Hz. by apply Hm, HP. Qed.

(** ** Clearing *)

Lemma clear_zone_spec : on_zones (fun _ => True) clear_zone policy_zone.
Proof.
  unfold clear_zone. apply oz_bind with (R := fun _ => True); [by intros ? ?|]. intros _.
  apply oz_bind with (R := fun z => trip_points z = []); [by intros [z s] _|]. intros _.
  apply oz_getz. intros z Hz.
  assert (Hp : forall z', trip_points z' = [] -> zone_active z' = false -> policy_zone z').
  { intros z' E1 E2. unfold policy_zone. rewrite E1, E2. split; [split; done|constructor]. }
  destruct (zone_active z) eqn:Ea; [|apply oz_ret; intros z' ->; by apply Hp].
  unfold set_zone_inactive. apply oz_getz. intros z1 ->.
  apply oz_bind with (R := fun z' => z' = z); [apply oz_machine|]. intros v.
  apply oz_bind with (R := fun z' => z' = z).
  { destruct v; [apply oz_machine|]. by intros [z' s]. }
  intros _. apply oz_modz. intros z' ->. by apply Hp.
Qed.

(** ** Installing *)

Lemma erase_first_sub p t l : In t (erase_first p l) -> In t l.
Proof. induction l as [|a l IH]; cbn; [done|]. destruct (p a); cbn; tauto. Qed.

Lemma erase_first_keeps p t l : p t = false -> In t l -> In t (erase_first p l).
Proof.
  intros Ht. induction l as [|a l IH]; cbn; [done|]. intros [->|Hin].
  - rewrite Ht. by left.
  - destruct (p a); cbn; tauto.
Qed.

Lemma holds_policy_iff b z l :
  zone_active z = b -> (forall t, In t (trip_points z) -> In t l) ->
  (forall t, In t l -> In t (trip_points z) \/ policy_trip t) ->
  Forall policy_trip (trip_points z) -> Exists (fun t => t_type t = PASSIVE) (trip_points z) ->
  holds_policy b (z <| trip_points := l |>).
Proof.
  intros Hb Hin Hout Hall Hex. split_and!; [done| |].
  - apply Forall_forall. intros t Ht. cbn in Ht. apply list_elem_of_In in Ht.
    destruct (Hout t Ht) as [Hz|]; [|done]. rewrite Forall_forall in Hall. by apply Hall, list_elem_of_In.
  - apply Exists_exists in Hex as (t & Ht & Hp). apply Exists_exists. exists t. split; [|done].
    cbn. by apply list_elem_of_In, Hin, list_elem_of_In.
Qed.

Lemma sort_update_policy b : on_zones (holds_policy b) sort_and_update_poll_trip (holds_policy b).
Proof.
  unfold sort_and_update_poll_trip. apply oz_bind with (R := holds_policy b).
  { apply oz_modz. intros z (Hb & Hall & Hex). split_and!; [done| |].
    - apply Forall_forall. intros t Ht. cbn in Ht. apply list_elem_of_In, erase_first_sub in Ht.
      rewrite Forall_forall in Hall. by apply Hall, list_elem_of_In.
    - apply Exists_exists in Hex as (t & Ht & Hp). apply Exists_exists. exists t. split; [|done].
      apply list_elem_of_In, erase_first_keeps; [|by apply list_elem_of_In].
      unfold is_polling. by rewrite Hp. }
  intros _. apply oz_getz. intros z Hz. destruct (trip_points z) eqn:E.
  { apply oz_ret. by intros z' ->. }
  apply oz_bind with (R := holds_policy b).
  { apply oz_modz. intros z' ->. destruct Hz as (Hb & Hall & Hex). apply holds_policy_iff; try done.
    - intros x Hx. by apply (Permutation_in _ (std_sort_perm trip_sort _)).
    - intros x Hx. left. apply (Permutation_in _ (Permutation_sym (std_sort_perm trip_sort _)) Hx). }
  intros _. apply oz_getz. intros z1 Hz1.
  apply (oz_weaken _ (holds_policy b)); [|by intros zs ->].
  apply oz_mfor. intros sn. apply oz_bind with (R := holds_policy b); [apply oz_machine|]. intros _.
  apply oz_bind with (R := holds_policy b); [apply oz_machine|]. intros id.
  apply oz_modz. intros z2 (Hb & Hall & Hex). apply holds_policy_iff; try done.
  - intros x Hx. apply in_app_iff. by left.
  - intros x [Hx|[<-|[]]]%in_app_iff; [by left|]. right. by right.
Qed.

Lemma add_trip_policy b t :
  t_type t = PASSIVE -> policy_trip t ->
  on_zones (fun z => zone_active z = b /\ Forall policy_trip (trip_points z)) (add_trip t 1) (holds_policy b).
Proof.
  intros Ht Hp. unfold add_trip. apply oz_bind with (R := holds_policy b); [|intros _; apply sort_update_policy].
  apply oz_modz. intros z [Hb Hall]. cbn. split_and!; [done| |].
  - by apply Forall_app_2; [|constructor].
  - apply Exists_app. right. by constructor.
Qed.

Lemma add_cdev_policy t c i p v st pid mv mn mx (s : machine X W) :
  t_type t = PASSIVE -> cdevs t = [] ->
  let t' := fst (snd (thd_trip_point_add_cdev c i p v st pid mv mn mx (t, s))) in
  t_type t' = PASSIVE /\ policy_trip t'.
Proof.
  intros Ht Hc. unfold thd_trip_point_add_cdev, trip_cdev_add, check_duplicate. cbn zeta.
  rewrite Hc. cbn. split; [done|]. by left.
Qed.

Lemma install_trip_policy temp hyst id c i p v st pid mv mn mx :
  on_zones policy_zone (install_trip created temp hyst id (thd_trip_point_add_cdev c i p v st pid mv mn mx))
    policy_zone.
Proof.
  unfold install_trip. apply oz_getz. intros z [Ha Hall].
  eapply hoare_bind with (R := fun t zs => (t_type t = PASSIVE /\ policy_trip t) /\ fst zs = z).
  - intros [z' s] Hz. cbn in Hz. subst z'. unfold on_machine.
    pose proof (add_cdev_policy (new_trip (Z.of_nat (length (trip_points z))) PASSIVE temp hyst (z_index z) id
      SEQUENTIAL) c i p v st pid mv mn mx s eq_refl eq_refl) as [H1 H2].
    destruct (thd_trip_point_add_cdev _ _ _ _ _ _ _ _ _ _) as [u [t s']]. by split_and!.
  - intros t. apply hoare_pure. intros [Ht Hp].
    apply (oz_weaken (fun z' => z' = z)
      (fun z' => zone_active z' = zone_active z /\ Forall policy_trip (trip_points z'))); [|by intros zs ->].
    apply oz_bind with (R := holds_policy (zone_active z)); [by apply add_trip_policy|]. intros _.
    apply oz_bind with (R := holds_policy (zone_active z)); [by apply oz_modz|]. intros _.
    unfold set_zone_active. apply oz_getz. intros z1 Hz1.
    apply oz_bind with (R := fun z' => z' = z1); [apply oz_machine|]. intros w.
    apply oz_bind with (R := fun z' => z' = z1). { destruct w; [apply oz_machine|]. by intros [z' s']. }
    intros _. apply oz_modz. intros z' ->. destruct Hz1 as (_ & Hall1 & Hex1). split; [|done]. cbn.
    split; [|done]. intros _ E. rewrite E in Hex1. by inversion Hex1.
Qed.

(** ** Consolidating *)

Lemma consolidated_trip_policy min t n : policy_trip t -> policy_trip (consolidated_trip min t n).
Proof.
  intros Ht. unfold consolidated_trip, asks_max, is_target_valid.
  destruct Ht as [[Ht Hc]|[Ht Hc]]; [|rewrite Hc; by right].
  destruct (cdevs t) as [|c [|]] eqn:E; try done. left.
  repeat case_match; unfold raised, halfway, set_first_target_invalid, set_first_target;
    rewrite ?E; done.
Qed.

Lemma consolidated_policy min l : Forall policy_trip l -> Forall policy_trip (consolidated min l).
Proof. induction 1; cbn; constructor; auto using consolidated_trip_policy. Qed.

Lemma consolidated_nil min l : consolidated min l <> [] <-> l <> [].
Proof. by destruct l. Qed.

(** Consolidation of a zone without the special case of a single trip. *)
Lemma consolidate_all_policy z (s : machine X W) :
  policy_zone z ->
  policy_zone (fst (snd (mfor (seq 0 (length (trip_points z))) (consolidate_trip (length (trip_points z))) (z, s)))).
Proof.
  intros [Ha Hall].
  pose proof (consolidate_loop (trip_points z) [] z s _ eq_refl eq_refl) as Hl. cbn [length app] in Hl.
  rewrite Nat.add_0_l in Hl. rewrite Hl. cbn.
  split; cbn; [by rewrite consolidated_nil|by apply consolidated_policy].
Qed.

Lemma consolidate_zone_policy : on_zones policy_zone consolidate_zone policy_zone.
Proof.
  unfold consolidate_zone. apply oz_getz. intros z Hz [z' s] Hz'. cbn in Hz'. subst z'.
  pose proof (consolidate_all_policy z s Hz) as Hc. destruct (trip_points z) as [|t l] eqn:E; [exact Hc|].
  destruct ((_ =? _)%nat && _); [|exact Hc]. clear Hc.
  destruct (get_first_cdev t) as [c|]; [|exact Hz]. unfold bind, on_machine, add_default_cdev.
  pose proof (add_cdev_policy (new_trip 1 PASSIVE (u32 (TripPoint.temp t + 1000)) 0 (z_index z) (sensor_id t)
    SEQUENTIAL) c default_influence 0 0 TRIP_PT_INVALID_TARGET_STATE None 0 0 0 s eq_refl eq_refl) as [H1 H2].
  destruct (thd_trip_point_add_cdev _ _ _ _ _ _ _ _ _ _) as [u [t' s']]. cbn in H1, H2.
  destruct Hz as [Ha Hall]. rewrite E in Ha, Hall.
  pose proof (add_trip_policy (zone_active z) t' H1 H2 (z, s')) as Hadd. cbn [fst] in Hadd.
  rewrite E in Hadd. specialize (Hadd (conj eq_refl Hall)) as (Hb & Hall' & Hex').
  split; [|done]. rewrite Hb. split; [|by intros _; apply Ha].
  intros _ E'. rewrite E' in Hex'. by inversion Hex'.
Qed.

(** ** The engine *)

Definition all_zones (P : zone -> Prop) (e : engine X W) : Prop := Forall P (zones e).

Lemma on_zone_forall (P : zone -> Prop) m i e :
  on_zones P m P -> all_zones P e -> all_zones P (snd (on_zone i tt m e)).
Proof.
  intros Hm He. unfold on_zone. destruct (zones e !! i) as [z|] eqn:E; [|done].
  specialize (Hm (z, mach e) (Forall_lookup_1 _ _ _ _ He E)).
  destruct (m (z, mach e)) as [a [z' s']]. cbn. by apply Forall_insert.
Qed.

Lemma for_zones_forall (P : zone -> Prop) m e :
  on_zones P m P -> all_zones P e -> all_zones P (snd (for_zones m e)).
Proof.
  intros Hm He. unfold for_zones, bind, get. apply mfor_inv; [|done]. intros i e' _ He'.
  by apply on_zone_forall.
Qed.

(** A body that establishes the property at every zone. *)
Lemma for_zones_establish (P : zone -> Prop) m (e : engine X W) :
  on_zones (fun _ => True) m P -> all_zones P (snd (for_zones m e)).
Proof.
  intros Hm. unfold for_zones, bind, get.
  assert (Hloop : forall n k e, (k + n)%nat = length (zones e) ->
    (forall i z, (i < k)%nat -> zones e !! i = Some z -> P z) ->
    all_zones P (snd (mfor (seq k n) (fun i => on_zone i tt m) e))); [|apply Hloop; [done|lia]].
  clear e. induction n as [|n IH]; intros k e Hk Hi; cbn [seq mfor].
  - apply Forall_lookup_2. intros i z Hz. apply (Hi i z); [|exact Hz].
    apply lookup_lt_Some in Hz. cbn in Hz. lia.
  - unfold bind, on_zone at 1. destruct (zones e !! k) as [z|] eqn:E;
      [|apply lookup_ge_None in E; lia].
    specialize (Hm (z, mach e) I). destruct (m (z, mach e)) as [[] [z' s']]. cbn in Hm. apply IH.
    + change (S k + n = length (<[k := z']> (zones e)))%nat. rewrite length_insert. lia.
    + cbn. intros i y Hik Hy. apply list_lookup_insert_Some in Hy as [(-> & -> & _)|(Hne & Hy)]; [done|].
      apply (Hi i y); [lia|done].
Qed.

Lemma install_passive_forall p e :
  all_zones policy_zone e -> all_zones policy_zone (snd (install_passive created p e)).
Proof.
  intros He. unfold install_passive, bind at 1, get.
  destruct (find_zone _ _) as [[i|] n]; [|done]. destruct (find_cdev _ _); [|done].
  destruct (search_sensor _ _); [|done]. cbn zeta. unfold bind.
  destruct (on_zone _ _ _ _) as [u e'] eqn:E. change e' with (snd (u, e')). rewrite <- E.
  by apply on_zone_forall; [apply install_trip_policy|].
Qed.

(** C28: installing the default policy leaves nothing of an earlier one:
    whatever the zones held, afterwards every zone is active exactly when it has
    trips, and each trip is a polling trip without devices or a passive trip with
    one device. *)
Theorem default_policy_replaces a (e : engine X W) :
  all_zones policy_zone (snd (snd (install_passive_default created (a, e)))).
Proof.
  unfold install_passive_default, bind at 1, on_engine at 1, clear_zones.
  pose proof (for_zones_establish policy_zone
    (z <- getz ;; if (fun _ : zone => false) z then ret tt else clear_zone) e) as Hc.
  destruct (for_zones _ e) as [[] e1]. cbn in Hc.
  assert (He1 : all_zones policy_zone e1).
  { apply Hc. apply oz_getz. intros z _ zs _. by apply clear_zone_spec. }
  clear Hc. unfold bind at 1, geta, gets at 1. cbn [fst].
  destruct (find_def_psvt (the_gddv a)) as [t|]; [|done].
  unfold bind, on_engine at 1.
  destruct (mfor (psvs t) _ e1) as [[] e2] eqn:E2.
  assert (He2 : all_zones policy_zone e2).
  { change e2 with (snd (tt, e2)). rewrite <- E2. apply mfor_inv; [|done]. intros p e' _ He'.
    unfold bind. pose proof (install_passive_forall p e' He') as Hi.
    destruct (install_passive created p e'). exact Hi. }
  unfold on_engine, psvt_consolidate.
  pose proof (for_zones_forall policy_zone consolidate_zone e2 consolidate_zone_policy He2) as Hf.
  by destruct (for_zones consolidate_zone e2).
Qed.
End default_policy.

(** * The fallback target *)

Section fallback.
Context {X W : Type} `{Kernel W} `{!CdevMethods X W} `{!AdaptiveCdev X W}.
Context (TDRUNDIR : string) (depth : nat) (created : bool) (engine_start : State (engine X W) Z).

(** The members the start leaves alone. *)
Definition matched (ae : adaptive * engine X W) : Z := current_matched_target (fst ae).

Lemma keep_geta : preserves matched geta.
Proof. by intros [a e]. Qed.
Lemma keep_moda f : (forall a, current_matched_target (f a) = current_matched_target a) -> preserves matched (moda f).
Proof. intros Hf [a e]. apply Hf. Qed.
Lemma keep_on_engine {A} (m : State (engine X W) A) : preserves matched (on_engine m).
Proof. intros [a e]. unfold on_engine. by destruct (m e). Qed.
Lemma keep_evaluate p : preserves matched (evaluate depth p).
Proof. intros [a e]. unfold evaluate. by destruct (evaluate_conditions _ _ _ _ _) as [[t g] s]. Qed.
Hint Resolve keep_geta keep_on_engine keep_evaluate : thd.

Lemma keep_default : preserves matched (install_passive_default created).
Proof.
  unfold install_passive_default. apply preserves_bind; auto with thd. intros _.
  apply preserves_bind; auto with thd. intros a. destruct (find_def_psvt _); auto with thd.
  apply preserves_bind; auto with thd.
Qed.
Hint Resolve keep_default : thd.

Lemma keep_choose p : preserves matched (choose_fallback depth created p).
Proof.
  unfold choose_fallback. apply preserves_bind; auto with thd. intros a.
  apply preserves_if; auto with thd. apply preserves_bind; auto with thd. intros [t|]; auto with thd.
  apply preserves_if; auto with thd. apply preserves_bind; auto with thd. intros a'. cbn zeta.
  apply preserves_if; [apply preserves_bind; [by apply keep_moda|auto with thd]|].
  destruct (find_def_psvt _); auto with thd. apply preserves_bind; auto with thd.
Qed.
Hint Resolve keep_choose : thd.

Lemma keep_prepare p : preserves matched (prepare_start depth created p).
Proof.
  unfold prepare_start. apply preserves_bind; auto with thd. intros a.
  apply preserves_if; [apply preserves_bind; auto with thd|].
  apply preserves_bind; auto with thd. intros [[|]|]; auto with thd.
  apply preserves_bind; auto with thd. intros _. apply preserves_bind; auto with thd. intros [t|]; auto with thd.
  apply preserves_bind; [apply preserves_if; auto with thd|auto with thd].
Qed.
Hint Resolve keep_prepare : thd.

Lemma keep_start p : preserves matched (thd_adaptive_start depth created engine_start p).
Proof.
  unfold thd_adaptive_start. apply preserves_bind; auto with thd. intros [[|]|]; auto with thd.
  apply preserves_bind; auto with thd.
Qed.

(** The updates of several polling intervals. *)
Fixpoint updates (ps : list platform) : State (adaptive * engine X W) (option stop) :=
  match ps with
  | [] => ret None
  | p :: rest => unless_stopped (update_adaptive_state TDRUNDIR depth created p) (updates rest)
  end.

Lemma update_stuck p (s : adaptive * engine X W) :
  matched s = -1 -> 0 <= fallback_id (fst s) ->
  update_adaptive_state TDRUNDIR depth created p s = (None, s).
Proof.
  destruct s as [a e]. unfold matched. cbn [fst]. intros Hm Hf.
  unfold update_adaptive_state, bind, geta, gets, ret. cbn [fst].
  destruct (truthy (passive_def_only a)); [done|].
  replace (fallback_id a <? 0) with false by (symmetry; by apply Z.ltb_ge). cbn [fst].
  by rewrite Hm.
Qed.

(** The fallback target the start chooses for a platform that cannot
    evaluate its conditions is never executed: no number of updates after such
    a start changes anything. *)
Theorem fallback_is_never_used p ps (s : adaptive * engine X W) :
  current_matched_target (fst s) = -1 ->
  let s' := snd (thd_adaptive_start depth created engine_start p s) in
  0 <= fallback_id (fst s') -> updates ps s' = (None, s').
Proof.
  intros Hm s' Hf. assert (Hm' : matched s' = -1) by (unfold s'; by rewrite keep_start).
  clearbody s'. induction ps as [|q ps IH]; [done|]. cbn [updates].
  unfold unless_stopped. by rewrite (bind_eq _ _ _ _ _ (update_stuck q s' Hm' Hf)).
Qed.
End fallback.

(** * Concrete runs *)

#[export] Instance fan_adaptive : AdaptiveCdev gen_ext sim := {| m_set_adaptive_target := base_set_adaptive_target |}.

(** Three passive trips on one fan: two ask for its maximum, the first of them
    before a trip with a target. *)
Definition table_trip (i temp target : Z) : trip_point :=
  (new_trip i PASSIVE temp 0 1 0 SEQUENTIAL)
    <| cdevs := [(new_trip_cdev 0) <| tc_target_state_valid := 1 |> <| target_state := target |>] |>.
Definition table_zone : zone :=
  (new_zone 1 "/sys/zone" SENSOR_INDEPENDENT) <| trip_points :=
    [table_trip 0 60000 TRIP_PT_INVALID_TARGET_STATE; table_trip 1 70000 8;
     table_trip 2 80000 TRIP_PT_INVALID_TARGET_STATE] |>.


(** A platform without a lid switch, whose only condition asks for one. *)
Definition lid_only : adaptive :=
  new_adaptive <| the_gddv := new_gddv
    <| conditions := [[mk_condition Lid_state "" ADAPTIVE_EQUAL 1 0 0 0 1 0 0 0]] |>
    <| targets := [mk_adaptive_target 1 "Quiet" "TCPU.D0" 0 "PL1MAX" "15000";
                   mk_adaptive_target 2 "Loud" "TCPU.D0" 0 "PL1MAX" "28000"] |> |>.
Definition no_switches : platform := mk_platform None None false false.

Lemma fallback_witness :
  let s' := snd (thd_adaptive_start 4 true (ret THD_SUCCESS) no_switches (lid_only, fan_engine)) in
  fallback_id (fst s') = 1 /\
  updates "/run" 4 true [no_switches; no_switches; no_switches] s' = (None, s').
Proof.
  cbv zeta. split; [vm_compute; reflexivity|].
  apply (fallback_is_never_used "/run" 4 true (ret THD_SUCCESS) no_switches
    [no_switches; no_switches; no_switches] (lid_only, fan_engine)); [reflexivity|].
  vm_compute. discriminate.
Defined.
