(* ===== verification/KobjUevent.v ===== *)
(** Kernel events, [cthd_kobj_uevent] (src/thd_kobj_uevent.cpp): the message of
    a netlink socket is a sequence of zero-terminated fields, and the engine
    reacts when one of them names a registered device path.  The netlink socket is
    the class [Netlink]. *)
From stdpp Require Import base gmap strings list.
From Stdlib Require Import ZArith Lia Ascii.
From Stdlib Require String.
From S2P Require Import Prelude CString.

#[local] Set Warnings "-clear-no-such-hyp".

Open Scope string_scope.
Open Scope list_scope.
Open Scope Z_scope.

Definition max_buffer_size : nat := 512.

(** A zero byte ends a C string. *)
Definition is_nul (c : ascii) : bool := char_code c =? 0.
Fixpoint c_str (s : string) : string :=
  match s with
  | EmptyString => EmptyString
  | String c s' => if is_nul c then EmptyString else String c (c_str s')
  end.
Fixpoint string_drop (n : nat) (s : string) : string :=
  match n, s with
  | S n', String _ s' => string_drop n' s'
  | _, _ => s
  end.

(** [register_dev_path]: at most 511 characters are kept. *)
Definition register_dev_path (path : string) : string := String.substring 0 (max_buffer_size - 1) path.

Definition dev_path : string := "DEVPATH=".

(** Lines 65-71, at one field. *)
Definition field_matches (device_path field : string) : bool :=
  (8 <? String.length field)%nat && (strncmp field dev_path 8 =? 0)
  && (strncmp (string_drop 8 field) device_path (String.length device_path) =? 0).

(** The loop; [rest] is the message from position [i] on, which is empty once
    [i] has reached [len].  [None]: the fuel was not enough. *)
Fixpoint scan_fields (fuel : nat) (device_path rest : string) : option bool :=
  match fuel with
  | O => None
  | S fuel' =>
      if String.eqb rest "" then Some false
      else if field_matches device_path (c_str rest) then Some true
      else scan_fields fuel' device_path (string_drop (String.length (c_str rest) + 1) rest)
  end.

(** [None] and the empty message are the failures of [recv]; a message longer
    than the buffer is cut. *)
Definition check_for_event (device_path : string) (message : option string) : option bool :=
  match message with
  | None => Some false
  | Some m =>
      let buffer := String.substring 0 (max_buffer_size - 1) m in
      scan_fields (S (String.length buffer)) device_path buffer
  end.

(** * What an event is *)

(** The fields of a message. *)
Fixpoint fields (s : string) : list string :=
  match s with
  | EmptyString => [EmptyString]
  | String c s' =>
      if is_nul c then EmptyString :: fields s'
      else match fields s' with
           | f :: r => String c f :: r
           | [] => [String c EmptyString]
           end
  end.

Lemma fields_unfold s :
  fields s = c_str s :: match string_drop (String.length (c_str s)) s with
                        | EmptyString => []
                        | String _ s' => fields s'
                        end.
Proof.
  induction s as [|c s IH]; [done|]. cbn. destruct (is_nul c); [done|]. rewrite IH. done.
Qed.

Lemma string_drop_succ n s :
  string_drop (n + 1) s = match string_drop n s with EmptyString => EmptyString | String _ s' => s' end.
Proof. revert s. induction n as [|n IH]; intros [|c s]; cbn; auto. Qed.

Lemma string_drop_length n s : (String.length (string_drop (n + 1) s) < String.length s \/ s = "")%nat.
Proof.
  assert (Hle : forall m t, (String.length (string_drop m t) <= String.length t)%nat).
  { induction m as [|m IH]; intros [|c t]; cbn; try lia. specialize (IH t). lia. }
  destruct s as [|c s]; [by right|]. left. rewrite Nat.add_1_r. cbn. specialize (Hle n s). lia.
Qed.

Lemma field_matches_empty p : field_matches p "" = false.
Proof. done. Qed.

(** The loop looks at every field. *)
Lemma scan_fields_spec p : forall n s, (String.length s < n)%nat ->
  scan_fields n p s = Some (existsb (field_matches p) (fields s)).
Proof.
  induction n as [|n IH]; intros s Hn; [lia|]. cbn [scan_fields].
  destruct (String.eqb_spec s "") as [->|Hs]; [done|].
  rewrite fields_unfold. cbn [existsb]. destruct (field_matches p (c_str s)); [done|].
  destruct (string_drop_length (String.length (c_str s)) s) as [Hl|]; [|done].
  rewrite IH by lia. rewrite string_drop_succ.
  destruct (string_drop (String.length (c_str s)) s); done.
Qed.

(** [strncmp] with the length of a pattern tests for a prefix. *)
Lemma strncmp_prefix p : no_nul p = true -> forall s,
  strncmp s p (String.length p) = 0 <-> exists r, s = p +:+ r.
Proof.
  induction p as [|d p IH]; intros Hp s.
  { split; [intros _; by exists s|intros _; by destruct s]. }
  cbn in Hp. apply andb_true_iff in Hp as [Hd Hp]. specialize (IH Hp). b2p.
  destruct s as [|c s]; cbn [String.length strncmp].
  - split; [lia|]. intros [r Hr]. discriminate.
  - destruct (Ascii.eqb_spec c d) as [->|Hne].
    + rewrite IH. split; intros [r Hr]; exists r; [by rewrite Hr|by injection Hr].
    + split; [intros Hz; destruct Hne; apply char_code_inj; lia|].
      intros [r Hr]. injection Hr. congruence.
Qed.

Lemma string_drop_app p s : string_drop (String.length p) (p +:+ s) = s.
Proof. induction p as [|c p IH]; [done|]. exact IH. Qed.

Lemma field_matches_iff p f : no_nul p = true ->
  field_matches p f = true <-> exists r, f = dev_path +:+ p +:+ r /\ p +:+ r <> "".
Proof.
  intros Hp. unfold field_matches. rewrite !andb_true_iff, !Z.eqb_eq, Nat.ltb_lt.
  pose proof (strncmp_prefix dev_path eq_refl f) as Hd. change (String.length dev_path) with 8%nat in Hd.
  rewrite Hd. split.
  - intros [[Hl [r ->]] Hs]. change 8%nat with (String.length dev_path) in Hs.
    rewrite string_drop_app in Hs. apply (strncmp_prefix p Hp) in Hs as [r' ->]. exists r'. split; [done|].
    intros E. rewrite E in Hl. vm_compute in Hl. lia.
  - intros (r & -> & Hr). split_and!.
    + destruct (p +:+ r) as [|c q]; [done|]. change (8 < 9 + String.length q)%nat. lia.
    + by exists (p +:+ r).
    + change 8%nat with (String.length dev_path). rewrite string_drop_app.
      apply (strncmp_prefix p Hp). by exists r.
Qed.

(** C36: the decoder of kernel events always ends, and reports an event exactly
    when a field of what was received is [DEVPATH=] followed by a path that
    starts with the registered one. *)
Theorem check_for_event_exact path m :
  no_nul path = true ->
  let received := String.substring 0 511 m in
  exists b, check_for_event path (Some m) = Some b /\
    (b = true <-> exists r, In (dev_path +:+ path +:+ r) (fields received) /\ path +:+ r <> "").
Proof.
  intros Hp received. eexists. split; [apply scan_fields_spec; lia|].
  rewrite existsb_exists. split.
  - intros (f & Hin & Hf). apply field_matches_iff in Hf as (r & -> & Hr); [|done]. eauto.
  - intros (r & Hin & Hr). exists (dev_path +:+ path +:+ r). split; [done|].
    apply field_matches_iff; [done|]. eauto.
Qed.

Definition thermal_event : string :=
  "change@/devices/virtual/thermal/thermal_zone2" +:+ String (char_of 0) "ACTION=change" +:+
  String (char_of 0) "DEVPATH=/devices/virtual/thermal/thermal_zone2" +:+ String (char_of 0) "SEQNUM=7".

Lemma check_for_event_witness :
  exists b, check_for_event "/devices/virtual/thermal/thermal_zone" (Some thermal_event) = Some b /\ b = true.
Proof.
  destruct (check_for_event_exact "/devices/virtual/thermal/thermal_zone" thermal_event eq_refl) as (b & E & Hb).
  exists b. split; [exact E|]. apply Hb. exists "2". split; [vm_compute; tauto|discriminate].
Defined.

(** * The socket *)

(** A negative result of [socket] is an error; [bind] gives 0 or not; [recv]
    without waiting gives a message or nothing. *)
Class Netlink (W : Type) := {
  nl_getpid : W -> Z;
  nl_socket : W -> Z * W;
  nl_bind : Z -> Z -> Z -> W -> Z * W;        (* descriptor, nl_pid, nl_groups *)
  nl_recv : Z -> W -> option string * W;
  nl_close : Z -> W -> W;
}.

Record kobj_uevent := mk_kobj_uevent { kobj_fd : Z; device_path : string }.
#[export] Instance eta_kobj_uevent : Eta kobj_uevent := {| eta_of := fun x =>
  mk_kobj_uevent (kobj_fd x) (device_path x) |}.
Definition new_kobj_uevent : kobj_uevent := mk_kobj_uevent 0 "".

Section socket.
Context {W : Type} `{Netlink W}.
Abbreviation KM := (State (kobj_uevent * W)).

(** All groups of the family. *)
Definition kobj_uevent_open : KM Z := fun '(k, w) =>
  let '(fd, w1) := nl_socket w in
  let k := k <| kobj_fd := fd |> in
  if fd <? 0 then (fd, (k, w1)) else
  let '(r, w2) := nl_bind fd (nl_getpid w) (u32 (-1)) w1 in
  if truthy r then (-1, (k, nl_close fd w2)) else (fd, (k, w2)).

Definition kobj_uevent_close : KM unit := modify (fun '(k, w) => (k, nl_close (kobj_fd k) w)).

Definition register_path (path : string) : KM unit :=
  modify (fun '(k, w) => (k <| device_path := register_dev_path path |>, w)).

(** [check_for_event] on what arrived. *)
Definition receive_event : KM (option bool) := fun '(k, w) =>
  let '(message, w') := nl_recv (kobj_fd k) w in (check_for_event (device_path k) message, (k, w')).

(** What the calls do to the open descriptors. *)
Class NetlinkLaws := {
  nl_fds : W -> gset Z;
  law_socket w fd w' : nl_socket w = (fd, w') ->
    if fd <? 0 then nl_fds w' = nl_fds w else (fd ∉ nl_fds w) /\ nl_fds w' = {[fd]} ∪ nl_fds w;
  law_bind fd pid groups w r w' : nl_bind fd pid groups w = (r, w') -> nl_fds w' = nl_fds w;
  law_nl_close fd w : fd ∈ nl_fds w -> nl_fds (nl_close fd w) = nl_fds w ∖ {[fd]};
}.

(** An event socket that could not be opened, or not be bound, leaves no
    descriptor behind and is reported as negative; one that was leaves its own. *)
Theorem uevent_open_balanced `{!NetlinkLaws} k w :
  let '(r, (k', w')) := kobj_uevent_open (k, w) in
  if r <? 0 then nl_fds w' = nl_fds w
  else kobj_fd k' = r /\ nl_fds w' = {[r]} ∪ nl_fds w /\ nl_fds (snd (snd (kobj_uevent_close (k', w')))) = nl_fds w.
Proof.
  unfold kobj_uevent_open. destruct (nl_socket w) as [fd w1] eqn:Es. pose proof (law_socket _ _ _ Es) as Hs.
  destruct (fd <? 0) eqn:Ef; [by rewrite Ef|]. destruct Hs as [Hf Hs].
  destruct (nl_bind fd (nl_getpid w) (u32 (-1)) w1) as [r w2] eqn:Eb. pose proof (law_bind _ _ _ _ _ _ Eb) as Hb.
  destruct (truthy r); cbn -[union difference].
  - rewrite law_nl_close; rewrite Hb, Hs; set_solver.
  - rewrite Ef. cbn -[union difference]. split; [done|]. rewrite law_nl_close; rewrite Hb, Hs; set_solver.
Qed.
End socket.
