(* ===== verification/EngineStart.v ===== *)
(** The start of an engine, [cthd_engine] (src/thd_engine.cpp): the check of the
    platform profile, the configuration parser behind its feature switch, the
    power floor event, [thd_engine_init] and [thd_engine_start].

    What the operating system answers (the pipe, the event socket, the thread,
    the kernel's version) is a record of the caller; the thread itself is
    [thd_engine_thread] of Engine.v.  [None] is a run without defined behaviour:
    a feature read from an empty vector, or one of Parse.v. *)
From stdpp Require Import base gmap strings list.
From Stdlib Require Import ZArith Lia.
From Stdlib Require String.
From S2P Require Import Prelude CString SysFs CFloat Pid Cdev PowerMeter CdevRapl Machine Preference TripPoint Xml Parse Zone ZoneKinds Engine EngineUser.

Open Scope string_scope.
Open Scope list_scope.
Open Scope Z_scope.

(** The members of the engine the start uses and nothing else does. *)
Record setup (D : Type) := mk_setup {
  parser : cthd_parse (D := D);
  features_parser : features_parse (D := D);
  config_file : string;
  parser_disabled : bool;
  parser_init_done : bool;
  adaptive_mode : bool;
  rt_kernel : bool;
  proc_list_matched : bool;
  poll_fd_cnt : Z;
}.
Arguments mk_setup {D}. Arguments parser {D}. Arguments features_parser {D}. Arguments config_file {D}.
Arguments parser_disabled {D}. Arguments parser_init_done {D}. Arguments adaptive_mode {D}.
Arguments rt_kernel {D}. Arguments proc_list_matched {D}. Arguments poll_fd_cnt {D}.
#[export] Instance eta_setup {D} : Eta (setup D) := {| eta_of := fun x =>
  mk_setup (parser x) (features_parser x) (config_file x) (parser_disabled x) (parser_init_done x)
    (adaptive_mode x) (rt_kernel x) (proc_list_matched x) (poll_fd_cnt x) |}.

Definition new_setup {D} (conf : string) : setup D :=
  mk_setup new_parse new_features_parse conf false false false false false 0.

(** The answers of the operating system. *)
Record os_answers := mk_os {
  os_pipe : Z;            (* pipe() *)
  os_fcntl_read : Z;      (* fcntl() on the read end *)
  os_fcntl_write : Z;
  os_uevent_open : Z;     (* kobj_uevent_open() *)
  os_pthread_create : Z;
  os_version : string;    (* uname() *)
}.

Section start.
Context {X W D : Type} `{Kernel W} `{!CdevMethods X W} `{!LibXml W D}.
Context (TDCONFDIR TDRUNDIR : string) (generate_conf : string -> State W Z) (uninit_pid : pid_control_t).
Context (created : bool).

Abbreviation EM := (State (engine X W)).
Abbreviation SM := (State (setup D * engine X W)).

Definition get_setup : SM (setup D) := gets fst.
Definition set_setup (f : setup D -> setup D) : SM unit := modify (fun '(u, e) => (f u, e)).
Definition start_engine {A} (m : EM A) : SM A := fun '(u, e) => let '(r, e') := m e in (r, (u, e')).

(** The rest runs when the result is defined. *)
Definition defined {A B} (m : SM (option A)) (k : A -> SM (option B)) : SM (option B) :=
  r <- m ;; match r with Some a => k a | None => ret None end.

(** * The platform *)

Definition pm_profile : string := "/sys/firmware/acpi/pm_profile".

Definition check_acpi_platform_profile : EM Z :=
  on_w (with_fs pm_profile (
    ex <- exists_path "" ;;
    if ex : bool then
      let* (_, profile) := read_string "" "" in
      ret (if String.eqb profile "2" || String.eqb profile "8" then THD_SUCCESS else THD_FATAL_ERROR)
    else ret THD_SUCCESS)).

(** [fscanf("%d")] read a number and it is 1. *)
Definition reads_one (content : string) : bool :=
  starts_number (skip_space content) && (atoi content =? 1).

Definition check_for_rt_kernel (os : os_answers) : SM unit :=
  crit2 <- start_engine (on_w (gets (fun w =>
    match k_ifstream "/sys/kernel/realtime" w with Some c => reads_one c | None => false end))) ;;
  let crit1 := contains (smap tolower "PREEMPT RT") (smap tolower (os_version os)) in
  set_setup (fun u => u <| rt_kernel := crit1 && crit2 |>).

(** * The configuration parser *)

Definition feature (f : nat) : SM (option Z) :=
  u <- get_setup ;; ret (check_feature f (features_parser u)).

Definition engine_parser_init : SM (option Z) :=
  defined (feature XML_THERMAL_CONFIG) (fun v =>
  (if v =? 0 then set_setup (fun u => u <| parser_disabled := true |>) else ret tt) ;;
  u <- get_setup ;;
  if parser_disabled u then ret (Some THD_ERROR)
  else if parser_init_done u then ret (Some THD_SUCCESS)
  else
    let* (r, p) := start_engine (on_w (parser_init TDCONFDIR TDRUNDIR generate_conf (config_file u) (parser u))) in
    set_setup (fun u => u <| parser := p |>) ;;
    if r =? THD_SUCCESS then
      match start_parse uninit_pid p with
      | None => ret None
      | Some (r, p) =>
          set_setup (fun u => u <| parser := p |>) ;;
          if r =? THD_SUCCESS then set_setup (fun u => u <| parser_init_done := true |>) ;; ret (Some THD_SUCCESS)
          else ret (Some THD_ERROR)
      end
    else ret (Some THD_ERROR)).

Definition engine_parser_deinit : SM unit :=
  u <- get_setup ;;
  if parser_init_done u
  then set_setup (fun u => u <| parser := parser_deinit (parser u) |> <| parser_init_done := false |>)
  else ret tt.

Definition engine_platform_matched : SM bool :=
  u <- get_setup ;;
  let* (b, p) := start_engine (on_w (gets (fun w => platform_matched w (parser u)))) in
  set_setup (fun u => u <| parser := p |>) ;; ret b.

(** [parser_init() == THD_SUCCESS && parser.platform_matched()] *)
Definition configured : SM (option bool) :=
  defined engine_parser_init (fun r =>
  if r =? THD_SUCCESS then b <- engine_platform_matched ;; ret (Some b) else ret (Some false)).

(** * The power floor event *)

Definition POWER_FLOOR_ENABLE_ATTRIBUTE : string := "/sys/bus/pci/devices/0000:00:04.0/power_limits/power_floor_enable".
Definition POWER_FLOOR_STATUS_ATTRIBUTE : string := "/sys/bus/pci/devices/0000:00:04.0/power_limits/power_floor_status".

(** The feature is switched on and its status can be read. *)
Definition power_floor_ready : State W bool := fun w =>
  match k_open_rw POWER_FLOOR_ENABLE_ATTRIBUTE w with
  | (inl _, w) => (false, w)
  | (inr fd, w) =>
      let '(r, w) := k_write fd ("1" +:+ String (char_of 10) "") w in
      let w := k_close fd w in
      match r with
      | inl _ => (false, w)
      | inr _ =>
          match k_open_rd POWER_FLOOR_STATUS_ATTRIBUTE w with
          | (inl _, w) => (false, w)
          | (inr fd, w) => (true, k_close fd w)
          end
      end
  end.

(** The first trip of the new zone takes the PCIe device when there is one. *)
Definition add_pcie : State (zone * machine X W) unit :=
  c <- on_machine (gets (match_cdev "PCIe_Port_Link_Speed")) ;;
  match c with
  | Some p => on_trip 0 tt (thd_trip_point_add_cdev p default_influence 0 0 TRIP_PT_INVALID_TARGET_STATE None 0 0 0)
  | None => ret tt
  end.

Definition power_floor_zone : EM unit := fun e =>
  let z := new_zone_dynamic (current_zone_index e) "power_floor" in
  let '(r, (z, s)) := dynamic_zone_update TDRUNDIR 1 PASSIVE "power_floor" "intel_powerclamp" (z, mach e) in
  if r =? THD_SUCCESS then
    let '(_, (z, s)) := (add_pcie ;; set_zone_active created) (z, s) in
    (tt, e <| mach := s |> <| zones := zones e ++ [z] |>
           <| current_zone_index := i32 (current_zone_index e + 1) |>)
  else (tt, e <| mach := s |>).

Definition enable_power_floor_event : EM unit :=
  ready <- on_w power_floor_ready ;;
  if negb ready then ret tt else
  e <- get ;;
  match search_cdev "intel_powerclamp" (mach e) with
  | None => ret tt
  | Some _ =>
      ok <- try_sensor (new_sensor (current_sensor_index e) POWER_FLOOR_STATUS_ATTRIBUTE "power_floor" SENSOR_TYPE_RAW) ;;
      if ok : bool then bump_sensor_index ;; power_floor_zone else ret tt
  end.

(** * Initialization *)

Section init.
(** The virtual readers, the platform check ([check_cpu_id], whether the
    processor is listed) and the option for the power floor. *)
Context (read_thermal_sensors read_cooling_devices read_thermal_zones : SM (option Z)).
Context (check_cpu_id : SM bool) (power_floor_enable : bool).

(** A reader whose failure is fatal. *)
Definition must (m : SM (option Z)) (k : SM (option Z)) : SM (option Z) :=
  defined m (fun r => if r =? THD_SUCCESS then k else ret (Some THD_FATAL_ERROR)).

(** Whether the processor is listed, or a configuration replaces the list. *)
Definition platform_supported (ignore_cpuid_check : bool) : SM (option bool) :=
  if ignore_cpuid_check then
    set_setup (fun u => u <| proc_list_matched := true |>) ;; ret (Some true)
  else
    matched <- check_cpu_id ;;
    set_setup (fun u => u <| proc_list_matched := matched |>) ;;
    if matched : bool then ret (Some true) else configured.

Definition thd_engine_init (ignore_cpuid_check adaptive : bool) : SM (option Z) :=
  r <- start_engine check_acpi_platform_profile ;;
  if negb (r =? THD_SUCCESS) then ret (Some THD_FATAL_ERROR) else
  set_setup (fun u => u <| adaptive_mode := adaptive |>) ;;
  defined (platform_supported ignore_cpuid_check) (fun ok =>
  if negb ok then ret (Some THD_ERROR) else
  must read_thermal_sensors (must read_cooling_devices (must read_thermal_zones (
    (if power_floor_enable then start_engine enable_power_floor_event else ret tt) ;;
    ret (Some THD_SUCCESS))))).
End init.

(** * Start *)

Definition ms (seconds : Z) : Z := i32 (seconds * 1000).

(** The wake-up pipe; [false] when it cannot be made. *)
Definition open_pipe (os : os_answers) : SM bool :=
  if truthy (os_pipe os) || (os_fcntl_read os <? 0) || (os_fcntl_write os <? 0) then ret false else
  u <- get_setup ;;
  start_engine (mode (fun e => e <| wakeup_fd := poll_fd_cnt u |>)) ;;
  set_setup (fun u => u <| poll_fd_cnt := i32 (poll_fd_cnt u + 1) |>) ;;
  ret true.

Definition poll_interval : SM Z := start_engine (gets (fun e => m_poll_interval_sec (mach e))).
Definition set_timeout (v : Z) : EM unit := mode (fun e => e <| poll_timeout_msec := v |>).

(** Lines 362-370: the preference and the poll interval of the configuration. *)
Definition apply_configuration : SM (option unit) :=
  defined configured (fun b =>
  if negb b then ret (Some tt) else
  u <- get_setup ;;
  match get_polling_interval (parser u) with
  | None => ret None
  | Some poll_secs =>
      r <- start_engine (on_w (fun w =>
        match set_default_preference TDRUNDIR (parser u) w with
        | Some (_, w') => (Some tt, w')
        | None => (None, w)
        end)) ;;
      match r with
      | None => ret None
      | Some _ =>
          if truthy poll_secs then
            start_engine (on_mach (modify (fun s => s <| m_poll_interval_sec := poll_secs |>)) ;;
                          set_timeout (ms poll_secs)) ;; ret (Some tt)
          else ret (Some tt)
      end
  end).

(** An active zone with a sensor that cannot notify. *)
Definition needs_polling (e : engine X W) : bool :=
  existsb (fun z => zone_active z && negb (check_sensor_async_status z (mach e))) (zones e).

(** The socket for kernel events, unless the feature is off. *)
Definition open_uevent (os : os_answers) : SM (option unit) :=
  defined (feature KOBJECT_UEVENT_SUPPORT) (fun v =>
  if v =? 0 then ret (Some tt) else
  u <- get_setup ;;
  (if os_uevent_open os <? 0 then start_engine (mode (fun e => e <| uevent_fd := -1 |>))
   else start_engine (mode (fun e => e <| uevent_fd := poll_fd_cnt u |>)) ;;
        set_setup (fun u => u <| poll_fd_cnt := i32 (poll_fd_cnt u + 1) |>)) ;;
  ret (Some tt)).

(** Lines 372-406, without a poll interval. *)
Definition choose_events (os : os_answers) : SM (option unit) :=
  start_engine (e <- get ;; if needs_polling e then set_timeout def_poll_interval else ret tt) ;;
  open_uevent os.

(** Lines 436-446, after the thread has been created. *)
Definition after_thread : EM unit :=
  on_pref (refresh TDRUNDIR) ;;
  mode (fun e => e <| mach := (mach e) <| m_preference := preference (thd_pref e) |> |>) ;;
  e <- get ;;
  if bool_decide (control_mode e = EXCLUSIVE) then takeover_thermal_control else ret tt.

Definition thd_engine_start (os : os_answers) : SM (option Z) :=
  check_for_rt_kernel os ;;
  ok <- open_pipe os ;;
  if negb ok then ret (Some THD_FATAL_ERROR) else
  i <- poll_interval ;;
  start_engine (set_timeout (if truthy i then ms i else -1)) ;;
  defined apply_configuration (fun _ =>
  i <- poll_interval ;;
  defined (if truthy i then ret (Some tt) else choose_events os) (fun _ =>
  start_engine after_thread ;;
  ret (Some (os_pthread_create os)))).
End start.
