(* ===== verification/EngineStartTheorems.v ===== *)
(** Theorems about the start of an engine: which polling mode it ends in, and
    that it depends on the feature file. *)
From stdpp Require Import base gmap strings list.
From Stdlib Require Import ZArith Lia.
From Stdlib Require String.
From S2P Require Import Prelude CString SysFs CFloat Pid Cdev CdevDevices PowerMeter CdevRapl Machine Preference TripPoint Xml Parse ParseTheorems ParseCodec Zone ZoneKinds Engine EngineUser EngineStart Witnesses.

Open Scope string_scope.
Open Scope list_scope.
Open Scope Z_scope.

Section start_theorems.
Context {X W D : Type} `{Kernel W} `{!CdevMethods X W} `{!LibXml W D}.
Context (TDCONFDIR TDRUNDIR : string) (generate_conf : string -> State W Z) (uninit_pid : pid_control_t).

(** * What the steps of the start leave alone *)

(** The zones, the sensors and the wake-up descriptor. *)
Definition core (e : engine X W) : list zone * list sensor * Z :=
  (zones e, m_sensors (mach e), wakeup_fd e).
(** The poll interval and the timeout of the thread. *)
Definition pace (e : engine X W) : Z * Z := (m_poll_interval_sec (mach e), poll_timeout_msec e).
(** The timeout is the interval, or none. *)
Definition paced (e : engine X W) : Prop :=
  poll_timeout_msec e = if truthy (m_poll_interval_sec (mach e)) then ms (m_poll_interval_sec (mach e)) else -1.

Definition same (e e' : engine X W) : Prop := core e' = core e /\ pace e' = pace e.
Definition keeps_pace (s s' : setup D * engine X W) : Prop :=
  core (snd s') = core (snd s) /\ (paced (snd s) -> paced (snd s')).

#[local] Instance same_preorder : PreOrder same.
Proof. split; [done|]. intros a b c [H1 H2] [G1 G2]. split; congruence. Qed.
#[local] Instance keeps_pace_preorder : PreOrder keeps_pace.
Proof. split; [done|]. intros a b c [H1 H2] [G1 G2]. split; [congruence|auto]. Qed.

Lemma same_paced e e' : same e e' -> paced e -> paced e'.
Proof. intros [_ Hp]. unfold paced, pace in *. injection Hp. by intros -> ->. Qed.

Lemma same_on_w {A} (m : State W A) : steps same (on_w m).
Proof. intros e. unfold on_w, on_mach, on_world. by destruct (m (m_w (mach e))). Qed.
Lemma same_on_pref {A} (m : State (preference_t * W) A) : steps same (on_pref m).
Proof. intros e. unfold on_pref. by destruct (m (thd_pref e, m_w (mach e))) as [a [p w]]. Qed.
Lemma same_mode f : (forall e, same e (f e)) -> steps same (mode f).
Proof. intros Hf e. apply Hf. Qed.
Hint Resolve same_on_w same_on_pref : thd.

Lemma same_takeover : steps same takeover_thermal_control.
Proof. unfold takeover_thermal_control. steps_tac; by apply same_mode. Qed.
Lemma same_after_thread : steps same (after_thread TDRUNDIR).
Proof. unfold after_thread. pose proof same_takeover. steps_tac; by apply same_mode. Qed.

Lemma kp_engine {A} (m : State (engine X W) A) : steps same m -> steps keeps_pace (start_engine (D := D) m).
Proof.
  intros Hm [u e]. unfold start_engine, keeps_pace. specialize (Hm e).
  destruct (m e) as [a e']. split; [apply Hm|by apply same_paced].
Qed.
Lemma kp_set f : steps keeps_pace (set_setup f).
Proof. by intros [u e]. Qed.
Lemma kp_get : steps keeps_pace get_setup.
Proof. by intros [u e]. Qed.
Lemma kp_defined {A B} (m : State (setup D * engine X W) (option A)) (k : A -> State _ (option B)) :
  steps keeps_pace m -> (forall a, steps keeps_pace (k a)) -> steps keeps_pace (defined m k).
Proof. intros Hm Hk. unfold defined. apply steps_bind; [typeclasses eauto|done|]. intros [a|]; steps_tac. Qed.
Hint Resolve kp_engine kp_set kp_get : thd.

Lemma kp_feature f : steps keeps_pace (feature f).
Proof. unfold feature. steps_tac. Qed.
Lemma kp_parser_init : steps keeps_pace (engine_parser_init TDCONFDIR TDRUNDIR generate_conf uninit_pid).
Proof.
  unfold engine_parser_init. apply kp_defined; [apply kp_feature|]. intros v. steps_tac.
Qed.
Lemma kp_configured : steps keeps_pace (configured TDCONFDIR TDRUNDIR generate_conf uninit_pid).
Proof.
  unfold configured, engine_platform_matched. apply kp_defined; [apply kp_parser_init|]. intros r. steps_tac.
Qed.

Lemma kp_apply_configuration :
  steps keeps_pace (apply_configuration TDCONFDIR TDRUNDIR generate_conf uninit_pid).
Proof.
  unfold apply_configuration. apply kp_defined; [apply kp_configured|]. intros b.
  apply steps_if; [steps_tac|]. apply steps_bind; [typeclasses eauto|steps_tac|]. intros u.
  destruct (get_polling_interval (parser u)) as [secs|]; [|steps_tac].
  apply steps_bind; [typeclasses eauto|steps_tac|]. intros [t|]; [|steps_tac].
  destruct (truthy secs) eqn:Ht; [|steps_tac]. apply steps_bind; [typeclasses eauto| |steps_tac].
  intros [v e]. split; [done|]. intros _. unfold paced. cbn. by rewrite Ht.
Qed.

Lemma same_uevent os : steps (fun s s' : setup D * engine X W => same (snd s) (snd s')) (open_uevent os).
Proof.
  intros [u e]. unfold open_uevent, defined, feature, bind, get_setup, gets, ret. cbn [fst].
  destruct (check_feature _ _) as [v|]; [|done]. destruct (v =? 0); [done|].
  by destruct (os_uevent_open os <? 0).
Qed.

(** ** The polling mode *)

(** The timeout a start should end with. *)
Definition start_timeout (interval : Z) (polling : bool) : Z :=
  if truthy interval then ms interval else if polling then def_poll_interval else -1.

Lemma needs_polling_core e e' : core e' = core e -> needs_polling e' = needs_polling e.
Proof.
  intros E. injection E. intros _ Hs Hz.
  assert (Ha : forall z, check_sensor_async_status z (mach e') = check_sensor_async_status z (mach e)).
  { intros z. unfold check_sensor_async_status. induction (sensors z) as [|i k IH]; [done|]. cbn [forallb].
    rewrite IH. unfold sensor_at. by rewrite Hs. }
  unfold needs_polling. rewrite Hz. clear Hz E. induction (zones e) as [|z l IH]; [done|]. cbn [existsb]. by rewrite IH, Ha.
Qed.

(** An active zone has a sensor that cannot notify. *)
Definition blind (e : engine X W) : Prop :=
  exists z i, z ∈ zones e /\ zone_active z = true /\ i ∈ sensors z /\ async_capable (sensor_at i (mach e)) = false.

Lemma needs_polling_iff e : needs_polling e = true <-> blind e.
Proof.
  unfold needs_polling, blind. rewrite existsb_exists. split.
  - intros (z & Hz & Ha). apply andb_true_iff in Ha as [Ha Hs]. apply negb_true_iff in Hs.
    unfold check_sensor_async_status in Hs. apply forallb_false in Hs as (i & Hi & Hs).
    exists z, i. by rewrite <- !list_elem_of_In in *.
  - intros (z & i & Hz & Ha & Hi & Hs). exists z. split; [by apply list_elem_of_In|]. rewrite Ha. cbn.
    apply negb_true_iff, not_true_iff_false. unfold check_sensor_async_status. rewrite forallb_forall.
    intros Hall. rewrite Hall in Hs; [done|]. by apply list_elem_of_In.
Qed.

Definition pipe_ok (os : os_answers) : bool :=
  negb (truthy (os_pipe os) || (os_fcntl_read os <? 0) || (os_fcntl_write os <? 0)).

Abbreviation start := (thd_engine_start TDCONFDIR TDRUNDIR generate_conf uninit_pid).

(** The state after the pipe and the initial timeout. *)
Lemma start_prefix os u (e : engine X W) :
  pipe_ok os = true -> exists u1 e1,
    start os (u, e) =
      defined (apply_configuration TDCONFDIR TDRUNDIR generate_conf uninit_pid) (fun _ =>
      i <- poll_interval ;;
      defined (if truthy i then ret (Some tt) else choose_events os) (fun _ =>
      start_engine (after_thread TDRUNDIR) ;; ret (Some (os_pthread_create os)))) (u1, e1) /\
    core e1 = (zones e, m_sensors (mach e), poll_fd_cnt u) /\ paced e1 /\
    features_parser u1 = features_parser u.
Proof.
  intros Hp. unfold pipe_ok in Hp. apply negb_true_iff in Hp.
  unfold thd_engine_start, check_for_rt_kernel, open_pipe. rewrite Hp. do 2 eexists. split; [reflexivity|].
  split_and!; reflexivity.
Qed.

Lemma choose_events_spec os u (e : engine X W) : m_poll_interval_sec (mach e) = 0 -> paced e ->
  let e' := snd (snd (choose_events (D := D) os (u, e))) in
  core e' = core e /\ m_poll_interval_sec (mach e') = 0 /\
  poll_timeout_msec e' = start_timeout 0 (needs_polling e).
Proof.
  intros Hi Hp. unfold paced in Hp. rewrite Hi in Hp. cbn in Hp.
  set (e1 := if needs_polling e then e <| poll_timeout_msec := def_poll_interval |> else e).
  assert (E : choose_events (D := D) os (u, e) = open_uevent os (u, e1)).
  { unfold choose_events, bind at 1, start_engine, bind at 1, get. unfold e1. by destruct (needs_polling e). }
  rewrite E. destruct (same_uevent os (u, e1)) as [Hc Hq]. cbv zeta.
  destruct (open_uevent os (u, e1)) as [o [u2 e2]]. cbn [snd] in *. unfold pace in Hq. injection Hq. intros Ht Hs.
  rewrite Hc, Ht, Hs. unfold e1, start_timeout. destruct (needs_polling e); cbn; by rewrite ?Hi, ?Hp.
Qed.

Lemma start_outcome os u (e : engine X W) r u' e' :
  pipe_ok os = true -> start os (u, e) = (Some r, (u', e')) ->
  r = os_pthread_create os /\ zones e' = zones e /\ wakeup_fd e' = poll_fd_cnt u /\
  poll_timeout_msec e' = start_timeout (m_poll_interval_sec (mach e')) (needs_polling e).
Proof.
  intros Hp E. destruct (start_prefix os u e Hp) as (u1 & e1 & Hs & Hc1 & Hp1 & _). rewrite Hs in E. clear Hs.
  assert (Hn : needs_polling e1 = needs_polling (e <| wakeup_fd := poll_fd_cnt u |>)) by (by apply needs_polling_core).
  change (needs_polling (e <| wakeup_fd := poll_fd_cnt u |>)) with (needs_polling e) in Hn.
  unfold defined at 1, bind at 1 in E.
  destruct (kp_apply_configuration (u1, e1)) as [Hc2 Hp2]. specialize (Hp2 Hp1).
  destruct (apply_configuration _ _ _ _ (u1, e1)) as [[t|] [u2 e2]]; [|done]. cbn [snd] in Hc2, Hp2.
  apply needs_polling_core in Hc2 as Hn2.
  unfold bind at 1, poll_interval, start_engine at 1, gets in E. unfold defined, bind at 1 in E.
  assert (Hfin : forall s3, (start_engine (after_thread TDRUNDIR) ;; ret (Some (os_pthread_create os))) s3 =
      (Some r, (u', e')) -> r = os_pthread_create os /\ same (snd s3) e').
  { intros [u3 e3] E3. unfold bind, start_engine, ret in E3. pose proof (same_after_thread e3) as Ha.
    destruct (after_thread TDRUNDIR e3). by simplify_eq. }
  destruct (truthy (m_poll_interval_sec (mach e2))) eqn:Ht.
  - destruct (Hfin _ E) as [-> [Hc Hq]]. cbn [snd] in *. unfold core in *.
    injection Hq. intros Hqt Hqi. rewrite Hqt, Hqi. unfold start_timeout. rewrite Ht.
    unfold paced in Hp2. rewrite Ht in Hp2. split_and!; congruence.
  - apply truthy_false in Ht. destruct (choose_events_spec os u2 e2 Ht Hp2) as (Hc3 & Hi3 & Ht3).
    destruct (choose_events os (u2, e2)) as [[t'|] s3]; [|done]. cbn [snd] in *.
    destruct (Hfin _ E) as [-> [Hc Hq]]. injection Hq. intros Hqt Hqi. unfold core in *.
    rewrite Hqt, Hqi, Hi3, Ht3, Hn2, Hn. split_and!; congruence.
Qed.

(** C35: a start that gets its pipe and reads defined configuration ends with
    the zones it had, the wake-up descriptor in the next free slot, and the
    timeout of the final poll interval; without an interval it polls every four
    seconds when an active zone has a sensor that cannot notify, and waits for
    events otherwise. *)
Theorem start_polling_mode os u (e : engine X W) r u' e' :
  pipe_ok os = true -> start os (u, e) = (Some r, (u', e')) ->
  let interval := m_poll_interval_sec (mach e') in
  r = os_pthread_create os /\ zones e' = zones e /\ wakeup_fd e' = poll_fd_cnt u /\
  (interval <> 0 -> poll_timeout_msec e' = i32 (interval * 1000)) /\
  (interval = 0 -> blind e -> poll_timeout_msec e' = 4000) /\
  (interval = 0 -> ~ blind e -> poll_timeout_msec e' = -1).
Proof.
  intros Hp E interval. destruct (start_outcome os u e r u' e' Hp E) as (-> & Hz & Hw & Ht).
  fold interval in Ht. rewrite <- needs_polling_iff, Ht. unfold start_timeout.
  destruct (Z.eqb_spec interval 0) as [->|Hi]; split_and!; try done.
  - by intros _ ->.
  - intros _ Hn. by destruct (needs_polling e).
  - intros _. by rewrite (proj2 (truthy_true interval) Hi).
Qed.

(** ** The feature file *)

(** Without a feature file that root owns and alone may write, no start is
    defined: the switches are read from an empty vector. *)
Theorem start_needs_feature_file os u (e : engine X W) (w : W) p :
  trusted_file (features_filename TDCONFDIR) w = false ->
  thd_parse_features TDCONFDIR w new_features_parse = Some p ->
  features_parser u = p -> pipe_ok os = true -> fst (start os (u, e)) = None.
Proof.
  intros Hw Hp Hu Hok. destruct (start_prefix os u e Hok) as (u1 & e1 & Hs & _ & _ & Hf). rewrite Hs.
  assert (Hl : feature_list p = []).
  { unfold thd_parse_features, features_parser_init in Hp. rewrite Hw in Hp. cbn in Hp. injection Hp. by intros <-. }
  unfold apply_configuration, configured, engine_parser_init, feature, defined, bind, get_setup, gets, ret.
  cbn [fst]. unfold check_feature. by rewrite Hf, Hu, Hl.
Qed.
End start_theorems.

(** * Concrete runs *)

(** An engine that watches one sensor, which cannot notify. *)
Definition watching : engine gen_ext sim :=
  fan_engine <| zones := [(new_zone 0 "" SENSOR_INDEPENDENT) <| sensors := [0%nat] |> <| zone_active := true |>] |>.
(** The configuration file is switched off. *)
Definition features_on : setup (list xmlNode) :=
  (new_setup "") <| features_parser := mk_features None [] [1; 0; 1; 1] |>.
Definition os_fine : os_answers := mk_os 0 0 0 7 0 "#1 SMP PREEMPT_DYNAMIC".
Abbreviation no_pid := (mk_pid_control zero_double zero_double zero_double).
Abbreviation start_sim :=
  (@thd_engine_start gen_ext sim (list xmlNode) _ (sim_xml ∅) "/etc/thermald" "/run" (fun _ => ret THD_ERROR) no_pid).

Lemma start_polling_witness :
  exists u' e', start_sim os_fine (features_on, watching) = (Some 0, (u', e')) /\
    zones e' = zones watching /\ wakeup_fd e' = 0 /\ poll_timeout_msec e' = def_poll_interval.
Proof.
  destruct (start_sim os_fine (features_on, watching)) as [o [u' e']] eqn:E.
  assert (Ho : o = Some 0) by (change o with (fst (o, (u', e'))); rewrite <- E; vm_compute; reflexivity). subst o.
  assert (Hi : m_poll_interval_sec (mach e') = 0)
    by (change e' with (snd (snd (Some 0, (u', e')))); rewrite <- E; vm_compute; reflexivity).
  destruct (@start_polling_mode gen_ext sim (list xmlNode) _ (sim_xml ∅) "/etc/thermald" "/run" (fun _ => ret THD_ERROR) no_pid
    os_fine features_on watching 0 u' e' eq_refl E) as (_ & Hz & Hw & _ & Ht & _).
  exists u', e'. split; [reflexivity|]. split; [exact Hz|]. split; [exact Hw|].
  apply Ht; [exact Hi|]. do 2 eexists. split; [left|]. split; [reflexivity|]. split; [left|reflexivity].
Defined.

Lemma start_needs_feature_witness :
  trusted_file (features_filename "/etc/thermald") sim0 = false /\
  fst (start_sim os_fine (new_setup "", watching)) = None.
Proof.
  split; [vm_compute; reflexivity|].
  apply (@start_needs_feature_file gen_ext sim (list xmlNode) _ (sim_xml ∅) "/etc/thermald" "/run" (fun _ => ret THD_ERROR) no_pid
    os_fine (new_setup "") watching sim0 new_features_parse); vm_compute; reflexivity.
Defined.
