(* ===== verification/Devices.v ===== *)
(** The cooling devices of the daemon together: the vector of the engine holds
    objects of several classes, and a call on one of them runs the override of
    its class.  [device] is the sum of the members the classes add, and the
    methods of CdevDevices.v, CdevCpufreq.v and CdevRapl.v are dispatched on it. *)
From stdpp Require Import base gmap strings list.
From Stdlib Require Import ZArith Lia.
From S2P Require Import Prelude CString SysFs CFloat Pid Cdev CdevDevices CdevCpufreq CdevRapl.

Open Scope Z_scope.

Inductive device :=
| SysfsDevice (x : sysfs_ext)
| GenDevice (x : gen_ext)
| PstateDevice (x : pstate_ext)
| CpufreqDevice (x : cpufreq_ext)
| RaplDevice (x : rapl_ext)
| RaplDramDevice (x : rapl_ext)
| BacklightDevice (x : backlight_ext).

(** The base members with other members added. *)
Definition recast {A B} (b : B) (d : cdev A) : cdev B :=
  mk_cdev (index d) (cdev_sysfs d) (trip_point d) (max_state d) (min_state d) (curr_state d)
    (curr_pow d) (base_pow_state d) (inc_dec_val d) (auto_down_adjust d) (read_back d) (type_str d)
    (alias_str d) (debounce_interval d) (last_action_time d) (trend_increase d) (pid_enable d)
    (pid_ctrl d) (last_state d) (zone_trip_limits d) (write_prefix d) (inc_val d) (dec_val d) b.

(** An object of a class as a device. *)
Definition upcast {A} (inj : A -> device) (d : cdev A) : cdev device := recast (inj (ext d)) d.

Section dispatch.
(** What an unassigned local of the cpufreq device holds. *)
Context {W : Type} `{Kernel W} `{!RaplEngine W} (garbage : Z).

(** A method of the class with the members [a]. *)
Definition run_as {A R} (inj : A -> device) (a : A) (m : State (cdev A * W) R) : State (cdev device * W) R :=
  fun '(d, w) => let '(r, (d', w')) := m (recast a d, w) in (r, (upcast inj d', w')).

(** The class of an object decides. *)
Definition dispatch {R} (sysfs : State (cdev sysfs_ext * W) R) (gen : State (cdev gen_ext * W) R)
    (pstate : State (cdev pstate_ext * W) R) (cpufreq : State (cdev cpufreq_ext * W) R)
    (rapl dram : State (cdev rapl_ext * W) R) (backlight : State (cdev backlight_ext * W) R)
    : State (cdev device * W) R := fun s =>
  match ext (fst s) with
  | SysfsDevice x => run_as SysfsDevice x sysfs s
  | GenDevice x => run_as GenDevice x gen s
  | PstateDevice x => run_as PstateDevice x pstate s
  | CpufreqDevice x => run_as CpufreqDevice x cpufreq s
  | RaplDevice x => run_as RaplDevice x rapl s
  | RaplDramDevice x => run_as RaplDramDevice x dram s
  | BacklightDevice x => run_as BacklightDevice x backlight s
  end.

(** A method every class answers through its own instance. *)
Definition virtual_call {R} (m : forall A, CdevMethods A W -> State (cdev A * W) R) : State (cdev device * W) R :=
  dispatch (m _ sysfs_methods) (m _ gen_methods) (m _ pstate_methods) (m _ (cpufreq_methods garbage))
    (m _ rapl_methods) (m _ rapl_methods) (m _ backlight_methods).

Definition device_map_target_state (d : cdev device) (target_valid target_state : Z) : Z :=
  match ext d with
  | SysfsDevice x => m_map_target_state (CdevMethods := sysfs_methods) (recast x d) target_valid target_state
  | GenDevice x => m_map_target_state (CdevMethods := gen_methods) (recast x d) target_valid target_state
  | PstateDevice x => m_map_target_state (CdevMethods := pstate_methods) (recast x d) target_valid target_state
  | CpufreqDevice x => m_map_target_state (CdevMethods := cpufreq_methods garbage) (recast x d) target_valid target_state
  | RaplDevice x | RaplDramDevice x =>
      m_map_target_state (CdevMethods := rapl_methods) (recast x d) target_valid target_state
  | BacklightDevice x => m_map_target_state (CdevMethods := backlight_methods) (recast x d) target_valid target_state
  end.

Definition device_methods : CdevMethods device W := {|
  m_set_curr_state := fun state arg => virtual_call (fun A _ => m_set_curr_state state arg);
  m_set_curr_state_raw := fun state arg => virtual_call (fun A _ => m_set_curr_state_raw state arg);
  m_get_curr_state := virtual_call (fun A _ => m_get_curr_state);
  m_get_curr_state_again := virtual_call (fun A _ => m_get_curr_state_again);
  m_get_max_state := virtual_call (fun A _ => m_get_max_state);
  m_map_target_state := device_map_target_state;
  m_update := dispatch (m_update (CdevMethods := sysfs_methods)) (m_update (CdevMethods := gen_methods))
    (m_update (CdevMethods := pstate_methods)) (m_update (CdevMethods := cpufreq_methods garbage))
    (m_update (CdevMethods := rapl_methods)) rapl_dram_update (m_update (CdevMethods := backlight_methods))
|}.

(** The virtual functions only the RAPL devices override. *)
Definition thd_cdev_set_min_state_param (arg : Z) : State (cdev device * W) unit :=
  let base {A} : State (cdev A * W) unit := modd (fun d => d <| min_state := arg |>) in
  dispatch base base base base (rapl_thd_cdev_set_min_state_param arg) (rapl_thd_cdev_set_min_state_param arg) base.

Definition set_adaptive_target (t : adaptive_target) : State (cdev device * W) (option unit) :=
  let base {A} : State (cdev A * W) (option unit) := ret (Some tt) in
  dispatch base base base base (rapl_set_adaptive_target t) (rapl_set_adaptive_target t) base.

(** ** A device behaves as an object of its class *)

Lemma recast_upcast {A} (inj : A -> device) (d : cdev A) : recast (ext d) (upcast inj d) = d.
Proof. by destruct d. Qed.

Lemma ctl_recast {A B} (b : B) (d : cdev A) : ctl (recast b d) = ctl d.
Proof. done. Qed.

Lemma keeps_run_as {A R} (inj : A -> device) a (m : State (cdev A * W) R) s :
  keeps ctl m -> ctl (fst (snd (run_as inj a m s))) = ctl (fst s).
Proof.
  destruct s as [d w]. intros Hm. specialize (Hm (recast a d, w)). unfold run_as.
  destruct (m (recast a d, w)) as [r [d' w']]. cbn in *. by rewrite <- (ctl_recast a d).
Qed.

Lemma keeps_dispatch {R} (m1 : State _ R) m2 m3 m4 m5 m6 m7 :
  keeps ctl m1 -> keeps ctl m2 -> keeps ctl m3 -> keeps ctl m4 -> keeps ctl m5 -> keeps ctl m6 -> keeps ctl m7 ->
  keeps ctl (dispatch m1 m2 m3 m4 m5 m6 m7).
Proof. intros ? ? ? ? ? ? ? s. unfold dispatch. destruct (ext (fst s)); by apply keeps_run_as. Qed.

(** The vector of all devices has the laws of the interface, so every theorem
    proved against them holds for it. *)
Lemma device_laws : @CdevLaws device W device_methods.
Proof.
  pose proof (cpufreq_laws garbage) as Hc.
  split; intros; apply keeps_dispatch;
    first [apply law_set|apply law_set_raw|apply law_get|apply law_get_again|apply law_get_max].
Qed.

End dispatch.
