(* ===== verification/EngineDefault.v ===== *)
(** The default engine, [cthd_engine_default] (src/thd_engine_default.cpp): how
    it gathers sensors, cooling devices and zones from sysfs and the XML
    configuration, the processor zone of the INT340x drivers, the creation of
    the daemon's engine and the periodic workarounds.

    The devices of the engine are the sum of Devices.v.  [None] is a run without
    defined behaviour, or an exception. *)
From stdpp Require Import base gmap strings list.
From Stdlib Require Import ZArith Lia.
From Stdlib Require String.
From S2P Require Import Prelude CString SysFs CFloat Pid Cdev CdevDevices CdevCpufreq CdevRapl Devices PowerMeter Machine Preference TripPoint Xml Parse Zone ZoneKinds Engine EngineUser EngineStart EngineAdaptive.

Open Scope string_scope.
Open Scope list_scope.
Open Scope Z_scope.

Definition processor_thermal_min_passive : Z := 90000.
Definition default_uuid : string := "42A441D6-AE6A-462b-A84B-4A8CE79027D3".
Definition CDEV_DEF_BIT_UNIT_VAL : Z := 128.

(** The members [cthd_engine_default] adds, but for the [cthd_gddv]. *)
Record default_members := mk_default {
  workaround_interval : Z;
  tcc_offset_checked : Z;
  tcc_offset_low : Z;
  force_mmio_rapl : bool;
}.
#[export] Instance eta_default : Eta default_members := {| eta_of := fun x =>
  mk_default (workaround_interval x) (tcc_offset_checked x) (tcc_offset_low x) (force_mmio_rapl x) |}.
Definition new_default : default_members := mk_default 0 0 0 false.

(** The static devices: intel_powerclamp and LCD. *)
Definition static_cdev (max : Z) (type : string) : cooling_dev_t :=
  mk_cooling_dev true
    (Z.lor (Z.lor (Z.lor CDEV_DEF_BIT_UNIT_VAL CDEV_DEF_BIT_READ_BACK) CDEV_DEF_BIT_MIN_STATE) CDEV_DEF_BIT_STEP)
    0 ABSOULUTE_VALUE 0 max 5 false false type "" 4 false (mk_pid_control zero_double zero_double zero_double) "".
Definition cpu_def_cooling_devices : list cooling_dev_t :=
  [static_cdev 0 "intel_powerclamp"; static_cdev 100 "LCD"].

(** Where the digital thermal sensors are. *)
Definition dts_bases : list string := ["/sys/devices/platform/"; "/sys/class/hwmon/"].
Definition dts_entry (name : string) : bool := is_prefix "coretemp." name || is_prefix "hwmon" name.

(** A file [temp*_input]. *)
Definition temp_input (name : string) : bool :=
  (6 <=? String.length name)%nat
  && (thd_strcmp_n (Some (after (String.length name - 6) name)) (Some "_input") =? 0)
  && is_prefix "temp" name.

Section default.
Context {W D : Type} `{Kernel W} `{!RaplEngine W} `{!LibXml W D} (garbage : Z).
#[local] Instance all_devices : CdevMethods device W := device_methods garbage.
Context (TDCONFDIR TDRUNDIR : string) (generate_conf : string -> State W Z) (uninit_pid : pid_control_t).
Context (created : bool).

Abbreviation EM := (State (engine device W)).
Abbreviation SM := (State (setup D * engine device W)).
Abbreviation ZM := (State (zone * machine device W)).

(** Whether the name file of a directory says "coretemp". *)
Definition is_coretemp (dir : string) : State W bool :=
  with_fs (dir +:+ "/name") (
    ex <- exists_path "" ;;
    if negb ex then ret false else
    let* (n, name) := read_string "" "" in
    ret (negb (n <? 0) && String.eqb name "coretemp")).

(** A list of the matched configuration; empty without one. *)
Definition config_list {A} (f : thermal_info_t -> list A) : SM (option (list A)) :=
  defined (configured TDCONFDIR TDRUNDIR generate_conf uninit_pid) (fun b =>
  if negb b then ret (Some []) else
  u <- get_setup ;;
  ret (f <$> matched_info (parser u))).

(** * Sensors *)

Definition set_async (name : string) : EM unit :=
  i <- on_mach (gets (search_sensor name)) ;;
  match i with
  | Some p => on_mach (set_sensor p (fun x => x <| async_capable := true |>))
  | None => ret tt
  end.

(** The inputs of a directory, numbered from [index]; [None] when one cannot be
    used. *)
Fixpoint dts_inputs (path : string) (names : list string) (index : Z) : EM (option Z) :=
  match names with
  | [] => ret (Some index)
  | name :: rest =>
      if temp_input name then
        ok <- try_sensor (new_sensor index (path +:+ name) "hwmon" SENSOR_TYPE_RAW) ;;
        if ok : bool then dts_inputs path rest (i32 (index + 1)) else ret None
      else dts_inputs path rest index
  end.

Fixpoint dts_directories (base : string) (names : list string) (index : Z) : EM (option Z) :=
  match names with
  | [] => ret (Some index)
  | name :: rest =>
      if negb (dts_entry name) then dts_directories base rest index else
      core <- on_w (is_coretemp (base +:+ name)) ;;
      if negb core then dts_directories base rest index else
      let path := base +:+ name +:+ "/" in
      inputs <- on_w (gets (k_readdir path)) ;;
      r <- dts_inputs path (default [] inputs) index ;;
      match r with
      | Some index => dts_directories base rest index
      | None => ret None
      end
  end.

(** The second directory is tried when the first has no sensor. *)
Fixpoint dts_sensors (bases : list string) (index : Z) : EM (option Z) :=
  match bases with
  | [] => ret (Some index)
  | base :: rest =>
      names <- on_w (gets (k_readdir base)) ;;
      r <- dts_directories base (default [] names) index ;;
      e <- get ;;
      match r with
      | None => ret None
      | Some index => if index =? current_sensor_index e then dts_sensors rest index else ret (Some index)
      end
  end.

(** [cthd_sensor_rapl_power] *)
Definition new_sensor_rapl_power (index : Z) : sensor :=
  sensor_update_path "/sys/class/powercap/intel-rapl" ((new_sensor index "" "rapl_pkg_power" SENSOR_TYPE_RAW) <| s_rapl_power := true |>).

(** The power sensor joins when it is usable. *)
Definition add_power_sensor (index : Z) : EM Z :=
  ok <- try_sensor (new_sensor_rapl_power index) ;;
  ret (if ok : bool then i32 (index + 1) else index).

(** The links of a virtual sensor; a power link asks for the power sensor. *)
Fixpoint link_targets (l : list thermal_sensor_target_t) (index : Z) : EM (list link_sensor_t * Z) :=
  match l with
  | [] => ret ([], index)
  | t :: rest =>
      p <- on_mach (gets (search_sensor "rapl_pkg_power")) ;;
      index <- (if truthy (tt_power_sensor t) && bool_decide (p = None) then add_power_sensor index else ret index) ;;
      target <- on_mach (gets (search_sensor (tt_name t))) ;;
      let* (links, index) := link_targets rest index in
      ret (mk_link target (tt_coeff t) (tt_offset t) (double_of_Z 0) (tt_power_sensor t) :: links, index)
  end.

(** A virtual sensor of the configuration.  It has the number the power sensor
    may have taken in between. *)
Definition add_virtual (c : thermal_sensor_t) (index : Z) : EM Z :=
  let* (s, index') :=
    match ts_link_sensors c with
    | [] =>
        e <- get ;;
        let link := tl_name (ts_sensor_link c) in
        ret (new_virtual index (ts_name c) link (search_sensor link (mach e)) (m_uninit (mach e))
               (tl_multiplier (ts_sensor_link c)) (tl_offset (ts_sensor_link c)), index)
    | l =>
        let* (links, index') := link_targets l index in
        ret ((new_virtual index (ts_name c) "" None 0 (double_of_Z 0) (double_of_Z 0))
               <| s_virtual := Some (mk_virtual links (double_of_Z 0) (double_of_Z 0) false false false 0
                                       def_polling_period []) |>, index')
    end in
  let table := map (fun p => mk_polling_entry (sp_virtual_temp p) (sp_sample_period p)) (ts_polling_table c) in
  let s := s <| s_virtual := (fun v => v <| polling_table := table |>) <$> s_virtual s |> in
  on_mach (modify (fun m => m <| m_sensors := m_sensors m ++ [s] |>)) ;;
  ret (i32 (index' + 1)).

Definition add_raw (c : thermal_sensor_t) (index : Z) : EM Z :=
  if negb (starts_with (ts_path c) "/sys/") then ret index else
  ok <- try_sensor (new_sensor index (ts_path c) (ts_name c) SENSOR_TYPE_RAW) ;;
  ret (if ok : bool then i32 (index + 1) else index).

Definition has_bit (mask bit : Z) : bool := truthy (Z.land mask bit).

Definition add_config_sensor (c : thermal_sensor_t) (index : Z) : EM Z :=
  i <- on_mach (gets (search_sensor (ts_name c))) ;;
  match i with
  | Some p =>
      (if has_bit (ts_mask c) SENSOR_DEF_BIT_PATH
       then on_mach (set_sensor p (sensor_update_path (ts_path c))) else ret tt) ;;
      (if has_bit (ts_mask c) SENSOR_DEF_BIT_ASYNC_CAPABLE
       then on_mach (set_sensor p (fun x => x <| async_capable := ts_async_capable c |>)) else ret tt) ;;
      ret index
  | None => if ts_virtual_sensor c then add_virtual c index else add_raw c index
  end.

Fixpoint add_config_sensors (l : list thermal_sensor_t) (index : Z) : EM Z :=
  match l with
  | [] => ret index
  | c :: rest => index <- add_config_sensor c index ;; add_config_sensors rest index
  end.

Definition set_sensor_count (index : Z) : EM unit := mode (fun e => e <| current_sensor_index := index |>).

(** Lines 78-163: what sysfs offers. *)
Definition sysfs_sensors : EM (option Z) :=
  thd_read_default_thermal_sensors ;;
  e <- get ;;
  set_async "pkg-temp-0" ;; set_async "x86_pkg_temp" ;; set_async "soc_dts0" ;;
  r <- dts_sensors dts_bases (current_sensor_index e) ;;
  match r with
  | None => ret None
  | Some index =>
      debug <- on_w (gets (debug_mode_on TDRUNDIR)) ;;
      index <- (if debug : bool then add_power_sensor index else ret index) ;;
      set_sensor_count index ;; ret (Some index)
  end.

Definition default_read_sensors : SM (option Z) :=
  r <- start_engine sysfs_sensors ;;
  match r with
  | None => ret (Some THD_ERROR)
  | Some index =>
      defined (config_list ti_sensors) (fun l =>
      start_engine (index <- add_config_sensors l index ;; set_sensor_count index) ;;
      ret (Some THD_SUCCESS))
  end.

(** * Zones *)

(** ** The processor zone of the INT340x drivers *)

(** A passive trip that may stand for the processor's. *)
Definition usable_passive (t : trip_point) : bool :=
  is_type (t_type t) PASSIVE && (temp t >? processor_thermal_min_passive).

(** The critical temperature ACPI gives; 0 without one. *)
Definition acpi_critical (e : engine device W) : Z :=
  match search_zone "acpitz" e with
  | None => 0
  | Some i =>
      match List.find (fun t => is_type (t_type t) CRITICAL) (trip_points (default (new_zone 0 "" SENSOR_INDEPENDENT) (zones e !! i))) with
      | Some t => temp t
      | None => 0
      end
  end.

(** A passive trip within 5 C of the critical one goes 15 C below it. *)
Definition below_critical (critical passive : Z) : Z :=
  if truthy critical && (u32 (passive + 5 * 1000) >=? critical) then u32 (critical - 15 * 1000) else passive.

Definition processor_cdevs : list string := ["rapl_controller"; "intel_pstate"; "intel_powerclamp"; "Processor"].

Definition bind_processor (name : string) : ZM unit :=
  c <- on_machine (gets (search_cdev name)) ;;
  match c with
  | Some p => bind_cooling_device PASSIVE 0 p default_influence 0 0 0 0 0 0 ;; ret tt
  | None => ret tt
  end.

Definition processor_zone : EM (option nat) :=
  e <- get ;;
  supported <- on_w (gets (fun w => match_supported_uuid (new_INT3400 (uuid e) w) w)) ;;
  ret match (if supported =? THD_SUCCESS then search_zone "B0D4" e else None) with
      | Some i => Some i
      | None => match search_zone "B0DB" e with
                | Some i => Some i
                | None => search_zone "TCPU" e
                end
      end.

(** [thd_ignore_default_control] is a global option. *)
Definition add_int340x_processor_dev (thd_ignore_default_control : bool) : EM bool :=
  if thd_ignore_default_control then ret false else
  zi <- processor_zone ;;
  match zi with
  | None => ret false
  | Some i =>
      e <- get ;;
      let critical := acpi_critical e in
      on_zone i false (
        z <- getz ;;
        match list_find (fun t => usable_passive t = true) (trip_points z) with
        | None => ret false
        | Some (k, t) =>
            modz (fun z => z <| trip_points :=
              <[k := t <| TripPoint.temp := below_critical critical (temp t) |>]> (trip_points z) |>) ;;
            set_zone_active created ;;
            mfor processor_cdevs bind_processor ;;
            ret true
        end)
  end.

(** ** The processor zone of the digital thermal sensors *)

Definition push_zone (z : zone) (e : engine device W) : engine device W := e <| zones := zones e ++ [z] |>.

(** A zone that joins, active, when its update succeeds, and is destroyed
    otherwise. *)
Definition try_zone (z : zone) (update : ZM Z) : EM bool := fun e =>
  let '(r, (z, s)) := update (z, mach e) in
  if r =? THD_SUCCESS then
    let '(_, (z, s)) := set_zone_active created (z, s) in (true, push_zone z (e <| mach := s |>))
  else let '(_, s) := destroy_zone z s in (false, e <| mach := s |>).

Fixpoint cpu_zone_entries (rt : bool) (base : string) (names : list string) (index : Z) (made : bool) : EM (Z * bool) :=
  match names with
  | [] => ret (index, made)
  | name :: rest =>
      if negb (dts_entry name) then cpu_zone_entries rt base rest index made else
      core <- on_w (is_coretemp (base +:+ name)) ;;
      if negb core then cpu_zone_entries rt base rest index made else
      let path := base +:+ name +:+ "/" in
      ok <- try_zone (new_zone_cpu index path (atoi (after 9 name))) (cpu_zone_update TDCONFDIR TDRUNDIR rt) ;;
      if ok : bool then cpu_zone_entries rt base rest (i32 (index + 1)) true
      else cpu_zone_entries rt base rest index made
  end.

Fixpoint cpu_zones (rt : bool) (bases : list string) (index : Z) : EM Z :=
  match bases with
  | [] => ret index
  | base :: rest =>
      names <- on_w (gets (k_readdir base)) ;;
      let* (index, made) := cpu_zone_entries rt base (default [] names) index false in
      if made : bool then ret index else cpu_zones rt rest index
  end.

(** ** Zones of the configuration *)

(** A trip under construction takes the devices that exist; [true] when there
    was one. *)
Fixpoint config_trip_cdevs (l : list trip_cdev_t) (bound : bool) : State (trip_point * machine device W) bool :=
  match l with
  | [] => ret bound
  | c :: rest =>
      d <- onm (gets (search_cdev (tcd_type c))) ;;
      match d with
      | Some p =>
          thd_trip_point_add_cdev p (tcd_influence c) (tcd_sampling_period c) (tcd_target_state_valid c)
            (tcd_target_state c) (Some (tcd_pid_param c)) (tcd_min_max_valid c) (tcd_target_min_state c)
            (tcd_target_max_state c) ;;
          config_trip_cdevs rest true
      | None => config_trip_cdevs rest bound
      end
  end.

(** The trip a configuration adds to an existing zone. *)
Definition config_trip (c : trip_point_t) : State (trip_point * machine device W) bool :=
  (if truthy (dep_dependency (tp_dependency c))
   then set_dependency (dep_cdev (tp_dependency c)) (dep_state (tp_dependency c)) else ret tt) ;;
  config_trip_cdevs (tp_cdev_trips c) false.

(** Without a temperature the devices join an existing trip of the type. *)
Fixpoint bind_config_cdevs (type : trip_point_type_t) (l : list trip_cdev_t) (activate : bool) : ZM bool :=
  match l with
  | [] => ret activate
  | c :: rest =>
      d <- on_machine (gets (search_cdev (tcd_type c))) ;;
      match d with
      | Some p =>
          r <- bind_cooling_device type 0 p (tcd_influence c) (tcd_sampling_period c) (tcd_target_state_valid c)
            (tcd_target_state c) (tcd_min_max_valid c) (tcd_target_min_state c) (tcd_target_max_state c) ;;
          bind_config_cdevs type rest (activate || (r =? THD_SUCCESS))
      | None => bind_config_cdevs type rest activate
      end
  end.

Definition new_config_trip (c : trip_point_t) (sensor_id : Z) (z : zone) : trip_point :=
  new_trip (Z.of_nat (length (trip_points z))) (tp_trip_pt_type c) (tp_temperature c) (tp_hyst c) (z_index z)
    sensor_id (tp_control_type c).

(** One trip of the configuration in a zone that exists; [true] when a device
    was bound. *)
Definition merge_trip (c : trip_point_t) : ZM bool :=
  sn <- on_machine (gets (search_sensor (tp_sensor_type c))) ;;
  match sn with
  | None =>
      z <- getz ;;
      (if truthy (tp_temperature c) then update_trip_temp (new_config_trip c (-1) z) else ret tt) ;;
      ret false
  | Some p =>
      modz (bind_sensor p) ;;
      if truthy (tp_temperature c) then
        z <- getz ;;
        id <- sensor_index p ;;
        let* (bound, t) := on_machine (fun s =>
          let '(b, (t, s')) := config_trip c (new_config_trip c id z, s) in ((b, t), s')) in
        (if bound : bool then modz (fun z => z <| zone_cdev_binded_status := true |>) else ret tt) ;;
        add_trip t 0 ;;
        ret bound
      else bind_config_cdevs (tp_trip_pt_type c) (tp_cdev_trips c) false
  end.

Fixpoint merge_trips (l : list trip_point_t) (activate : bool) : ZM bool :=
  match l with
  | [] => ret activate
  | c :: rest => b <- merge_trip c ;; merge_trips rest (activate || b)
  end.

Definition merge_zone (c : thermal_zone_t) : ZM unit :=
  activate <- merge_trips (tz_trip_pts c) false ;;
  if activate : bool then set_zone_active created else ret tt.

Definition inactivate_cpu : EM unit :=
  e <- get ;;
  match search_zone "cpu" e with
  | Some i => on_zone i tt set_zone_inactive
  | None => ret tt
  end.

(** The default processor zone gives way to one of the configuration. *)
Definition disable_cpu_zone (conf_auto : Z) (c : thermal_zone_t) : EM unit :=
  if truthy conf_auto then inactivate_cpu else
  e <- get ;;
  match search_zone (tz_type c) e with
  | None => ret tt
  | Some i =>
      if negb (from_option zone_active false (zones e !! i)) then ret tt else
      mfor (tz_trip_pts c) (fun t =>
        e <- get ;;
        match search_sensor (tp_sensor_type t) (mach e) with
        | Some p => if String.eqb (s_type_str (sensor_at p (mach e))) "B0D4" then inactivate_cpu else ret tt
        | None => ret tt
        end)
  end.

Definition add_config_zone (conf_auto : Z) (c : thermal_zone_t) (index : Z) : EM Z :=
  e <- get ;;
  index <-
    match search_zone (tz_type c) e with
    | Some i => on_zone i tt (merge_zone c) ;; ret index
    | None =>
        ok <- try_zone (new_zone_generic index (tz_type c)) (generic_zone_update TDRUNDIR (Some c)) ;;
        ret (if ok : bool then i32 (index + 1) else index)
    end ;;
  disable_cpu_zone conf_auto c ;; ret index.

Fixpoint add_config_zones (conf_auto : Z) (l : list thermal_zone_t) (index : Z) : EM Z :=
  match l with
  | [] => ret index
  | c :: rest => index <- add_config_zone conf_auto c index ;; add_config_zones conf_auto rest index
  end.

Definition set_zone_count (index : Z) : EM unit := mode (fun e => e <| current_zone_index := index |>).

(** Lines 407-466: the zones of sysfs and the processor. *)
Definition sysfs_zones (ignore rt : bool) : EM Z :=
  thd_read_default_thermal_zones TDRUNDIR created ;;
  valid_int340x <- add_int340x_processor_dev ignore ;;
  e <- get ;;
  let index := current_zone_index e in
  index <- (if negb ignore && negb valid_int340x && bool_decide (search_zone "cpu" e = None)
            then cpu_zones rt dts_bases index else ret index) ;;
  set_zone_count index ;; ret index.

(** The zone that plots power, in debug mode. *)
Definition power_zone (index : Z) : EM unit :=
  debug <- on_w (gets (debug_mode_on TDRUNDIR)) ;;
  if negb debug then ret tt else
  ok <- try_zone (new_zone_rapl_power index) (rapl_power_zone_update TDRUNDIR) ;;
  set_zone_count (if ok : bool then i32 (index + 1) else index).

Definition default_read_zones (ignore : bool) : SM (option Z) :=
  u <- get_setup ;;
  index <- start_engine (sysfs_zones ignore (rt_kernel u)) ;;
  defined (config_list ti_zones) (fun l =>
  u <- get_setup ;;
  start_engine (
    index <- add_config_zones (auto_config (parser u)) l index ;;
    set_zone_count index ;;
    power_zone index) ;;
  n <- start_engine (gets (fun e => length (zones e))) ;;
  ret (Some (if (n =? 0)%nat then THD_FATAL_ERROR else THD_SUCCESS))).

(** * Cooling devices *)

Definition on_device {A} (i : nat) (dflt : A) (m : State (cdev device * W) A) : EM A := on_mach (on_cdev i dflt m).

(** A device joins when its update succeeds. *)
Definition add_device (d : cdev device) : EM bool :=
  ok <- try_cdev d ;;
  if ok : bool then
    mode (fun e => e <| current_cdev_index := i32 (current_cdev_index e + 1) |>) ;; ret true
  else ret false.

Definition next_cdev : EM Z := gets (fun e => current_cdev_index e).

(** A value of the configuration, or that percentage of the current state. *)
Definition config_value (percent : bool) (v : Z) : State (cdev device * W) Z :=
  if percent then s <- m_get_curr_state ;; ret (cdiv (i32 (s * v)) 100) else ret v.

(** Lines 643-681: the members a configuration names are set. *)
Definition configure_cdev (c : cooling_dev_t) : State (cdev device * W) unit :=
  let on_bit b (m : State (cdev device * W) unit) := if has_bit (cd_mask c) b then m else ret tt in
  let percent := has_bit (cd_mask c) CDEV_DEF_BIT_UNIT_VAL
                 && match cd_unit_val c with RELATIVE_PERCENTAGES => true | ABSOULUTE_VALUE => false end in
  on_bit CDEV_DEF_BIT_AUTO_DOWN (modd (fun d => d <| auto_down_adjust := cd_auto_down_control c |>)) ;;
  on_bit CDEV_DEF_BIT_STEP (v <- config_value percent (cd_inc_dec_step c) ;; modd (fun d => d <| inc_dec_val := v |>)) ;;
  on_bit CDEV_DEF_BIT_MIN_STATE (v <- config_value percent (cd_min_state c) ;; thd_cdev_set_min_state_param v) ;;
  on_bit CDEV_DEF_BIT_MAX_STATE (v <- config_value percent (cd_max_state c) ;; modd (fun d => d <| max_state := v |>)) ;;
  on_bit CDEV_DEF_BIT_READ_BACK (modd (fun d => d <| read_back := cd_read_back c |>)) ;;
  on_bit CDEV_DEF_BIT_DEBOUNCE_VAL (modd (fun d => d <| debounce_interval := cd_debounce_interval c |>)) ;;
  on_bit CDEV_DEF_BIT_PID_PARAMS (modd (fun d => d <| pid_enable := true |>
    <| pid_ctrl := set_pid_param (Kp (cd_pid c)) (Ki (cd_pid c)) (Kd (cd_pid c)) (pid_ctrl d) |>)) ;;
  on_bit CDEV_DEF_BIT_WRITE_PREFIX (modd (fun d => d <| write_prefix := cd_write_prefix c |>)).

(** The device a configuration means: one of the type, at the path if a path
    is given. *)
Definition present_cdev (c : cooling_dev_t) (s : machine device W) : option nat :=
  match search_cdev (cd_type_string c) s with
  | Some i =>
      let base := from_option (fun d => base_path (cdev_sysfs d)) "" (m_cdevs s !! i) in
      if negb (String.eqb (cd_path_str c) "") && negb (String.eqb (cd_path_str c) base) then None else Some i
  | None => None
  end.

Definition add_replace_cdev (c : cooling_dev_t) : EM Z :=
  e <- get ;;
  match present_cdev c (mach e) with
  | Some i => on_device i tt (configure_cdev c) ;; ret THD_SUCCESS
  | None =>
      ok <- add_device ((new_cdev (current_cdev_index e) (cd_path_str c) (GenDevice GenSysfsCdev))
                          <| type_str := cd_type_string c |>) ;;
      if negb ok then ret THD_ERROR else
      on_device (length (m_cdevs (mach e))) tt (configure_cdev c) ;; ret THD_SUCCESS
  end.

Definition named_device (type : string) (d : cdev device) : cdev device := d <| type_str := type |>.
Definition set_alias (i : nat) (alias : string) : EM unit :=
  on_device i tt (modd (fun d => d <| alias_str := alias |>)).

(** The package device of the RAPL driver; its position when it joined. *)
Definition add_rapl : EM (option nat) :=
  e <- get ;;
  let i := length (m_cdevs (mach e)) in
  ok <- add_device ((named_device "rapl_controller" (upcast RaplDevice (new_rapl (current_cdev_index e) 0 rapl_base)))
                      <| alias_str := "B0D4" |>) ;;
  ret (if ok : bool then Some i else None).

Definition rapl_mmio_base : string := "/sys/devices/virtual/powercap/intel-rapl-mmio/intel-rapl-mmio:0/".
Definition msr_off : adaptive_target := mk_adaptive_target 0 "" "" 0 "PL1MAX" "200000".

(** The memory-mapped one takes over the alias; in adaptive mode the limit of
    the other is raised out of the way. *)
Definition add_rapl_mmio (rapl : option nat) (adaptive : bool) : EM (option unit) :=
  e <- get ;;
  let i := length (m_cdevs (mach e)) in
  ok <- try_cdev (named_device "rapl_controller_mmio"
                    (upcast RaplDevice (new_rapl (current_cdev_index e) 0 rapl_mmio_base))) ;;
  if negb ok then ret (Some tt) else
  r <- match rapl with
       | Some p =>
           set_alias p "" ;;
           if adaptive then on_device p (Some tt) (Devices.set_adaptive_target msr_off) else ret (Some tt)
       | None => ret (Some tt)
       end ;;
  set_alias i "B0D4" ;;
  mode (fun e => e <| current_cdev_index := i32 (current_cdev_index e + 1) |>) ;;
  ret r.

Definition add_backlight : EM unit :=
  e <- get ;;
  match search_cdev "LCD" (mach e) with
  | Some _ => ret tt
  | None =>
      d <- on_w (fun w => new_backlight (current_cdev_index e) w) ;;
      add_device (named_device "LCD" (upcast BacklightDevice d)) ;; ret tt
  end.

(** Lines 705-783, but for the RAPL devices: what the processor offers. *)
Definition add_processor_devices : EM unit :=
  i <- next_cdev ;;
  add_device (named_device "intel_pstate" (upcast PstateDevice (new_pstate i))) ;;
  mfor cpu_def_cooling_devices (fun c => add_replace_cdev c ;; ret tt) ;;
  i <- next_cdev ;;
  add_device (named_device "cpufreq" (upcast CpufreqDevice (new_cpufreq i (-1)))) ;;
  i <- next_cdev ;;
  add_device (named_device "rapl_controller_dram" (upcast RaplDramDevice (new_rapl_dram i 0))) ;;
  add_backlight.

(** [disable_active_power] is a global option. *)
Definition default_read_cdevs (disable_active_power force_mmio : bool) : SM (option Z) :=
  start_engine (thd_read_default_cooling_devices (SysfsDevice SysfsCdev)) ;;
  rapl <- start_engine add_rapl ;;
  u <- get_setup ;;
  defined (if negb disable_active_power && ((matched_thermal_info_index (parser u) >=? 0) || force_mmio)
           then start_engine (add_rapl_mmio rapl (adaptive_mode u)) else ret (Some tt)) (fun _ =>
  start_engine add_processor_devices ;;
  defined (config_list ti_cooling_devs) (fun l =>
  start_engine (mfor l (fun c => add_replace_cdev c ;; ret tt)) ;;
  ret (Some THD_SUCCESS))).

(** * Workarounds *)

Definition tcc_file : string := "/sys/bus/pci/devices/0000:00:04.0/tcc_offset_degree_celsius".

(** The offset of the throttling temperature is brought down to 5 C. *)
Definition workaround_tcc_offset (matched_index : Z) (m : default_members) : State (csys_fs * W) default_members :=
  let settled := m <| tcc_offset_checked := 1 |> <| tcc_offset_low := 1 |> in
  if truthy (tcc_offset_checked m) && truthy (tcc_offset_low m) then ret m else
  if matched_index <? 0 then ret settled else
  ex <- exists_path tcc_file ;;
  if negb ex then ret settled else
  let* (n, tcc) := read_int tcc_file 0 in
  if n <=? 0 then ret settled else
  if tcc >? 10 then
    r <- write_uint tcc_file 5 ;;
    ret ((if r <? 0 then m <| tcc_offset_low := 1 |> else m) <| tcc_offset_checked := 1 |>)
  else
    ret ((if truthy (tcc_offset_checked m) then m else m <| tcc_offset_low := 1 |>) <| tcc_offset_checked := 1 |>).

(** Every eighth call runs; [rapl_mmio] is the platform's
    [workaround_rapl_mmio_power]. *)
Definition default_workarounds (workaround_enabled disable_active_power : bool) (rapl_mmio : EM unit)
    (m : default_members) : SM default_members :=
  if negb workaround_enabled then ret m else
  if negb disable_active_power && negb (truthy (workaround_interval m)) then
    start_engine rapl_mmio ;;
    u <- get_setup ;;
    m <- start_engine (on_w (with_fs "" (workaround_tcc_offset (matched_thermal_info_index (parser u)) m))) ;;
    ret (m <| workaround_interval := 7 |>)
  else ret (m <| workaround_interval := i32 (workaround_interval m - 1) |>).

(** * Creation *)

Section create.
(** The global options, the platform check and the operating system. *)
Context (ignore_default_control disable_active_power power_floor_enable : bool) (thd_poll_interval : Z).
Context (check_cpu_id : SM bool) (os : os_answers).

Definition default_init (force_mmio ignore_cpuid_check adaptive : bool) : SM (option Z) :=
  thd_engine_init TDCONFDIR TDRUNDIR generate_conf uninit_pid created default_read_sensors
    (default_read_cdevs disable_active_power force_mmio) (default_read_zones ignore_default_control)
    check_cpu_id power_floor_enable ignore_cpuid_check adaptive.

Definition parse_engine_features : SM (option unit) :=
  u <- get_setup ;;
  p <- start_engine (on_w (gets (fun w => thd_parse_features TDCONFDIR w (features_parser u)))) ;;
  match p with
  | Some p => set_setup (fun u => u <| features_parser := p |>) ;; ret (Some tt)
  | None => ret None
  end.

(** [thd_engine_create_default_engine], on a fresh engine. *)
Definition thd_engine_create_default_engine (ignore_cpuid_check exclusive_control : bool)
    (conf_file : option string) : SM (option Z) :=
  (if exclusive_control then start_engine (mode (fun e => e <| control_mode := EXCLUSIVE |>)) else ret tt) ;;
  defined parse_engine_features (fun _ =>
  start_engine (on_mach (modify (fun s => s <| m_poll_interval_sec := thd_poll_interval |>))) ;;
  match conf_file with Some f => set_setup (fun u => u <| config_file := f |>) | None => ret tt end ;;
  defined (default_init (force_mmio_rapl new_default) ignore_cpuid_check false) (fun res =>
  if negb (res =? THD_SUCCESS) then ret (Some res)
  else thd_engine_start TDCONFDIR TDRUNDIR generate_conf uninit_pid os)).
End create.
End default.
