(* ===== verification/EngineDefaultTheorems.v ===== *)
(** Theorems about what the default engine gathers: a configured device changes
    only the device it names, the processor's trip stays below the critical
    temperature, and a virtual sensor with a power link shares its number. *)
From stdpp Require Import base gmap strings list.
From Stdlib Require Import ZArith Lia.
From Stdlib Require String.
From S2P Require Import Prelude CString SysFs CFloat Pid Cdev CdevDevices CdevCpufreq CdevRapl Devices PowerMeter Machine Preference TripPoint TripTheorems Xml Parse Zone ZoneKinds Engine EngineUser UserTheorems EngineStart EngineAdaptive EngineDefault Witnesses.

Open Scope string_scope.
Open Scope list_scope.
Open Scope Z_scope.

Section default_theorems.
Context {W : Type} `{Kernel W} `{!RaplEngine W} (garbage : Z).
#[local] Existing Instance all_devices.
Abbreviation devices := (all_devices garbage).

Lemma on_mach_gets {A} (f : machine device W -> A) (e : engine device W) : on_mach (gets f) e = (f (mach e), e).
Proof. by destruct e. Qed.

(** * Cooling devices *)

(** The devices of [e'] are those of [e] but for position [i], plus at most
    [n] new ones. *)
Definition only_at (i : nat) (n : nat) (e e' : engine device W) : Prop :=
  (length (m_cdevs (mach e')) <= length (m_cdevs (mach e)) + n)%nat /\
  forall j, j <> i -> (j < length (m_cdevs (mach e)))%nat -> m_cdevs (mach e') !! j = m_cdevs (mach e) !! j.

Lemma on_cdev_length {A} i dflt (m : State (cdev device * W) A) (s : machine device W) :
  length (m_cdevs (snd (on_cdev i dflt m s))) = length (m_cdevs s).
Proof.
  unfold on_cdev. destruct (m_cdevs s !! i); [|done]. destruct (m _) as [a [d' w']]. cbn. apply length_insert.
Qed.

Lemma on_device_only {A} i dflt (m : State (cdev device * W) A) (e : engine device W) :
  only_at i 0 e (snd (on_device i dflt m e)).
Proof.
  unfold on_device, on_mach, only_at. pose proof (on_cdev_length i dflt m (mach e)) as Hl.
  pose proof (fun j => on_cdev_other i j dflt m (mach e)) as Ho.
  destruct (on_cdev i dflt m (mach e)) as [a s]. cbn in *. split; [lia|]. auto.
Qed.

(** Trying a device leaves those before it alone. *)
Lemma try_cdev_only d (e : engine device W) :
  let '(ok, e') := @try_cdev device W _ devices d e in
  only_at (length (m_cdevs (mach e))) 1 e e' /\
  (ok = false -> m_cdevs (mach e') = m_cdevs (mach e)).
Proof.
  unfold try_cdev. unfold bind at 1, on_mach at 1, modify. unfold bind at 1, get.
  set (e1 := e <| mach := _ |>).
  assert (Hl : pred (length (m_cdevs (mach e1))) = length (m_cdevs (mach e))) by (cbn; rewrite length_app; cbn; lia).
  rewrite Hl. set (i := length (m_cdevs (mach e))).
  assert (H1 : m_cdevs (mach e1) = m_cdevs (mach e) ++ [d]) by done. clearbody e1. clear Hl.
  pose proof (on_device_only i THD_ERROR (@m_update device W devices) e1) as [Hn Ho]. unfold on_device in Hn, Ho.
  unfold bind at 1. destruct (on_mach _ e1) as [r e2]. cbn [snd] in *.
  assert (Hpre : forall j, (j < i)%nat -> m_cdevs (mach e2) !! j = m_cdevs (mach e) !! j).
  { intros j Hj. rewrite Ho, H1; [by apply lookup_app_l|lia|rewrite H1, length_app; lia]. }
  rewrite H1, length_app in Hn. cbn in Hn.
  destruct (r =? THD_SUCCESS).
  - unfold ret. split; [|done]. split; [lia|]. intros j _ Hj. by apply Hpre.
  - unfold bind, get, on_w, on_mach, on_world, modify, ret. cbn.
    assert (Ht : take i (m_cdevs (mach e2)) = m_cdevs (mach e)).
    { apply list_eq. intros j. destruct (decide (j < i)%nat) as [Hj|Hj].
      - rewrite lookup_take_lt by done. by apply Hpre.
      - rewrite lookup_take_ge by lia. symmetry. apply lookup_ge_None. unfold i in Hj. lia. }
    rewrite Ht. split; [|done]. split; [cbn; lia|done].
Qed.

(** The position a configured device has or will get. *)
Definition config_position (c : cooling_dev_t) (e : engine device W) : nat :=
  default (length (m_cdevs (mach e))) (present_cdev c (mach e)).

Lemma add_replace_position c (e : engine device W) :
  let '(r, e') := add_replace_cdev garbage c e in
  only_at (config_position c e) 1 e e' /\
  (r <> THD_SUCCESS -> m_cdevs (mach e') = m_cdevs (mach e)).
Proof.
  unfold add_replace_cdev, config_position, bind at 1, get.
  destruct (present_cdev c (mach e)) as [i|]; cbn [default from_option].
  - unfold bind, ret. pose proof (on_device_only i tt (configure_cdev garbage c) e) as [Hn Ho].
    destruct (on_device _ _ _ _) as [u e']. cbn [snd] in *. split; [|done]. split; [lia|done].
  - unfold bind at 1, add_device, bind at 1.
    set (d := _ <| type_str := _ |>). pose proof (try_cdev_only d e) as Ht.
    destruct (@try_cdev device W _ devices d e) as [[|] e1]; destruct Ht as [[Hn Ho] Hf].
    + unfold bind, mode, modify, ret. cbn [negb]. set (e2 := e1 <| current_cdev_index := _ |>).
      set (i := length (m_cdevs (mach e))) in *.
      pose proof (on_device_only i tt (configure_cdev garbage c) e2) as [Hn2 Ho2].
      destruct (on_device _ _ _ e2) as [u e']. cbn [snd] in *. split; [|done].
      change (m_cdevs (mach e2)) with (m_cdevs (mach e1)) in *. split; [lia|]. intros j Hj Hl.
      destruct (decide (j < length (m_cdevs (mach e1)))%nat) as [H1|H1]; [by rewrite Ho2, Ho|].
      specialize (Ho j Hj Hl). apply lookup_lt_is_Some_2 in Hl as [x Hx]. rewrite Hx in Ho.
      apply lookup_lt_Some in Ho. lia.
    + unfold ret. cbn. split; [split; [rewrite Hf by done; lia|intros; by rewrite Hf]|auto].
Qed.

(** The device a configuration names: its type or its alias, and its path when
    the configuration gives one. *)
Definition names (c : cooling_dev_t) (d : cdev device) : Prop :=
  (type_str d = cd_type_string c \/ alias_str d = cd_type_string c) /\
  (cd_path_str c = "" \/ cd_path_str c = base_path (cdev_sysfs d)).

Lemma config_position_named c (e : engine device W) d :
  m_cdevs (mach e) !! config_position c e = Some d -> names c d.
Proof.
  unfold config_position, present_cdev, search_cdev.
  destruct (list_find _ _) as [[i d']|] eqn:E; cbn [fmap option_fmap option_map fst default from_option];
    [|intros Hd; apply lookup_lt_Some in Hd; lia].
  apply list_find_Some in E as (Hi & Ht & _). rewrite Hi. cbn [from_option].
  destruct (negb _ && negb _) eqn:Ep; [intros Hd; apply lookup_lt_Some in Hd; cbn in Hd; lia|].
  cbn. rewrite Hi. intros [= <-]. apply orb_true_iff in Ht. apply andb_false_iff in Ep.
  rewrite !String.eqb_eq in Ht. rewrite !negb_false_iff, !String.eqb_eq in Ep. done.
Qed.

(** A device of the configuration changes only a device it names, by type
    or alias and path: every other one keeps its state, at most one device is
    added, and a device that cannot be used leaves the vector as it was. *)
Theorem add_replace_touches_one c (e : engine device W) :
  let '(r, e') := add_replace_cdev garbage c e in
  exists i,
    (forall d, m_cdevs (mach e) !! i = Some d -> names c d) /\
    (forall j, j <> i -> (j < length (m_cdevs (mach e)))%nat -> m_cdevs (mach e') !! j = m_cdevs (mach e) !! j) /\
    (length (m_cdevs (mach e')) <= length (m_cdevs (mach e)) + 1)%nat /\
    (r <> THD_SUCCESS -> m_cdevs (mach e') = m_cdevs (mach e)).
Proof.
  pose proof (add_replace_position c e) as Hp. destruct (add_replace_cdev garbage c e) as [r e'].
  destruct Hp as [[Hn Ho] Hf]. exists (config_position c e). split_and!; try done.
  intros d. apply config_position_named.
Qed.

(** * Sensors *)

(** With a power sensor present, links add no sensor. *)
Lemma link_targets_plain l index (e : engine device W) p :
  search_sensor "rapl_pkg_power" (mach e) = Some p ->
  exists links, link_targets l index e = ((links, index), e).
Proof.
  intros Hp. induction l as [|t l [links IH]]; cbn [link_targets]; [by eexists|].
  rewrite (bind_eq _ _ _ _ _ (on_mach_gets _ e)), Hp.
  rewrite bool_decide_eq_false_2, andb_false_r by done. unfold bind at 1, ret at 1.
  rewrite (bind_eq _ _ _ _ _ (on_mach_gets _ e)). rewrite (bind_eq _ _ _ _ _ IH). by eexists.
Qed.

Lemma search_power_sensor (m : machine device W) index :
  exists p, search_sensor "rapl_pkg_power" (m <| m_sensors := m_sensors m ++ [new_sensor_rapl_power index] |>) = Some p.
Proof.
  unfold search_sensor. destruct (list_find _ _) as [[i x]|] eqn:E; [by eexists|].
  apply list_find_None in E. cbn in E. apply Forall_app in E as [_ E]. inversion_clear E. done.
Qed.

(** A virtual sensor whose first link asks for the power sensor, when that
    sensor is usable and not there yet, gets the same number as it: both join
    the vector with the number that was free. *)
Theorem power_link_shares_number c t rest index (e : engine device W) :
  ts_link_sensors c = t :: rest -> tt_power_sensor t <> 0 ->
  search_sensor "rapl_pkg_power" (mach e) = None ->
  fst (try_sensor (new_sensor_rapl_power index) e) = true ->
  exists v, m_sensors (mach (snd (add_virtual c index e))) =
      m_sensors (mach e) ++ [new_sensor_rapl_power index; v] /\
    s_index v = s_index (new_sensor_rapl_power index) /\ s_type_str v = ts_name c.
Proof.
  intros Hl Ht Hs Ho. unfold add_virtual. rewrite Hl. cbn [link_targets].
  set (s0 := new_sensor_rapl_power index) in *. set (e1 := e <| mach := (mach e) <| m_sensors := m_sensors (mach e) ++ [s0] |> |>).
  assert (E1 : add_power_sensor index e = (i32 (index + 1), e1)).
  { unfold add_power_sensor, bind. pose proof (try_raw_sensor s0 e eq_refl eq_refl) as Hr. fold s0.
    destruct (try_sensor s0 e) as [ok e']. cbn in Ho. subst ok. by rewrite Hr. }
  destruct (search_power_sensor (mach e) index) as [p Hp].
  destruct (link_targets_plain rest (i32 (index + 1)) e1 p Hp) as [links El].
  assert (Hlink : exists l', (p <- on_mach (gets (search_sensor "rapl_pkg_power"));;
      index <- (if truthy (tt_power_sensor t) && bool_decide (p = None) then add_power_sensor index else ret index);;
      target <- on_mach (gets (search_sensor (tt_name t)));;
      let* (links, index) := link_targets rest index in
      ret (mk_link target (tt_coeff t) (tt_offset t) (double_of_Z 0) (tt_power_sensor t) :: links, index)) e =
      ((l', i32 (index + 1)), e1)).
  { rewrite (bind_eq _ _ _ _ _ (on_mach_gets _ e)), Hs.
    assert (Htt : truthy (tt_power_sensor t) = true) by (unfold truthy; by rewrite (proj2 (Z.eqb_neq _ _) Ht)).
    rewrite Htt, bool_decide_eq_true_2 by done. cbn [andb]. rewrite (bind_eq _ _ _ _ _ E1).
    rewrite (bind_eq _ _ _ _ _ (on_mach_gets _ e1)). rewrite (bind_eq _ _ _ _ _ El). by eexists. }
  destruct Hlink as [l' Hlink].
  unfold bind at 1. unfold bind at 1. cbv beta in Hlink |- *. rewrite Hlink. cbn.
  eexists. split; [by rewrite <- app_assoc|done].
Qed.

(** * The processor zone *)

(** The activity of a zone and the kind and temperature of its trips. *)
Definition outline (zs : zone * machine device W) : bool * list (trip_point_type_t * Z) :=
  (zone_active (fst zs), map (fun t => (t_type t, temp t)) (trip_points (fst zs))).

Lemma outline_machine {A} (m : State (machine device W) A) : preserves outline (on_machine m).
Proof. intros [z s]. unfold on_machine. by destruct (m s). Qed.

Lemma outline_on_trip i c p q r st pid a b d (zs : zone * machine device W) :
  outline (snd (on_trip i tt (thd_trip_point_add_cdev c p q r st pid a b d) zs)) = outline zs.
Proof.
  destruct zs as [z s]. unfold on_trip. destruct (trip_points z !! i) as [t|] eqn:E; [|done].
  unfold thd_trip_point_add_cdev, trip_cdev_add, outline. cbn. f_equal.
  revert i E. induction (trip_points z) as [|t0 l IH]; intros [|i] E; cbn in *; simplify_eq; [done|].
  f_equal. by apply IH.
Qed.

Lemma outline_bind name : preserves outline (bind_processor (W := W) name).
Proof.
  unfold bind_processor. apply preserves_bind; [apply outline_machine|]. intros [p|]; [|done].
  apply preserves_bind; [|done]. unfold bind_cooling_device. apply preserves_bind; [by intros [z s]|]. intros z.
  destruct (_ <$> _) as [k|]; [|done].
  apply preserves_bind; [intros zs; apply outline_on_trip|]. intros _.
  apply preserves_bind; [by intros [z' s]|done].
Qed.

Lemma outline_bind_all l : preserves outline (mfor l (bind_processor (W := W))).
Proof. induction l as [|n l IH]; [done|]. cbn [mfor]. apply preserves_bind; [apply outline_bind|done]. Qed.

Lemma set_zone_active_outline created (zs : zone * machine device W) :
  outline (snd (set_zone_active created zs)) = (true, snd (outline zs)).
Proof.
  destruct zs as [z s]. unfold set_zone_active, bind, getz, on_machine, gets, modz, modify. cbn [fst].
  destruct (first_virtual z s) as [i|]; [|done]. by destruct (enable_periodic_timer created i s).
Qed.

Lemma below_critical_bound critical passive :
  15000 <= critical <= UINT_MAX -> 0 <= passive -> passive + 5000 <= UINT_MAX ->
  below_critical critical passive + 5000 < critical.
Proof.
  unfold UINT_MAX, below_critical. intros Hc Hp Hs.
  assert (Ht : truthy critical = true) by (unfold truthy; rewrite (proj2 (Z.eqb_neq _ _)); [done|lia]). rewrite Ht.
  rewrite (u32_id (passive + _)) by (unfold is_u32, UINT_MAX; lia). cbn [andb].
  destruct (_ >=? critical) eqn:E; [rewrite u32_id by (unfold is_u32, UINT_MAX; lia)|rewrite Z.geb_leb in E; b2p]; lia.
Qed.

(** When a zone of the INT340x drivers becomes the processor's zone, it is
    active and has a passive trip that was above 90 C; with a critical
    temperature from ACPI that trip is now more than 5 C below it. *)
Theorem processor_trip_below_critical created ignore (e : engine device W) :
  let '(ok, e') := add_int340x_processor_dev created ignore e in
  ok = true -> exists i z' p,
    zones e' !! i = Some z' /\ zone_active z' = true /\ processor_thermal_min_passive < p /\
    In (PASSIVE, below_critical (acpi_critical e) p) (map (fun t => (t_type t, temp t)) (trip_points z')) /\
    (15000 <= acpi_critical e <= UINT_MAX -> p + 5000 <= UINT_MAX ->
     below_critical (acpi_critical e) p + 5000 < acpi_critical e).
Proof.
  unfold add_int340x_processor_dev. destruct ignore; [done|].
  assert (Ez : exists zi, processor_zone e = (zi, e)).
  { unfold processor_zone, bind, get, on_w. eexists. unfold ret. f_equal. by destruct e as [? []]. }
  destruct Ez as [zi Ez]. rewrite (bind_eq _ _ _ _ _ Ez). destruct zi as [i|]; [|done].
  unfold bind at 1, get. unfold on_zone. destruct (zones e !! i) as [z|] eqn:Hz; [|done].
  unfold bind at 1, getz, gets. cbn [fst].
  destruct (list_find _ (trip_points z)) as [[k t]|] eqn:Hk; [|done].
  apply list_find_Some in Hk as (Hkt & Hu & _). unfold usable_passive in Hu. b2p.
  set (t1 := t <| TripPoint.temp := below_critical (acpi_critical e) (temp t) |>).
  set (z1 := z <| trip_points := <[k := t1]> (trip_points z) |>).
  unfold bind at 1, modz, modify. fold z1.
  pose proof (set_zone_active_outline created (z1, mach e)) as Ha.
  unfold bind at 1. destruct (set_zone_active created (z1, mach e)) as [[] s2]. cbn [snd] in Ha.
  pose proof (outline_bind_all processor_cdevs s2) as Hb. unfold bind at 1.
  destruct (mfor processor_cdevs bind_processor s2) as [[] [z3 s3]]. cbn [snd] in Hb. unfold ret. intros _.
  rewrite Ha in Hb. unfold outline in Hb. cbn [fst snd] in Hb. injection Hb as Hact Hmap.
  exists i, z3, (temp t). cbn. split_and!.
  - apply list_lookup_insert_eq. by apply lookup_lt_Some in Hz.
  - exact Hact.
  - lia.
  - rewrite Hmap. apply in_map_iff. exists t1.
    split; [cbn; f_equal; by apply bool_decide_eq_true in H0|].
    apply list_elem_of_In. apply list_elem_of_lookup. exists k. apply list_lookup_insert_eq. by apply lookup_lt_Some in Hkt.
  - intros Hc Hp. apply below_critical_bound; [done|unfold processor_thermal_min_passive in *; lia|done].
Qed.
End default_theorems.

(** * Concrete runs *)

Definition power_world : sim := mk_sim {[ "/sys/class/powercap/intel-rapl" := "" ]} [] 0.
Definition bare_engine (w : sim) : engine device sim :=
  new_engine default_uuid (mk_preference 0 0) (mk_machine w [] [] [] 0 0 false 0 0).

(** A virtual sensor that follows the package power. *)
Definition skin : thermal_sensor_t :=
  mk_thermal_sensor 0 "skin" "" false true (mk_sensor_link "" zero_double zero_double)
    [mk_sensor_target "rapl_pkg_power" (double_of_Z 1) zero_double 1] [].

Lemma power_link_witness :
  exists v, m_sensors (mach (snd (add_virtual skin 3 (bare_engine power_world)))) = [new_sensor_rapl_power 3; v] /\
    s_index v = 3 /\ s_type_str v = "skin".
Proof.
  destruct (power_link_shares_number skin (mk_sensor_target "rapl_pkg_power" (double_of_Z 1) zero_double 1) []
    3 (bare_engine power_world) eq_refl ltac:(discriminate) eq_refl ltac:(vm_compute; reflexivity)) as (v & Hv).
  exists v. exact Hv.
Defined.

Definition processor_engine : engine device sim :=
  (bare_engine power_world) <| zones :=
    [(new_zone 0 "" SENSOR_INDEPENDENT) <| z_type_str := "acpitz" |>
       <| trip_points := [new_trip 0 CRITICAL 99000 0 0 0 PARALLEL] |>;
     (new_zone 1 "" SENSOR_INDEPENDENT) <| z_type_str := "B0DB" |>
       <| trip_points := [new_trip 0 PASSIVE 95000 0 1 0 PARALLEL] |>] |>.

Lemma processor_trip_witness :
  fst (add_int340x_processor_dev true false processor_engine) = true /\
  exists i z' p, zones (snd (add_int340x_processor_dev true false processor_engine)) !! i = Some z' /\
    zone_active z' = true /\ processor_thermal_min_passive < p /\
    In (PASSIVE, below_critical 99000 p) (map (fun t => (t_type t, temp t)) (trip_points z')).
Proof.
  pose proof (processor_trip_below_critical true false processor_engine) as Hp.
  destruct (add_int340x_processor_dev true false processor_engine) as [ok e'] eqn:E.
  assert (Hok : ok = true) by (change ok with (fst (ok, e')); rewrite <- E; vm_compute; reflexivity).
  split; [exact Hok|]. destruct (Hp Hok) as (i & z' & p & H1 & H2 & H3 & H4 & _).
  exists i, z', p. split; [exact H1|]. split; [exact H2|]. split; [exact H3|exact H4].
Defined.
