(* ===== verification/EngineAdaptiveInit.v ===== *)
(** The initialization of the adaptive engine: loading the data vault of the
    firmware, from a file or from sysfs ([gddv_load] and [gddv_init] of
    src/thd_gddv.cpp), and [cthd_engine_adaptive::thd_engine_init]
    (src/thd_engine_adaptive.cpp) with the virtual sensor the vault describes. *)
From stdpp Require Import base gmap strings list.
From Stdlib Require Import ZArith Lia Ascii SpecFloat.
From Stdlib Require String.
From S2P Require Import Prelude CString SysFs CFloat Pid Cdev CdevRapl Devices PowerMeter Machine Preference TripPoint Xml Parse Zone ZoneKinds Engine EngineUser EngineStart Gddv GddvConditions EngineAdaptive EngineDefault.

Open Scope string_scope.
Open Scope list_scope.
Open Scope Z_scope.

Definition MAX_GDDV_FILE_SIZE : Z := 4 * 1024.

(** The part of a name before its last dot; the whole name without one. *)
Fixpoint before_last_dot (s : string) : option string :=
  match s with
  | EmptyString => None
  | String c s' =>
      match before_last_dot s' with
      | Some r => Some (String c r)
      | None => if Ascii.eqb c "." then Some EmptyString else None
      end
  end.
Definition device_part (s : string) : string := default s (before_last_dot s).

Fixpoint bytes_of (s : string) : list Z :=
  match s with EmptyString => [] | String c s' => char_code c :: bytes_of s' end.

(** [(double) n / 1000] *)
Definition thousandth (n : Z) : double := SFdiv d_prec d_emax (double_of_Z n) (double_of_Z 1000).

Section vault.
Context {W : Type} `{Kernel W}.
(** The LZMA SDK, the memory, and the fuel of the parser, one more than the
    size of the data (GddvTheorems.v). *)
Context (LzmaDecode : list Z -> Z -> Z * list Z) (can_alloc : Z -> bool).

(** [format_dv_filename] *)
Definition format_dv_filename (w : W) : option string :=
  sys_vendor ← first_line "/sys/class/dmi/id/sys_vendor" w;
  product_name ← first_line "/sys/class/dmi/id/product_name" w;
  product_family ← first_line "/sys/class/dmi/id/product_family" w;
  product_sku ← first_line "/sys/class/dmi/id/product_sku" w;
  Some (dv_filename sys_vendor product_family product_name product_sku).

(** Owned by root and not writable by others. *)
Definition root_file (file : string) (w : W) : bool :=
  match k_stat file w with
  | Some st => (st_uid st =? 0) && (Z.land (st_mode st) (Z.lor S_IWGRP S_IWOTH) =? 0)
  | None => false
  end.

(** [size] bytes of a file; [None] when fewer could be read. *)
Definition read_whole (file : string) (size : Z) : State (csys_fs * W) (option (list Z)) :=
  r <- read_buf file size ;;
  ret match r with
      | Some (n, data) => if n <? i32 size then None else Some (bytes_of data)
      | None => None
      end.

(** [gddv_load]: at most 4 KB of the platform's file.  [feature] is what
    [check_feature(DATA_VAULT_FS)] gave. *)
Definition gddv_load (feature : Z) : State W (option (list Z)) := fun w =>
  if feature =? 0 then (None, w) else
  match format_dv_filename w with
  | None => (None, w)
  | Some file =>
      if negb (root_file file w) then (None, w) else
      with_fs "" (
        size <- size_of file ;;
        if size =? 0 then ret None
        else read_whole file (if size >? MAX_GDDV_FILE_SIZE then MAX_GDDV_FILE_SIZE else size)) w
  end.

(** The data vault of the driver: a result that ends the function, or the
    bytes. *)
Definition sysfs_vault (base : string) : State W (Z + list Z) :=
  with_fs "" (
    let* (n, _) := read_string (base +:+ "firmware_node/path") "" in
    if n <? 0 then ret (inl THD_ERROR) else
    size <- size_of (base +:+ "data_vault") ;;
    if size =? 0 then ret (inl THD_ERROR) else
    r <- read_whole (base +:+ "data_vault") size ;;
    ret match r with Some buf => inr buf | None => inl THD_FATAL_ERROR end).

(** Lines 2103-2123.  An exception ends in an error, and the tables read before
    it are of no use.  [None] is a read outside the data, or a recursion without
    end. *)
Definition parse_vault (buf : list Z) (g : gddv) : option (Z * gddv) :=
  match parse_gddv LzmaDecode can_alloc (S (length buf)) buf (Z.of_nat (length buf)) g with
  | Done (r, _, g') => Some (if truthy r then (THD_FATAL_ERROR, g') else (THD_SUCCESS, merge_appc g'))
  | Throw => Some (THD_FATAL_ERROR, g)
  | Oob | OutOfFuel => None
  end.

(** [gddv_init], but for the switches, UPower and the power profiles, which the
    conditions take from a [platform]. *)
Definition gddv_init (feature : Z) (base : string) (g : gddv) : State W (option (Z * gddv)) :=
  file <- gddv_load feature ;;
  data <- match file with
          | Some (b :: l) => ret (inr (b :: l))
          | _ => sysfs_vault base
          end ;;
  ret match data with
      | inl r => Some (r, g)
      | inr buf => parse_vault buf g
      end.
End vault.

Section init.
Context {W D : Type} `{Kernel W} `{!RaplEngine W} `{!LibXml W D} (garbage : Z).
#[local] Instance vault_devices : CdevMethods device W := device_methods garbage.
Context (TDCONFDIR TDRUNDIR : string) (generate_conf : string -> State W Z) (uninit_pid : pid_control_t).
Context (created : bool) (LzmaDecode : list Z -> Z -> Z * list Z) (can_alloc : Z -> bool).
(** The global options and the platform check. *)
Context (ignore_default_control disable_active_power power_floor_enable : bool).
Context (check_cpu_id : State (setup D * engine device W) bool).

Abbreviation EM := (State (engine device W)).
Abbreviation SM := (State (setup D * engine device W)).
Abbreviation IM := (State (adaptive * (setup D * engine device W))).

Definition on_setup {A} (m : SM A) : IM A := fun '(a, s) => let '(r, s') := m s in (r, (a, s')).
Definition adjust (f : adaptive -> adaptive) : IM unit := modify (fun '(a, s) => (f a, s)).
Definition on_world_of {A} (m : State W A) : IM A := on_setup (start_engine (on_w m)).

(** How a function can end: a result, or the end of the process. *)
Definition ends : Type := Z + stop.
Definition returns_z (r : Z) : IM ends := ret (inl r).

(** ** The data vault is there *)

(** The driver's directory, as [set_int3400_base_path] finds it. *)
Definition driver_path : State W string := gets (fun w => int_base_path (new_INT3400 adaptive_uuid w)).

(** Lines 651-678; a result that ends the function, or the path. *)
Definition locate_vault : IM (option Z) :=
  ignored <- on_world_of (with_fs (ignore_adaptive TDRUNDIR) (exists_path "")) ;;
  if ignored : bool then ret (Some THD_ERROR) else
  path <- on_world_of driver_path ;;
  if String.eqb path "" then ret (Some THD_ERROR) else
  adjust (fun a => a <| adaptive_base_path := path |>) ;;
  a <- gets fst ;;
  let* (n, fw) := on_world_of (with_fs "" (read_string (path +:+ "firmware_node/path") (int3400_path a))) in
  adjust (fun a => a <| int3400_path := fw |>) ;;
  if n <? 0 then ret (Some THD_ERROR) else
  size <- on_world_of (with_fs "" (size_of (path +:+ "data_vault"))) ;;
  if size =? 0 then ret (Some THD_ERROR) else
  data <- on_world_of (with_fs "" (read_whole (path +:+ "data_vault") size)) ;;
  ret match data with Some _ => None | None => Some THD_FATAL_ERROR end.

(** ** The virtual sensor *)

(** The links of the table; [None] when the power sensor cannot be used. *)
Fixpoint vsct_links (l : list vsct_entry) : EM (option (list link_sensor_t)) :=
  match l with
  | [] => ret (Some [])
  | v :: rest =>
      let power := vsct_coeff_type v =? 1 in
      let name := if power then "rapl_pkg_power" else last_part (vsct_target v) in
      p <- on_mach (gets (search_sensor name)) ;;
      ok <- (if power && bool_decide (p = None) then
               e <- get ;;
               ok <- try_sensor (new_sensor_rapl_power (current_sensor_index e)) ;;
               if ok : bool then bump_sensor_index ;; ret true else ret false
             else ret true) ;;
      if negb ok then ret None else
      target <- on_mach (gets (search_sensor name)) ;;
      links <- vsct_links rest ;;
      let coeff := SFmul d_prec d_emax (thousandth (vsct_coeff v))
                     (double_of_Z (if truthy (vsct_operation v) then -1 else 1)) in
      ret ((fun ls => mk_link target coeff (thousandth (vsct_alpha v)) (double_of_Z 0) (b2z power) :: ls) <$> links)
  end.

(** The zone around the virtual sensor, with a trip out of reach. *)
Definition virtual_zone (name : string) : EM unit := fun e =>
  let z := new_zone_dynamic (current_zone_index e) name in
  let '(r, (z, s)) := dynamic_zone_update TDRUNDIR 4294967295 PASSIVE name "intel_powerclamp" (z, mach e) in
  if r =? THD_SUCCESS then
    let '(_, (z, s)) := set_zone_active created (z, s) in
    (tt, e <| mach := s |> <| zones := zones e ++ [z] |>
           <| current_zone_index := i32 (current_zone_index e + 1) |>)
  else (tt, e <| mach := s |>).

Definition vault_sensor (g : gddv) : EM unit :=
  match vscts g with
  | [] => ret tt
  | l =>
      let dev_name := device_part (vscts_name g) in
      if String.eqb dev_name "" then ret tt else
      e <- get ;;
      links <- vsct_links l ;;
      match links with
      | None => ret tt
      | Some links =>
          let table := map (fun p => mk_polling_entry (vspt_virtual_temp p) (vspt_sample_period p)) (vspts g) in
          let s := (new_virtual (current_sensor_index e) dev_name "" None 0 (double_of_Z 0) (double_of_Z 0))
                     <| s_virtual := Some (mk_virtual links (double_of_Z 0) (double_of_Z 0) false false false 0
                                             def_polling_period table) |> in
          on_mach (modify (fun m => m <| m_sensors := m_sensors m ++ [s] |>)) ;;
          bump_sensor_index ;;
          virtual_zone dev_name
      end
  end.

(** ** [thd_engine_init] *)

(** Lines 640-648: an unlisted processor ends the process. *)
Definition processor_listed (ignore_cpuid_check : bool) : IM bool :=
  if ignore_cpuid_check then ret true else
  matched <- on_setup check_cpu_id ;;
  on_setup (set_setup (fun u => u <| proc_list_matched := matched |>)) ;;
  ret matched.

(** Lines 680-702: the tables, and whether they leave anything to do. *)
Definition load_vault : IM (option (Z + bool)) :=
  a <- gets fst ;;
  u <- on_setup get_setup ;;
  match check_feature DATA_VAULT_FS (features_parser u) with
  | None => ret None
  | Some f =>
      r <- on_world_of (gddv_init LzmaDecode can_alloc f (adaptive_base_path a) (the_gddv a)) ;;
      match r with
      | None => ret None
      | Some (res, g) =>
          adjust (fun a => a <| the_gddv := g |>) ;;
          if negb (res =? THD_SUCCESS) then ret (Some (inl res)) else
          match conditions g, find_def_psvt g with
          | _ :: _, _ => ret (Some (inr true))
          | [], Some _ => adjust (fun a => a <| passive_def_only := 1 |>) ;; ret (Some (inr true))
          | [], None => ret (Some (inr false))
          end
      end
  end.

Definition thd_adaptive_init (ignore_cpuid_check adaptive : bool) : IM ends :=
  r <- on_setup (start_engine check_acpi_platform_profile) ;;
  if negb (r =? THD_SUCCESS) then returns_z THD_FATAL_ERROR else
  f <- on_setup (parse_engine_features TDCONFDIR) ;;
  match f with
  | None => ret (inr Undefined)
  | Some _ =>
      on_setup (set_setup (fun u => u <| parser_disabled := true |>)) ;;
      listed <- processor_listed ignore_cpuid_check ;;
      if negb listed then ret (inr Exited) else
      missing <- locate_vault ;;
      match missing with
      | Some r => returns_z r
      | None =>
          loaded <- load_vault ;;
          match loaded with
          | None => ret (inr Undefined)
          | Some (inl r) => returns_z r
          | Some (inr false) => returns_z THD_SUCCESS
          | Some (inr true) =>
              res <- on_setup (default_init garbage TDCONFDIR TDRUNDIR generate_conf uninit_pid created
                ignore_default_control disable_active_power power_floor_enable check_cpu_id true
                ignore_cpuid_check adaptive) ;;
              match res with
              | None => ret (inr Undefined)
              | Some res =>
                  if negb (res =? THD_SUCCESS) then returns_z res else
                  a <- gets fst ;;
                  on_setup (start_engine (vault_sensor (the_gddv a))) ;;
                  returns_z THD_SUCCESS
              end
          end
      end
  end.

(** ** Creation *)

(** A part of the start that needs the tables and the engine. *)
Definition on_tables {A} (m : State (adaptive * engine device W) A) : IM A := fun '(a, (u, e)) =>
  let '(r, (a', e')) := m (a, e) in (r, (a', (u, e'))).

(** The start of the engine; the states of the switches are [p]. *)
Definition start_adaptive (depth : nat) (p : platform) (os : os_answers) : IM ends :=
  go <- on_tables (prepare_start depth created p) ;;
  match go with
  | None => ret (inr Undefined)
  | Some false => returns_z THD_ERROR
  | Some true =>
      r <- on_setup (thd_engine_start TDCONFDIR TDRUNDIR generate_conf uninit_pid os) ;;
      ret match r with Some r => inl r | None => inr Undefined end
  end.

(** [thd_engine_create_adaptive_engine], on a fresh engine. *)
Definition thd_engine_create_adaptive_engine (thd_poll_interval : Z) (depth : nat) (p : platform) (os : os_answers)
    (ignore_cpuid_check test_mode : bool) : IM ends :=
  on_setup (start_engine (on_mach (modify (fun s => s <| m_poll_interval_sec := thd_poll_interval |>)))) ;;
  r <- thd_adaptive_init ignore_cpuid_check true ;;
  match r with
  | inr s => ret (inr s)
  | inl r =>
      if negb (r =? THD_SUCCESS) then returns_z THD_ERROR else
      r <- start_adaptive depth p os ;;
      match r with
      | inr s => ret (inr s)
      | inl r =>
          if r =? THD_SUCCESS then returns_z THD_SUCCESS
          else if test_mode then ret (inr Exited) else returns_z THD_ERROR
      end
  end.
End init.
