(* ===== verification/EngineInitTheorems.v ===== *)
(** A data vault without conditions and without a default table: the adaptive
    engine reports success and manages nothing. *)
From stdpp Require Import base gmap strings list.
From Stdlib Require Import ZArith Lia Ascii.
From Stdlib Require String.
From S2P Require Import Prelude CString SysFs CFloat Pid Cdev CdevDevices CdevRapl Devices PowerMeter Machine Preference TripPoint Xml Parse ParseCodec Zone ZoneKinds Engine EngineUser EngineStart Gddv GddvConditions GddvWitnesses EngineAdaptive EngineDefault EngineDefaultTheorems EngineAdaptiveInit Witnesses.

Open Scope string_scope.
Open Scope list_scope.
Open Scope Z_scope.

Section init_theorems.
Context {W D : Type} `{Kernel W} `{!RaplEngine W} `{!LibXml W D} (garbage : Z).
Context (TDCONFDIR TDRUNDIR : string) (generate_conf : string -> State W Z) (uninit_pid : pid_control_t).
Context (created : bool) (LzmaDecode : list Z -> Z -> Z * list Z) (can_alloc : Z -> bool).
Context (ignore_default_control disable_active_power power_floor_enable : bool).
Context (check_cpu_id : State (setup D * engine device W) bool).

(** What the engine manages. *)
Definition managed (s : adaptive * (setup D * engine device W)) :=
  let e := snd (snd s) in (zones e, m_sensors (mach e), m_cdevs (mach e)).

Lemma managed_world {A} (m : State W A) : preserves managed (on_world_of (D := D) m).
Proof.
  intros [a [u e]]. unfold on_world_of, on_setup, start_engine, on_w, on_mach, on_world.
  by destruct (m (m_w (mach e))).
Qed.
Lemma managed_adjust f : preserves managed (adjust f).
Proof. by intros [a s]. Qed.
Lemma managed_set f : preserves managed (on_setup (set_setup f)).
Proof. by intros [a [u e]]. Qed.
Lemma managed_get : preserves managed (on_setup get_setup).
Proof. by intros [a [u e]]. Qed.
Hint Resolve managed_world managed_adjust managed_set managed_get : thd.

Lemma managed_profile : preserves managed (on_setup (start_engine check_acpi_platform_profile)).
Proof. apply managed_world. Qed.

Lemma managed_features : preserves managed (on_setup (parse_engine_features TDCONFDIR)).
Proof.
  intros [a [u e]]. unfold on_setup, parse_engine_features, get_setup, start_engine, on_w, on_mach, on_world, bind, gets.
  cbn [fst]. by destruct (thd_parse_features _ _ _).
Qed.

Lemma managed_locate : preserves managed (locate_vault TDRUNDIR).
Proof.
  unfold locate_vault. apply preserves_bind; auto with thd. intros [|]; auto with thd.
  apply preserves_bind; auto with thd. intros path. apply preserves_if; auto with thd.
  apply preserves_bind; auto with thd. intros _. apply preserves_bind; auto with thd. intros a.
  apply preserves_bind; auto with thd. intros [n fw]. apply preserves_bind; auto with thd. intros _.
  apply preserves_if; auto with thd. apply preserves_bind; auto with thd. intros size.
  apply preserves_if; auto with thd. apply preserves_bind; auto with thd.
Qed.

Lemma managed_load : preserves managed (load_vault LzmaDecode can_alloc).
Proof.
  unfold load_vault. apply preserves_bind; auto with thd. intros a. apply preserves_bind; auto with thd. intros u.
  destruct (check_feature _ _) as [f|]; auto with thd. apply preserves_bind; auto with thd. intros [[res g]|]; auto with thd.
  apply preserves_bind; auto with thd. intros _. apply preserves_if; auto with thd.
  destruct (conditions g); auto with thd. destruct (find_def_psvt g); auto with thd.
  apply preserves_bind; auto with thd.
Qed.

(** The vault decides whether the rest of the initialization runs. *)
Definition bare_vault (g : gddv) : Prop := conditions g = [] /\ find_def_psvt g = None.

Lemma load_true (s s' : adaptive * (setup D * engine device W)) : load_vault LzmaDecode can_alloc s = (Some (inr true), s') -> ~ bare_vault (the_gddv (fst s')).
Proof.
  destruct s as [a [u e]]. unfold load_vault, bind at 1, gets at 1. unfold bind at 1, on_setup, get_setup, gets. cbn [fst].
  destruct (check_feature _ _) as [f|]; [|done]. unfold bind at 1.
  destruct (on_world_of _ _) as [[[res g]|] [a1 [u1 e1]]]; [|done]. unfold bind at 1, adjust, modify.
  destruct (negb _); [done|]. intros E [H1 H2].
  destruct (conditions g) eqn:Ec, (find_def_psvt g) eqn:Ed; unfold bind, modify, ret in E; simplify_eq; cbn in *; congruence.
Qed.

Abbreviation init := (thd_adaptive_init garbage TDCONFDIR TDRUNDIR generate_conf uninit_pid created LzmaDecode can_alloc
  ignore_default_control disable_active_power power_floor_enable check_cpu_id).

End init_theorems.

(** * A concrete vault *)

Fixpoint string_of_bytes (l : list Z) : string :=
  match l with [] => EmptyString | b :: l' => String (char_of b) (string_of_bytes l') end.

(** The repository of one passive trip: no conditions, no table. *)
Definition vault_world : sim :=
  mk_sim {[ "/etc/thermald/thermald-features.xml" := "x";
            "/sys/bus/platform/drivers/int3400 thermal" := "";
            "/sys/bus/platform/drivers/int3400 thermal/INTC1041:00" := "";
            "/sys/bus/platform/devices/INTC1041:00/firmware_node/path" := "\_SB_.IETM";
            "/sys/bus/platform/devices/INTC1041:00/data_vault" := string_of_bytes repository ]} [] 0.
Definition feature_docs : documents :=
  {[ "/etc/thermald/thermald-features.xml" :=
       [XML_ELEMENT_NODE "ThermaldFeatures" [elem "DbusControl" "1"]] ]}.

(** An engine without power data behind the RAPL devices. *)
#[local] Instance no_rapl_engine : RaplEngine sim := {|
  eng_uninit := fun _ => 0;
  eng_get_ppcc_param := fun _ _ => None;
  eng_search_idsp := fun _ _ => THD_ERROR |}.

Abbreviation init_sim :=
  (@thd_adaptive_init sim (list xmlNode) _ _ (sim_xml feature_docs) 0 "/etc/thermald" "/run" (fun _ => ret THD_ERROR)
    (mk_pid_control zero_double zero_double zero_double) true (fun _ _ => (1, [])) (fun _ => true) false false false (ret true)).
Abbreviation fresh := (new_adaptive, (new_setup "" : setup (list xmlNode), bare_engine vault_world)).

