(* ===== verification/AcpiRel.v ===== *)
(** The reader of the ACPI thermal relationship tables, [cthd_acpi_rel]
    (src/thd_trt_art_reader.cpp): the tables _TRT, _ART and PSVT of the firmware
    are read through a character device and written as an XML configuration,
    the file the parser uses when the user gives none.

    A table is the bytes the driver stored, an object of a table a position in
    them: a name without its zero byte runs on into the members after it, as in
    the code.  [None] is a read outside the buffer. *)
From stdpp Require Import base gmap strings list.
From Stdlib Require Import ZArith Lia Ascii.
From Stdlib Require String.
From S2P Require Import Prelude CString MeterData SysFs CFloat Pid Cdev PowerMeter Machine Preference TripPoint Zone ZoneKinds Engine EngineUser Gddv.

Open Scope string_scope.
Open Scope list_scope.
Open Scope Z_scope.

(** * The driver

    The requests of acpi_thermal_rel_ioct.h, on a descriptor.  A failed one is
    [None]; the last gives the contents of a buffer of the length it is told. *)
Inductive acpi_table := TRT | ART | PSVT.

Class AcpiDriver (W : Type) := {
  ioctl_get_count : acpi_table -> Z -> W -> option Z;
  ioctl_get_len : acpi_table -> Z -> W -> option Z;
  ioctl_get_data : acpi_table -> Z -> Z -> W -> option (list Z);
}.

(** * Objects *)

(** A C string at a position. *)
Fixpoint name_at (p : list Z) : option string :=
  match p with
  | [] => None
  | b :: p' => if b =? 0 then Some EmptyString else String (char_of b) <$> name_at p'
  end.

(** At most [n] characters of one. *)
Fixpoint name_at_n (n : nat) (p : list Z) : option string :=
  match n, p with
  | O, _ => Some EmptyString
  | S _, [] => None
  | S n', b :: p' => if b =? 0 then Some EmptyString else String (char_of b) <$> name_at_n n' p'
  end.

Definition source_device (p : list Z) : option string := name_at p.
Definition target_device (p : list Z) : option string := name_at (drop 8 p).

(** The [k]th [u64] of an object. *)
Definition u64_member (k : nat) (p : list Z) : option Z :=
  if (8 * k + 8 <=? length p)%nat then Some (le_val (take 8 (drop (8 * k) p))) else None.

Definition trt_influence := u64_member 2.
Definition trt_sample_period := u64_member 3.
Definition art_weight := u64_member 2.
Definition psvt_sample_period := u64_member 3.
Definition psvt_passive_temp := u64_member 4.
Definition psvt_limit_integer := u64_member 7.
Definition psvt_limit_string (p : list Z) : option string := name_at_n 3 (drop 56 p).
Definition psvt_step_size := u64_member 8.
Definition psvt_control_knob_type := u64_member 11.

(** [sizeof] of the three unions. *)
Definition object_size (t : acpi_table) : nat :=
  match t with TRT => 64 | ART => 104 | PSVT => 96 end.

Definition ACPI_TYPE_STRING : Z := 2.

(** What refers to one target. *)
Record rel_object_t := mk_rel_object {
  rel_device : string;        (* target_device *)
  rel_sensor : string;        (* target_sensor *)
  trt_objects : list (list Z);
  art_objects : list (list Z);
  psvt_objects : list (list Z);
  rel_temperature : Z;
  rel_step : Z;
}.
#[export] Instance eta_rel_object : Eta rel_object_t := {| eta_of := fun x =>
  mk_rel_object (rel_device x) (rel_sensor x) (trt_objects x) (art_objects x) (psvt_objects x)
    (rel_temperature x) (rel_step x) |}.
Definition new_rel_object (name : string) (temperature step : Z) : rel_object_t :=
  mk_rel_object name name [] [] [] temperature step.

Definition objects_of (t : acpi_table) (o : rel_object_t) : list (list Z) :=
  match t with TRT => trt_objects o | ART => art_objects o | PSVT => psvt_objects o end.
Definition push_object (t : acpi_table) (p : list Z) (o : rel_object_t) : rel_object_t :=
  match t with
  | TRT => o <| trt_objects := trt_objects o ++ [p] |>
  | ART => o <| art_objects := art_objects o ++ [p] |>
  | PSVT => o <| psvt_objects := psvt_objects o ++ [p] |>
  end.

(** The object a target gets when it is the first of its name. *)
Definition fresh_object (t : acpi_table) (p : list Z) : option rel_object_t :=
  name ← target_device p;
  match t with
  | PSVT =>
      temp ← psvt_passive_temp p;
      step ← psvt_step_size p;
      Some (new_rel_object name (i32 temp) (i32 step))
  | _ => Some (new_rel_object name 0 0)
  end.

(** One round of the loops of [parse_target_devices]. *)
Definition file_object (t : acpi_table) (p : list Z) (rel_list : list rel_object_t) : option (list rel_object_t) :=
  rel_obj ← fresh_object t p;
  Some match list_find (fun o => rel_device o = rel_device rel_obj) rel_list with
       | Some (i, o) => <[i := push_object t p o]> rel_list
       | None => rel_list ++ [push_object t p rel_obj]
       end.

Fixpoint file_objects (t : acpi_table) (ps : list (list Z)) (rel_list : list rel_object_t)
    : option (list rel_object_t) :=
  match ps with
  | [] => Some rel_list
  | p :: ps' => l ← file_object t p rel_list; file_objects t ps' l
  end.

(** [&table[i]] for [i] below the count. *)
Definition table_objects (t : acpi_table) (count : Z) (data : list Z) : list (list Z) :=
  map (fun i => drop (object_size t * i) data) (seq 0 (Z.to_nat count)).

(** The members of a [cthd_acpi_rel] that outlive a call: the tables read. *)
Record acpi_rel := mk_acpi_rel {
  trt_data : list Z; trt_count : Z;
  art_data : list Z; art_count : Z;
  psvt_data : list Z; psvt_count : Z;
}.
#[export] Instance eta_acpi_rel : Eta acpi_rel := {| eta_of := fun x =>
  mk_acpi_rel (trt_data x) (trt_count x) (art_data x) (art_count x) (psvt_data x) (psvt_count x) |}.
Definition new_acpi_rel : acpi_rel := mk_acpi_rel [] 0 [] 0 [] 0.

Definition parse_target_devices (r : acpi_rel) : option (list rel_object_t) :=
  l ← file_objects TRT (table_objects TRT (trt_count r) (trt_data r)) [];
  l ← file_objects ART (table_objects ART (art_count r) (art_data r)) l;
  file_objects PSVT (table_objects PSVT (psvt_count r) (psvt_data r)) l.

(** * Names *)

Inductive sub_type_t := TARGET_DEV | SOURCE_DEV | SENSOR_DEV.

Definition source_substitue_strings : list (string * string) := [("TPCH", "pch_wildcat_point")].
Definition target_substitue_strings : list (string * string) :=
  [("B0D4", "rapl_controller"); ("DPLY", "LCD"); ("DISP", "LCD"); ("TMEM", "rapl_controller_dram");
   ("TCPU", "rapl_controller"); ("B0DB", "rapl_controller")].
Definition sensor_substitue_strings : list (string * string) := [("TPCH", "pch_wildcat_point")].

Fixpoint replace_name (l : list (string * string)) (name : string) : string :=
  match l with
  | [] => name
  | (source, sub_string) :: l' => if String.eqb name source then sub_string else replace_name l' name
  end.

(** The text of the configuration. *)
Definition tab : string := String (char_of 9) "".
Definition nl : string := String (char_of 10) "".
Definition quote : string := String (char_of 34) "".
Definition xml_hdr : string := "<?xml version=" +:+ quote +:+ "1.0" +:+ quote +:+ "?>" +:+ nl.
Definition conf_begin : string := "<ThermalConfiguration>" +:+ nl.
Definition conf_end : string := "</ThermalConfiguration>" +:+ nl.
(** An element with a text, as the code writes it. *)
Definition written (name text : string) : string := "<" +:+ name +:+ ">" +:+ text +:+ "</" +:+ name +:+ ">".

Section reader.
Context {W : Type} `{Kernel W} `{!AcpiDriver W}.

(** The rest runs when the result is defined. *)
Definition wbind {A B} (m : State W (option A)) (k : A -> State W (option B)) : State W (option B) :=
  r <- m ;; match r with Some a => k a | None => ret None end.
Definition oret {A} (a : option A) : State W (option A) := ret a.

(** ** [associate_device] *)

(** The name an ACPI device goes by: its uid, or the end of its path. *)
Definition acpi_uid (dir : string) : State W (option string) :=
  with_fs dir (
    has_uid <- exists_path "uid" ;;
    if has_uid : bool then
      let* (n, uid) := read_string "uid" "" in ret (if n <? 0 then None else Some uid)
    else
      has_path <- exists_path "path" ;;
      if has_path : bool then
        let* (n, uid) := read_string "path" "" in
        ret (if n <? 0 then None else Some (substr_after_last "." uid))
      else ret None).

(** The name a driver's directory stands for. *)
Definition driver_name (dir name : string) : string :=
  if contains "INT3406" dir then "DISP"
  else if contains "INT3402" dir then "TMEM"
  else if contains "INT3401" dir then "TCPU"
  else name.

Fixpoint associate_entries (names : list string) (name : string) : State W string :=
  match names with
  | [] => ret name
  | entry :: rest =>
      if negb (is_prefix "INT340" entry) then associate_entries rest name else
      let base := "/sys/bus/platform/devices/" +:+ entry +:+ "/" in
      link <- gets (k_readlink (base +:+ "firmware_node")) ;;
      match link with
      | inr (String _ _ as buf) =>
          let dir := base +:+ String.substring 0 255 buf +:+ "/" in
          uid <- acpi_uid dir ;;
          if bool_decide (uid = Some name) then ret (driver_name dir name) else associate_entries rest name
      | _ => associate_entries rest name
      end
  end.

Definition associate_device (name : string) : State W string :=
  names <- gets (k_readdir "/sys/bus/platform/devices/") ;;
  associate_entries (default [] names) name.

Definition subtitute_string (type : sub_type_t) (name : string) : State W string :=
  match type with
  | TARGET_DEV => name <- associate_device name ;; ret (replace_name target_substitue_strings name)
  | SOURCE_DEV => ret (replace_name source_substitue_strings name)
  | SENSOR_DEV => ret (replace_name sensor_substitue_strings name)
  end.

(** ** Reading the tables *)

Definition rel_cdev : string := "/dev/acpi_thermal_rel".

(** The three readers differ in their requests only.  The count and the bytes,
    [None] when a request fails. *)
Definition read_table (t : acpi_table) : State W (option (Z * list Z)) := fun w =>
  match k_open_rw rel_cdev w with
  | (inl _, w) => (None, w)
  | (inr fd, w) =>
      let r := (count ← ioctl_get_count t fd w;
                length ← ioctl_get_len t fd w;
                if length =? 0 then None else
                data ← ioctl_get_data t fd length w;
                Some (u32 count, data)) in
      (r, k_close fd w)
  end.

Definition read_psvt : State W (option (Z * list Z)) := read_table PSVT.
Definition read_art : State W (option (Z * list Z)) := read_table ART.
Definition read_trt : State W (option (Z * list Z)) := read_table TRT.

(** ** Trip points; each function gives the text it writes *)

(** A device of a passive trip. *)
Definition trt_device (prefix : string) (object : list Z) : State W (option string) :=
  wbind (oret (source_device object)) (fun name =>
  device_name <- subtitute_string TARGET_DEV name ;;
  oret (influence ← trt_influence object;
        sample_period ← trt_sample_period object;
        Some (prefix +:+ tab +:+ "<CoolingDevice>" +:+ nl
              +:+ prefix +:+ tab +:+ tab +:+ written "type" device_name +:+ nl
              +:+ prefix +:+ tab +:+ tab +:+ written "influence" (string_of_Z influence) +:+ nl
              +:+ prefix +:+ tab +:+ tab
              +:+ written "SamplingPeriod" (string_of_Z (u64 (sample_period * 100) / 1000)) +:+ nl
              +:+ prefix +:+ tab +:+ "</CoolingDevice>" +:+ nl))).

Definition art_device (prefix : string) (object : list Z) : State W (option string) :=
  wbind (oret (source_device object)) (fun name =>
  device_name <- subtitute_string TARGET_DEV name ;;
  oret (weight ← art_weight object;
        Some (prefix +:+ tab +:+ "<CoolingDevice>" +:+ nl
              +:+ prefix +:+ tab +:+ tab +:+ written "type" device_name +:+ nl
              +:+ prefix +:+ tab +:+ tab +:+ written "influence" (string_of_Z weight) +:+ nl
              +:+ prefix +:+ tab +:+ "</CoolingDevice>" +:+ nl))).

Fixpoint each_object (f : list Z -> State W (option string)) (l : list (list Z)) : State W (option string) :=
  match l with
  | [] => oret (Some "")
  | o :: l' => wbind (f o) (fun s => wbind (each_object f l') (fun s' => oret (Some (s +:+ s'))))
  end.

(** The head of a trip whose temperature is the zone's own. *)
Definition trip_head (prefix sensor type : string) : string :=
  prefix +:+ "<TripPoint>" +:+ nl
  +:+ prefix +:+ tab +:+ written "SensorType" sensor +:+ nl
  +:+ prefix +:+ tab +:+ written "Temperature" "*" +:+ nl
  +:+ prefix +:+ tab +:+ written "type" type +:+ nl
  +:+ prefix +:+ tab +:+ written "ControlType" "SEQUENTIAL" +:+ nl.

Definition trip_tail (prefix : string) : string := prefix +:+ "</TripPoint>" +:+ nl.

Definition add_passive_trip_point (indentation : string) (rel_obj : rel_object_t)
    : State W (option (string * rel_object_t)) :=
  match trt_objects rel_obj with
  | [] => oret (Some ("", rel_obj))
  | l =>
      let prefix := indentation +:+ tab in
      sensor <- subtitute_string SENSOR_DEV (rel_sensor rel_obj) ;;
      wbind (each_object (trt_device prefix) l) (fun devices =>
      oret (Some (trip_head prefix sensor "passive" +:+ devices +:+ trip_tail prefix,
                  rel_obj <| rel_sensor := sensor |>)))
  end.

Definition add_active_trip_point (indentation : string) (rel_obj : rel_object_t)
    : State W (option (string * rel_object_t)) :=
  match art_objects rel_obj with
  | [] => oret (Some ("", rel_obj))
  | l =>
      let prefix := indentation +:+ tab in
      sensor <- subtitute_string SENSOR_DEV (rel_sensor rel_obj) ;;
      wbind (each_object (art_device prefix) l) (fun devices =>
      oret (Some (trip_head prefix sensor "active" +:+ devices +:+ trip_tail prefix,
                  rel_obj <| rel_sensor := sensor |>)))
  end.

(** The temperature of a PSVT object and its numeric limit, -1 without one.  A
    limit that is neither a number nor "MAX" nor "MIN" writes no temperature. *)
Definition psvt_temperature (prefix : string) (object : list Z) : option (string * Z) :=
  type ← psvt_control_knob_type object;
  temp ← psvt_passive_temp object;
  let celsius := DECI_KELVIN_TO_CELSIUS temp in
  let written_temp v := prefix +:+ tab +:+ written "Temperature" (string_of_Z v) +:+ nl in
  if type =? ACPI_TYPE_STRING then
    limit ← psvt_limit_string object;
    Some (if strncasecmp limit "MAX" 3 =? 0 then written_temp (i32 ((celsius + 1) * 1000))
          else if strncasecmp limit "MIN" 3 =? 0 then written_temp (i32 (celsius * 1000))
          else "", -1)
  else
    limit ← psvt_limit_integer object;
    Some (written_temp (i32 (celsius * 1000)), i32 limit).

Definition psvt_trip (prefix : string) (object : list Z) : State W (option string) :=
  wbind (oret (source_device object)) (fun name =>
  wbind (oret (target_device object)) (fun sensor =>
  wbind (oret (psvt_temperature prefix object)) (fun '(temperature, limit_value) =>
  device_name <- subtitute_string TARGET_DEV name ;;
  oret (period ← psvt_sample_period object;
        Some (prefix +:+ "<TripPoint>" +:+ nl
              +:+ prefix +:+ tab +:+ written "SensorType" sensor +:+ nl
              +:+ temperature
              +:+ prefix +:+ tab +:+ written "Type" "Passive" +:+ nl
              +:+ prefix +:+ tab +:+ "<CoolingDevice>" +:+ nl
              +:+ prefix +:+ tab +:+ tab +:+ written "type" device_name +:+ nl
              +:+ (if truthy period
                   then prefix +:+ tab +:+ tab +:+ written "SamplingPeriod" (string_of_Z (period / 10)) +:+ nl
                   else "")
              +:+ (if limit_value >? 0
                   then prefix +:+ tab +:+ tab +:+ written "TargetState" (string_of_Z (i32 (limit_value * 1000))) +:+ nl
                   else "")
              +:+ prefix +:+ tab +:+ "</CoolingDevice>" +:+ nl
              +:+ prefix +:+ "</TripPoint>" +:+ nl))))).

Definition add_psvt_trip_point (indentation : string) (rel_obj : rel_object_t) : State W (option string) :=
  each_object (psvt_trip (indentation +:+ tab)) (psvt_objects rel_obj).

(** ** Zones *)

(** A zone of the tables.  [trips] writes its trip points. *)
Definition zone_text (prefix : string) (rel_obj : rel_object_t) (trips : State W (option string))
    : State W (option string) :=
  type <- subtitute_string SOURCE_DEV (rel_device rel_obj) ;;
  wbind trips (fun points =>
  oret (Some (prefix +:+ "<ThermalZone>" +:+ nl
              +:+ prefix +:+ tab +:+ written "Type" type +:+ nl
              +:+ prefix +:+ tab +:+ "<TripPoints>" +:+ nl
              +:+ points
              +:+ prefix +:+ tab +:+ "</TripPoints>" +:+ nl
              +:+ prefix +:+ "</ThermalZone>" +:+ nl))).

Definition trt_art_trips (indentation : string) (rel_obj : rel_object_t) : State W (option string) :=
  wbind (add_passive_trip_point indentation rel_obj) (fun '(passive, rel_obj) =>
  wbind (add_active_trip_point indentation rel_obj) (fun '(active, _) =>
  oret (Some (passive +:+ active)))).

(** The loop of [create_thermal_zone]; the indentation grows with every zone. *)
Fixpoint create_zones (prefix indentation : string) (rel_list : list rel_object_t) : State W (option string) :=
  match rel_list with
  | [] => oret (Some "")
  | rel_obj :: rest =>
      if String.eqb (rel_device rel_obj) "" then create_zones prefix indentation rest else
      let indentation := indentation +:+ tab in
      wbind (zone_text prefix rel_obj (trt_art_trips indentation rel_obj)) (fun zone =>
      wbind (create_zones prefix indentation rest) (fun zones => oret (Some (zone +:+ zones))))
  end.

Definition create_thermal_zone (r : acpi_rel) (indentation : string) : State W (option string) :=
  wbind (oret (parse_target_devices r)) (create_zones (indentation +:+ tab) (indentation +:+ tab +:+ tab)).

Definition create_thermal_zones (r : acpi_rel) (indentation : string) : State W (option string) :=
  wbind (create_thermal_zone r indentation) (fun zones =>
  oret (Some (indentation +:+ "<ThermalZones>" +:+ nl +:+ zones +:+ indentation +:+ "</ThermalZones>" +:+ nl))).

(** The product name of the platform, up to 255 characters; a wildcard without
    one. *)
Definition product_line (w : W) : option string :=
  content ← k_ifstream "/sys/class/dmi/id/product_name" w;
  line ← head (file_lines content);
  if (String.length line <=? 255)%nat then Some line else None.

Definition create_platform_conf (indentation : string) : State W string :=
  name <- gets product_line ;;
  ret (indentation +:+ written "Name" "_TRT export" +:+ nl
       +:+ indentation +:+ "<ProductName>"
       +:+ match name with Some line => line | None => "*" +:+ nl end
       +:+ indentation +:+ "</ProductName>" +:+ nl).

Definition create_platform_pref (perf : Z) (indentation : string) : string :=
  indentation +:+ written "Preference" (if truthy perf then "PERFORMANCE" else "QUIET") +:+ nl.

(** The loop of [process_psvt]. *)
Fixpoint psvt_zones (prefix indentation : string) (rel_list : list rel_object_t) : State W (option string) :=
  match rel_list with
  | [] => oret (Some "")
  | rel_obj :: rest =>
      if String.eqb (rel_device rel_obj) "" then psvt_zones prefix indentation rest else
      wbind (zone_text (prefix +:+ tab) rel_obj (add_psvt_trip_point indentation rel_obj)) (fun zone =>
      wbind (psvt_zones prefix indentation rest) (fun zones => oret (Some (zone +:+ zones))))
  end.

(** The document around the zones. *)
Definition document (zones : string -> State W (option string)) : State W (option string) :=
  conf <- create_platform_conf (tab +:+ tab) ;;
  wbind (zones (tab +:+ tab)) (fun zones =>
  oret (Some (xml_hdr +:+ conf_begin +:+ tab +:+ "<Platform>" +:+ nl
              +:+ conf +:+ create_platform_pref 0 (tab +:+ tab)
              +:+ zones))).

Definition passive2_uuid : string := "9E04115A-AE87-4D1C-9500-0F3E340BFE75".
Definition passive1_uuid : string := "42A441D6-AE6A-462b-A84B-4A8CE79027D3".

(** The file is truncated when it is opened and has its text when it is closed. *)
Definition write_conf (file_name : string) (text : State W (option string)) : State W (option Z) :=
  opened <- k_ofstream file_name "" ;;
  if negb opened then ret (Some THD_ERROR) else
  wbind text (fun text => k_ofstream file_name text ;; ret (Some THD_SUCCESS)).

(** The zones of [process_psvt]; the platform is closed with the inner
    indentation. *)
Definition psvt_document (r : acpi_rel) : State W (option string) :=
  document (fun prefix =>
    wbind (oret (parse_target_devices r)) (fun rel_list =>
    wbind (psvt_zones prefix (prefix +:+ tab) rel_list) (fun zones =>
    oret (Some (prefix +:+ "<ThermalZones>" +:+ nl +:+ zones +:+ prefix +:+ "</ThermalZones>" +:+ nl
                +:+ prefix +:+ "</Platform>" +:+ nl +:+ conf_end))))).

Definition process_psvt (file_name : string) (r : acpi_rel) : State W (option Z) :=
  supported <- gets (fun w => match_supported_uuid (new_INT3400 passive2_uuid w) w) ;;
  if negb (supported =? THD_SUCCESS) then ret (Some THD_ERROR) else
  table <- read_psvt ;;
  match table with
  | None => ret (Some (-1))
  | Some (count, data) => write_conf file_name (psvt_document (r <| psvt_data := data |> <| psvt_count := count |>))
  end.

Definition trt_document (r : acpi_rel) : State W (option string) :=
  document (fun indentation =>
    wbind (create_thermal_zones r indentation) (fun zones =>
    oret (Some (zones +:+ tab +:+ "</Platform>" +:+ nl +:+ conf_end)))).

Definition generate_conf (file_name : string) : State W (option Z) :=
  present <- gets (k_ifstream file_name) ;;
  match present with
  | Some _ => ret (Some 0)
  | None =>
      art <- read_art ;;
      trt <- read_trt ;;
      let '(art_n, art_d) := default (0, []) art in
      let '(trt_n, trt_d) := default (0, []) trt in
      let r := mk_acpi_rel trt_d trt_n art_d art_n [] 0 in
      if bool_decide (trt = None) && bool_decide (art = None) then process_psvt file_name r else
      supported <- gets (fun w => match_supported_uuid (new_INT3400 passive1_uuid w) w) ;;
      if negb (supported =? THD_SUCCESS) then process_psvt file_name r
      else write_conf file_name (trt_document r)
  end.

(** The generator the configuration parser calls, where it is defined. *)
Definition auto_conf (file_name : string) : State W Z :=
  r <- generate_conf file_name ;; ret (default THD_ERROR r).
End reader.
