(* ===== verification/AcpiRelTheorems.v ===== *)
(** Theorems about the generated configuration: every table entry is filed
    under its target exactly once, and the text that is written is an XML
    document which the parser of src/thd_parse.cpp reads as the relationships
    of the tables. *)
From stdpp Require Import base gmap strings list.
From Stdlib Require Import ZArith Lia Ascii.
From Stdlib Require String.
From S2P Require Import Prelude CString MeterData SysFs CFloat Pid Cdev CdevRapl PowerMeter Machine Preference TripPoint Xml Parse ParseTheorems ParseCodec Zone ZoneKinds Engine EngineUser Gddv AcpiRel.

Open Scope string_scope.
Open Scope list_scope.
Open Scope Z_scope.

(** * Targets *)

(** The objects of a table that refer to a target. *)
Definition refers (name : string) (p : list Z) : Prop := target_device p = Some name.
#[export] Instance refers_dec name p : Decision (refers name p).
Proof. unfold refers. apply _. Defined.

Lemma filter_none {A} (P : A -> Prop) `{!forall x, Decision (P x)} l : Forall (fun x => ~ P x) l -> filter P l = [].
Proof. induction 1; [done|]. by rewrite filter_cons_False. Qed.

Lemma Forall_filtered {A} (P Q : A -> Prop) `{!forall x, Decision (P x)} l : Forall Q l -> Forall Q (filter P l).
Proof. rewrite !Forall_forall. intros Hl x Hx. apply list_elem_of_filter in Hx as [_ Hx]. auto. Qed.

(** The list files the objects [done]: targets are distinct, each holds the
    objects that refer to it, in order, and each object has its target. *)
Definition filed (done : acpi_table -> list (list Z)) (l : list rel_object_t) : Prop :=
  NoDup (rel_device <$> l) /\
  (forall o, o ∈ l -> rel_sensor o = rel_device o /\ (exists t, objects_of t o <> []) /\
    forall t, objects_of t o = filter (refers (rel_device o)) (done t)) /\
  (forall t p, p ∈ done t -> exists o, o ∈ l /\ refers (rel_device o) p).

Definition one_more (t : acpi_table) (p : list Z) (done : acpi_table -> list (list Z)) (t' : acpi_table) :=
  match t, t' with
  | TRT, TRT | ART, ART | PSVT, PSVT => done t' ++ [p]
  | _, _ => done t'
  end.

Lemma fresh_object_name t p o : fresh_object t p = Some o ->
  target_device p = Some (rel_device o) /\ rel_sensor o = rel_device o /\ forall t', objects_of t' o = [].
Proof.
  unfold fresh_object. destruct (target_device p) as [name|]; [|done]. cbn.
  destruct t; [by intros [= <-]; split_and!; try intros []|by intros [= <-]; split_and!; try intros []|].
  destruct (psvt_passive_temp p), (psvt_step_size p); cbn; try done.
  intros [= <-]; split_and!; try done. by intros [].
Qed.

Lemma push_object_device t p o : rel_device (push_object t p o) = rel_device o /\ rel_sensor (push_object t p o) = rel_sensor o.
Proof. by destruct t. Qed.

Lemma push_object_some t p o : exists t', objects_of t' (push_object t p o) <> [].
Proof. exists t. destruct t; cbn; intros E; by apply app_nil in E as [_ E]. Qed.

Lemma push_object_objects t p o done :
  refers (rel_device o) p ->
  (forall t', objects_of t' o = filter (refers (rel_device o)) (done t')) ->
  forall t', objects_of t' (push_object t p o) = filter (refers (rel_device o)) (one_more t p done t').
Proof.
  intros Hp Ho t'. specialize (Ho t').
  destruct t, t'; cbn in *; rewrite ?filter_app, ?filter_cons_True by done; rewrite <- ?Ho; done.
Qed.

Lemma one_more_other t p done name t' : ~ refers name p ->
  filter (refers name) (one_more t p done t') = filter (refers name) (done t').
Proof. intros Hp. destruct t, t'; cbn; rewrite ?filter_app, ?filter_cons_False, ?app_nil_r by done; done. Qed.

Lemma one_more_elem t p done t' q : q ∈ one_more t p done t' -> q ∈ done t' \/ q = p.
Proof. intros Hq. destruct t, t'; cbn in Hq; try (by left); apply elem_of_app in Hq as [Hq|Hq%list_elem_of_singleton]; auto. Qed.

(** An object for a target that is there already. *)
Lemma filed_update t p done l i x :
  filed done l -> l !! i = Some x -> refers (rel_device x) p ->
  filed (one_more t p done) (<[i := push_object t p x]> l).
Proof.
  intros (Hn & Ho & Hd) Hi Hp. destruct (push_object_device t p x) as [Hdx Hsx].
  assert (Hl : (i < length l)%nat) by (by apply lookup_lt_Some in Hi).
  assert (Hin : push_object t p x ∈ <[i := push_object t p x]> l).
  { apply list_elem_of_lookup. exists i. by apply list_lookup_insert_eq. }
  assert (Hat : forall y, y ∈ <[i := push_object t p x]> l ->
    y = push_object t p x \/ (y ∈ l /\ rel_device y <> rel_device x)).
  { intros y Hy. apply list_elem_of_lookup in Hy as [j Hj]. destruct (decide (j = i)) as [->|Hne].
    - left. rewrite list_lookup_insert_eq in Hj by done. congruence.
    - right. rewrite list_lookup_insert_ne in Hj by done. split; [apply list_elem_of_lookup; eauto|]. intros Heq.
      apply Hne. apply (NoDup_lookup _ j i (rel_device x) Hn); rewrite list_lookup_fmap.
      + rewrite Hj. cbn. by rewrite Heq.
      + by rewrite Hi. }
  split_and!.
  - rewrite list_fmap_insert, Hdx, list_insert_id; [done|]. by rewrite list_lookup_fmap, Hi.
  - intros y [->|[Hy Hne]]%Hat.
    + destruct (Ho x) as (H1 & _ & H2); [apply list_elem_of_lookup; eauto|]. rewrite Hdx, Hsx. split; [done|].
      split; [apply push_object_some|]. by apply push_object_objects.
    + destruct (Ho y Hy) as (H1 & Hex & H2). split; [done|]. split; [done|]. intros t'. rewrite one_more_other; [done|].
      unfold refers in *. congruence.
  - intros t' q [Hq| ->]%one_more_elem; [|exists (push_object t p x); by rewrite Hdx].
    destruct (Hd t' q Hq) as (y & Hy & Hr). apply list_elem_of_lookup in Hy as [j Hj].
    destruct (decide (j = i)) as [->|Hne].
    + exists (push_object t p x). rewrite Hdx. split; [done|]. congruence.
    + exists y. split; [|done]. apply list_elem_of_lookup. exists j. by rewrite list_lookup_insert_ne.
Qed.

(** The first object of a target. *)
Lemma filed_new t p done l o :
  filed done l -> Forall (fun y => rel_device y <> rel_device o) l -> refers (rel_device o) p ->
  rel_sensor o = rel_device o -> (forall t', objects_of t' o = []) ->
  filed (one_more t p done) (l ++ [push_object t p o]).
Proof.
  intros (Hn & Ho & Hd) Ef Hp Hs He. rewrite Forall_forall in Ef. destruct (push_object_device t p o) as [Hdo Hso].
  split_and!.
  - rewrite fmap_app. cbn. rewrite Hdo. apply NoDup_app. split_and!; [done| |apply NoDup_singleton].
    intros n Hn1 Hn2. apply list_elem_of_fmap in Hn1 as (y & -> & Hy). apply list_elem_of_singleton in Hn2.
    by apply (Ef y Hy).
  - intros y Hy. apply elem_of_app in Hy as [Hy|Hy%list_elem_of_singleton].
    + destruct (Ho y Hy) as (H1 & Hex & H2). split; [done|]. split; [done|]. intros t'. rewrite one_more_other; [done|].
      unfold refers in *. specialize (Ef y Hy). congruence.
    + subst y. rewrite Hdo, Hso. split; [done|]. split; [apply push_object_some|]. apply push_object_objects; [done|]. intros t'. rewrite He.
      symmetry. apply filter_none, Forall_forall. intros q Hq Hr. destruct (Hd t' q Hq) as (y & Hy & Hry).
      unfold refers in Hr, Hry. apply (Ef y Hy). congruence.
  - intros t' q [Hq| ->]%one_more_elem.
    + destruct (Hd t' q Hq) as (y & Hy & Hr). exists y. split; [apply elem_of_app; auto|done].
    + exists (push_object t p o). rewrite Hdo. split; [apply elem_of_app; right; by apply list_elem_of_singleton|done].
Qed.

Lemma file_object_filed t p done l l' :
  filed done l -> file_object t p l = Some l' -> filed (one_more t p done) l'.
Proof.
  intros Hf. unfold file_object. destruct (fresh_object t p) as [o|] eqn:E; [|done].
  apply fresh_object_name in E as (Hp & Hs & He). cbn. intros [= <-].
  destruct (list_find _ l) as [[i x]|] eqn:Ef.
  - apply list_find_Some in Ef as (Hi & Hx & _). apply filed_update; [done|done|]. unfold refers. by rewrite Hx.
  - apply list_find_None in Ef. by apply filed_new.
Qed.

Lemma filed_ext done done' l : (forall t, done' t = done t) -> filed done l -> filed done' l.
Proof.
  intros E (Hn & Ho & Hd). split_and!; [done| |].
  - intros o Hin. destruct (Ho o Hin) as (Hs & Hex & H). split; [done|]. split; [done|]. intros t. by rewrite E.
  - intros t p. rewrite E. apply Hd.
Qed.

Lemma file_objects_filed t ps : forall done l l',
  filed done l -> file_objects t ps l = Some l' ->
  filed (fun t' => match t, t' with TRT, TRT | ART, ART | PSVT, PSVT => done t' ++ ps | _, _ => done t' end) l'.
Proof.
  induction ps as [|p ps IH]; intros done l l' Hf; cbn [file_objects].
  { intros [= <-]. eapply filed_ext; [|exact Hf]. by intros t'; destruct t, t'; rewrite ?app_nil_r. }
  destruct (file_object t p l) as [l1|] eqn:E; [|done]. cbn. intros E'.
  eapply filed_ext; [|exact (IH _ _ _ (file_object_filed _ _ _ _ _ Hf E) E')].
  intros t'. destruct t, t'; cbn; by rewrite <- ?app_assoc.
Qed.

Definition table_of (r : acpi_rel) (t : acpi_table) : list (list Z) :=
  match t with
  | TRT => table_objects TRT (trt_count r) (trt_data r)
  | ART => table_objects ART (art_count r) (art_data r)
  | PSVT => table_objects PSVT (psvt_count r) (psvt_data r)
  end.

Lemma parse_target_devices_filed r l : parse_target_devices r = Some l -> filed (table_of r) l.
Proof.
  unfold parse_target_devices. intros E.
  destruct (file_objects TRT _ []) as [l1|] eqn:E1; [|done]. cbn in E.
  destruct (file_objects ART _ l1) as [l2|] eqn:E2; [|done]. cbn in E.
  assert (H0 : filed (fun _ => []) []).
  { split_and!; [apply NoDup_nil_2|intros o Ho|intros t p Hp]; by apply not_elem_of_nil in Ho || by apply not_elem_of_nil in Hp. }
  pose proof (file_objects_filed _ _ _ _ _ H0 E1) as H1.
  pose proof (file_objects_filed _ _ _ _ _ H1 E2) as H2.
  pose proof (file_objects_filed _ _ _ _ _ H2 E) as H3.
  eapply filed_ext; [|exact H3]. by intros [].
Qed.

(** * XML text *)

(** Characters that are not markup. *)
Definition is_markup (c : ascii) : bool := Ascii.eqb c "<" || Ascii.eqb c "&".
Fixpoint no_markup (s : string) : bool :=
  match s with EmptyString => true | String c s' => negb (is_markup c) && no_markup s' end.

Definition starts_text (l : list xmlNode) : bool := match l with XML_TEXT_NODE _ :: _ => true | _ => false end.

(** [xml_text l s]: [s] is the text of the nodes [l].  Character data has no
    markup, and a text node holds all of it up to the next tag. *)
Inductive xml_text : list xmlNode -> string -> Prop :=
| xt_nil : xml_text [] ""
| xt_text s l t : s <> "" -> no_markup s = true -> starts_text l = false -> xml_text l t ->
    xml_text (XML_TEXT_NODE s :: l) (s +:+ t)
| xt_element name ch l a t : xml_text ch a -> xml_text l t ->
    xml_text (XML_ELEMENT_NODE name ch :: l) ("<" +:+ name +:+ ">" +:+ a +:+ "</" +:+ name +:+ ">" +:+ t).

Lemma str_assoc (a b c : string) : (a +:+ b) +:+ c = a +:+ b +:+ c.
Proof. induction a as [|x a IH]; [done|]. change (String x ((a +:+ b) +:+ c) = String x (a +:+ b +:+ c)). by rewrite IH. Qed.

Lemma no_markup_app a b : no_markup (a +:+ b) = no_markup a && no_markup b.
Proof.
  induction a as [|x a IH]; [done|].
  change (negb (is_markup x) && no_markup (a +:+ b) = negb (is_markup x) && no_markup a && no_markup b).
  by rewrite IH, andb_assoc.
Qed.

Lemma xml_leaf name text : text <> "" -> no_markup text = true -> xml_text [elem name text] (written name text).
Proof.
  intros Hne Hm. unfold written. rewrite <- (append_nil_r (">")) at 2.
  apply xt_element; [|constructor]. rewrite <- (append_nil_r text) at 2. apply xt_text; [done|done|done|constructor].
Qed.

(** Elements, each on a line of its own after some white space. *)
Inductive lines_of : list (string * xmlNode) -> string -> Prop :=
| lo_nil : lines_of [] ""
| lo_cons p name ch l s t : no_markup p = true -> xml_text [XML_ELEMENT_NODE name ch] s -> lines_of l t ->
    lines_of ((p, XML_ELEMENT_NODE name ch) :: l) (p +:+ s +:+ nl +:+ t).

(** The children of the element around such lines, closed after [last]. *)
Fixpoint children_of (l : list (string * xmlNode)) (last : string) : list xmlNode :=
  match l with
  | [] => [XML_TEXT_NODE (nl +:+ last)]
  | (p, n) :: l' => XML_TEXT_NODE (nl +:+ p) :: n :: children_of l' last
  end.

Lemma nl_text p : nl +:+ p <> "" /\ no_markup (nl +:+ p) = no_markup p.
Proof. split; [discriminate|]. by rewrite no_markup_app. Qed.

Lemma element_then name ch s l t : xml_text [XML_ELEMENT_NODE name ch] s -> xml_text l t ->
  xml_text (XML_ELEMENT_NODE name ch :: l) (s +:+ t).
Proof.
  intros H1 H2. inversion H1 as [| |? ? ? a b Ha Hb]; subst. inversion Hb; subst.
  rewrite append_nil_r, !str_assoc. by apply xt_element.
Qed.

Lemma lines_children l t last : lines_of l t -> no_markup last = true ->
  xml_text (children_of l last) (nl +:+ t +:+ last).
Proof.
  intros Hl Hm. induction Hl as [|p name ch l s t Hp Hs Hl IH]; cbn [children_of].
  - change ("" +:+ last) with last. destruct (nl_text last) as [H1 H2]. rewrite <- (append_nil_r (nl +:+ last)) at 2.
    apply xt_text; [done|by rewrite H2|done|constructor].
  - destruct (nl_text p) as [H1 H2]. rewrite !str_assoc, <- (str_assoc nl p). apply xt_text; [done|by rewrite H2|done|].
    by apply element_then.
Qed.

Lemma lines_app l1 t1 l2 t2 : lines_of l1 t1 -> lines_of l2 t2 -> lines_of (l1 ++ l2) (t1 +:+ t2).
Proof. intros H1 H2. induction H1; [done|]. cbn. rewrite !str_assoc. by constructor. Qed.

Lemma lines_leaf p name text : no_markup p = true -> text <> "" -> no_markup text = true ->
  lines_of [(p, elem name text)] (p +:+ written name text +:+ nl).
Proof. intros Hp Ht Hm. rewrite <- (append_nil_r nl). apply lo_cons; [done|by apply xml_leaf|constructor]. Qed.

(** An element around lines, on lines of its own. *)
Lemma lines_block p name l t : no_markup p = true -> lines_of l t ->
  lines_of [(p, XML_ELEMENT_NODE name (children_of l p))]
    (p +:+ ("<" +:+ name +:+ ">") +:+ nl +:+ t +:+ p +:+ ("</" +:+ name +:+ ">") +:+ nl).
Proof.
  intros Hp Hl.
  replace (p +:+ ("<" +:+ name +:+ ">") +:+ nl +:+ t +:+ p +:+ ("</" +:+ name +:+ ">") +:+ nl)
    with (p +:+ ("<" +:+ name +:+ ">" +:+ (nl +:+ t +:+ p) +:+ "</" +:+ name +:+ ">" +:+ "") +:+ nl +:+ "")
    by (by rewrite !append_nil_r, !str_assoc).
  apply lo_cons; [done| |constructor]. apply xt_element; [by apply lines_children|constructor].
Qed.

(** Evaluates the parser on one element. *)
Ltac value_of f :=
  match goal with
  | |- context [f ?n ?ch ?v ?t] =>
      let x := eval cbv beta delta [trip_cdev_value trip_point_value platform_info_value] in (f n ch v t) in
      change (f n ch v t) with x; eval_named
  end.

(** * Names and numbers *)

(** A name the XML text and the parser leave as it is. *)
Definition clean (s : string) : Prop := s <> "" /\ no_markup s = true /\ is_trimmed s.
#[export] Instance clean_dec s : Decision (clean s).
Proof. unfold clean, is_trimmed. apply _. Defined.

Lemma replace_name_clean l s : Forall (fun x => clean (snd x)) l -> clean s -> clean (replace_name l s).
Proof. intros Hl Hs. induction Hl as [|[a b] l Hb Hl IH]; [done|]. cbn. by destruct (String.eqb s a). Qed.

Lemma digits_no_markup fuel n acc : no_markup acc = true -> no_markup (dec_digits fuel n acc) = true.
Proof.
  revert n acc. induction fuel as [|f IH]; intros n acc Ha; [done|]. cbn [dec_digits].
  assert (Hd : no_markup (String (digit_char (n mod 10)) acc) = true).
  { cbn. rewrite Ha, andb_true_r. assert (Hm : 0 <= n mod 10 < 10) by (apply Z.mod_pos_bound; lia).
    assert (n mod 10 = 0 \/ n mod 10 = 1 \/ n mod 10 = 2 \/ n mod 10 = 3 \/ n mod 10 = 4 \/ n mod 10 = 5
      \/ n mod 10 = 6 \/ n mod 10 = 7 \/ n mod 10 = 8 \/ n mod 10 = 9) as Hc by lia.
    repeat (destruct Hc as [-> | Hc]; [reflexivity|]). by rewrite Hc. }
  destruct (n <? 10); [done|]. by apply IH.
Qed.

Lemma number_text n : string_of_Z n <> "" /\ no_markup (string_of_Z n) = true.
Proof.
  split; [apply string_of_Z_number|]. unfold string_of_Z.
  destruct (n <? 0); [change (no_markup (string_of_nonneg (- n)) = true)|]; by apply digits_no_markup.
Qed.

Section generated.
Context {W D : Type} `{Kernel W} `{!AcpiDriver W} `{!LibXml W D} `{!LibXmlLaws W D}.
Context (doc : D) (uninit_pid : pid_control_t).

(** The names [associate_device] may give. *)
Definition associated (name name' : string) : Prop := name' ∈ [name; "DISP"; "TMEM"; "TCPU"].

Lemma associate_entries_name names name (w : W) : associated name (fst (associate_entries names name w)).
Proof.
  revert w. induction names as [|entry rest IH]; intros w; cbn [associate_entries]; [by left|].
  destruct (negb _); [apply IH|]. unfold bind at 1, gets at 1. destruct (k_readlink _ _) as [z|[|c s]]; [apply IH|apply IH|].
  unfold bind at 1. destruct (acpi_uid _ w) as [uid w']. destruct (bool_decide _); [|apply IH].
  unfold ret, driver_name, associated. cbn [fst]. destruct (contains _ _); [by right; left|].
  destruct (contains _ _); [by right; right; left|]. destruct (contains _ _); [by right; right; right; left|by left].
Qed.

Lemma target_name name (w : W) name' w' :
  subtitute_string TARGET_DEV name w = (name', w') ->
  exists n, associated name n /\ name' = replace_name target_substitue_strings n.
Proof.
  unfold subtitute_string, associate_device, bind, gets, ret. intros E.
  match type of E with context [associate_entries ?l ?n ?w0] => pose proof (associate_entries_name l n w0) as Ha;
    destruct (associate_entries l n w0) as [n' w1] end.
  injection E. intros _ <-. by exists n'.
Qed.

Lemma associated_clean name n : clean name -> associated name n -> clean (replace_name target_substitue_strings n).
Proof.
  intros Hc Ha. apply replace_name_clean; [repeat constructor; try discriminate|].
  unfold associated in Ha. rewrite !elem_of_cons in Ha.
  destruct Ha as [-> |[-> |[-> |[-> |Hn]]]]; try done; try (split_and!; [discriminate|done|done]).
  by apply not_elem_of_nil in Hn.
Qed.

(** ** The parser on generated nodes *)

Lemma for_elements_children {A} (body : string -> list xmlNode -> A -> option A) l last : forall a,
  for_elements body (children_of l last) a = for_elements body (map snd l) a.
Proof. induction l as [|[p n] l IH]; intros a; [done|]. destruct n; cbn; [destruct (body _ _ _); [apply IH|done]|apply IH|apply IH]. Qed.

Lemma for_values_children {A} (body : string -> list xmlNode -> string -> A -> option A) l last a :
  for_values doc body (children_of l last) a = for_values doc body (map snd l) a.
Proof. apply for_elements_children. Qed.

Lemma lines_plain l t last : lines_of l t -> forallb plain (children_of l last) = true.
Proof. induction 1; cbn; auto. Qed.

Lemma children_text l t last : lines_of l t -> exists v, xmlNodeListGetString doc (children_of l last) = Some v.
Proof.
  intros Hl. rewrite getstring_text by (by eapply lines_plain). destruct l as [|[p n] l]; cbn; eauto.
Qed.

(** What the nodes of a device, a trip and a zone are read as. *)
Definition cdev_node (n : string * xmlNode) (c : trip_cdev_t) : Prop :=
  exists ch v, snd n = XML_ELEMENT_NODE "CoolingDevice" ch /\ xmlNodeListGetString doc ch = Some v /\
    parse_new_trip_cdev doc ch new_conf_trip_cdev = Some c.
Definition trip_node (n : string * xmlNode) (t : trip_point_t) : Prop :=
  exists ch, snd n = XML_ELEMENT_NODE "TripPoint" ch /\ parse_new_trip_point doc ch new_conf_trip = Some t.
Definition zone_node (n : string * xmlNode) (z : thermal_zone_t) : Prop :=
  exists ch, snd n = XML_ELEMENT_NODE "ThermalZone" ch /\
    forall z0, parse_new_zone doc ch (z0 <| tz_trip_pts := [] |>) = Some z.

Lemma device_value ch v t :
  trip_point_value doc "CoolingDevice" ch v t =
  (c ← parse_new_trip_cdev doc ch new_conf_trip_cdev; Some (t <| tp_cdev_trips := tp_cdev_trips t ++ [c] |>)).
Proof. unfold trip_point_value. by eval_named. Qed.

Lemma cdev_nodes_read ns cs : Forall2 cdev_node ns cs -> forall t,
  for_values doc (trip_point_value doc) (map snd ns) t = Some (t <| tp_cdev_trips := tp_cdev_trips t ++ cs |>).
Proof.
  induction 1 as [|n c ns cs (ch & v & En & Ev & Ep) Hf IH]; intros t.
  { rewrite app_nil_r. by destruct t. }
  cbn [map]. rewrite En. unfold for_values. rewrite for_elements_cons. rewrite Ev.
  change (for_elements _ _) with (for_values doc (trip_point_value doc) (map snd ns)).
  rewrite device_value, Ep. cbn [mbind option_bind]. rewrite IH. cbn. by rewrite <- app_assoc.
Qed.

Lemma trip_nodes_read ns ts last : Forall2 trip_node ns ts -> forall z,
  parse_trip_points doc (children_of ns last) z = Some (z <| tz_trip_pts := tz_trip_pts z ++ ts |>).
Proof.
  unfold parse_trip_points. intros Hf. induction Hf as [|n t ns ts (ch & En & Ep) Hf IH]; intros z;
    rewrite for_elements_children in *; cbn [map].
  { rewrite app_nil_r. by destruct z. }
  rewrite En, for_elements_cons. eval_named. rewrite Ep. cbn [mbind option_bind].
  specialize (IH (z <| tz_trip_pts := tz_trip_pts z ++ [t] |>)). rewrite for_elements_children in IH. rewrite IH.
  cbn. by rewrite <- app_assoc.
Qed.

(** Elements with a text, one per line. *)
Definition leaves (q : string) (l : list (string * string)) : list (string * xmlNode) :=
  map (fun x => (q, elem x.1 x.2)) l.
Definition leaves_text (q : string) (l : list (string * string)) : string :=
  foldr (fun x acc => q +:+ written x.1 x.2 +:+ nl +:+ acc) "" l.
Definition leaf_ok (x : string * string) : Prop := x.2 <> "" /\ no_markup x.2 = true.

Lemma leaves_lines q l : no_markup q = true -> Forall leaf_ok l -> lines_of (leaves q l) (leaves_text q l).
Proof.
  intros Hq Hl. induction Hl as [|[n x] l [Hx Hm] Hl IH]; [constructor|]. cbn in Hx, Hm.
  cbn. apply lo_cons; [done|by apply xml_leaf|done].
Qed.

Lemma lines_eq l t t' : t = t' -> lines_of l t -> lines_of l t'.
Proof. by intros ->. Qed.

(** ** Devices *)

(** A number that fits an [int], a name that can be written. *)
Definition small (v : option Z) : Prop := exists n, v = Some n /\ 0 <= n <= INT_MAX.
Definition clean_source (p : list Z) : Prop := exists s, source_device p = Some s /\ clean s.
Definition trt_sound (p : list Z) : Prop := clean_source p /\ small (trt_influence p) /\ small (trt_sample_period p).
Definition art_sound (p : list Z) : Prop := clean_source p /\ small (art_weight p).

(** The device of a configured trip that an object stands for. *)
Definition device_for (p : list Z) (influence period : Z) (c : trip_cdev_t) : Prop :=
  exists src name, source_device p = Some src /\ associated src name /\
  c = new_conf_trip_cdev <| tcd_type := replace_name target_substitue_strings name |>
        <| tcd_influence := influence |> <| tcd_sampling_period := period |>.
Definition trt_for (p : list Z) (c : trip_cdev_t) : Prop :=
  exists influence period, trt_influence p = Some influence /\ trt_sample_period p = Some period /\
    device_for p influence (period / 10) c.
Definition art_for (p : list Z) (c : trip_cdev_t) : Prop :=
  exists weight, art_weight p = Some weight /\ device_for p weight 0 c.

(** The node of a device whose elements are [l]. *)
Lemma device_block q l c :
  no_markup q = true -> Forall leaf_ok l ->
  for_values doc (trip_cdev_value doc) (map snd (leaves (q +:+ tab) l)) new_conf_trip_cdev = Some c ->
  exists n, lines_of [n] (q +:+ "<CoolingDevice>" +:+ nl +:+ leaves_text (q +:+ tab) l +:+ q +:+ "</CoolingDevice>" +:+ nl)
    /\ cdev_node n c.
Proof.
  intros Hq Hl Hc. assert (Hq' : no_markup (q +:+ tab) = true) by (by rewrite no_markup_app, Hq).
  pose proof (leaves_lines _ _ Hq' Hl) as Hll.
  exists (q, XML_ELEMENT_NODE "CoolingDevice" (children_of (leaves (q +:+ tab) l) q)). split.
  - exact (lines_block q "CoolingDevice" _ _ Hq Hll).
  - destruct (children_text _ _ q Hll) as [v Ev]. do 2 eexists. split; [reflexivity|]. split; [exact Ev|].
    unfold parse_new_trip_cdev. by rewrite for_values_children.
Qed.

Lemma int_small v n : small v -> v = Some n -> is_i32 n /\ 0 <= n.
Proof. intros (m & Em & Hm) E. simplify_eq. unfold is_i32, INT_MIN, INT_MAX in *. lia. Qed.

Lemma clean_source_name p s : clean_source p -> source_device p = Some s -> clean s.
Proof. intros (s' & E & Hs) E'. by simplify_eq. Qed.

Lemma number_leaf name n : leaf_ok (name, string_of_Z n).
Proof. apply number_text. Qed.

Lemma clean_leaf name s : clean s -> leaf_ok (name, s).
Proof. intros (H1 & H2 & _). by split. Qed.

Lemma clean_trim s : clean s -> string_trim s = s.
Proof. by intros (_ & _ & H1). Qed.

Lemma trt_device_node prefix p (w : W) text w' :
  no_markup prefix = true -> trt_sound p -> trt_device prefix p w = (Some text, w') ->
  exists n c, lines_of [n] text /\ cdev_node n c /\ trt_for p c.
Proof.
  intros Hq (Hs & Hi & Hp). unfold trt_device, wbind, oret, bind at 1, ret at 1.
  destruct (source_device p) as [src|] eqn:Es; [|done]. unfold bind.
  destruct (subtitute_string TARGET_DEV src w) as [name w1] eqn:En. apply target_name in En as (m & Hm & ->).
  destruct (trt_influence p) as [infl|] eqn:Ei; [|done]. destruct (trt_sample_period p) as [per|] eqn:Ep; [|done].
  cbn. intros [= <- <-].
  destruct (int_small _ _ Hi eq_refl) as [Ii _]. destruct (int_small _ _ Hp eq_refl) as [Ip Hp0].
  assert (Hper : u64 (per * 100) / 1000 = per / 10).
  { rewrite u64_id by (unfold is_i32, INT_MAX in Ip; lia). replace 1000 with (100 * 10) by done.
    by rewrite <- Z.div_div, Z.div_mul by lia. }
  rewrite Hper. assert (Ipd : is_i32 (per / 10)).
  { unfold is_i32, INT_MIN, INT_MAX in *. split; [pose proof (Z.div_pos per 10); lia|].
    apply Z.div_le_upper_bound; lia. }
  set (dev := replace_name target_substitue_strings m).
  assert (Hc : clean dev) by (eapply associated_clean; eauto using clean_source_name).
  destruct (device_block (prefix +:+ tab)
    [("type", dev); ("influence", string_of_Z infl); ("SamplingPeriod", string_of_Z (per / 10))]
    (new_conf_trip_cdev <| tcd_type := dev |> <| tcd_influence := infl |> <| tcd_sampling_period := per / 10 |>))
    as (n & Hn & Hcn).
  - by rewrite no_markup_app, Hq.
  - repeat constructor; try apply number_leaf; apply (clean_leaf "type" dev Hc).
  - cbn [leaves map snd fst]. do 3 (rewrite for_values_elem; value_of (trip_cdev_value doc)).
    rewrite !atoi_string_of_Z by done. by rewrite (clean_trim dev Hc).
  - exists n. eexists. split; [|split; [exact Hcn|]].
    + eapply lines_eq; [|exact Hn]. unfold leaves_text. cbn [foldr fst snd]. by rewrite !str_assoc.
    + exists infl, per. split; [done|]. split; [done|]. by exists src, m.
Qed.

Lemma art_device_node prefix p (w : W) text w' :
  no_markup prefix = true -> art_sound p -> art_device prefix p w = (Some text, w') ->
  exists n c, lines_of [n] text /\ cdev_node n c /\ art_for p c.
Proof.
  intros Hq (Hs & Hi). unfold art_device, wbind, oret, bind at 1, ret at 1.
  destruct (source_device p) as [src|] eqn:Es; [|done]. unfold bind.
  destruct (subtitute_string TARGET_DEV src w) as [name w1] eqn:En. apply target_name in En as (m & Hm & ->).
  destruct (art_weight p) as [infl|] eqn:Ei; [|done]. cbn. intros [= <- <-].
  destruct (int_small _ _ Hi eq_refl) as [Ii _]. set (dev := replace_name target_substitue_strings m).
  assert (Hc : clean dev) by (eapply associated_clean; eauto using clean_source_name).
  destruct (device_block (prefix +:+ tab) [("type", dev); ("influence", string_of_Z infl)]
    (new_conf_trip_cdev <| tcd_type := dev |> <| tcd_influence := infl |> <| tcd_sampling_period := 0 |>))
    as (n & Hn & Hcn).
  - by rewrite no_markup_app, Hq.
  - repeat constructor; try apply number_leaf; apply (clean_leaf "type" dev Hc).
  - cbn [leaves map snd fst]. do 2 (rewrite for_values_elem; value_of (trip_cdev_value doc)).
    rewrite !atoi_string_of_Z by done. by rewrite (clean_trim dev Hc).
  - exists n. eexists. split; [|split; [exact Hcn|]].
    + eapply lines_eq; [|exact Hn]. unfold leaves_text. cbn [foldr fst snd]. by rewrite !str_assoc.
    + exists infl. split; [done|]. by exists src, m.
Qed.

(** Node by node, so are lists. *)
Lemma each_object_nodes {B} (f : list Z -> State W (option string)) (P : list Z -> Prop)
    (N : string * xmlNode -> B -> Prop) (Q : list Z -> B -> Prop) :
  (forall p w text w', P p -> f p w = (Some text, w') -> exists n b, lines_of [n] text /\ N n b /\ Q p b) ->
  forall l w text w', Forall P l -> each_object f l w = (Some text, w') ->
  exists ns bs, lines_of ns text /\ Forall2 N ns bs /\ Forall2 Q l bs.
Proof.
  intros Hf l. induction l as [|p l IH]; intros w text w' Hl; cbn [each_object]; unfold oret, wbind, bind.
  { intros [= <- <-]. exists [], []. by repeat split; constructor. }
  inversion Hl as [|? ? Hp Hl']; subst. destruct (f p w) as [[s|] w1] eqn:E1; [|done].
  destruct (each_object f l w1) as [[s'|] w2] eqn:E2; [|done]. unfold ret. intros [= <- <-].
  destruct (Hf _ _ _ _ Hp E1) as (n & b & H1 & H2 & H3). destruct (IH _ _ _ Hl' E2) as (ns & bs & G1 & G2 & G3).
  exists (n :: ns), (b :: bs). split; [exact (lines_app [n] s ns s' H1 G1)|]. by split; constructor.
Qed.

(** ** Trip points *)

(** The trip of a table: the zone's own temperature, devices in sequence. *)
Definition table_trip_conf (ty : trip_point_type_t) (sensor : string) (cs : list trip_cdev_t) : trip_point_t :=
  mk_conf_trip 0 0 ty SEQUENTIAL 100 sensor (mk_depend 0 "" "") cs.

Lemma trip_block q sensor type ty ns cs devices :
  no_markup q = true -> clean sensor ->
  leaf_ok ("type", type) -> char_trim type = Some type -> (forall old, conf_trip_type type old = ty) ->
  lines_of ns devices -> Forall2 cdev_node ns cs ->
  exists n, lines_of [n] (trip_head q sensor type +:+ devices +:+ trip_tail q) /\
    trip_node n (table_trip_conf ty sensor cs).
Proof.
  intros Hq Hs Ht Htrim Hty Hns Hcs.
  set (head := [("SensorType", sensor); ("Temperature", "*"); ("type", type); ("ControlType", "SEQUENTIAL")]).
  assert (Hh : lines_of (leaves (q +:+ tab) head) (leaves_text (q +:+ tab) head)).
  { apply leaves_lines; [by rewrite no_markup_app, Hq|]. constructor; [by apply (clean_leaf "SensorType")|].
    constructor; [by split|]. constructor; [done|]. by repeat constructor. }
  exists (q, XML_ELEMENT_NODE "TripPoint" (children_of (leaves (q +:+ tab) head ++ ns) q)). split.
  - eapply lines_eq; [|exact (lines_block q "TripPoint" _ _ Hq (lines_app _ _ _ _ Hh Hns))].
    unfold trip_head, trip_tail, leaves_text, head. cbn [foldr fst snd].
    change (("<" +:+ "TripPoint" +:+ ">")) with "<TripPoint>". change (("</" +:+ "TripPoint" +:+ ">")) with "</TripPoint>".
    rewrite !str_assoc. done.
  - eexists. split; [reflexivity|]. unfold parse_new_trip_point. rewrite for_values_children, map_app, for_values_app.
    unfold head. cbn [leaves map snd fst].
    do 2 (rewrite for_values_elem; value_of (trip_point_value doc)).
    rewrite for_values_elem. value_of (trip_point_value doc). rewrite Htrim. cbn [mbind option_bind].
    rewrite for_values_elem. value_of (trip_point_value doc). change (char_trim "SEQUENTIAL") with (Some "SEQUENTIAL").
    cbn [mbind option_bind]. rewrite for_values_nil. cbn [mbind option_bind].
    rewrite (cdev_nodes_read ns cs Hcs), Hty, (clean_trim sensor Hs). eval_named. done.
Qed.

(** The trips a kind of objects gives: none, or one that drives their devices. *)
Definition trips_for (ty : trip_point_type_t) (Q : list Z -> trip_cdev_t -> Prop) (sensor : string)
    (objects : list (list Z)) (ts : list trip_point_t) : Prop :=
  match objects with
  | [] => ts = []
  | _ => exists cs, Forall2 Q objects cs /\ ts = [table_trip_conf ty sensor cs]
  end.

Lemma sensor_clean s : clean s -> clean (replace_name sensor_substitue_strings s).
Proof. apply replace_name_clean. repeat constructor; discriminate. Qed.

Lemma passive_nodes q o (w : W) text o' w' :
  no_markup q = true -> clean (rel_sensor o) -> Forall trt_sound (trt_objects o) ->
  add_passive_trip_point q o w = (Some (text, o'), w') ->
  art_objects o' = art_objects o /\ (rel_sensor o' = rel_sensor o \/ rel_sensor o' = replace_name sensor_substitue_strings (rel_sensor o)) /\
  exists ns ts, lines_of ns text /\ Forall2 trip_node ns ts /\
    trips_for PASSIVE trt_for (replace_name sensor_substitue_strings (rel_sensor o)) (trt_objects o) ts.
Proof.
  intros Hq Hs Ho. unfold add_passive_trip_point, trips_for. destruct (trt_objects o) as [|p l] eqn:E.
  { intros [= <- <- <-]. split; [done|]. split; [by left|]. exists [], []. by repeat split; constructor. }
  unfold bind at 1, subtitute_string, ret at 1. unfold wbind at 1, bind at 1.
  set (sensor := replace_name _ _). assert (Hq' : no_markup (q +:+ tab) = true) by (by rewrite no_markup_app, Hq).
  destruct (each_object _ _ w) as [[devices|] w1] eqn:Ee; [|done]. intros [= <- <- <-].
  destruct (each_object_nodes _ _ _ _ (fun p w t w' => trt_device_node _ p w t w' Hq') _ _ _ _ Ho Ee)
    as (ns & cs & H1 & H2 & H3).
  destruct (trip_block (q +:+ tab) sensor "passive" PASSIVE ns cs devices) as (n & Hn & Ht); try done.
  { by apply sensor_clean. }
  split; [done|]. split; [by right|]. exists [n], [table_trip_conf PASSIVE sensor cs].
  split; [done|]. split; [by repeat constructor|]. by exists cs.
Qed.

Lemma active_nodes q o (w : W) text o' w' :
  no_markup q = true -> clean (rel_sensor o) -> Forall art_sound (art_objects o) ->
  add_active_trip_point q o w = (Some (text, o'), w') ->
  exists ns ts, lines_of ns text /\ Forall2 trip_node ns ts /\
    trips_for ACTIVE art_for (replace_name sensor_substitue_strings (rel_sensor o)) (art_objects o) ts.
Proof.
  intros Hq Hs Ho. unfold add_active_trip_point, trips_for. destruct (art_objects o) as [|p l] eqn:E.
  { intros [= <- <- <-]. exists [], []. by repeat split; constructor. }
  unfold bind at 1, subtitute_string, ret at 1. unfold wbind at 1, bind at 1.
  set (sensor := replace_name _ _). assert (Hq' : no_markup (q +:+ tab) = true) by (by rewrite no_markup_app, Hq).
  destruct (each_object _ _ w) as [[devices|] w1] eqn:Ee; [|done]. intros [= <- <- <-].
  destruct (each_object_nodes _ _ _ _ (fun p w t w' => art_device_node _ p w t w' Hq') _ _ _ _ Ho Ee)
    as (ns & cs & H1 & H2 & H3).
  destruct (trip_block (q +:+ tab) sensor "active" ACTIVE ns cs devices) as (n & Hn & Ht); try done.
  { by apply sensor_clean. }
  exists [n], [table_trip_conf ACTIVE sensor cs]. split; [done|]. split; [by repeat constructor|]. by exists cs.
Qed.

(** ** Zones *)

(** The configured zone of a target. *)
Definition zone_for (o : rel_object_t) (z : thermal_zone_t) : Prop :=
  tz_type z = replace_name source_substitue_strings (rel_device o) /\
  exists passive active, tz_trip_pts z = passive ++ active /\
    trips_for PASSIVE trt_for (replace_name sensor_substitue_strings (rel_device o)) (trt_objects o) passive /\
    trips_for ACTIVE art_for (replace_name sensor_substitue_strings (rel_device o)) (art_objects o) active.

Definition sound (o : rel_object_t) : Prop :=
  rel_sensor o = rel_device o /\ (rel_device o = "" \/ clean (rel_device o)) /\
  Forall trt_sound (trt_objects o) /\ Forall art_sound (art_objects o).

Lemma sensor_twice s : replace_name sensor_substitue_strings (replace_name sensor_substitue_strings s) =
  replace_name sensor_substitue_strings s.
Proof. cbn. destruct (String.eqb_spec s "TPCH") as [->|Hne]; [done|]. by destruct (String.eqb_spec s "TPCH"). Qed.

Lemma zone_trips q o (w : W) text w' :
  no_markup q = true -> sound o -> rel_device o <> "" -> trt_art_trips q o w = (Some text, w') ->
  exists ns ts, lines_of ns text /\ Forall2 trip_node ns ts /\
    zone_for o (mk_thermal_zone (replace_name source_substitue_strings (rel_device o)) ts).
Proof.
  intros Hq (Hs & Hc & Ht & Ha) Hne. destruct Hc as [|Hc]; [done|]. unfold trt_art_trips, wbind, bind.
  destruct (add_passive_trip_point q o w) as [[[t1 o1]|] w1] eqn:E1; [|done].
  destruct (add_active_trip_point q o1 w1) as [[[t2 o2]|] w2] eqn:E2; [|done]. intros [= <- <-].
  rewrite <- Hs in Hc. destruct (passive_nodes _ _ _ _ _ _ Hq Hc Ht E1) as (Eo & Es & ns1 & ts1 & H1 & H2 & H3).
  rewrite <- Eo in Ha. assert (Hc1 : clean (rel_sensor o1)) by (destruct Es as [-> | ->]; [done|by apply sensor_clean]).
  destruct (active_nodes _ _ _ _ _ _ Hq Hc1 Ha E2) as (ns2 & ts2 & G1 & G2 & G3).
  exists (ns1 ++ ns2), (ts1 ++ ts2). split; [by apply lines_app|]. split; [by apply Forall2_app|].
  split; [done|]. exists ts1, ts2. split; [done|]. rewrite <- Hs. split; [done|].
  rewrite <- Eo. destruct Es as [Es|Es]; rewrite Es, ?sensor_twice in G3; exact G3.
Qed.

Lemma source_clean s : clean s -> clean (replace_name source_substitue_strings s).
Proof. apply replace_name_clean. repeat constructor; discriminate. Qed.

Lemma zone_block q o trips (w : W) text w' :
  no_markup q = true -> sound o -> rel_device o <> "" ->
  (forall s w1 w2, trips w1 = (Some s, w2) -> exists ns ts, lines_of ns s /\ Forall2 trip_node ns ts /\
    zone_for o (mk_thermal_zone (replace_name source_substitue_strings (rel_device o)) ts)) ->
  zone_text q o trips w = (Some text, w') ->
  exists n z, lines_of [n] text /\ zone_node n z /\ zone_for o z.
Proof.
  intros Hq (_ & Hc & _) Hne Htrips. destruct Hc as [|Hc]; [done|].
  unfold zone_text, subtitute_string, bind at 1, ret at 1, wbind, bind.
  destruct (trips w) as [[s|] w1] eqn:E; [|done]. intros [= <- <-].
  destruct (Htrips _ _ _ E) as (ns & ts & H1 & H2 & H3).
  set (type := replace_name source_substitue_strings (rel_device o)) in *.
  assert (Hty : clean type) by (by apply source_clean). set (q1 := q +:+ tab).
  assert (Hq1 : no_markup q1 = true) by (unfold q1; by rewrite no_markup_app, Hq).
  pose proof (lines_block q1 "TripPoints" ns s Hq1 H1) as Hb.
  pose proof (lines_leaf q1 "Type" type Hq1 ltac:(apply Hty) ltac:(apply Hty)) as Hl.
  pose proof (lines_block q "ThermalZone" _ _ Hq (lines_app _ _ _ _ Hl Hb)) as Hz.
  eexists _, (mk_thermal_zone type ts). split; [|split; [|exact H3]].
  - eapply lines_eq; [|exact Hz]. unfold q1. by rewrite !str_assoc.
  - eexists. split; [reflexivity|]. intros z0. unfold parse_new_zone. rewrite for_elements_children.
    cbn [map app snd]. unfold elem. rewrite for_elements_cons. eval_named. rewrite text_of_elem. cbn [mbind option_bind].
    rewrite for_elements_cons. eval_named. rewrite (trip_nodes_read ns ts q1 H2). cbn [mbind option_bind].
    rewrite for_elements_nil, (clean_trim type Hty). done.
Qed.

Lemma create_zones_nodes q l : no_markup q = true -> Forall sound l -> forall ind (w : W) text w',
  no_markup ind = true -> create_zones q ind l w = (Some text, w') ->
  exists ns zs, lines_of ns text /\ Forall2 zone_node ns zs /\
    Forall2 zone_for (filter (fun o => rel_device o <> "") l) zs.
Proof.
  intros Hq Hl. induction Hl as [|o l Ho Hl IH]; intros ind w text w' Hi; cbn [create_zones].
  { intros [= <- <-]. exists [], []. by repeat split; constructor. }
  destruct (String.eqb_spec (rel_device o) "") as [He|He].
  { intros E. rewrite filter_cons_False by (by intros Hn). by eapply IH. }
  assert (Hi' : no_markup (ind +:+ tab) = true) by (by rewrite no_markup_app, Hi).
  unfold wbind, bind. destruct (zone_text q o _ w) as [[t1|] w1] eqn:E1; [|done].
  destruct (create_zones q _ l w1) as [[t2|] w2] eqn:E2; [|done]. intros [= <- <-].
  destruct (zone_block _ _ _ _ _ _ Hq Ho He (fun s w1 w2 => zone_trips _ o w1 s w2 Hi' Ho He) E1) as (n & z & H1 & H2 & H3).
  destruct (IH _ _ _ _ Hi' E2) as (ns & zs & G1 & G2 & G3).
  exists (n :: ns), (z :: zs). split; [exact (lines_app [n] t1 ns t2 H1 G1)|]. split; [by constructor|].
  rewrite filter_cons_True by done. by constructor.
Qed.

Lemma zone_nodes_read ns zs last : Forall2 zone_node ns zs -> forall i,
  parse_thermal_zones doc (children_of ns last) i = Some (i <| ti_zones := ti_zones i ++ zs |>).
Proof.
  intros Hf i. unfold parse_thermal_zones. rewrite for_elements_children.
  generalize (mk_thermal_zone "" []). revert i.
  induction Hf as [|n z ns zs (ch & En & Ep) Hf IH]; intros i z0; cbn [map].
  { rewrite for_elements_nil, app_nil_r. by destruct i. }
  rewrite En, for_elements_cons. eval_named. rewrite Ep. cbn [mbind option_bind].
  specialize (IH (i <| ti_zones := ti_zones i ++ [z] |>) z). cbn [mbind option_bind] in IH. rewrite IH.
  cbn. by rewrite <- app_assoc.
Qed.

(** ** The document *)

(** The entries of the tables are fit for a configuration: names without markup
    or white space, numbers that are [int]s. *)
Definition tables_sound (r : acpi_rel) : Prop :=
  Forall trt_sound (table_of r TRT) /\ Forall art_sound (table_of r ART) /\
  forall t, Forall (fun p => exists o, fresh_object t p = Some o /\ (rel_device o = "" \/ clean (rel_device o))) (table_of r t).

Lemma filed_sound r l : tables_sound r -> filed (table_of r) l -> Forall sound l.
Proof.
  intros (Ht & Ha & Hn) (_ & Ho & _). apply Forall_forall. intros o Hin. destruct (Ho o Hin) as (Hs & (t & Hex) & Hf).
  split; [done|]. split_and!.
  - rewrite Hf in Hex. destruct (filter _ (table_of r t)) as [|p ps] eqn:E; [done|].
    assert (Hp : p ∈ filter (refers (rel_device o)) (table_of r t)) by (rewrite E; by left).
    apply list_elem_of_filter in Hp as [Hr Hp]. specialize (Hn t). rewrite Forall_forall in Hn.
    destruct (Hn p Hp) as (x & Hx & Hc). apply fresh_object_name in Hx as (Hx & _). rewrite Hr in Hx.
    by injection Hx as ->.
  - change (Forall trt_sound (objects_of TRT o)). rewrite Hf. by apply Forall_filtered.
  - change (Forall art_sound (objects_of ART o)). rewrite Hf. by apply Forall_filtered.
Qed.

(** What the product name element holds. *)
Definition product_text (w : W) : string := match product_line w with Some line => line | None => "*" +:+ nl end.

Definition platform_lines (q : string) (w : W) (ns : list (string * xmlNode)) : list (string * xmlNode) :=
  leaves q [("Name", "_TRT export"); ("ProductName", product_text w +:+ q); ("Preference", "QUIET")]
  ++ [(q, XML_ELEMENT_NODE "ThermalZones" (children_of ns q))].

Lemma platform_read q (w : W) ns zs t :
  no_markup q = true -> (forall line, product_line w = Some line -> no_markup line = true) -> string_trim q = "" -> q <> "" ->
  lines_of ns t -> Forall2 zone_node ns zs ->
  lines_of (platform_lines q w ns)
    (leaves_text q [("Name", "_TRT export"); ("ProductName", product_text w +:+ q); ("Preference", "QUIET")]
     +:+ q +:+ "<ThermalZones>" +:+ nl +:+ t +:+ q +:+ "</ThermalZones>" +:+ nl) /\
  forall last i, parse_new_platform_info doc uninit_pid (children_of (platform_lines q w ns) last) i =
    Some (i <| ti_name := "_TRTexport" |> <| ti_product_name := string_trim (product_text w +:+ q) |>
            <| ti_default_preference := PREF_ENERGY_CONSERVE |> <| ti_polling_interval := 0 |>
            <| ti_zones := ti_zones i ++ zs |>).
Proof.
  intros Hq Hp Hqt Hqn Hns Hzs. split.
  - apply lines_app; [|exact (lines_block q "ThermalZones" ns t Hq Hns)]. apply leaves_lines; [done|].
    constructor; [by split|]. constructor; [|by repeat constructor]. split; cbn [snd].
    + unfold product_text. destruct (product_line w) as [[|c s]|]; [exact Hqn|discriminate|discriminate].
    + rewrite no_markup_app, Hq, andb_true_r. unfold product_text. destruct (product_line w) as [line|]; [by apply Hp|done].
  - intros last i. unfold parse_new_platform_info, platform_lines. rewrite for_values_children, map_app, for_values_app.
    cbn [leaves map snd fst].
    do 2 (rewrite for_values_elem; value_of (platform_info_value doc uninit_pid)).
    rewrite for_values_elem. value_of (platform_info_value doc uninit_pid). change (char_trim "QUIET") with (Some "QUIET").
    cbn [mbind option_bind]. eval_named. rewrite for_values_nil. cbn [mbind option_bind].
    unfold for_values. rewrite for_elements_cons. destruct (children_text _ _ q Hns) as [v ->].
    value_of (platform_info_value doc uninit_pid). rewrite (zone_nodes_read ns zs q Hzs). cbn [mbind option_bind].
    rewrite for_elements_nil. by destruct i.
Qed.

Lemma string_trim_app a b : string_trim (a +:+ b) = string_trim a +:+ string_trim b.
Proof.
  induction a as [|c a IH]; [done|].
  change ((if trimmed_char c then string_trim (a +:+ b) else String c (string_trim (a +:+ b))) =
    (if trimmed_char c then string_trim a else String c (string_trim a)) +:+ string_trim b).
  rewrite IH. by destruct (trimmed_char c).
Qed.

(** The root of the document. *)
Definition root_of (w : W) (ns : list (string * xmlNode)) : xmlNode :=
  XML_ELEMENT_NODE "ThermalConfiguration"
    (children_of [(tab, XML_ELEMENT_NODE "Platform" (children_of (platform_lines (tab +:+ tab) w ns) tab))] "").

Lemma xml_root name ch a : xml_text ch a ->
  xml_text [XML_ELEMENT_NODE name ch] ("<" +:+ name +:+ ">" +:+ a +:+ "</" +:+ name +:+ ">").
Proof.
  intros Ha. pose proof (xt_element name ch [] a "" Ha xt_nil) as Hx. by rewrite append_nil_r in Hx.
Qed.

(** The configuration the document is read as. *)
Definition info_of (w : W) (zs : list thermal_zone_t) : thermal_info_t :=
  mk_thermal_info "_TRTexport" "" (string_trim (default "*" (product_line w))) "" PREF_ENERGY_CONSERVE 0 no_ppcc [] zs [].

Lemma root_read (w : W) ns zs t :
  (forall line, product_line w = Some line -> no_markup line = true) -> lines_of ns t -> Forall2 zone_node ns zs ->
  parse doc uninit_pid [root_of w ns] [] = Some [info_of w zs].
Proof.
  intros Hp Hns Hzs.
  destruct (platform_read (tab +:+ tab) w ns zs t eq_refl Hp eq_refl ltac:(discriminate) Hns Hzs) as [_ Hr].
  unfold parse, root_of. rewrite for_elements_cons. eval_named. unfold parse_new_platform.
  rewrite for_elements_children. cbn [map snd]. rewrite for_elements_cons. cbv beta iota zeta. eval_named.
  assert (Ht : string_trim (product_text w +:+ tab +:+ tab) = string_trim (default "*" (product_line w))).
  { rewrite string_trim_app. replace (string_trim (tab +:+ tab)) with "" by (vm_compute; reflexivity).
    rewrite append_nil_r. unfold product_text. destruct (product_line w); [reflexivity|vm_compute; reflexivity]. }
  rewrite Hr, Ht. unfold info_of. generalize (string_trim (default "*" (product_line w))). intros name.
  cbn [mbind option_bind]. rewrite !for_elements_nil. reflexivity.
Qed.

(** ** It is written *)

(** A computation with a result in every world. *)
Definition runs {A} (m : State W (option A)) : Prop := forall w, exists a w', m w = (Some a, w').

Lemma runs_oret {A} (o : option A) : is_Some o -> runs (oret o).
Proof. intros [a ->] w. by exists a, w. Qed.

Lemma runs_wbind {A B} (m : State W (option A)) (k : A -> State W (option B)) :
  runs m -> (forall a, runs (k a)) -> runs (wbind m k).
Proof. intros Hm Hk w. destruct (Hm w) as (a & w1 & E). unfold wbind, bind. rewrite E. apply Hk. Qed.

Lemma runs_bind {A B} (m : State W A) (k : A -> State W (option B)) : (forall a, runs (k a)) -> runs (bind m k).
Proof. intros Hk w. unfold bind. destruct (m w) as [a w1]. apply Hk. Qed.

Lemma runs_each (f : list Z -> State W (option string)) l : Forall (fun p => runs (f p)) l -> runs (each_object f l).
Proof.
  induction 1 as [|p l Hp Hl IH]; cbn [each_object]; [by apply runs_oret|].
  apply runs_wbind; [done|]. intros s. apply runs_wbind; [done|]. intros s'. by apply runs_oret.
Qed.

Lemma trt_device_runs prefix p : trt_sound p -> runs (trt_device prefix p).
Proof.
  intros ((s & Es & _) & (i & Ei & _) & (n & En & _)). apply runs_wbind; [rewrite Es; by apply runs_oret|].
  intros name. apply runs_bind. intros d. rewrite Ei, En. by apply runs_oret.
Qed.

Lemma art_device_runs prefix p : art_sound p -> runs (art_device prefix p).
Proof.
  intros ((s & Es & _) & (i & Ei & _)). apply runs_wbind; [rewrite Es; by apply runs_oret|].
  intros name. apply runs_bind. intros d. rewrite Ei. by apply runs_oret.
Qed.

Lemma passive_runs q o : Forall trt_sound (trt_objects o) -> runs (add_passive_trip_point q o).
Proof.
  intros Ho. unfold add_passive_trip_point. destruct (trt_objects o) as [|p ps]; [by apply runs_oret|].
  apply runs_bind. intros sensor. apply runs_wbind; [|intros d; by apply runs_oret].
  apply runs_each. eapply Forall_impl; [exact Ho|]. intros x. apply trt_device_runs.
Qed.

Lemma active_runs q o : Forall art_sound (art_objects o) -> runs (add_active_trip_point q o).
Proof.
  intros Ho. unfold add_active_trip_point. destruct (art_objects o) as [|p ps]; [by apply runs_oret|].
  apply runs_bind. intros sensor. apply runs_wbind; [|intros d; by apply runs_oret].
  apply runs_each. eapply Forall_impl; [exact Ho|]. intros x. apply art_device_runs.
Qed.

Lemma passive_keeps q o (w : W) text o' w' :
  add_passive_trip_point q o w = (Some (text, o'), w') -> art_objects o' = art_objects o.
Proof.
  unfold add_passive_trip_point, wbind, oret, bind, ret. destruct (trt_objects o); [by intros [= <- <- <-]|].
  destruct (subtitute_string _ _ w) as [sensor w1]. destruct (each_object _ _ w1) as [[d|] w2]; [|done].
  by intros [= <- <- <-].
Qed.

Lemma create_zones_runs q l : Forall sound l -> forall ind, runs (create_zones q ind l).
Proof.
  induction 1 as [|o l (_ & _ & Ht & Ha) Hl IH]; intros ind; cbn [create_zones]; [by apply runs_oret|].
  destruct (String.eqb _ _); [apply IH|]. apply runs_wbind.
  - apply runs_bind. intros type. apply runs_wbind; [|intros s; by apply runs_oret]. intros w.
    unfold trt_art_trips, wbind, bind. destruct (passive_runs (ind +:+ tab) o Ht w) as ([t o1] & w1 & E). rewrite E.
    apply passive_keeps in E. rewrite <- E in Ha. destruct (active_runs (ind +:+ tab) o1 Ha w1) as ([t' o2] & w2 & E').
    rewrite E'. by do 2 eexists.
  - intros z. apply runs_wbind; [apply IH|]. intros zs. by apply runs_oret.
Qed.

Lemma file_objects_defined t ps : Forall (fun p => is_Some (fresh_object t p)) ps -> forall l, is_Some (file_objects t ps l).
Proof.
  induction 1 as [|p ps [o Ho] Hps IH]; intros l; cbn [file_objects]; [done|].
  unfold file_object. rewrite Ho. cbn [mbind option_bind]. apply IH.
Qed.

Lemma parse_target_devices_defined r : tables_sound r -> is_Some (parse_target_devices r).
Proof.
  intros (_ & _ & Hn).
  assert (Hd : forall t, Forall (fun p => is_Some (fresh_object t p)) (table_of r t)).
  { intros t. eapply Forall_impl; [apply Hn|]. intros p (o & Ho & _). by exists o. }
  change (is_Some (l ← file_objects TRT (table_of r TRT) []; l ← file_objects ART (table_of r ART) l;
    file_objects PSVT (table_of r PSVT) l)).
  destruct (file_objects_defined TRT _ (Hd TRT) []) as [l1 ->]. cbn [mbind option_bind].
  destruct (file_objects_defined ART _ (Hd ART) l1) as [l2 ->]. cbn [mbind option_bind].
  apply (file_objects_defined PSVT _ (Hd PSVT)).
Qed.

Lemma trt_document_runs r : tables_sound r -> runs (trt_document r).
Proof.
  intros Hr. destruct (parse_target_devices_defined r Hr) as [l El].
  pose proof (filed_sound r l Hr (parse_target_devices_filed r l El)) as Hs.
  apply runs_bind. intros conf. apply runs_wbind; [|intros zones; by apply runs_oret].
  apply runs_wbind; [|intros zones; by apply runs_oret]. apply runs_wbind; [|intros zones; by apply runs_oret].
  intros w. unfold create_thermal_zone, wbind, oret, bind, ret. rewrite El. by apply create_zones_runs.
Qed.

(** C38: the tables of a firmware whose entries are within the data, with names
    free of markup and numbers that are [int]s, are written as an XML document,
    and the parser reads that document as one platform with the product's name,
    a zone for every target the tables name, in the order of their first
    entries, and in each zone a passive trip that drives, in sequence, the
    devices of the target's _TRT entries and an active one for its _ART entries,
    with the weights and periods of the entries.  Every entry is under its own
    target, once. *)
Theorem generated_conf_is_read r (w : W) :
  tables_sound r -> (forall line, product_line w = Some line -> no_markup line = true) ->
  exists root body rel_list zs w',
    trt_document r w = (Some (xml_hdr +:+ body +:+ nl), w') /\ xml_text [root] body /\
    parse doc uninit_pid [root] [] = Some [info_of w zs] /\
    parse_target_devices r = Some rel_list /\ filed (table_of r) rel_list /\
    Forall2 zone_for (filter (fun o => rel_device o <> "") rel_list) zs.
Proof.
  intros Hr Hp. destruct (trt_document_runs r Hr w) as (text & w' & E). rewrite E. revert E.
  unfold trt_document, document, create_platform_conf, create_thermal_zones, create_thermal_zone, oret.
  unfold wbind, bind, gets, ret. destruct (parse_target_devices r) as [l|] eqn:El; [|done].
  pose proof (parse_target_devices_filed r l El) as Hf.
  destruct (create_zones _ _ l w) as [[zt|] w1] eqn:Ez; [|done]. intros [= <- <-].
  destruct (create_zones_nodes ((tab +:+ tab) +:+ tab) l eq_refl (filed_sound r l Hr Hf)
    ((tab +:+ tab) +:+ tab +:+ tab) w zt w1 eq_refl Ez) as (ns & zs & H1 & H2 & H3).
  destruct (platform_read (tab +:+ tab) w ns zs zt eq_refl Hp eq_refl ltac:(discriminate) H1 H2) as [Hl _].
  pose proof (lines_block tab "Platform" _ _ eq_refl Hl) as Hb.
  pose proof (xml_root "ThermalConfiguration" _ _ (lines_children _ _ "" Hb eq_refl)) as Hx.
  exists (root_of w ns). eexists. exists l, zs, w1.
  split; [|split; [exact Hx|split; [by eapply root_read|done]]]. do 2 f_equal.
  unfold conf_begin, conf_end, create_platform_pref, leaves_text, product_text. cbn [foldr fst snd truthy negb Z.eqb].
  unfold written. rewrite ?str_assoc. destruct (product_line w); reflexivity.
Qed.
End generated.

(** ** An example *)

(** The bytes of a name in its eight characters. *)
Definition name_bytes (name : string) : list Z :=
  resize 8 0 (map (fun c => Z.of_nat (nat_of_ascii c)) (String.list_ascii_of_string name)).
Definition word_bytes (n : Z) : list Z := [n mod 256; n / 256; 0; 0; 0; 0; 0; 0].

(** Two entries of one target and one of another, and a fan. *)
Definition laptop_trt : list Z :=
  name_bytes "TCPU" ++ name_bytes "TSKN" ++ word_bytes 100 ++ word_bytes 50 ++ replicate 32 0 ++
  name_bytes "TPCH" ++ name_bytes "TMEM" ++ word_bytes 20 ++ word_bytes 300 ++ replicate 32 0 ++
  name_bytes "DISP" ++ name_bytes "TSKN" ++ word_bytes 10 ++ word_bytes 100 ++ replicate 32 0.
Definition laptop_art : list Z := name_bytes "TFN1" ++ name_bytes "TSKN" ++ word_bytes 40 ++ replicate 80 0.
Definition laptop_rel : acpi_rel := mk_acpi_rel laptop_trt 3 laptop_art 1 [] 0.
Definition laptop : sim := mk_sim {["/sys/class/dmi/id/product_name" := "Laptop 13" +:+ nl]} [] 0.

Lemma laptop_tables : tables_sound laptop_rel.
Proof.
  assert (Hc : forall s, negb (String.eqb s "") && no_markup s && String.eqb (string_trim s) s = true -> clean s).
  { intros s ((H1 & H2)%andb_prop & H3)%andb_prop. split; [by intros ->|]. split; [done|]. by apply String.eqb_eq. }
  split_and!; [| |intros []]; repeat constructor; try (eexists; split; [vm_compute; reflexivity|]);
    try (right; apply Hc); try apply Hc; vm_compute; try reflexivity; by split.
Qed.

Example laptop_targets : option_map (map (fun o => (rel_device o, length (trt_objects o), length (art_objects o))))
  (parse_target_devices laptop_rel) = Some [("TSKN", 2, 1); ("TMEM", 1, 0)]%nat.
Proof. vm_compute. reflexivity. Qed.

(** The PSVT document of an object that has read the other tables lists their
    targets as well, as zones without trip points. *)
Example psvt_lists_all_targets :
  option_map (fun t => (contains "<Type>TSKN</Type>" t, contains "<TripPoint>" t)) (fst (psvt_document laptop_rel laptop)) =
  Some (true, false).
Proof. vm_compute. reflexivity. Qed.

(** The tables of the example are written and read back. *)
Lemma generated_conf_witness :
  tables_sound laptop_rel /\ exists root body rel_list zs w',
    trt_document laptop_rel laptop = (Some (xml_hdr +:+ body +:+ nl), w') /\ xml_text [root] body /\
    @parse sim (list xmlNode) (sim_xml ∅) [] (mk_pid_control zero_double zero_double zero_double) [root] [] =
      Some [info_of laptop zs] /\
    parse_target_devices laptop_rel = Some rel_list /\ filed (table_of laptop_rel) rel_list /\
    Forall2 zone_for (filter (fun o => rel_device o <> "") rel_list) zs.
Proof.
  split; [exact laptop_tables|].
  apply (@generated_conf_is_read sim (list xmlNode) _ (sim_xml ∅) _ [] (mk_pid_control zero_double zero_double zero_double)
    laptop_rel laptop laptop_tables).
  intros line. vm_compute. by intros [= <-].
Defined.
