(* ===== verification/Platform.v ===== *)
(** The platform of the processor (src/thd_platform.cpp, thd_platform_intel.cpp,
    thd_platform_arm.cpp): which class of platform is made, whether its processor
    is on the list of supported ones, and the workaround that switches off the
    power limit in the memory-mapped RAPL register; with the theorems about them.

    The processor, the kernel's [uname] and the physical memory behind /dev/mem
    are the class [Hardware]. *)
From stdpp Require Import base gmap strings list.
From Stdlib Require Import ZArith Lia.
From Stdlib Require String.
From S2P Require Import Prelude CString MeterData SysFs CFloat Pid Cdev CdevRapl Machine Preference TripPoint Xml Parse Zone ZoneKinds Engine EngineUser EngineTheorems EngineStart Devices EngineDefault.

Open Scope string_scope.
Open Scope list_scope.
Open Scope Z_scope.

Record cpuid_t := mk_cpuid { eax : Z; ebx : Z; ecx : Z; edx : Z }.

Class Hardware (W : Type) := {
  k_uname : W -> option string;                  (* the machine member *)
  k_cpuid : Z -> W -> cpuid_t;
  k_mmap : Z -> Z -> W -> bool * W;              (* a page of /dev/mem, by descriptor and offset *)
  k_munmap : Z -> W -> W;
  k_load : Z -> W -> Z;                          (* 64 bits at a physical address that is mapped *)
  k_store : Z -> Z -> W -> W;
}.

(** * Platforms *)

Inductive platform_type_t := PLATFORM_UNKNOWN | PLATFORM_INTEL_X86 | PLATFORM_ARM64 | PLATFORM_ARM32 | PLATFORM_OTHER.

Record cthd_platform := mk_platform { detected_platform : platform_type_t; machine_type : string }.
#[export] Instance eta_platform : Eta cthd_platform := {| eta_of := fun x =>
  mk_platform (detected_platform x) (machine_type x) |}.
Definition new_platform : cthd_platform := mk_platform PLATFORM_UNKNOWN "".

(** An object of one of the classes. *)
Inductive platform_object :=
| GenericPlatform (p : cthd_platform)
| IntelPlatform (p : cthd_platform)
| ArmPlatform (p : cthd_platform).

Definition is_machine (machine name : string) : bool := thd_strcmp_n (Some machine) (Some name) =? 0.

Definition machine_platform (machine : string) : platform_type_t :=
  if is_machine machine "x86_64" then PLATFORM_INTEL_X86
  else if is_machine machine "aarch64" then PLATFORM_ARM64
  else if is_machine machine "arm" then PLATFORM_ARM32
  else PLATFORM_OTHER.

(** * Processors *)

Definition intel_id_table : list (Z * Z) :=
  [(6, 0x2a); (6, 0x3a); (6, 0x3c); (6, 0x45); (6, 0x46); (6, 0x3d); (6, 0x47); (6, 0x37); (6, 0x4c);
   (6, 0x4e); (6, 0x5e); (6, 0x5c); (6, 0x7a); (6, 0x8e); (6, 0x9e); (6, 0x66); (6, 0x7e); (6, 0x8c);
   (6, 0x8d); (6, 0xa5); (6, 0xa6); (6, 0xa7); (6, 0x9c); (6, 0x97); (6, 0x9a); (6, 0xb7); (6, 0xba);
   (6, 0xbe); (6, 0xbf); (6, 0xaa); (6, 0xbd); (6, 0xc6); (6, 0xc5); (6, 0xb5); (6, 0xcc); (15, 0x01)].

Definition blocklist_paths : list string := ["/sys/devices/platform/thinkpad_acpi/dytc_lapmode"].

Definition cpu_family (fms : Z) : Z := Z.land (Z.shiftr fms 8) 0xf.
Definition cpu_model (fms : Z) : Z :=
  let family := cpu_family fms in
  let model := Z.land (Z.shiftr fms 4) 0xf in
  if (family =? 6) || (family =? 0xf) then u32 (model + Z.shiftl (Z.land (Z.shiftr fms 16) 0xf) 4) else model.

Definition genuine_intel (c : cpuid_t) : bool :=
  (ebx c =? 0x756e6547) && (edx c =? 0x49656e69) && (ecx c =? 0x6c65746e).

(** The search of the table, up to its last entry. *)
Fixpoint listed_in (l : list (Z * Z)) (family model : Z) : bool :=
  match l with
  | [] => false
  | (f, m) :: l' => if (f =? family) && (m =? model) then true else listed_in l' family model
  end.

Section platform.
Context {W : Type} `{Kernel W} `{!Hardware W}.

Definition detect_platform (p : cthd_platform) (w : W) : cthd_platform :=
  match k_uname w with
  | None => p <| detected_platform := PLATFORM_UNKNOWN |>
  | Some machine => p <| machine_type := machine |> <| detected_platform := machine_platform machine |>
  end.

(** The constructors of the two subclasses detect the platform. *)
Definition create_platform (w : W) : platform_object :=
  match k_uname w with
  | None => GenericPlatform new_platform
  | Some machine =>
      if is_machine machine "x86_64" then IntelPlatform (detect_platform new_platform w)
      else if is_machine machine "aarch64" || is_machine machine "arm" then ArmPlatform (detect_platform new_platform w)
      else GenericPlatform new_platform
  end.

(** The result and [proc_list_matched]. *)
Definition intel_check_cpu_id (w : W) : Z * bool :=
  if negb (genuine_intel (k_cpuid 0 w)) then (THD_SUCCESS, false) else
  let fms := eax (k_cpuid 1 w) in
  let valid := listed_in intel_id_table (cpu_family fms) (cpu_model fms) in
  let blocked := existsb (fun path => match k_stat path w with Some _ => true | None => false end) blocklist_paths in
  (THD_SUCCESS, if blocked then false else valid).

Definition platform_check_cpu_id (p : platform_object) (w : W) : Z * bool :=
  match p with
  | GenericPlatform _ => (THD_SUCCESS, false)
  | IntelPlatform _ => intel_check_cpu_id w
  | ArmPlatform _ => (THD_SUCCESS, true)
  end.

(** [cthd_engine::check_cpu_id]. *)
Definition check_cpu_id (w : W) : Z * bool := platform_check_cpu_id (create_platform w) w.

(** The check as the initialization of the engine runs it. *)
Definition checked_cpu {X D} : State (setup D * engine X W) bool :=
  start_engine (on_w (gets (fun w => snd (check_cpu_id w)))).

(** * The workaround *)

Definition BIT_ULL (nr : Z) : Z := u64 (Z.shiftl 1 nr).
Definition rapl_mmio_dir : string := "/sys/devices/virtual/powercap/intel-rapl-mmio/intel-rapl-mmio:0/".
Definition rapl_page : Z := 0xfed15000.
Definition rapl_pkg_pwr_addr : Z := rapl_page + 0x9a0.

(** Switching the zone off through sysfs; [true] when that worked. *)
Definition disable_by_sysfs : State W bool :=
  with_fs rapl_mmio_dir (
    ex <- exists_path "" ;;
    if ex : bool then n <- write_uint "enabled" 0 ;; ret (n >? 0) else ret false).

(** Clearing the enable bit in the register. *)
Definition clear_enable_bit : State W unit := fun w =>
  let model := cpu_model (eax (k_cpuid 1 w)) in
  if negb (model =? 0x8e) && negb (model =? 0x9e) then (tt, w) else
  match k_open_rw "/dev/mem" w with
  | (inl _, w) => (tt, w)
  | (inr map_fd, w) =>
      match k_mmap map_fd rapl_page w with
      | (false, w) => (tt, k_close map_fd w)
      | (true, w) =>
          let pkg_power_limit := k_load rapl_pkg_pwr_addr w in
          let w := k_store rapl_pkg_pwr_addr (Z.land pkg_power_limit (u64 (Z.lnot (BIT_ULL 15)))) w in
          (tt, k_close map_fd (k_munmap rapl_page w))
      end
  end.

(** [thd_engine] tells whether the global pointer is set. *)
Definition intel_workaround_rapl_mmio_power {X} (workaround_enabled thd_engine : bool) : State (engine X W) unit :=
  if negb workaround_enabled then ret tt else
  e <- get ;;
  if thd_engine then
    match search_cdev "rapl_controller_mmio" (mach e) with
    | Some _ => ret tt
    | None =>
        off <- on_w disable_by_sysfs ;;
        if off : bool then ret tt else on_w clear_enable_bit
    end
  else on_w clear_enable_bit.

Definition workaround_rapl_mmio_power {X} (workaround_enabled thd_engine : bool) : State (engine X W) unit :=
  p <- on_w (gets create_platform) ;;
  match p with
  | IntelPlatform _ => intel_workaround_rapl_mmio_power workaround_enabled thd_engine
  | _ => ret tt
  end.
End platform.

(** * Theorems *)

(** The signature of a processor, from its fields. *)
Definition signature (stepping model family type ext_model ext_family : Z) : Z :=
  stepping + 16 * (model + 16 * (family + 16 * (type + 16 * (ext_model + 16 * ext_family)))).

(** A hexadecimal digit of a sum of digits. *)
Lemma low_digit d r : 0 <= d < 16 -> Z.land (d + 16 * r) 0xf = d.
Proof.
  intros Hd. change 0xf with (Z.ones 4). rewrite Z.land_ones by lia. change (2 ^ 4) with 16.
  rewrite (Z.mul_comm 16), Z.mod_add by lia. by apply Z.mod_small.
Qed.

Lemma next_digits d r k : 0 <= d < 16 -> 0 <= k -> Z.shiftr (d + 16 * r) (4 + k) = Z.shiftr r k.
Proof.
  intros Hd Hk. rewrite !Z.shiftr_div_pow2, Z.pow_add_r, <- Z.div_div by lia. f_equal. change (2 ^ 4) with 16.
  rewrite (Z.mul_comm 16), Z.div_add, (Z.div_small d) by lia. lia.
Qed.

(** The family and the model are those of the signature; the extended model
    counts for the families 6 and 15, the extended family never does. *)
Theorem signature_decoded stepping model family type ext_model ext_family :
  0 <= stepping < 16 -> 0 <= model < 16 -> 0 <= family < 16 -> 0 <= type < 16 -> 0 <= ext_model < 16 ->
  let fms := signature stepping model family type ext_model ext_family in
  cpu_family fms = family /\
  cpu_model fms = if (family =? 6) || (family =? 15) then model + 16 * ext_model else model.
Proof.
  intros Hs Hm Hf Ht He fms.
  assert (E1 : Z.shiftr fms 4 = model + 16 * (family + 16 * (type + 16 * (ext_model + 16 * ext_family)))).
  { unfold fms, signature. change 4 with (4 + 0). by rewrite next_digits, Z.shiftr_0_r. }
  assert (E2 : Z.shiftr fms 8 = family + 16 * (type + 16 * (ext_model + 16 * ext_family))).
  { change 8 with (4 + 4). rewrite <- Z.shiftr_shiftr, E1 by lia. change 4 with (4 + 0). by rewrite next_digits, Z.shiftr_0_r. }
  assert (E3 : Z.shiftr fms 16 = ext_model + 16 * ext_family).
  { change 16 with (8 + (4 + 4)) at 1. rewrite <- Z.shiftr_shiftr, E2 by lia. rewrite next_digits by lia.
    change 4 with (4 + 0). by rewrite next_digits, Z.shiftr_0_r. }
  assert (Ef : cpu_family fms = family) by (unfold cpu_family; rewrite E2; by apply low_digit).
  split; [done|]. unfold cpu_model. rewrite Ef, E1, E3, !low_digit by done.
  destruct ((family =? 6) || (family =? 0xf)); [|done]. rewrite Z.shiftl_mul_pow2 by lia. change (2 ^ 4) with 16.
  rewrite u32_id by (unfold is_u32, UINT_MAX; lia). lia.
Qed.

Lemma listed_in_spec l family model : listed_in l family model = true <-> (family, model) ∈ l.
Proof.
  induction l as [|[f m] l IH]; cbn [listed_in]; [split; [done|by intros ?%not_elem_of_nil]|].
  rewrite elem_of_cons. destruct (Z.eqb_spec f family) as [->|Hf], (Z.eqb_spec m model) as [->|Hm]; cbn [andb];
    rewrite ?IH; intuition congruence.
Qed.

Section theorems.
Context {W : Type} `{Kernel W} `{!Hardware W}.

(** A processor is supported exactly when it says that it is Intel's, its family
    and model are in the table and the firmware does not manage the machine by
    itself. *)
Theorem intel_supported (w : W) stepping model family type ext_model ext_family :
  0 <= stepping < 16 -> 0 <= model < 16 -> 0 <= family < 16 -> 0 <= type < 16 -> 0 <= ext_model < 16 ->
  eax (k_cpuid 1 w) = signature stepping model family type ext_model ext_family ->
  intel_check_cpu_id w = (THD_SUCCESS, true) <->
    genuine_intel (k_cpuid 0 w) = true /\
    (family, if (family =? 6) || (family =? 15) then model + 16 * ext_model else model) ∈ intel_id_table /\
    Forall (fun path => k_stat path w = None) blocklist_paths.
Proof.
  intros Hs Hm Hf Ht He E. destruct (signature_decoded _ _ _ _ _ ext_family Hs Hm Hf Ht He) as [E1 E2].
  unfold intel_check_cpu_id, blocklist_paths. rewrite E, E1, E2, <- listed_in_spec, Forall_singleton. cbn [existsb].
  destruct (genuine_intel _), (k_stat _ w), (listed_in _ _ _); cbn [negb orb]; intuition congruence.
Qed.

(** What the memory promises. *)
Class HardwareLaws : Prop := {
  load_range a (w : W) : 0 <= k_load a w < 2 ^ 64;
  load_store a v (w : W) : 0 <= v < 2 ^ 64 -> k_load a (k_store a v w) = v;
  load_store_ne a b v (w : W) : a + 8 <= b \/ b + 8 <= a -> k_load b (k_store a v w) = k_load b w;
  load_open a p (w : W) : k_load a (snd (k_open_rw p w)) = k_load a w;
  load_mmap a fd off (w : W) : k_load a (snd (k_mmap fd off w)) = k_load a w;
  load_munmap a off (w : W) : k_load a (k_munmap off w) = k_load a w;
  load_close a fd (w : W) : k_load a (k_close fd w) = k_load a w;
}.
Context `{!HardwareLaws}.

(** Bit 15 of the register, and nothing else. *)
Definition only_enable_bit (w w' : W) : Prop :=
  (forall a, rapl_pkg_pwr_addr + 8 <= a \/ a + 8 <= rapl_pkg_pwr_addr -> k_load a w' = k_load a w) /\
  forall i, 0 <= i -> Z.testbit (k_load rapl_pkg_pwr_addr w') i =
    Z.testbit (k_load rapl_pkg_pwr_addr w) i && negb (i =? 15).

Definition same_memory (w w' : W) : Prop := forall a, k_load a w' = k_load a w.

Lemma enable_mask v i : 0 <= v < 2 ^ 64 -> 0 <= i ->
  Z.testbit (Z.land v (u64 (Z.lnot (BIT_ULL 15)))) i = Z.testbit v i && negb (i =? 15).
Proof.
  intros Hv Hi. rewrite Z.land_spec. unfold u64. destruct (Z.ltb_spec i 64).
  - rewrite Z.mod_pow2_bits_low, Z.lnot_spec by lia. change (BIT_ULL 15) with (Z.shiftl 1 15).
    by rewrite bit_of_one by lia.
  - rewrite Z.mod_pow2_bits_high, andb_false_r by lia. destruct (decide (v = 0)) as [->|Hne]; [by rewrite Z.bits_0|].
    rewrite (Z.bits_above_log2 v i); [done|lia|]. apply Z.log2_lt_pow2; [lia|].
    eapply Z.lt_le_trans; [apply Hv|]. apply Z.pow_le_mono_r; lia.
Qed.

Lemma masked_range v m : 0 <= v < 2 ^ 64 -> 0 <= Z.land v m < 2 ^ 64.
Proof.
  intros Hv. assert (0 <= Z.land v m) by (apply Z.land_nonneg; lia). split; [done|].
  destruct (decide (Z.land v m = 0)) as [->|Hne]; [lia|]. apply Z.log2_lt_pow2; [lia|].
  destruct (decide (v = 0)) as [->|Hv0]; [by rewrite Z.land_0_l in Hne|].
  assert (Z.land v m <= v).
  { apply Z.ldiff_le; [lia|]. apply Z.bits_inj'. intros i Hi. rewrite Z.ldiff_spec, Z.land_spec, Z.bits_0.
    by destruct (Z.testbit v i), (Z.testbit m i). }
  eapply Z.le_lt_trans; [by apply Z.log2_le_mono|]. apply Z.log2_lt_pow2; lia.
Qed.

(** The register is changed in one bit or not at all, and it is when the
    processor is one of the two models and /dev/mem can be mapped. *)
Lemma clear_enable_bit_spec (w : W) :
  let w' := snd (clear_enable_bit w) in
  let model := cpu_model (eax (k_cpuid 1 w)) in
  if ((model =? 0x8e) || (model =? 0x9e)) &&
     match k_open_rw "/dev/mem" w with (inr fd, w1) => fst (k_mmap fd rapl_page w1) | _ => false end
  then only_enable_bit w w' else same_memory w w'.
Proof.
  cbv zeta. unfold clear_enable_bit. rewrite <- negb_orb. destruct (_ || _); cbn [negb andb]; [|by intros a].
  destruct (k_open_rw "/dev/mem" w) as [[e|fd] w1] eqn:E1; [intros a; exact (eq_trans (f_equal (fun x => k_load a (snd x)) (eq_sym E1)) (load_open a _ w))|].
  assert (H1 : forall a, k_load a w1 = k_load a w) by (intros a; by rewrite <- (load_open a "/dev/mem" w), E1).
  destruct (k_mmap fd rapl_page w1) as [[] w2] eqn:E2;
    assert (H2 : forall a, k_load a w2 = k_load a w) by (intros a; rewrite <- H1; by rewrite <- (load_mmap a fd rapl_page w1), E2).
  - cbn [fst snd]. split.
    + intros a Ha. rewrite load_close, load_munmap, load_store_ne by done. apply H2.
    + intros i Hi. rewrite load_close, load_munmap, load_store by (apply masked_range, load_range).
      by rewrite enable_mask, H2 by (try apply load_range; done).
  - cbn [fst snd]. intros a. rewrite load_close. apply H2.
Qed.

(** The workaround leaves a machine alone whose RAPL device the daemon drives,
    and otherwise switches the zone off through sysfs or clears the enable bit
    of the register; no other memory is written. *)
Theorem workaround_one_bit {X} enabled thd_engine (e : engine X W) :
  let w := m_w (mach e) in
  let e' := snd (intel_workaround_rapl_mmio_power enabled thd_engine e) in
  (e' = e /\ (enabled = false \/ thd_engine = true /\ is_Some (search_cdev "rapl_controller_mmio" (mach e)))) \/
  exists w1, w1 = (if thd_engine then snd (disable_by_sysfs w) else w) /\
    (m_w (mach e') = w1 /\ thd_engine = true /\ fst (disable_by_sysfs w) = true \/
     same_memory w1 (m_w (mach e')) \/
     only_enable_bit w1 (m_w (mach e')) /\ cpu_model (eax (k_cpuid 1 w1)) ∈ [0x8e; 0x9e]).
Proof.
  cbv zeta. unfold intel_workaround_rapl_mmio_power. destruct enabled; [|left; by split; [|left]].
  assert (Hc : forall e1 : engine X W, let w1 := m_w (mach e1) in let w2 := m_w (mach (snd (on_w clear_enable_bit e1))) in
    same_memory w1 w2 \/ only_enable_bit w1 w2 /\ cpu_model (eax (k_cpuid 1 w1)) ∈ [0x8e; 0x9e]).
  { intros e1. cbv zeta. pose proof (clear_enable_bit_spec (m_w (mach e1))) as Hs. cbv zeta in Hs. revert Hs.
    unfold on_w, on_mach, on_world. destruct (clear_enable_bit _) as [[] w2]. cbn.
    destruct (Z.eqb_spec (cpu_model (eax (k_cpuid 1 (m_w (mach e1))))) 0x8e) as [->|];
      [|destruct (Z.eqb_spec (cpu_model (eax (k_cpuid 1 (m_w (mach e1))))) 0x9e) as [->|]]; cbn [orb andb].
    1, 2: destruct (match _ with (_, _) => _ end); [right|by left]; split; [done|]; rewrite !elem_of_cons; auto.
    by left. }
  destruct thd_engine; cbn [negb]; unfold bind, get; [|right; eexists; split; [reflexivity|right; apply Hc]].
  destruct (search_cdev _ (mach e)) as [i|] eqn:Es; [left; split; [done|right; by split]|right].
  assert (Eo : on_w disable_by_sysfs e =
    (fst (disable_by_sysfs (m_w (mach e))), e <| mach := (mach e) <| m_w := snd (disable_by_sysfs (m_w (mach e))) |> |>)).
  { unfold on_w, on_mach, on_world. by destruct (disable_by_sysfs _). }
  rewrite Eo. destruct (disable_by_sysfs (m_w (mach e))) as [[] w1] eqn:Ed; cbn [fst snd].
  - exists w1. split; [done|]. left. done.
  - exists w1. split; [done|]. right. exact (Hc (e <| mach := (mach e) <| m_w := w1 |> |>)).
Qed.
End theorems.

(** * A simulated board *)

Record board := mk_board { b_machine : option string; b_vendor : cpuid_t; b_signature : Z; b_memory : gmap Z Z }.
#[export] Instance eta_board : Eta board := {| eta_of := fun x =>
  mk_board (b_machine x) (b_vendor x) (b_signature x) (b_memory x) |}.

#[export] Instance board_hardware : Hardware (sim * board) := {
  k_uname := fun w => b_machine (snd w);
  k_cpuid := fun leaf w => if leaf =? 0 then b_vendor (snd w) else mk_cpuid (b_signature (snd w)) 0 0 0;
  k_mmap := fun _ _ w => (true, w);
  k_munmap := fun _ w => w;
  k_load := fun a w => u64 (default 0 (b_memory (snd w) !! a));
  k_store := fun a v w => (fst w, (snd w) <| b_memory := <[a := v]> (b_memory (snd w)) |>);
}.

#[export] Instance board_laws : HardwareLaws (W := sim * board).
Proof.
  split; intros; cbn [k_load k_store k_mmap k_munmap k_close k_open_rw board_hardware pair_kernel snd fst b_memory].
  - unfold u64. apply Z.mod_pos_bound. lia.
  - cbn. rewrite lookup_insert_eq. cbn. by apply Z.mod_small.
  - cbn. rewrite lookup_insert_ne; [done|lia].
  - unfold k_open_rw. cbn. by destruct (sim_open _ _).
  - done.
  - done.
  - done.
Qed.

(** "GenuineIntel" and "AuthenticAMD". *)
Definition intel_vendor : cpuid_t := mk_cpuid 22 0x756e6547 0x6c65746e 0x49656e69.
Definition amd_vendor : cpuid_t := mk_cpuid 16 0x68747541 0x444d4163 0x69746e65.

Definition board_of (vendor : cpuid_t) (fms : Z) : sim * board :=
  (mk_sim {["/dev/mem" := ""]} [] 0,
   mk_board (Some "x86_64") vendor fms {[rapl_pkg_pwr_addr := 0x42816000dc80c8]}).

(** A Kaby Lake is on the list; so is a Pentium 4 (family 15, model 1, without
    extended family), whose entry is meant for Nova Lake. *)
Example kaby_lake_listed : check_cpu_id (board_of intel_vendor (signature 9 0xe 6 0 8 0)) = (THD_SUCCESS, true).
Proof. vm_compute. reflexivity. Qed.
Example pentium4_listed : check_cpu_id (board_of intel_vendor (signature 2 1 15 0 0 0)) = (THD_SUCCESS, true).
Proof. vm_compute. reflexivity. Qed.

(** The workaround looks at the model only: the register is written on a
    processor of another vendor with that model number, which the check of the
    processor refuses. *)
Example workaround_ignores_vendor :
  let w := board_of amd_vendor (signature 0 0xe 15 0 9 8) in
  check_cpu_id w = (THD_SUCCESS, false) /\
  k_load rapl_pkg_pwr_addr w = 0x42816000dc80c8 /\
  k_load rapl_pkg_pwr_addr (snd (clear_enable_bit w)) = 0x42816000dc00c8.
Proof. vm_compute. done. Qed.
