(* ===== verification/EngineCalm.v ===== *)
(** The member functions a subclass defines keep to the contract of the thread
    ([EngineLaws] in EngineTheorems.v): reading the zones again, the periodic
    work of the adaptive engine and the workarounds change zones, devices and
    sensors, but neither the members of the thread nor its settings, and what
    they send are requests to poll. *)
From stdpp Require Import base gmap strings list.
From Stdlib Require Import ZArith Lia.
From Stdlib Require String.
From S2P Require Import Prelude CString SysFs CFloat Pid Cdev CdevRapl Devices PowerMeter Machine Preference TripPoint Xml Parse Zone ZoneKinds ZoneFrame Engine EngineUser EngineTheorems EngineStart Gddv GddvConditions EngineAdaptive EngineDefault Platform.

Open Scope list_scope.
Open Scope Z_scope.

Create HintDb calm.
#[export] Hint Resolve q_gets q_on_cdev q_on_sensor_fs q_set_sensor q_on_world q_read_temperature q_set_threshold
  q_sensor_poll_trip q_sensor_fast_poll q_onm q_modt q_gett q_set_entry q_trip_check q_trip_reset q_destroy_zone : calm.

(** A zone that is being set up may change in every way. *)
Definition hush {X W} (a b : zone * machine X W) : Prop := quiet (snd a) (snd b).
#[export] Instance hush_preorder {X W} : PreOrder (@hush X W).
Proof. split; [intros a; unfold hush; reflexivity|intros a b c; unfold hush; apply transitivity]. Qed.

(** An engine together with members of a subclass. *)
Definition calm_s {X W T} (a b : T * engine X W) : Prop := calm (snd a) (snd b).
#[export] Instance calm_s_preorder {X W T} : PreOrder (@calm_s X W T).
Proof. split; [intros a; unfold calm_s; reflexivity|intros a b c; unfold calm_s; apply transitivity]. Qed.

(** Along the structure of the code. *)
Ltac calm_tac :=
  repeat first
    [ progress intros
    | solve [auto 3 with calm]
    | solve [first [apply steps_ret | apply steps_gets | apply steps_get]; typeclasses eauto]
    | apply steps_bind; [typeclasses eauto|..]
    | apply steps_if
    | apply steps_mfor; [typeclasses eauto|..]
    | match goal with |- steps _ (match ?x with _ => _ end) => destruct x end ].

Section zones.
Context {X W D : Type} {HK : Kernel W} {HM : CdevMethods X W} {HL : LibXml W D}.
Context (TDRUNDIR TDCONFDIR : string).

(** ** Trips under construction *)

Lemma h_trip_cdev_add e : steps (@quiet_t X W) (trip_cdev_add e).
Proof. intros [t s]. unfold quiet_t. reflexivity. Qed.
Hint Resolve h_trip_cdev_add : calm.
Lemma h_add_cdev p i sp tv ts pid mm mn mx : steps (@quiet_t X W) (thd_trip_point_add_cdev p i sp tv ts pid mm mn mx).
Proof. apply h_trip_cdev_add. Qed.
Hint Resolve h_add_cdev : calm.
Lemma h_add_cdev_index idx i : steps (@quiet_t X W) (thd_trip_point_add_cdev_index idx i).
Proof. unfold thd_trip_point_add_cdev_index. calm_tac. Qed.
Lemma h_set_dependency name st : steps (@quiet_t X W) (set_dependency name st).
Proof. unfold set_dependency. calm_tac. Qed.
Hint Resolve h_add_cdev_index h_set_dependency : calm.
Lemma h_generic_cdevs l b : steps (@quiet_t X W) (generic_cdevs l b).
Proof. revert b. induction l as [|x l IH]; intros b; cbn [generic_cdevs]; calm_tac. Qed.
Hint Resolve h_generic_cdevs : calm.
Lemma h_generic_trip x : steps (@quiet_t X W) (generic_trip x).
Proof. unfold generic_trip. calm_tac. Qed.

Lemma h_build {A B} (m : State (trip_point * machine X W) A) t (f : A -> trip_point -> B) :
  steps quiet_t m -> steps quiet (fun s => let '(a, (t', s')) := m (t, s) in (f a t', s')).
Proof. intros Hm s. specialize (Hm (t, s)). by destruct (m (t, s)) as [a [t' s']]. Qed.
Lemma h_add_default_cdev p t : steps (@quiet X W) (add_default_cdev p t).
Proof. by apply (h_build _ t (fun _ t => t)), h_add_cdev. Qed.
Hint Resolve h_generic_trip h_add_default_cdev : calm.
Lemma h_add_named_cdevs names t : steps (@quiet X W) (add_named_cdevs names t).
Proof. revert t. induction names as [|x l IH]; intros t; cbn [add_named_cdevs]; calm_tac. Qed.
Hint Resolve h_add_named_cdevs : calm.

(** ** Zones *)

Lemma h_on_machine {A} (m : State (machine X W) A) : steps quiet m -> steps hush (on_machine m).
Proof. intros Hm [z s]. unfold on_machine. specialize (Hm s). by destruct (m s). Qed.
Lemma h_getz : steps (@hush X W) getz.
Proof. apply steps_gets, _. Qed.
Lemma h_modz f : steps (@hush X W) (modz f).
Proof. intros [z s]. unfold hush. cbn. reflexivity. Qed.
Lemma h_on_trip {A} i (dflt : A) (m : State (trip_point * machine X W) A) : steps quiet_t m -> steps hush (on_trip i dflt m).
Proof.
  intros Hm [z s]. unfold on_trip. destruct (trip_points z !! i) as [t|]; [|reflexivity].
  specialize (Hm (t, s)). by destruct (m (t, s)) as [a [t' s']].
Qed.
Lemma h_on_zone_fs {A} (m : State (csys_fs * W) A) : steps (@hush X W) (on_zone_fs m).
Proof. intros [z s]. unfold on_zone_fs. destruct (m (zone_sysfs z, m_w s)) as [a [fs w]]. by apply quiet_same. Qed.
Lemma h_on_dts_fs {A} (m : State (csys_fs * W) A) : steps (@hush X W) (on_dts_fs m).
Proof. intros [z s]. unfold on_dts_fs. destruct (m (dts_sysfs (cpu_of z), m_w s)) as [a [fs w]]. by apply quiet_same. Qed.
Hint Resolve h_on_machine h_getz h_modz h_on_trip h_on_zone_fs h_on_dts_fs : calm.

Lemma h_sensor_index i : steps (@hush X W) (sensor_index i).
Proof. unfold sensor_index. calm_tac. Qed.
Lemma h_mod_sysfs f : steps (@hush X W) (mod_sysfs f).
Proof. apply h_modz. Qed.
Lemma h_mod_cpu f : steps (@hush X W) (mod_cpu f).
Proof. apply h_modz. Qed.
Lemma h_push_trip t : steps (@hush X W) (push_trip t).
Proof. apply h_modz. Qed.
Lemma h_bind_named name : steps (@hush X W) (bind_named name).
Proof. unfold bind_named. calm_tac. Qed.
Hint Resolve h_sensor_index h_mod_sysfs h_mod_cpu h_push_trip h_bind_named : calm.

Lemma h_poll_trip : steps (@hush X W) sort_and_update_poll_trip.
Proof. unfold sort_and_update_poll_trip. calm_tac. Qed.
Hint Resolve h_poll_trip : calm.
Lemma h_add_trip t force : steps (@hush X W) (add_trip t force).
Proof. unfold add_trip. calm_tac. Qed.
Lemma h_update_highest t : steps (@hush X W) (update_highest_trip_temp t).
Proof. unfold update_highest_trip_temp. calm_tac. Qed.
Lemma h_update_trip_temp t : steps (@hush X W) (update_trip_temp t).
Proof. unfold update_trip_temp. calm_tac. Qed.
Lemma h_bind_cooling ty tt p i sp tv ts mm mn mx : steps (@hush X W) (bind_cooling_device ty tt p i sp tv ts mm mn mx).
Proof. unfold bind_cooling_device. calm_tac. Qed.
Hint Resolve h_add_trip h_update_highest h_update_trip_temp h_bind_cooling : calm.

Lemma h_zone_update bs rt rc :
  steps (@hush X W) bs -> steps (@hush X W) rt -> steps (@hush X W) rc -> steps (@hush X W) (zone_update TDRUNDIR bs rt rc).
Proof. intros. unfold zone_update. calm_tac. Qed.

Lemma h_enable_timer created i : steps (@quiet X W) (enable_periodic_timer created i).
Proof. apply q_set_sensor. Qed.
Lemma h_disable_timer i : steps (@quiet X W) (disable_periodic_timer i).
Proof. apply q_set_sensor. Qed.
Hint Resolve h_enable_timer h_disable_timer : calm.
Lemma h_set_active created : steps (@hush X W) (set_zone_active created).
Proof. unfold set_zone_active. calm_tac. Qed.
Lemma h_set_inactive : steps (@hush X W) set_zone_inactive.
Proof. unfold set_zone_inactive. calm_tac. Qed.
Hint Resolve h_set_active h_set_inactive : calm.

(** ** Kinds of zones *)

Lemma h_new_sysfs_zone count path : steps (@quiet X W) (new_sysfs_zone count path).
Proof.
  intros s. unfold new_sysfs_zone.
  match goal with |- context [let '(_, _) := ?m ?a in _] => assert (Hm : steps (@hush X W) m) by calm_tac; specialize (Hm a); destruct (m a) as [u [z' s']] end.
  exact Hm.
Qed.
Lemma h_read_optional path d : steps (@hush X W) (read_optional path d).
Proof. unfold read_optional. calm_tac. Qed.
Lemma h_take_trip ty md t h : steps (@hush X W) (take_trip ty md t h).
Proof. unfold take_trip. calm_tac. Qed.
Hint Resolve h_read_optional h_take_trip : calm.
Lemma h_sysfs_read_trip i : steps (@hush X W) (sysfs_read_trip i).
Proof. unfold sysfs_read_trip. calm_tac. Qed.
Hint Resolve h_sysfs_read_trip : calm.
Lemma h_sysfs_trips n i : steps (@hush X W) (sysfs_trips n i).
Proof. revert i. induction n as [|n IH]; intros i; cbn [sysfs_trips]; calm_tac. Qed.
Lemma h_sysfs_read_cdev i : steps (@hush X W) (sysfs_read_cdev i).
Proof. unfold sysfs_read_cdev, cdev_link. calm_tac. Qed.
Hint Resolve h_sysfs_trips h_sysfs_read_cdev : calm.
Lemma h_sysfs_cdevs n i : steps (@hush X W) (sysfs_cdevs n i).
Proof. revert i. induction n as [|n IH]; intros i; cbn [sysfs_cdevs]; calm_tac. Qed.
Hint Resolve h_sysfs_cdevs : calm.
Lemma h_sysfs_update : steps (@hush X W) (sysfs_zone_update TDRUNDIR).
Proof.
  apply h_zone_update; unfold sysfs_bind_sensors, sysfs_read_trip_points, sysfs_read_cdev_trip_points; calm_tac.
Qed.

Lemma h_cpu_init_sensor i t : steps (@hush X W) (cpu_init_sensor i t).
Proof. unfold cpu_init_sensor. calm_tac. Qed.
Hint Resolve h_cpu_init_sensor : calm.
Lemma h_cpu_init_sensors n i t f : steps (@hush X W) (cpu_init_sensors n i t f).
Proof. revert i t f. induction n as [|n IH]; intros i t f; cbn [cpu_init_sensors]; calm_tac. Qed.
Lemma h_bind_cores n i b : steps (@hush X W) (bind_cores n i b).
Proof. revert i b. induction n as [|n IH]; intros i b; cbn [bind_cores]; calm_tac. Qed.
Hint Resolve h_cpu_init_sensors h_bind_cores : calm.
Lemma h_cpu_trip ty t names : steps (@hush X W) (cpu_trip ty t names).
Proof. unfold cpu_trip. calm_tac. Qed.
Lemma h_push_cpu_trip t : steps (@hush X W) (push_cpu_trip t).
Proof. unfold push_cpu_trip. calm_tac. Qed.
Hint Resolve h_cpu_trip h_push_cpu_trip : calm.
Lemma h_cpu_update rt : steps (@hush X W) (cpu_zone_update TDRUNDIR TDCONFDIR rt).
Proof.
  apply h_zone_update; unfold cpu_bind_sensors, cpu_init, cpu_read_trip_points, parse_cdev_order; calm_tac.
Qed.

Lemma h_generic_bind_loop l b : steps (@hush X W) (generic_bind_loop l b).
Proof. revert b. induction l as [|t l IH]; intros b; cbn [generic_bind_loop]; calm_tac. Qed.
Lemma h_generic_trips l k : steps (@hush X W) (generic_trips l k).
Proof.
  revert k. induction l as [|t l IH]; intros k; cbn [generic_trips]; calm_tac.
  apply h_on_machine, h_build. auto with calm.
Qed.
Hint Resolve h_generic_bind_loop h_generic_trips : calm.
Lemma h_generic_update conf : steps (@hush X W) (generic_zone_update TDRUNDIR conf).
Proof. apply h_zone_update; unfold generic_bind_sensors, generic_read_trip_points; calm_tac. Qed.

Lemma h_rapl_power_update : steps (@hush X W) (rapl_power_zone_update TDRUNDIR).
Proof.
  apply h_zone_update; unfold rapl_power_bind_sensors, rapl_power_read_trip_points; calm_tac.
  apply h_on_machine. intros s. by apply quiet_same.
Qed.
End zones.

#[export] Hint Resolve h_add_cdev h_add_cdev_index h_set_dependency h_build h_add_default_cdev h_on_machine h_getz h_modz h_on_trip
  h_sensor_index h_push_trip h_bind_named h_add_trip h_update_highest h_update_trip_temp h_bind_cooling
  h_set_active h_set_inactive h_sysfs_update h_cpu_update h_generic_update h_rapl_power_update : calm.

(** * The adaptive engine *)

Section adaptive.
Context {X W : Type} {HK : Kernel W} {HM : CdevMethods X W} {HA : AdaptiveCdev X W}.
Context (TDRUNDIR : string) (depth : nat) (created : bool).

Lemma h_on_zone {A} i (dflt : A) (m : State (zone * machine X W) A) : steps hush m -> steps calm (on_zone i dflt m).
Proof.
  intros Hm e. unfold on_zone. destruct (zones e !! i) as [z|]; [|reflexivity].
  specialize (Hm (z, mach e)). by destruct (m (z, mach e)) as [a [z' s']].
Qed.
Lemma h_on_mach {A} (m : State (machine X W) A) : steps quiet m -> steps calm (on_mach m).
Proof. apply c_on_mach. Qed.
Lemma h_on_w {A} (m : State W A) : steps (@calm X W) (on_w m).
Proof. apply c_on_w. Qed.
Hint Resolve h_on_zone h_on_mach h_on_w : calm.
Lemma h_for_zones (m : State (zone * machine X W) unit) : steps hush m -> steps calm (for_zones m).
Proof. intros Hm. unfold for_zones. calm_tac. Qed.
Hint Resolve h_for_zones : calm.

Lemma h_evaluate_state base p slider x : steps (@quiet X W) (evaluate_state base p slider depth x).
Proof. unfold evaluate_state, evaluate_oem_condition, evaluate_temperature_condition. calm_tac. Qed.
Hint Resolve h_evaluate_state : calm.
Lemma h_evaluate_condition base p slider cur x : steps (@quiet X W) (evaluate_condition base p slider depth cur x).
Proof. unfold evaluate_condition. calm_tac. Qed.
Hint Resolve h_evaluate_condition : calm.
Lemma h_evaluate_set base p slider cur l : steps (@quiet X W) (evaluate_condition_set base p slider depth cur l).
Proof. induction l as [|x l IH]; cbn [evaluate_condition_set]; calm_tac. Qed.
Hint Resolve h_evaluate_set : calm.
Lemma h_evaluate_sets base p slider cur l : steps (@quiet X W) (evaluate_sets base p slider depth cur l).
Proof. induction l as [|x l IH]; cbn [evaluate_sets]; calm_tac. Qed.
Hint Resolve h_evaluate_sets : calm.
Lemma h_evaluate_conditions base p g : steps (@quiet X W) (evaluate_conditions base p depth g).
Proof. unfold evaluate_conditions. calm_tac. Qed.

Lemma h_install_trip t h s add : steps quiet_t add -> steps (@hush X W) (install_trip created t h s add).
Proof. intros Hadd. unfold install_trip. calm_tac. Qed.
Hint Resolve h_install_trip : calm.
Lemma h_install_passive p : steps (@calm X W) (install_passive created p).
Proof. unfold install_passive. calm_tac. Qed.
Lemma h_install_itmt it : steps (@calm X W) (install_itmt created it).
Proof. unfold install_itmt. calm_tac. Qed.
Lemma h_set_trip t a : steps (@calm X W) (set_trip t a).
Proof. unfold set_trip. calm_tac. Qed.
Lemma h_consolidate_trip k j : steps (@hush X W) (consolidate_trip k j).
Proof. unfold consolidate_trip. calm_tac. Qed.
Hint Resolve h_install_passive h_install_itmt h_set_trip h_consolidate_trip : calm.
Lemma h_consolidate_zone : steps (@hush X W) consolidate_zone.
Proof. unfold consolidate_zone. calm_tac. Qed.

Lemma h_reset_trips i force : steps (@hush X W) (reset_trips i force).
Proof. induction i as [|i IH]; cbn [reset_trips]; calm_tac. Qed.
Hint Resolve h_consolidate_zone h_reset_trips : calm.
Lemma h_clear_zone : steps (@hush X W) clear_zone.
Proof. unfold clear_zone, zone_reset. calm_tac. Qed.
Hint Resolve h_clear_zone : calm.

Lemma h_on_engine {A} (m : State (engine X W) A) : steps calm m -> steps calm_s (on_engine m).
Proof. intros Hm [a e]. unfold on_engine. specialize (Hm e). by destruct (m e). Qed.
Lemma h_geta : steps (@calm_s X W adaptive) geta.
Proof. apply steps_gets, _. Qed.
Lemma h_moda f : steps (@calm_s X W adaptive) (moda f).
Proof. intros [a e]. unfold calm_s. cbn. reflexivity. Qed.
Lemma h_evaluate p : steps (@calm_s X W adaptive) (evaluate depth p).
Proof.
  intros [a e]. unfold evaluate. pose proof (h_on_mach _ (h_evaluate_conditions (adaptive_base_path a) p (the_gddv a)) e) as Hm.
  unfold on_mach in Hm. by destruct (evaluate_conditions _ _ _ _ _) as [[t g] s].
Qed.
Hint Resolve h_on_engine h_geta h_moda h_evaluate : calm.

(** Loops over the zones and over a table. *)
Lemma h_each_zone (m : State (zone * machine X W) unit) : steps hush m -> steps (@calm_s X W adaptive) (on_engine (for_zones m)).
Proof. intros Hm. by apply h_on_engine, h_for_zones. Qed.
Lemma h_each_entry {A B} (l : list A) (f : A -> State (engine X W) B) : (forall a, steps calm (f a)) ->
  steps (@calm_s X W adaptive) (on_engine (mfor l (fun a => f a ;; ret tt))).
Proof. intros Hf. apply h_on_engine. calm_tac. Qed.
Hint Resolve h_each_entry : calm.

Lemma h_clear_zones keep : steps (@calm X W) (clear_zones keep).
Proof. unfold clear_zones. apply h_for_zones. calm_tac. Qed.
Lemma h_psvt_consolidate : steps (@calm X W) psvt_consolidate.
Proof. unfold psvt_consolidate. calm_tac. Qed.
Hint Resolve h_clear_zones h_psvt_consolidate : calm.

Lemma h_set_int3400_target t : steps (@calm_s X W adaptive) (set_int3400_target TDRUNDIR created t).
Proof.
  unfold set_int3400_target, set_itmt_target, set_psvt_target. calm_tac; [apply h_each_zone; calm_tac|..].
  all: apply h_on_engine; calm_tac.
Qed.
Lemma h_passive_default : steps (@calm_s X W adaptive) (install_passive_default created).
Proof. unfold install_passive_default. calm_tac. Qed.
Hint Resolve h_set_int3400_target h_passive_default : calm.
Lemma h_execute_target t : steps (@calm_s X W adaptive) (execute_target TDRUNDIR created t).
Proof. unfold execute_target. calm_tac; apply h_on_engine; calm_tac. Qed.
Hint Resolve h_execute_target : calm.
Lemma h_execute_targets id l : steps (@calm_s X W adaptive) (execute_targets TDRUNDIR created id l).
Proof. induction l as [|t l IH]; cbn [execute_targets]; unfold unless_stopped; calm_tac. Qed.
Hint Resolve h_execute_targets : calm.
Lemma h_update_adaptive_state p : steps (@calm_s X W adaptive) (update_adaptive_state TDRUNDIR depth created p).
Proof. unfold update_adaptive_state, apply_target, exec_fallback_target, unless_stopped. calm_tac. Qed.
End adaptive.

#[export] Hint Resolve h_on_zone h_on_mach h_on_w h_for_zones : calm.

(** * The default engine *)

Section default.
Context {W D : Type} {HK : Kernel W} {HR : RaplEngine W} {HL : LibXml W D} {HH : Hardware W} (garbage : Z).
#[local] Instance calm_devices : CdevMethods device W := device_methods garbage.
Context (TDCONFDIR TDRUNDIR : string) (generate_conf : string -> State W Z) (uninit_pid : pid_control_t).
Context (created : bool).
Abbreviation EM := (State (engine device W)).

Lemma h_start_engine {A} (m : EM A) : steps calm m -> steps (@calm_s device W (setup D)) (start_engine m).
Proof. intros Hm [u e]. unfold start_engine. specialize (Hm e). by destruct (m e). Qed.
Lemma h_set_setup f : steps (@calm_s device W (setup D)) (set_setup f).
Proof. intros [u e]. unfold calm_s. cbn. reflexivity. Qed.
Lemma h_get_setup : steps (@calm_s device W (setup D)) get_setup.
Proof. apply steps_gets, _. Qed.
Hint Resolve h_start_engine h_set_setup h_get_setup : calm.
Lemma h_defined {A B} (m : State (setup D * engine device W) (option A)) (k : A -> State (setup D * engine device W) (option B)) :
  steps calm_s m -> (forall a, steps calm_s (k a)) -> steps calm_s (defined m k).
Proof. intros Hm Hk. unfold defined. calm_tac. Qed.
Ltac set_tac := repeat first [progress calm_tac | apply h_defined | apply h_start_engine].

Lemma h_config_list {A} (f : thermal_info_t -> list A) :
  steps (@calm_s device W (setup D)) (config_list TDCONFDIR TDRUNDIR generate_conf uninit_pid f).
Proof. unfold config_list, configured, engine_parser_init, engine_platform_matched, feature. set_tac. Qed.
Hint Resolve h_config_list : calm.

Lemma h_zone_count i : steps (@calm device W) (set_zone_count i).
Proof. intros e. split; [done|reflexivity]. Qed.
Hint Resolve h_zone_count : calm.

(** A zone that is built and joins, or is destroyed. *)
Lemma h_try_zone z update : steps hush update -> steps (@calm device W) (try_zone created z update).
Proof.
  intros Hu e. unfold try_zone. specialize (Hu (z, mach e)). destruct (update (z, mach e)) as [r [z1 s1]]. unfold hush in Hu. cbn in Hu.
  destruct (r =? THD_SUCCESS).
  - pose proof (h_set_active created (z1, s1)) as Ha. destruct (set_zone_active created (z1, s1)) as [u [z2 s2]].
    split; [done|]. by transitivity s1.
  - pose proof (q_destroy_zone z1 s1) as Ha. destruct (destroy_zone z1 s1) as [u s2]. split; [done|]. by transitivity s1.
Qed.
Hint Resolve h_try_zone : calm.

Lemma h_try_sysfs_zone i : steps (@calm device W) (try_sysfs_zone TDRUNDIR created i).
Proof.
  intros e. unfold try_sysfs_zone. pose proof (h_new_sysfs_zone i "/sys/class/thermal/thermal_zone" (mach e)) as H0.
  destruct (new_sysfs_zone _ _ (mach e)) as [z0 s0]. cbn in H0.
  pose proof (h_sysfs_update TDRUNDIR (z0, s0)) as Hu. destruct (sysfs_zone_update TDRUNDIR (z0, s0)) as [r [z1 s1]]. unfold hush in Hu. cbn in Hu.
  assert (H1 : quiet (mach e) s1) by by transitivity s0.
  destruct (r =? THD_SUCCESS).
  - assert (Ha : steps (@hush device W) (if bool_decide (control_mode e = EXCLUSIVE) then set_zone_active created else ret tt)) by calm_tac.
    specialize (Ha (z1, s1)). destruct ((if bool_decide (control_mode e = EXCLUSIVE) then set_zone_active created else ret tt) (z1, s1)) as [u [z2 s2]].
    split; [done|]. by transitivity s1.
  - pose proof (q_destroy_zone z1 s1) as Ha. destruct (destroy_zone z1 s1) as [u s2]. split; [done|]. by transitivity s1.
Qed.
Hint Resolve h_try_sysfs_zone : calm.
Lemma h_zone_entries l m : steps (@calm device W) (zone_entries TDRUNDIR created l m).
Proof. revert m. induction l as [|x l IH]; intros m; cbn [zone_entries]; calm_tac. Qed.
Hint Resolve h_zone_entries : calm.
Lemma h_default_zones : steps (@calm device W) (thd_read_default_thermal_zones TDRUNDIR created).
Proof. unfold thd_read_default_thermal_zones. calm_tac. intros e. split; [done|reflexivity]. Qed.
Hint Resolve h_default_zones : calm.

Lemma h_bind_processor name : steps (@hush device W) (bind_processor name).
Proof. unfold bind_processor. calm_tac. Qed.
Hint Resolve h_bind_processor : calm.
Lemma h_int340x ign : steps (@calm device W) (add_int340x_processor_dev created ign).
Proof. unfold add_int340x_processor_dev, processor_zone. calm_tac. apply h_on_zone. calm_tac. Qed.
Lemma h_cpu_zone_entries rt base l i b :
  steps (@calm device W) (cpu_zone_entries TDCONFDIR TDRUNDIR created rt base l i b).
Proof. revert i b. induction l as [|x l IH]; intros i b; cbn [cpu_zone_entries]; calm_tac. Qed.
Hint Resolve h_int340x h_cpu_zone_entries : calm.
Lemma h_cpu_zones rt l i : steps (@calm device W) (cpu_zones TDCONFDIR TDRUNDIR created rt l i).
Proof. revert i. induction l as [|x l IH]; intros i; cbn [cpu_zones]; calm_tac. Qed.
Hint Resolve h_cpu_zones : calm.

Lemma h_config_trip_cdevs l b : steps (@quiet_t device W) (config_trip_cdevs l b).
Proof. revert b. induction l as [|x l IH]; intros b; cbn [config_trip_cdevs]; calm_tac. Qed.
Hint Resolve h_config_trip_cdevs : calm.
Lemma h_config_trip x : steps (@quiet_t device W) (config_trip x).
Proof. unfold config_trip. calm_tac. Qed.
Lemma h_bind_config_cdevs ty l b : steps (@hush device W) (bind_config_cdevs ty l b).
Proof. revert b. induction l as [|x l IH]; intros b; cbn [bind_config_cdevs]; calm_tac. Qed.
Hint Resolve h_config_trip h_bind_config_cdevs : calm.
Lemma h_merge_trip x : steps (@hush device W) (merge_trip x).
Proof. unfold merge_trip. calm_tac; apply h_on_machine, (h_build _ _ (fun b t => (b, t))), h_config_trip. Qed.
Hint Resolve h_merge_trip : calm.
Lemma h_merge_trips l b : steps (@hush device W) (merge_trips l b).
Proof. revert b. induction l as [|x l IH]; intros b; cbn [merge_trips]; calm_tac. Qed.
Hint Resolve h_merge_trips : calm.
Lemma h_merge_zone x : steps (@hush device W) (merge_zone created x).
Proof. unfold merge_zone. calm_tac. Qed.
Lemma h_inactivate_cpu : steps (@calm device W) inactivate_cpu.
Proof. unfold inactivate_cpu. calm_tac. Qed.
Hint Resolve h_merge_zone h_inactivate_cpu : calm.
Lemma h_disable_cpu_zone auto x : steps (@calm device W) (disable_cpu_zone auto x).
Proof. unfold disable_cpu_zone. calm_tac. Qed.
Hint Resolve h_disable_cpu_zone : calm.
Lemma h_add_config_zones auto l i : steps (@calm device W) (add_config_zones TDRUNDIR created auto l i).
Proof. revert i. induction l as [|x l IH]; intros i; cbn [add_config_zones]; unfold add_config_zone; calm_tac. Qed.
Hint Resolve h_add_config_zones : calm.

Lemma h_default_read_zones ign :
  steps (@calm_s device W (setup D)) (default_read_zones TDCONFDIR TDRUNDIR generate_conf uninit_pid created ign).
Proof. unfold default_read_zones, sysfs_zones, power_zone. set_tac. Qed.

(** ** Workarounds *)

Lemma h_mmio b b' : steps (@calm device W) (workaround_rapl_mmio_power b b').
Proof. unfold workaround_rapl_mmio_power, intel_workaround_rapl_mmio_power. calm_tac. Qed.
Hint Resolve h_mmio : calm.
Lemma h_workarounds we dis mmio m : steps (@calm device W) mmio ->
  steps (@calm_s device W (setup D)) (default_workarounds we dis mmio m).
Proof. intros Hm. unfold default_workarounds. set_tac. Qed.
End default.
