(* ===== verification/DBus.v ===== *)
(** The D-Bus interface of the daemon (src/thd_dbus_interface.cpp): the method
    calls of the interface org.freedesktop.thermald and the requests they make of
    the engine.

    A value of GLib's [GVariant] is a [gvalue], the parameters of a call a list
    of them, and a call ends in a [reply].  GLib is told to send an error that is
    a null pointer where a request failed; it refuses that and sends nothing,
    which is [NotReplied].  [None] is a run without defined behaviour. *)
From stdpp Require Import base gmap strings list.
From Stdlib Require Import ZArith Lia.
From Stdlib Require String.
From S2P Require Import Prelude CString MeterData SysFs CFloat Pid Cdev CdevDevices CdevCpufreq CdevRapl Devices PowerMeter Machine Preference TripPoint Xml Parse Zone ZoneKinds Engine EngineUser EngineStart EngineAdaptive EngineDefault.

Open Scope string_scope.
Open Scope list_scope.
Open Scope Z_scope.

(** * Values *)

Inductive gvalue :=
| GString (s : string)
| GUint32 (v : Z)
| GInt32 (v : Z)
| GDouble (v : double)
| GInt32Array (l : list Z).

Inductive dbus_error := G_DBUS_ERROR_FAILED | G_DBUS_ERROR_UNKNOWN_METHOD.

Inductive reply :=
| Returned (values : list gvalue)
| ReturnedError (e : dbus_error)
| NotReplied.

Definition MAX_DBUS_REPLY_STR_LEN : nat := 100.

(** [strncpy] into a buffer with room for the zero byte. *)
Definition reply_str (s : string) : string := String.substring 0 MAX_DBUS_REPLY_STR_LEN s.

(** The number of an enumerator. *)
Definition trip_type_number (t : trip_point_type_t) : Z :=
  match t with
  | CRITICAL => 0 | HOT => 1 | MAX => 2 | PASSIVE => 3 | ACTIVE => 4 | POLLING => 5 | INVALID_TRIP_TYPE => 6
  end.

(** A device file below /etc. *)
Definition in_etc (path : string) : bool :=
  (String.length "/etc" <=? String.length path)%nat && is_prefix "/etc" path.

(** The methods, with the names they are called by. *)
Inductive method :=
| AddCoolingDevice | AddSensor | AddTripPoint | AddVirtualSensor | AddZonePassive | DeleteTripPoint
| DeleteZone | DisableCoolingDevice | GetCdevCount | GetCdevInformation | GetCurrentPreference
| GetSensorCount | GetSensorInformation | GetSensorTemperature | GetZoneCount | GetZoneInformation
| GetZoneSensorAtIndex | GetZoneStatus | GetZoneTripAtIndex | Reinit | SetCurrentPreference
| SetUserMaxTemperature | SetUserPassiveTemperature | SetZoneStatus | Terminate | UpdateCoolingDevice.

Definition method_names : list (string * method) :=
  [("AddCoolingDevice", AddCoolingDevice); ("AddSensor", AddSensor); ("AddTripPoint", AddTripPoint);
   ("AddVirtualSensor", AddVirtualSensor); ("AddZonePassive", AddZonePassive); ("DeleteTripPoint", DeleteTripPoint);
   ("DeleteZone", DeleteZone); ("DisableCoolingDevice", DisableCoolingDevice); ("GetCdevCount", GetCdevCount);
   ("GetCdevInformation", GetCdevInformation); ("GetCurrentPreference", GetCurrentPreference);
   ("GetSensorCount", GetSensorCount); ("GetSensorInformation", GetSensorInformation);
   ("GetSensorTemperature", GetSensorTemperature); ("GetZoneCount", GetZoneCount);
   ("GetZoneInformation", GetZoneInformation); ("GetZoneSensorAtIndex", GetZoneSensorAtIndex);
   ("GetZoneStatus", GetZoneStatus); ("GetZoneTripAtIndex", GetZoneTripAtIndex); ("Reinit", Reinit);
   ("SetCurrentPreference", SetCurrentPreference); ("SetUserMaxTemperature", SetUserMaxTemperature);
   ("SetUserPassiveTemperature", SetUserPassiveTemperature); ("SetZoneStatus", SetZoneStatus);
   ("Terminate", Terminate); ("UpdateCoolingDevice", UpdateCoolingDevice)].

(** The chain of comparisons. *)
Fixpoint method_called (l : list (string * method)) (method_name : string) : option method :=
  match l with
  | [] => None
  | (name, m) :: l' => if String.eqb method_name name then Some m else method_called l' method_name
  end.

Section dbus.
Context {W D : Type} `{Kernel W} `{!RaplEngine W} `{!LibXml W D} (garbage : Z).
#[local] Instance bus_devices : CdevMethods device W := device_methods garbage.
Context (TDCONFDIR TDRUNDIR : string) (generate_conf : string -> State W Z) (uninit_pid : pid_control_t).
(** The depth of links between virtual sensors and of RAPL directories, whether
    a sampling thread starts, and the operating system's answers. *)
Context (depth meter_depth : nat) (created : bool) (os : os_answers).
Context (ignore_default_control disable_active_power power_floor_enable : bool) (thd_poll_interval : Z).

Abbreviation EM := (State (engine device W)).
Abbreviation SM := (State (setup D * engine device W)).
Context (check_cpu_id : SM bool) (exit_callback : option (State W unit)).

(** * Searches of the engine *)

Definition at_index {A} (l : list A) (index : Z) : option (nat * A) :=
  let i := Z.to_nat (u32 index) in a ← l !! i; Some (i, a).

Definition user_get_sensor (index : Z) (e : engine device W) : option (nat * sensor) := at_index (m_sensors (mach e)) index.
Definition user_get_zone (index : Z) (e : engine device W) : option (nat * zone) := at_index (zones e) index.
Definition user_get_cdev (index : Z) (e : engine device W) : option (nat * cdev device) := at_index (m_cdevs (mach e)) index.
Definition get_sensor_at_index (index : Z) (z : zone) : option nat := snd <$> at_index (sensors z) index.
Definition get_trip_at_index (index : Z) (z : zone) : option trip_point := snd <$> at_index (trip_points z) index.

(** * The functions of the interface; [None] is [FALSE] where there are results *)

Definition set_current_preference (pref : string) : EM bool :=
  ok <- on_w (fun w => let '(ok, (_, w')) := set_preference TDRUNDIR pref (new_preference TDRUNDIR w, w) in (ok, w')) ;;
  on_mach (send_message PREF_CHANGED) ;;
  ret ok.

Definition get_current_preference : EM string :=
  pref <- on_w (gets (fun w => int_pref_to_string (new_preference TDRUNDIR w))) ;;
  ret (String.substring 0 (MAX_DBUS_REPLY_STR_LEN - 1) pref).

(** The engine first, then the callback the main program gave. *)
Definition terminate_daemon : EM (option unit) :=
  r <- thd_engine_terminate ;;
  match r with
  | None => ret None
  | Some _ => match exit_callback with Some f => on_w f | None => ret tt end ;; ret (Some tt)
  end.

(** The set point is taken up by the thread. *)
Definition set_temperature (request : EM Z) : EM bool :=
  r <- request ;;
  if r =? THD_SUCCESS then on_mach (send_message PREF_CHANGED) ;; ret true else ret false.
Definition set_user_max_temperature (zone_name : string) (temperature : Z) : EM bool :=
  set_temperature (user_set_max_temp TDRUNDIR zone_name temperature).
Definition set_user_passive_temperature (zone_name : string) (temperature : Z) : EM bool :=
  set_temperature (user_set_psv_temp TDRUNDIR zone_name temperature).

(** A request that tells only whether it was granted. *)
Definition granted (request : EM Z) : EM bool := r <- request ;; ret (r =? THD_SUCCESS).

Definition add_sensor (name path : string) : EM bool := granted (user_add_sensor name path).
Definition add_virtual_sensor (name dep_sensor : string) (slope intercept : double) : EM bool :=
  granted (user_add_virtual_sensor name dep_sensor slope intercept).
Definition add_zone_passive (zone_name : string) (trip_temp : Z) (sensor_name cdev_name : string) : EM bool :=
  granted (user_add_zone TDRUNDIR created zone_name (u32 trip_temp) sensor_name cdev_name).
Definition set_zone_status (zone_name : string) (status : Z) : EM bool :=
  granted (user_set_zone_status created zone_name status).
Definition get_zone_status (zone_name : string) : EM (option Z) :=
  r <- user_get_zone_status zone_name 0 ;;
  ret (if fst r =? THD_SUCCESS then Some (snd r) else None).
Definition delete_zone (zone_name : string) : EM bool := granted (user_delete_zone zone_name).
Definition sensor_temperature (index : Z) : EM (option Z) :=
  r <- get_sensor_temperature depth index 0 ;;
  ret (if fst r =? THD_SUCCESS then Some (snd r) else None).

Definition get_sensor_information (index : Z) : EM (option (string * string * Z)) :=
  e <- get ;;
  match user_get_sensor index e with
  | None => ret None
  | Some (i, sn) =>
      t <- on_mach (read_temperature depth i) ;;
      ret (Some (reply_str (s_type_str sn), reply_str (base_path (sensor_sysfs sn)), i32 t))
  end.

Definition get_sensor_count (e : engine device W) : Z := i32 (Z.of_nat (length (m_sensors (mach e)))).
Definition get_zone_count (e : engine device W) : Z := i32 (Z.of_nat (length (zones e))).
Definition get_cdev_count (e : engine device W) : Z := i32 (Z.of_nat (length (m_cdevs (mach e)))).

Definition get_zone_information (index : Z) (e : engine device W) : option (string * Z * Z * Z) :=
  '(_, z) ← user_get_zone index e;
  Some (reply_str (z_type_str z), i32 (Z.of_nat (length (sensors z))), i32 (Z.of_nat (length (trip_points z))),
        b2z (zone_active z)).

Definition get_zone_sensor_at_index (zone_index sensor_idx : Z) (e : engine device W) : option string :=
  '(_, z) ← user_get_zone zone_index e;
  i ← get_sensor_at_index sensor_idx z;
  Some (reply_str (s_type_str (sensor_at i (mach e)))).

(** [g_array_prepend_val] of the devices' numbers. *)
Fixpoint prepend_ids (l : list trip_pt_cdev_t) (garray : list Z) (s : machine device W) : list Z :=
  match l with
  | [] => garray
  | c :: l' =>
      let garray := match m_cdevs s !! tc_cdev c with Some d => index d :: garray | None => garray end in
      prepend_ids l' garray s
  end.

Definition get_zone_trip_at_index (zone_index trip_index : Z) (e : engine device W)
    : option (Z * Z * Z * Z * list Z) :=
  '(_, z) ← user_get_zone zone_index e;
  t ← get_trip_at_index trip_index z;
  Some (i32 (temp t), trip_type_number (t_type t), sensor_id t, i32 (Z.of_nat (length (cdevs t))),
        prepend_ids (cdevs t) [] (mach e)).

Definition get_cdev_information (index : Z) : EM (option (string * Z * Z * Z)) :=
  e <- get ;;
  match user_get_cdev index e with
  | None => ret None
  | Some (i, d) =>
      mx <- on_mach (on_cdev i 0 m_get_max_state) ;;
      curr <- on_mach (on_cdev i 0 m_get_curr_state) ;;
      ret (Some (reply_str (type_str d), min_state d, mx, curr))
  end.

Definition add_cooling_device (cdev_name path : string) (min_state_ max_state_ step : Z) : EM bool :=
  if in_etc path then ret false
  else granted (user_add_cdev (GenDevice GenSysfsCdev) cdev_name path min_state_ max_state_ step).

Definition update_cooling_device (cdev_name path : string) (min_state_ max_state_ step : Z) : EM bool :=
  if in_etc path then ret false else add_cooling_device cdev_name path min_state_ max_state_ step.

(** To be implemented, says the code. *)
Definition add_trip_point (name : string) : EM bool := ret false.
Definition delete_trip_point (name : string) : EM bool := ret false.
Definition disable_cooling_device (name : string) : EM bool := ret false.

(** ** Reinit *)

(** The members of the engine in the reverse order of their declaration. *)
Definition destroy_engine (e : engine device W) : W :=
  let s := mach e in
  let w := foldl (fun w d => destroy_csys_fs (cdev_sysfs d) w) (m_w s) (m_cdevs s) in
  let w := foldl (fun w sn => destroy_csys_fs (sensor_sysfs sn) w) w (m_sensors s) in
  m_w (foldl (fun s z => snd (destroy_zone z s)) (s <| m_w := w |>) (zones e)).

(** [new cthd_engine_default()]: the preference file and the RAPL domains are
    read.  The machine keeps what is not the engine's. *)
Definition fresh_engine (s : machine device W) (w : W) : setup D * engine device W :=
  let pref := new_preference TDRUNDIR w in
  let '(pm, w) := new_power_meter meter_depth (Z.lor PACKAGE DRAM) w in
  (new_setup "", new_engine default_uuid pref
    (mk_machine (k_set_meter pm w) [] [] [] 0 0 (m_ignore_critical s) (m_power_offs s) (m_uninit s))).

Definition reinit : SM (option bool) :=
  u <- get_setup ;;
  mode <- start_engine (gets control_mode) ;;
  let conf_file := if String.eqb (config_file u) "" then None else Some (config_file u) in
  r <- start_engine thd_engine_terminate ;;
  match r with
  | None => ret None
  | Some _ =>
      start_engine (on_w (fun w => (tt, k_sleep 1 w))) ;;
      modify (fun '(_, e) => fresh_engine (mach e) (k_sleep 2 (destroy_engine e))) ;;
      r <- thd_engine_create_default_engine garbage TDCONFDIR TDRUNDIR generate_conf uninit_pid created
             ignore_default_control disable_active_power power_floor_enable thd_poll_interval check_cpu_id os
             true (bool_decide (mode = EXCLUSIVE)) conf_file ;;
      ret (option_map (fun r => r =? THD_SUCCESS) r)
  end.

(** * Calls *)

(** [error] is never set, so a method that looks only at it answers in any case. *)
Definition acknowledged (m : EM bool) : SM (option reply) := start_engine m ;; ret (Some (Returned [])).
(** A method that looks at the result. *)
Definition answered (m : EM bool) : SM (option reply) :=
  ok <- start_engine m ;; ret (Some (if ok : bool then Returned [] else NotReplied)).
Definition values (m : EM (option (list gvalue))) : SM (option reply) :=
  r <- start_engine m ;; ret (Some match r with Some v => Returned v | None => NotReplied end).

(** Sensors, zones and devices added and removed. *)
Definition run_changes (m : method) (parameters : list gvalue) : SM (option reply) :=
  match m, parameters with
  | AddCoolingDevice, [GString name; GString path; GInt32 mn; GInt32 mx; GInt32 step] =>
      acknowledged (add_cooling_device name path mn mx step)
  | AddSensor, [GString name; GString path] => acknowledged (add_sensor name path)
  | AddTripPoint, [GString name; GUint32 _; GString _; GString _] => acknowledged (add_trip_point name)
  | AddVirtualSensor, [GString name; GString dep; GDouble slope; GDouble intercept] =>
      acknowledged (add_virtual_sensor name dep slope intercept)
  | AddZonePassive, [GString name; GUint32 temp; GString sensor; GString cdev] =>
      acknowledged (add_zone_passive name (i32 temp) sensor cdev)
  | DeleteTripPoint, [GString name; GUint32 _] => acknowledged (delete_trip_point name)
  | DeleteZone, [GString name] => acknowledged (delete_zone name)
  | DisableCoolingDevice, [GString name] => acknowledged (disable_cooling_device name)
  | _, _ => ret None
  end.

(** The devices, the sensors and the preference. *)
Definition run_lists (m : method) (parameters : list gvalue) : SM (option reply) :=
  match m, parameters with
  | GetCdevCount, [] => values (gets (fun e => Some [GUint32 (u32 (get_cdev_count e))]))
  | GetCdevInformation, [GUint32 idx] =>
      values (r <- get_cdev_information (i32 idx) ;;
              ret ('(t, mn, mx, curr) ← r; Some [GString t; GInt32 mn; GInt32 mx; GInt32 curr]))
  | GetCurrentPreference, [] => values (p <- get_current_preference ;; ret (Some [GString p]))
  | GetSensorCount, [] => values (gets (fun e => Some [GUint32 (u32 (get_sensor_count e))]))
  | GetSensorInformation, [GUint32 idx] =>
      values (r <- get_sensor_information (i32 idx) ;;
              ret ('(t, p, temp) ← r; Some [GString t; GString p; GInt32 temp]))
  | GetSensorTemperature, [GUint32 idx] =>
      values (r <- sensor_temperature (i32 idx) ;; ret (temp ← r; Some [GUint32 temp]))
  | GetZoneCount, [] => values (gets (fun e => Some [GUint32 (u32 (get_zone_count e))]))
  | _, _ => ret None
  end.

(** The zones. *)
Definition run_zones (m : method) (parameters : list gvalue) : SM (option reply) :=
  match m, parameters with
  | GetZoneInformation, [GUint32 idx] =>
      values (gets (fun e => '(t, ns, nt, bound) ← get_zone_information (i32 idx) e;
                             Some [GString t; GInt32 ns; GInt32 nt; GInt32 bound]))
  | GetZoneSensorAtIndex, [GUint32 zone_idx; GUint32 sensor_idx] =>
      values (gets (fun e => t ← get_zone_sensor_at_index (i32 zone_idx) (i32 sensor_idx) e; Some [GString t]))
  | GetZoneStatus, [GString name] =>
      values (r <- get_zone_status name ;; ret (status ← r; Some [GInt32 status]))
  | GetZoneTripAtIndex, [GUint32 zone_idx; GUint32 trip_idx] =>
      values (gets (fun e => '(temp, type, sensor, size, ids) ← get_zone_trip_at_index (i32 zone_idx) (i32 trip_idx) e;
                             Some [GInt32 temp; GInt32 type; GInt32 sensor; GInt32 size; GInt32Array ids]))
  | _, _ => ret None
  end.

(** The engine and its settings. *)
Definition run_settings (m : method) (parameters : list gvalue) : SM (option reply) :=
  match m, parameters with
  | Reinit, [] => r <- reinit ;; ret (option_map (fun _ => Returned []) r)
  | SetCurrentPreference, [GString pref] => answered (set_current_preference pref)
  | SetUserMaxTemperature, [GString name; GUint32 temp] =>
      start_engine (set_user_max_temperature name temp) ;; ret (Some NotReplied)
  | SetUserPassiveTemperature, [GString name; GUint32 temp] => answered (set_user_passive_temperature name temp)
  | SetZoneStatus, [GString name; GInt32 status] => answered (set_zone_status name status)
  | Terminate, [] => r <- start_engine terminate_daemon ;; ret (option_map (fun _ => Returned []) r)
  | UpdateCoolingDevice, [GString name; GString path; GInt32 mn; GInt32 mx; GInt32 step] =>
      answered (update_cooling_device name path mn mx step)
  | _, _ => ret None
  end.

(** The method's branch of the chain. *)
Definition run_method (m : method) (parameters : list gvalue) : SM (option reply) :=
  match m with
  | AddCoolingDevice | AddSensor | AddTripPoint | AddVirtualSensor | AddZonePassive | DeleteTripPoint | DeleteZone
  | DisableCoolingDevice => run_changes m parameters
  | GetCdevCount | GetCdevInformation | GetCurrentPreference | GetSensorCount | GetSensorInformation
  | GetSensorTemperature | GetZoneCount => run_lists m parameters
  | GetZoneInformation | GetZoneSensorAtIndex | GetZoneStatus | GetZoneTripAtIndex => run_zones m parameters
  | Reinit | SetCurrentPreference | SetUserMaxTemperature | SetUserPassiveTemperature | SetZoneStatus | Terminate
  | UpdateCoolingDevice => run_settings m parameters
  end.

Definition thd_dbus_handle_method_call (method_name : string) (parameters : list gvalue) : SM (option reply) :=
  u <- get_setup ;;
  match check_feature DBUS_CONTROL (features_parser u) with
  | None => ret None
  | Some v =>
      if v =? 0 then ret (Some (ReturnedError G_DBUS_ERROR_FAILED)) else
      match method_called method_names method_name with
      | Some m => run_method m parameters
      | None => ret (Some (ReturnedError G_DBUS_ERROR_UNKNOWN_METHOD))
      end
  end.

End dbus.
