(* ===== verification/DBusTheorems.v ===== *)
(** Theorems about the D-Bus interface: the calls keep to the introspection data
    of src/thd_dbus_interface.xml, what a refused request does, and which calls
    are left without an answer. *)
From stdpp Require Import base gmap strings list.
From Stdlib Require Import ZArith Lia.
From Stdlib Require String.
From S2P Require Import Prelude CString MeterData SysFs CFloat Pid Cdev CdevDevices CdevCpufreq CdevRapl Devices PowerMeter Machine Preference TripPoint Xml Parse ParseCodec Zone ZoneKinds Engine EngineUser EngineStart EngineAdaptive EngineDefault EngineDefaultTheorems DBus.

Open Scope string_scope.
Open Scope list_scope.
Open Scope Z_scope.

(** * The introspection data *)

Inductive gtype := TyString | TyUint32 | TyInt32 | TyDouble | TyInt32Array.
#[export] Instance gtype_eq : EqDecision gtype.
Proof. solve_decision. Defined.

Definition type_of (v : gvalue) : gtype :=
  match v with
  | GString _ => TyString | GUint32 _ => TyUint32 | GInt32 _ => TyInt32 | GDouble _ => TyDouble
  | GInt32Array _ => TyInt32Array
  end.

(** The arguments of direction "in", and those of direction "out". *)
Definition in_types (m : method) : list gtype :=
  match m with
  | AddCoolingDevice | UpdateCoolingDevice => [TyString; TyString; TyInt32; TyInt32; TyInt32]
  | AddSensor => [TyString; TyString]
  | AddTripPoint | AddZonePassive => [TyString; TyUint32; TyString; TyString]
  | AddVirtualSensor => [TyString; TyString; TyDouble; TyDouble]
  | DeleteTripPoint | SetUserMaxTemperature | SetUserPassiveTemperature => [TyString; TyUint32]
  | DeleteZone | DisableCoolingDevice | GetZoneStatus | SetCurrentPreference => [TyString]
  | GetCdevInformation | GetSensorInformation | GetSensorTemperature | GetZoneInformation => [TyUint32]
  | GetZoneSensorAtIndex | GetZoneTripAtIndex => [TyUint32; TyUint32]
  | SetZoneStatus => [TyString; TyInt32]
  | GetCdevCount | GetCurrentPreference | GetSensorCount | GetZoneCount | Reinit | Terminate => []
  end.
Definition out_types (m : method) : list gtype :=
  match m with
  | GetCdevCount | GetSensorCount | GetZoneCount | GetSensorTemperature => [TyUint32]
  | GetCdevInformation | GetZoneInformation => [TyString; TyInt32; TyInt32; TyInt32]
  | GetCurrentPreference | GetZoneSensorAtIndex => [TyString]
  | GetSensorInformation => [TyString; TyString; TyInt32]
  | GetZoneStatus => [TyInt32]
  | GetZoneTripAtIndex => [TyInt32; TyInt32; TyInt32; TyInt32; TyInt32Array]
  | _ => []
  end.

Section theorems.
Context {W D : Type} `{Kernel W} `{!RaplEngine W} `{!LibXml W D} (garbage : Z).
Context (TDCONFDIR TDRUNDIR : string) (generate_conf : string -> State W Z) (uninit_pid : pid_control_t).
Context (depth meter_depth : nat) (created : bool) (os : os_answers).
Context (ignore_default_control disable_active_power power_floor_enable : bool) (thd_poll_interval : Z).
Context (check_cpu_id : State (setup D * engine device W) bool) (exit_callback : option (State W unit)).

Abbreviation SM := (State (setup D * engine device W)).
Abbreviation run := (run_method garbage TDCONFDIR TDRUNDIR generate_conf uninit_pid depth meter_depth created os
  ignore_default_control disable_active_power power_floor_enable thd_poll_interval check_cpu_id exit_callback).
Abbreviation call := (thd_dbus_handle_method_call garbage TDCONFDIR TDRUNDIR generate_conf uninit_pid depth meter_depth
  created os ignore_default_control disable_active_power power_floor_enable thd_poll_interval check_cpu_id exit_callback).

(** The methods that may leave the caller without an answer. *)
Definition may_be_silent (m : method) : bool :=
  match m with
  | GetCdevInformation | GetSensorInformation | GetSensorTemperature | GetZoneInformation | GetZoneSensorAtIndex
  | GetZoneStatus | GetZoneTripAtIndex | SetCurrentPreference | SetUserMaxTemperature | SetUserPassiveTemperature
  | SetZoneStatus | UpdateCoolingDevice => true
  | _ => false
  end.

(** What an answer of a method may be. *)
Definition answer_ok (m : method) (r : option reply) : Prop :=
  match r with
  | None => m = Reinit \/ m = Terminate
  | Some (Returned v) => map type_of v = out_types m /\ m <> SetUserMaxTemperature
  | Some (ReturnedError _) => False
  | Some NotReplied => may_be_silent m = true
  end.

Definition answers (m : method) (p : SM (option reply)) : Prop := forall s, answer_ok m (fst (p s)).

(** A method with values, or without any; one that is never silent. *)
Definition no_values (m : method) : Prop := out_types m = [] /\ m <> SetUserMaxTemperature.

Lemma answers_acknowledged m (r : State (engine device W) bool) : no_values m -> answers m (acknowledged r).
Proof. intros [Hm Hs] [u e]. unfold acknowledged, start_engine, bind. destruct (r e). cbn. by rewrite Hm. Qed.

Lemma answers_answered m (r : State (engine device W) bool) :
  no_values m -> may_be_silent m = true -> answers m (answered r).
Proof. intros [Hm Hs] Hq [u e]. unfold answered, start_engine, bind. by destruct (r e) as [[] e']; cbn; [rewrite Hm|]. Qed.

(** The values of an answer have the types of the method, and are there unless
    the method may be silent. *)
Definition typed_answer (m : method) (v : option (list gvalue)) : Prop :=
  match v with
  | Some v => map type_of v = out_types m /\ m <> SetUserMaxTemperature
  | None => may_be_silent m = true
  end.

Lemma answers_read m (f : engine device W -> option (list gvalue)) :
  (forall e, typed_answer m (f e)) -> answers m (values (gets f)).
Proof. intros Hm [u e]. unfold values, start_engine, bind, gets. specialize (Hm e). by destruct (f e). Qed.

Lemma answers_asked {A} m (r : State (engine device W) A) (f : A -> option (list gvalue)) :
  (forall a, typed_answer m (f a)) -> answers m (values (a <- r ;; ret (f a))).
Proof.
  intros Hm [u e]. unfold values, start_engine, bind, ret. destruct (r e) as [a e']. specialize (Hm a). by destruct (f a).
Qed.

Lemma answers_undone {A} m (r : SM (option A)) :
  m = Reinit \/ m = Terminate -> answers m (x <- r ;; ret (option_map (fun _ => Returned []) x)).
Proof. intros Hm s. unfold bind. destruct (r s) as [[a|] s']; cbn; [|done]. by destruct Hm as [-> | ->]. Qed.

(** The parameters of a call have the types of the method. *)
Ltac typed_parameters :=
  repeat match goal with
  | Hp : map type_of ?l = _ :: _ |- _ =>
      let v := fresh "v" in let l' := fresh "l" in
      destruct l as [|v l']; [discriminate|]; destruct v; try discriminate; injection Hp as Hp
  | Hp : map type_of ?l = [] |- _ => destruct l; [|discriminate]; clear Hp
  end.

Ltac typed_values :=
  first [apply answers_read; intros a|apply answers_asked; intros a];
  try match goal with |- context [if ?b then _ else _] => destruct b end;
  try match goal with |- typed_answer _ (mbind _ ?o) => destruct o end; cbn [mbind option_bind];
  repeat match goal with |- typed_answer _ (let '(_, _) := ?p in _) => destruct p end; by split.

Lemma run_answers m parameters : map type_of parameters = in_types m -> answers m (run m parameters).
Proof.
  intros Hp. destruct m; cbn [in_types] in Hp; typed_parameters; cbn [run_method run_changes run_lists run_zones run_settings];
    first [by apply answers_acknowledged | by apply answers_answered | by apply answers_undone; auto | typed_values | idtac].
  intros [u e]. unfold start_engine, bind. by destruct (set_user_max_temperature _ _ _ e).
Qed.

Lemma method_called_in l name m : method_called l name = Some m -> (name, m) ∈ l.
Proof.
  induction l as [|[n k] l IH]; cbn [method_called]; [done|]. destruct (String.eqb_spec name n) as [->|Hn].
  - intros [= ->]. by left.
  - intros E. right. by apply IH.
Qed.

Lemma method_called_none l name : method_called l name = None -> name ∉ (fst <$> l).
Proof.
  induction l as [|[n k] l IH]; cbn [method_called]; [intros _; apply not_elem_of_nil|].
  destruct (String.eqb_spec name n) as [->|Hn]; [done|]. intros E. rewrite fmap_cons, not_elem_of_cons. split; [done|].
  by apply IH.
Qed.

Lemma method_names_distinct : NoDup (fst <$> method_names).
Proof. apply (bool_decide_unpack _). vm_compute. done. Qed.

Lemma method_called_of name m : (name, m) ∈ method_names -> method_called method_names name = Some m.
Proof.
  intros Hin. destruct (method_called method_names name) as [k|] eqn:E.
  - apply method_called_in in E. f_equal. pose proof method_names_distinct as Hd.
    apply list_elem_of_lookup in Hin as [i Hi], E as [j Hj].
    assert (i = j) as ->; [|congruence].
    apply (NoDup_lookup _ i j name Hd); by rewrite list_lookup_fmap, ?Hi, ?Hj.
  - apply method_called_none in E. destruct E. apply list_elem_of_fmap. by exists (name, m).
Qed.

(** C37: the interface keeps to its introspection data.  With the feature off,
    every call is refused with an error and changes nothing; a method that is
    not declared is refused as unknown.  A declared method called with parameters
    of its types is never answered by an error: it returns values of the declared
    types, or nothing at all, which only the methods of [may_be_silent] do;
    SetUserMaxTemperature never returns.  Undefined runs are left only to the two
    methods that stop the engine. *)
Theorem calls_conform name parameters (s : setup D * engine device W) v :
  check_feature DBUS_CONTROL (features_parser (fst s)) = Some v ->
  (v = 0 -> call name parameters s = (Some (ReturnedError G_DBUS_ERROR_FAILED), s)) /\
  (v <> 0 -> name ∉ (fst <$> method_names) ->
     call name parameters s = (Some (ReturnedError G_DBUS_ERROR_UNKNOWN_METHOD), s)) /\
  (v <> 0 -> forall m, (name, m) ∈ method_names -> map type_of parameters = in_types m ->
     answer_ok m (fst (call name parameters s))).
Proof.
  intros Ef. unfold thd_dbus_handle_method_call, get_setup, bind, gets. rewrite Ef.
  destruct (Z.eqb_spec v 0) as [Hv|Hv]; [split_and!; by intros|]. split_and!; [done| |].
  - intros _ Hn. destruct (method_called method_names name) as [m|] eqn:E; [|done].
    apply method_called_in in E. destruct Hn. apply list_elem_of_fmap. by exists (name, m).
  - intros _ m Hin Hp. rewrite (method_called_of name m Hin). by apply run_answers.
Qed.

(** The caller of SetUserMaxTemperature waits in vain for a request that was
    carried out. *)
Theorem set_user_max_unanswered zone temperature (s : setup D * engine device W) v :
  check_feature DBUS_CONTROL (features_parser (fst s)) = Some v -> v <> 0 ->
  call "SetUserMaxTemperature" [GString zone; GUint32 temperature] s =
  (Some NotReplied, (fst s, snd (set_user_max_temperature TDRUNDIR zone temperature (snd s)))).
Proof.
  intros Ef Hv. unfold thd_dbus_handle_method_call, get_setup, bind, gets. rewrite Ef.
  destruct (Z.eqb_spec v 0) as [|_]; [done|]. destruct s as [u e].
  change (method_called method_names "SetUserMaxTemperature") with (Some SetUserMaxTemperature). cbn [run_method run_changes run_lists run_zones run_settings].
  unfold start_engine, bind, ret. cbn [fst snd]. by destruct (set_user_max_temperature _ _ _ e).
Qed.

(** A sensor that cannot be added is reported as added. *)
Theorem add_sensor_always_succeeds sensor path (s : setup D * engine device W) v :
  check_feature DBUS_CONTROL (features_parser (fst s)) = Some v -> v <> 0 ->
  fst (call "AddSensor" [GString sensor; GString path] s) = Some (Returned []).
Proof.
  intros Ef Hv. unfold thd_dbus_handle_method_call, get_setup, bind, gets. rewrite Ef.
  destruct (Z.eqb_spec v 0) as [|_]; [done|]. destruct s as [u e].
  change (method_called method_names "AddSensor") with (Some AddSensor). cbn [run_method run_changes run_lists run_zones run_settings].
  unfold acknowledged, start_engine, bind, ret. by destruct (add_sensor _ _ e).
Qed.

(** A device in /etc is refused, and nothing changes. *)
Lemma etc_is_refused name path mn mx step (e : engine device W) :
  is_prefix "/etc" path = true -> (4 <= String.length path)%nat ->
  add_cooling_device garbage name path mn mx step e = (false, e) /\
  update_cooling_device garbage name path mn mx step e = (false, e).
Proof.
  intros Hp Hl. assert (Hi : in_etc path = true).
  { unfold in_etc. rewrite Hp, andb_true_r. by apply Nat.leb_le. }
  unfold update_cooling_device, add_cooling_device. by rewrite Hi.
Qed.

(** The numbers of a trip's devices come in the reverse order of the trip. *)
Theorem trip_devices_reversed zone_index trip_index (e : engine device W) temp type sensor size ids :
  get_zone_trip_at_index zone_index trip_index e = Some (temp, type, sensor, size, ids) ->
  exists i z t, user_get_zone zone_index e = Some (i, z) /\ get_trip_at_index trip_index z = Some t /\
    ids = reverse (omap (fun c => index <$> m_cdevs (mach e) !! tc_cdev c) (cdevs t)).
Proof.
  assert (Hp : forall l acc, prepend_ids l acc (mach e) =
    reverse (omap (fun c => index <$> m_cdevs (mach e) !! tc_cdev c) l) ++ acc).
  { induction l as [|c l IH]; intros acc; cbn [prepend_ids omap list_omap]; [done|].
    destruct (m_cdevs (mach e) !! tc_cdev c) as [d|]; cbn [fmap option_fmap option_map]; rewrite IH; [|done].
    by rewrite reverse_cons, <- app_assoc. }
  unfold get_zone_trip_at_index. destruct (user_get_zone zone_index e) as [[i z]|]; [|done]. cbn [mbind option_bind].
  destruct (get_trip_at_index trip_index z) as [t|] eqn:Et; [|done]. cbn [mbind option_bind]. intros [= <- <- <- <- <-].
  exists i, z, t. by rewrite Hp, app_nil_r.
Qed.
End theorems.

(** A path that leads to /etc another way is not recognised. *)
Example etc_by_another_way : in_etc "/sys/../etc/passwd" = false /\ in_etc "//etc/passwd" = false.
Proof. done. Qed.

(** ** An example *)

#[local] Instance quiet_rapl : RaplEngine sim := {|
  eng_uninit := fun _ => 0; eng_get_ppcc_param := fun _ _ => None; eng_search_idsp := fun _ _ => 0 |}.

(** An engine with a zone whose trip drives two devices. *)
Definition bus_engine : engine device sim :=
  let d i := new_cdev i "/sys/class/thermal/" (SysfsDevice SysfsCdev) in
  let t := (new_trip 0 PASSIVE 90000 0 0 0 PARALLEL) <| cdevs := [new_trip_cdev 0; new_trip_cdev 1] |> in
  let e := bare_engine power_world in
  e <| mach := (mach e) <| m_cdevs := [d 3; d 7] |> |>
    <| zones := [(new_zone 0 "" SENSOR_INDEPENDENT) <| z_type_str := "cpu" |> <| trip_points := [t] |>] |>.
Definition bus_state : setup (list xmlNode) * engine device sim :=
  ((new_setup "") <| features_parser := mk_features None [] (replicate MAX_FEATURE 1) |>, bus_engine).

Abbreviation bus_call :=
  (@thd_dbus_handle_method_call sim (list xmlNode) _ _ (sim_xml ∅) 0 "/etc/thermald" "/run" (fun _ => ret THD_ERROR)
     (mk_pid_control zero_double zero_double zero_double) 1 2 false (mk_os 0 0 0 0 0 "") false false false 0 (ret true) None).

(** The trip of the example: its devices are 3 and 7, and are listed as 7 and 3. *)
Example trip_of_the_bus : fst (bus_call "GetZoneTripAtIndex" [GUint32 0; GUint32 0] bus_state) =
  Some (Returned [GInt32 90000; GInt32 3; GInt32 0; GInt32 2; GInt32Array [7; 3]]).
Proof. vm_compute. reflexivity. Qed.

(** A zone that is not there is not answered. *)
Example no_such_zone : fst (bus_call "GetZoneInformation" [GUint32 4] bus_state) = Some NotReplied.
Proof. vm_compute. reflexivity. Qed.

Lemma calls_conform_witness :
  check_feature DBUS_CONTROL (features_parser (fst bus_state)) = Some 1 /\
  bus_call "Restart" [] bus_state = (Some (ReturnedError G_DBUS_ERROR_UNKNOWN_METHOD), bus_state) /\
  answer_ok GetZoneTripAtIndex (fst (bus_call "GetZoneTripAtIndex" [GUint32 0; GUint32 0] bus_state)).
Proof.
  split; [reflexivity|].
  pose proof (fun name parameters => @calls_conform sim (list xmlNode) _ _ (sim_xml ∅) 0 "/etc/thermald" "/run"
    (fun _ => ret THD_ERROR) (mk_pid_control zero_double zero_double zero_double) 1%nat 2%nat false
    (mk_os 0 0 0 0 0 "") false false false 0 (ret true) None name parameters bus_state 1 eq_refl) as Hc.
  split.
  - apply (proj1 (proj2 (Hc "Restart" []))); [discriminate|]. apply (bool_decide_unpack _). vm_compute. exact I.
  - apply (proj2 (proj2 (Hc "GetZoneTripAtIndex" [GUint32 0; GUint32 0]))); [discriminate| |reflexivity].
    do 18 right. left.
Defined.
