(* ===== verification/DBusServer.v ===== *)
(** The server side of the D-Bus interface (src/thd_dbus_interface.cpp): the set
    up of the service with GDBus and with the older dbus-glib, and the callbacks
    of GDBus.

    GLib is not part of the program: the class [Bus] is what the functions ask
    of it.  Owning the name is asynchronous there: [g_bus_own_name] returns at
    once and the main loop calls back later, so the callbacks are steps of
    their own. *)
From stdpp Require Import base gmap strings list.
From Stdlib Require Import ZArith Lia.
From Stdlib Require String.
From S2P Require Import Prelude CString.

Open Scope string_scope.
Open Scope Z_scope.

Definition THD_SERVICE_NAME : string := "org.freedesktop.thermald".
Definition THD_SERVICE_OBJECT_PATH : string := "/org/freedesktop/thermald".
Definition DBUS_REQUEST_NAME_REPLY_PRIMARY_OWNER : Z := 1.

(** The introspection data: the names of the interfaces it describes. *)
Definition node_info : Type := list string.

Class Bus (W : Type) := {
  g_object_new : W -> bool * W;                          (* [false]: null *)
  g_bus_own_name : string -> W -> Z * W;                 (* the system bus, REPLACE *)
  g_resources_lookup_data : string -> W -> option string;
  g_dbus_node_info_new_for_xml : string -> option node_info;
  g_dbus_connection_register_object : string -> string -> W -> Z * W;
  g_dbus_proxy_new_sync : string -> W -> bool * W;
  dbus_g_bus_get : W -> bool * W;
  dbus_g_proxy_new_for_name : W -> bool * W;
  dbus_request_name : string -> W -> option Z * W;       (* [None]: the call failed *)
  dbus_g_connection_register_g_object : string -> W -> W;
}.

(** The globals of the file, and the descriptor of the name in src/main.cpp. *)
Record server := mk_server {
  exit_callback_set : bool;
  vtable_set : bool;
  own_id : Z;
  object_made : bool;
}.
#[export] Instance eta_server : Eta server := {| eta_of := fun x =>
  mk_server (exit_callback_set x) (vtable_set x) (own_id x) (object_made x) |}.
Definition no_server : server := mk_server false false 0 false.

(** How a callback ends: it returns, the process exits with a code, an assertion
    of it fails, or it reads outside of an object. *)
Inductive callback := Done | ExitedWith (code : Z) | Aborted | Wild.

Section server.
Context {W : Type} {HB : Bus W}.
Abbreviation SV := (State (server * W)).

Definition on_bus {A} (m : State W A) : SV A := fun '(s, w) => let '(a, w') := m w in (a, (s, w')).
Definition mods (f : server -> server) : SV unit := modify (fun '(s, w) => (f s, w)).

(** ** GDBus *)

(** The result of the first failure is null. *)
Definition thd_dbus_load_introspection (filename : string) (w : W) : option node_info :=
  data ← g_resources_lookup_data ("/org/freedesktop/thermald" +:+ "/" +:+ filename) w;
  g_dbus_node_info_new_for_xml data.

Definition thd_dbus_handle_get_property : option unit := None.
Definition thd_dbus_handle_set_property : bool := true.

(** The object is registered under the first interface of the description. *)
Definition thd_dbus_on_bus_acquired (user_data : bool) : SV callback :=
  if negb user_data then ret Done else
  info <- on_bus (gets (thd_dbus_load_introspection "src/thd_dbus_interface.xml")) ;;
  match info with
  | None => ret Done
  | Some [] => ret Wild
  | Some (interface :: _) =>
      registration_id <- on_bus (g_dbus_connection_register_object THD_SERVICE_OBJECT_PATH interface) ;;
      proxy <- on_bus (g_dbus_proxy_new_sync "org.freedesktop.DBus") ;;
      ret (if (registration_id >? 0) && proxy then Done else Aborted)
  end.

Definition thd_dbus_on_name_acquired : SV callback := ret Done.
Definition thd_dbus_on_name_lost : SV callback := ret (ExitedWith 1).

Definition thd_dbus_server_init : SV Z :=
  value_obj <- on_bus g_object_new ;;
  if negb value_obj then ret THD_FATAL_ERROR else
  mods (fun s => s <| object_made := true |> <| exit_callback_set := true |> <| vtable_set := true |>) ;;
  id <- on_bus (g_bus_own_name THD_SERVICE_NAME) ;;
  mods (fun s => s <| own_id := id |>) ;;
  ret THD_SUCCESS.

(** What the main loop may call after [g_bus_own_name]. *)
Inductive bus_event := BusAcquired | NameAcquired | NameLost.
Definition on_event (e : bus_event) : SV callback := fun st =>
  match e with
  | BusAcquired => thd_dbus_on_bus_acquired (object_made (fst st)) st
  | NameAcquired => thd_dbus_on_name_acquired st
  | NameLost => thd_dbus_on_name_lost st
  end.

(** The events of a run, until one ends the process. *)
Fixpoint serve (l : list bus_event) : SV callback :=
  match l with
  | [] => ret Done
  | e :: rest => r <- on_event e ;; match r with Done => serve rest | r => ret r end
  end.

(** ** dbus-glib *)

Definition glib_server_init : SV Z :=
  mods (fun s => s <| exit_callback_set := true |>) ;;
  bus <- on_bus dbus_g_bus_get ;;
  if negb bus then ret THD_FATAL_ERROR else
  bus_proxy <- on_bus dbus_g_proxy_new_for_name ;;
  if negb bus_proxy then ret THD_FATAL_ERROR else
  result <- on_bus (dbus_request_name THD_SERVICE_NAME) ;;
  match result with
  | None => ret THD_FATAL_ERROR
  | Some result =>
      if negb (result =? DBUS_REQUEST_NAME_REPLY_PRIMARY_OWNER) then ret THD_FATAL_ERROR else
      value_obj <- on_bus g_object_new ;;
      if negb value_obj then ret THD_FATAL_ERROR else
      mods (fun s => s <| object_made := true |>) ;;
      on_bus (fun w => (tt, dbus_g_connection_register_g_object THD_SERVICE_OBJECT_PATH w)) ;;
      ret THD_SUCCESS
  end.

(** * Theorems *)

(** With dbus-glib success means that this process is the owner of the name and
    its object is on the bus. *)
Theorem glib_init_owns s w s' w' : glib_server_init (s, w) = (THD_SUCCESS, (s', w')) ->
  exists w1 w2 w3 w4, dbus_g_bus_get w = (true, w1) /\ dbus_g_proxy_new_for_name w1 = (true, w2) /\
    dbus_request_name THD_SERVICE_NAME w2 = (Some DBUS_REQUEST_NAME_REPLY_PRIMARY_OWNER, w3) /\
    g_object_new w3 = (true, w4) /\ w' = dbus_g_connection_register_g_object THD_SERVICE_OBJECT_PATH w4 /\
    exit_callback_set s' = true /\ object_made s' = true.
Proof.
  unfold glib_server_init, bind, mods, modify, on_bus, ret. destruct (dbus_g_bus_get w) as [[] w1] eqn:E1; [|done]. cbn.
  destruct (dbus_g_proxy_new_for_name w1) as [[] w2] eqn:E2; [|done]. cbn.
  destruct (dbus_request_name _ w2) as [[r|] w3] eqn:E3; [|done].
  destruct (Z.eqb_spec r DBUS_REQUEST_NAME_REPLY_PRIMARY_OWNER) as [->|]; [|done]. cbn.
  destruct (g_object_new w3) as [[] w4] eqn:E4; [|done]. cbn. intros [= <- <-]. by exists w1, w2, w3, w4.
Qed.

(** With GDBus the function cannot tell: it succeeds whenever an object can be
    made, and a name that another process keeps ends this one later, from the
    main loop, with code 1 and the world as it is. *)
Theorem gdbus_init_decides_nothing s w w1 l :
  g_object_new w = (true, w1) ->
  fst (thd_dbus_server_init (s, w)) = THD_SUCCESS /\
  forall st, (forall e, e ∈ l -> e = NameAcquired) -> serve (l ++ [NameLost]) st = (ExitedWith 1, st).
Proof.
  intros E. split.
  - unfold thd_dbus_server_init, bind, mods, modify, on_bus, ret. rewrite E. cbn. by destruct (g_bus_own_name _ w1).
  - intros st. induction l as [|e l IH]; intros Hl; [done|]. cbn [app serve]. unfold bind.
    rewrite (Hl e) by left. cbn. apply IH. intros e' He'. apply Hl. by right.
Qed.

(** The callback for the bus has nothing to abort on as long as the object can be
    registered and the bus answers. *)
Theorem bus_acquired_serves s w interface rest id w1 w2 :
  thd_dbus_load_introspection "src/thd_dbus_interface.xml" w = Some (interface :: rest) ->
  g_dbus_connection_register_object THD_SERVICE_OBJECT_PATH interface w = (id, w1) -> 0 < id ->
  g_dbus_proxy_new_sync "org.freedesktop.DBus" w1 = (true, w2) ->
  thd_dbus_on_bus_acquired true (s, w) = (Done, (s, w2)).
Proof.
  intros E1 E2 Hid E3. unfold thd_dbus_on_bus_acquired, bind, on_bus, gets, ret. cbn. rewrite E1, E2, E3.
  by replace (id >? 0) with true by (symmetry; apply Z.gtb_lt; lia).
Qed.
End server.
