(* ===== verification/Pointers.v ===== *)
(** The pointers of the daemon's objects.

    A trip point points to cooling devices, a zone to sensors, a virtual sensor
    to the sensors it is computed from; the objects live in two vectors of the
    engine and a pointer is a position (Machine.v).  This file states when the
    pointers lead to objects, at the four levels of the model (machine, trip
    point, zone, engine), and proves that the operations of sensors, trip points
    and zones keep them so.

    The judgement is relative: with at least [c] devices and [n] sensors, code
    that is handed pointers below these bounds keeps every pointer valid and
    removes neither devices nor sensors. *)
From stdpp Require Import base gmap strings list.
From Stdlib Require Import ZArith Lia.
From Stdlib Require String.
From S2P Require Import Prelude CString SysFs CFloat Pid Cdev Machine Preference TripPoint Xml Parse Zone ZoneKinds.

Open Scope list_scope.
Open Scope Z_scope.

Create HintDb ptr.

(** * Valid pointers *)

(** A pointer that may be null. *)
Definition below (n : nat) (p : option nat) : Prop := from_option (fun i => i < n)%nat True p.

Definition sensor_ok (n : nat) (sn : sensor) : Prop :=
  from_option (fun v => Forall (fun l => below n (link_to l)) (link_sensors v)) True (s_virtual sn).
Definition trip_ok (c : nat) (t : trip_point) : Prop :=
  Forall (fun e => tc_cdev e < c)%nat (cdevs t) /\ below c (depend_cdev t).
Definition zone_ok (c n : nat) (z : zone) : Prop :=
  Forall (fun i => i < n)%nat (sensors z) /\ Forall (trip_ok c) (trip_points z).

Definition n_cdevs {X W} (s : machine X W) : nat := length (m_cdevs s).
Definition n_sensors {X W} (s : machine X W) : nat := length (m_sensors s).

Definition machine_ok {X W} (s : machine X W) : Prop := Forall (sensor_ok (n_sensors s)) (m_sensors s).
Definition tm_ok {X W} (a : trip_point * machine X W) : Prop :=
  trip_ok (n_cdevs (snd a)) (fst a) /\ machine_ok (snd a).
Definition zm_ok {X W} (a : zone * machine X W) : Prop :=
  zone_ok (n_cdevs (snd a)) (n_sensors (snd a)) (fst a) /\ machine_ok (snd a).

Lemma below_mono n n' p : (n <= n')%nat -> below n p -> below n' p.
Proof. destruct p; cbn; [lia|done]. Qed.

Lemma sensor_ok_mono n n' sn : (n <= n')%nat -> sensor_ok n sn -> sensor_ok n' sn.
Proof.
  unfold sensor_ok. destruct (s_virtual sn); cbn; [|done]. intros Hn Hl.
  eapply Forall_impl; [exact Hl|]. cbn. intros l. by apply below_mono.
Qed.

Lemma trip_ok_mono c c' t : (c <= c')%nat -> trip_ok c t -> trip_ok c' t.
Proof.
  intros Hc [H1 H2]. split; [|by eapply below_mono]. eapply Forall_impl; [exact H1|]. cbn. lia.
Qed.

Lemma zone_ok_mono c c' n n' z : (c <= c')%nat -> (n <= n')%nat -> zone_ok c n z -> zone_ok c' n' z.
Proof.
  intros Hc Hn [H1 H2]. split; (eapply Forall_impl; [eassumption|]); cbn; [lia|].
  intros t. by apply trip_ok_mono.
Qed.

(** * The judgement *)

Section judgement.
Context {S X W : Type} (pi : S -> machine X W) (ok : S -> Prop).

(** From a state with [c] devices and [n] sensors and valid pointers, none is
    removed and the pointers stay valid. *)
Definition safe (c n : nat) (a b : S) : Prop :=
  (c <= n_cdevs (pi a) -> n <= n_sensors (pi a) -> ok a ->
   n_cdevs (pi a) <= n_cdevs (pi b) /\ n_sensors (pi a) <= n_sensors (pi b) /\ ok b)%nat.

#[export] Instance safe_preorder c n : PreOrder (safe c n).
Proof.
  split; [by intros a Hc Hn Ha|].
  intros a b d Hab Hbd Hc Hn Ha. destruct (Hab Hc Hn Ha) as (H1 & H2 & H3).
  destruct (Hbd ltac:(lia) ltac:(lia) H3) as (H4 & H5 & H6). repeat split; [lia|lia|done].
Qed.

(** The same, and the result has [Q] of the new numbers of devices and sensors. *)
Definition gives {A} (c n : nat) (Q : nat -> nat -> A -> Prop) (m : State S A) : Prop :=
  forall s, (c <= n_cdevs (pi s) -> n <= n_sensors (pi s) -> ok s ->
    safe c n s (snd (m s)) /\ Q (n_cdevs (pi (snd (m s)))) (n_sensors (pi (snd (m s)))) (fst (m s)))%nat.

Lemma safe_mono c c' n n' {A} (m : State S A) :
  (c <= c')%nat -> (n <= n')%nat -> steps (safe c n) m -> steps (safe c' n') m.
Proof. intros Hc Hn Hm s H1 H2. apply Hm; lia. Qed.

Lemma safe_then {A B} c n Q (m : State S A) (k : A -> State S B) :
  gives c n Q m ->
  (forall a c' n', (c <= c')%nat -> (n <= n')%nat -> Q c' n' a -> steps (safe c' n') (k a)) ->
  steps (safe c n) (bind m k).
Proof.
  intros Hm Hk s Hc Hn Hs. destruct (Hm s Hc Hn Hs) as [H1 HQ]. unfold bind.
  destruct (m s) as [a s1]. cbn in *. destruct (H1 Hc Hn Hs) as (H2 & H3 & H4).
  destruct (Hk a (n_cdevs (pi s1)) (n_sensors (pi s1)) ltac:(lia) ltac:(lia) HQ s1 (le_n _) (le_n _) H4) as (H5 & H6 & H7).
  repeat split; [lia|lia|done].
Qed.

Lemma gives_then {A B} c n Q R (m : State S A) (k : A -> State S B) :
  gives c n Q m ->
  (forall a c' n', (c <= c')%nat -> (n <= n')%nat -> Q c' n' a -> gives c' n' R (k a)) ->
  gives c n R (bind m k).
Proof.
  intros Hm Hk s Hc Hn Hs. destruct (Hm s Hc Hn Hs) as [H1 HQ]. unfold bind.
  destruct (m s) as [a s1]. cbn in *. destruct (H1 Hc Hn Hs) as (H2 & H3 & H4).
  destruct (Hk a (n_cdevs (pi s1)) (n_sensors (pi s1)) ltac:(lia) ltac:(lia) HQ s1 (le_n _) (le_n _) H4) as [H5 H6].
  split; [|exact H6]. destruct (H5 ltac:(lia) ltac:(lia) H4) as (H7 & H8 & H9).
  repeat split; [lia|lia|done].
Qed.

Lemma gives_ret {A} c n (Q : nat -> nat -> A -> Prop) a :
  (forall c' n', (c <= c')%nat -> (n <= n')%nat -> Q c' n' a) -> gives c n Q (ret a).
Proof. intros HQ s Hc Hn Hs. split; [reflexivity|by apply HQ]. Qed.

(** What is read from a state is what a state with that many objects holds. *)
Lemma gives_gets {A} c n (g : S -> A) (Q : nat -> nat -> A -> Prop) :
  (forall s, ok s -> Q (n_cdevs (pi s)) (n_sensors (pi s)) (g s)) -> gives c n Q (gets g).
Proof. intros HQ s Hc Hn Hs. split; [reflexivity|by apply HQ]. Qed.

Lemma gives_steps {A} c n (m : State S A) : steps (safe c n) m -> gives c n (fun _ _ _ => True) m.
Proof. intros Hm s Hc Hn Hs. split; [apply Hm|done]. Qed.

(** A returned value that does not depend on the numbers. *)
Lemma safe_fold {A B} c n (l : list A) (f : State S B -> A -> State S B) acc :
  (forall acc a, a ∈ l -> steps (safe c n) acc -> steps (safe c n) (f acc a)) -> steps (safe c n) acc ->
  steps (safe c n) (fold_left f l acc).
Proof.
  revert acc. induction l as [|a l IH]; intros acc Hf Ha; cbn; [done|].
  apply IH; [|by apply Hf, Ha; left]. intros acc' a' Hin. apply Hf. by right.
Qed.
End judgement.

Definition here {X W} (s : machine X W) : machine X W := s.
Abbreviation safe_m := (safe here machine_ok).
Abbreviation safe_t := (safe snd tm_ok).
Abbreviation safe_z := (safe snd zm_ok).
Abbreviation gives_m := (gives here machine_ok).
Abbreviation gives_t := (gives snd tm_ok).
Abbreviation gives_z := (gives snd zm_ok).

#[export] Hint Resolve steps_if : ptr.
#[export] Hint Extern 5 (_ <= _)%nat => lia : ptr.
#[export] Hint Extern 5 (_ < _)%nat => lia : ptr.

(** Discharges a [safe] goal along the structure of the code; the pointers a
    search returns are kept with their bounds. *)
Ltac ptr_tac :=
  repeat first
    [ progress intros
    | solve [eauto with ptr]
    | solve [first [apply steps_ret | apply steps_gets | apply steps_get]; typeclasses eauto]
    | match goal with |- steps _ (bind _ _) =>
        first [eapply safe_then; [solve [eauto with ptr]|] | apply steps_bind; [typeclasses eauto|..]] end
    | apply steps_if
    | apply steps_mfor; [typeclasses eauto|..]
    | match goal with |- steps _ (match ?x with _ => _ end) => destruct x; cbn [below from_option] in * end ].

(** * Sensors *)

Section machine_ptr.
Context {X W : Type} {HK : Kernel W}.
Implicit Types s : machine X W.

Lemma find_below {A} (P : A -> Prop) `{!forall x, Decision (P x)} (l : list A) :
  below (length l) (fst <$> list_find P l).
Proof.
  destruct (list_find P l) as [[i x]|] eqn:E; cbn; [|done].
  apply list_find_Some in E as [E _]. by eapply lookup_lt_Some.
Qed.

Lemma search_sensor_below name s : below (n_sensors s) (search_sensor name s).
Proof. apply find_below. Qed.
Lemma search_cdev_below name s : below (n_cdevs s) (search_cdev name s).
Proof. apply find_below. Qed.
Lemma cdev_at_index_below idx s : below (n_cdevs s) (thd_get_cdev_at_index idx s).
Proof. apply find_below. Qed.

Lemma g_search_sensor c n name : gives_m c n (fun _ n' r => below n' r) (gets (@search_sensor X W name)).
Proof. apply gives_gets. intros s _. apply search_sensor_below. Qed.
Lemma g_search_cdev c n name : gives_m c n (fun c' _ r => below c' r) (gets (@search_cdev X W name)).
Proof. apply gives_gets. intros s _. apply search_cdev_below. Qed.
Lemma g_cdev_at_index c n idx : gives_m c n (fun c' _ r => below c' r) (gets (@thd_get_cdev_at_index X W idx)).
Proof. apply gives_gets. intros s _. apply cdev_at_index_below. Qed.

(** A sensor at a position has valid links. *)
Lemma sensor_at_ok s i : machine_ok s -> sensor_ok (n_sensors s) (sensor_at i s).
Proof.
  intros Hs. unfold sensor_at. destruct (m_sensors s !! i) as [sn|] eqn:E; [|done].
  unfold machine_ok in Hs. rewrite Forall_forall in Hs. by apply Hs, list_elem_of_lookup_2 with i.
Qed.

Lemma g_sensor_at c n i : gives_m c n (fun _ n' sn => sensor_ok n' sn) (gets (@sensor_at X W i)).
Proof. apply gives_gets. intros s. apply sensor_at_ok. Qed.

(** Code that leaves the devices' number and the sensors alone. *)
Lemma safe_same c n s s' :
  n_cdevs s' = n_cdevs s -> m_sensors s' = m_sensors s -> safe_m c n s s'.
Proof.
  intros E1 E2 Hc Hn Hs. unfold here, machine_ok, n_sensors in *. rewrite E1, E2. repeat split; [lia|lia|done].
Qed.

Lemma p_on_cdev {A} c n i (dflt : A) (m : State (cdev X * W) A) : steps (safe_m c n) (on_cdev i dflt m).
Proof.
  intros s. unfold on_cdev. destruct (m_cdevs s !! i) as [d|]; [|reflexivity].
  destruct (m (d, m_w s)) as [a [d' w']]. apply safe_same; [|done]. apply length_insert.
Qed.

Lemma p_on_world {A} c n (m : State W A) : steps (safe_m c n) (on_world (X := X) m).
Proof. intros s. unfold on_world. destruct (m (m_w s)). by apply safe_same. Qed.

Lemma p_send_message c n msg : steps (safe_m c n) (@send_message X W msg).
Proof. intros s. by apply safe_same. Qed.

Lemma p_gets {A} c n (g : machine X W -> A) : steps (safe_m c n) (gets g).
Proof. apply steps_gets. typeclasses eauto. Qed.

(** A sensor is changed in place. *)
Lemma safe_alter c n s s' i (f : sensor -> sensor) :
  (forall n' x, (n <= n')%nat -> sensor_ok n' x -> sensor_ok n' (f x)) ->
  n_cdevs s' = n_cdevs s -> m_sensors s' = alter f i (m_sensors s) -> safe_m c n s s'.
Proof.
  intros Hf E1 E2 Hc Hn Hs. unfold here, machine_ok, n_sensors in *.
  rewrite E1, E2, length_alter. repeat split; [lia|lia|]. apply Forall_alter; [done|].
  intros x _. by apply Hf.
Qed.

Lemma p_set_sensor c n i f :
  (forall n' x, (n <= n')%nat -> sensor_ok n' x -> sensor_ok n' (f x)) ->
  steps (safe_m c n) (@set_sensor X W i f).
Proof. intros Hf s. by eapply safe_alter. Qed.

Lemma p_set_virtual c n i f :
  (forall n' v, (n <= n')%nat -> Forall (fun l => below n' (link_to l)) (link_sensors v) ->
    Forall (fun l => below n' (link_to l)) (link_sensors (f v))) ->
  steps (safe_m c n) (@set_virtual X W i f).
Proof.
  intros Hf. apply p_set_sensor. intros n' x Hn. unfold sensor_ok. cbn.
  destruct (s_virtual x); cbn; [by apply Hf|done].
Qed.

Lemma insert_alter {A} (f : A -> A) (l : list A) i x : l !! i = Some x -> <[i := f x]> l = alter f i l.
Proof. intros E. apply list_eq. intros j. destruct (decide (i = j)) as [->|].
  - rewrite list_lookup_insert_eq, list_lookup_alter_eq, E; [done|by eapply lookup_lt_Some].
  - by rewrite list_lookup_insert_ne, list_lookup_alter_ne.
Qed.

Lemma p_on_sensor_fs {A} c n i (dflt : A) (m : State (csys_fs * W) A) :
  steps (safe_m c n) (on_sensor_fs (X := X) i dflt m).
Proof.
  intros s. unfold on_sensor_fs. destruct (m_sensors s !! i) as [sn|] eqn:E; [|reflexivity].
  destruct (m (sensor_sysfs sn, m_w s)) as [a [fs w']].
  apply (safe_alter _ _ _ _ i (fun x => x <| sensor_sysfs := fs |>)); [done|done|].
  exact (insert_alter (fun x => x <| sensor_sysfs := fs |>) _ _ _ E).
Qed.

Hint Resolve g_search_sensor g_search_cdev g_cdev_at_index p_on_cdev p_on_world p_send_message p_gets
  p_on_sensor_fs : ptr.

Lemma p_sensor_update c n i : steps (safe_m c n) (@sensor_update X W _ i).
Proof. unfold sensor_update. ptr_tac. by apply p_set_sensor. Qed.

Lemma p_set_threshold c n i idx t : steps (safe_m c n) (@set_threshold X W _ i idx t).
Proof. unfold set_threshold, enable_uevent. ptr_tac. Qed.

Lemma p_sensor_poll_trip c n i b : steps (safe_m c n) (@sensor_poll_trip X W i b).
Proof. unfold sensor_poll_trip, thd_engine_poll_enable, thd_engine_poll_disable. ptr_tac. Qed.
Lemma p_sensor_fast_poll c n i b : steps (safe_m c n) (@sensor_fast_poll X W i b).
Proof. unfold sensor_fast_poll, thd_engine_fast_poll_enable, thd_engine_fast_poll_disable. ptr_tac. Qed.

(** ** Virtual sensors *)

Lemma link_sample_to t l : link_to (snd (link_sample t l)) = link_to l.
Proof. done. Qed.

Lemma p_set_link c n i k l : below n (link_to l) -> steps (safe_m c n) (@set_link X W i k l).
Proof.
  intros Hl. apply p_set_sensor. intros n' x Hn. unfold sensor_ok. cbn.
  destruct (s_virtual x) as [v|]; cbn; [|done]. intros Hv. apply Forall_insert; [done|].
  by eapply below_mono.
Qed.

Lemma p_virtual_sample c n rd i v :
  (forall j, steps (safe_m c n) (rd j)) -> Forall (fun l => below n (link_to l)) (link_sensors v) ->
  steps (safe_m c n) (@virtual_sample X W rd i v).
Proof.
  intros Hrd Hv. unfold virtual_sample. destruct (link_sensors v) as [|l0 rest] eqn:El; [ptr_tac|].
  rewrite <- El in Hv |- *. clear El. rewrite Forall_lookup in Hv.
  destruct (link_to l0), (double_is_zero (coeff l0) && double_is_zero (link_offset l0)); [ptr_tac|..];
    (apply steps_bind; [typeclasses eauto|apply safe_fold; [|ptr_tac]|]).
  all: try solve [intros a; apply steps_bind; [typeclasses eauto| |ptr_tac]; apply p_set_sensor;
    intros n' x Hn; unfold sensor_ok; cbn; by destruct (s_virtual x)].
  all: intros acc [j l] Hin Hacc; apply list_elem_of_lookup in Hin as [k Hin];
    apply list_lookup_imap_Some in Hin as (l' & Hl & E); injection E as -> ->; specialize (Hv _ _ Hl);
    unfold link_sample; ptr_tac; by apply p_set_link.
Qed.

Lemma p_read_temperature c n fuel i : steps (safe_m c n) (@read_temperature X W _ fuel i).
Proof.
  revert c n i. induction fuel as [|f IH]; intros c n i; cbn [read_temperature]; [ptr_tac|].
  eapply safe_then; [apply g_sensor_at|]. intros sn c' n' Hc Hn Hsn. unfold sensor_ok in Hsn.
  destruct (s_virtual sn) as [v|]; cbn in Hsn.
  - destruct (polling v); [ptr_tac|]. by apply p_virtual_sample.
  - unfold base_read_temperature, rapl_power_read_temperature. ptr_tac.
Qed.
Hint Resolve p_read_temperature : ptr.

Lemma p_add_target c n i lt cf o pw : steps (safe_m c n) (@add_target X W i lt cf o pw).
Proof.
  unfold add_target. ptr_tac. apply p_set_virtual. intros n'' v Hn'' Hv. cbn.
  apply Forall_app. split; [done|]. constructor; [|done]. by eapply below_mono.
Qed.

Lemma p_sensor_update_param c n i dep a b : steps (safe_m c n) (@sensor_update_param X W i dep a b).
Proof.
  unfold sensor_update_param. ptr_tac. apply p_set_virtual. intros n'' v Hn'' Hv. cbn.
  apply Forall_app. split; [done|]. constructor; [|done]. cbn. lia.
Qed.

Lemma p_enable_timer c n created i : steps (safe_m c n) (@enable_periodic_timer X W created i).
Proof.
  apply p_set_virtual. intros n' v Hn Hv. cbn zeta.
  repeat match goal with |- context [if ?b then _ else _] => destruct b end; exact Hv.
Qed.
Lemma p_disable_timer c n i : steps (safe_m c n) (@disable_periodic_timer X W i).
Proof. apply p_set_virtual. intros n' v Hn Hv. by destruct (negb (polling v)). Qed.

Lemma p_sampling_round c n fuel i : steps (safe_m c n) (@sampling_round X W _ fuel i).
Proof.
  unfold sampling_round.
  assert (Hof : forall c n, gives_m c n (fun _ n' r => from_option (fun v => Forall (fun l => below n' (link_to l)) (link_sensors v)) True r)
    (gets (@virtual_of X W i))).
  { intros. apply gives_gets. intros s. apply sensor_at_ok. }
  eapply safe_then; [apply Hof|]. intros [v|] c1 n1 Hc1 Hn1 Hv; [|ptr_tac]. cbn in Hv.
  destruct (stop_polling v); [ptr_tac|].
  apply steps_bind; [typeclasses eauto|apply p_virtual_sample; auto with ptr|intros _].
  eapply safe_then; [apply Hof|]. intros [v'|] c2 n2 Hc2 Hn2 Hv'; [|ptr_tac]. cbn in Hv'.
  unfold next_period. apply steps_bind; [typeclasses eauto| |ptr_tac].
  apply p_set_virtual. intros n3 _ Hn3 _. eapply Forall_impl; [|intros l; by apply below_mono].
  by destruct (truthy _).
Qed.
End machine_ptr.

#[export] Hint Resolve g_search_sensor g_search_cdev g_cdev_at_index p_on_cdev p_on_world p_send_message p_gets
  p_on_sensor_fs p_sensor_update p_set_threshold p_sensor_poll_trip p_sensor_fast_poll p_read_temperature
  p_add_target p_sensor_update_param p_enable_timer p_disable_timer p_sampling_round : ptr.

(** * Trip points *)

Section trip_ptr.
Context {X W : Type} {HK : Kernel W} {HM : CdevMethods X W}.
Abbreviation TP := (State (trip_point * machine X W)).

Lemma p_onm {A} c n (m : State (machine X W) A) : steps (safe_m c n) m -> steps (safe_t c n) (onm m).
Proof.
  intros Hm [t s] Hc Hn [Ht Hs]. cbn in *. specialize (Hm s Hc Hn Hs). unfold onm.
  destruct (m s) as [a s']. destruct Hm as (H1 & H2 & H3). cbn in *. repeat split; [done|done| | |done];
    eapply trip_ok_mono; eassumption.
Qed.

Lemma g_onm {A} c n Q (m : State (machine X W) A) : gives_m c n Q m -> gives_t c n Q (onm m).
Proof.
  intros Hm [t s] Hc Hn [Ht Hs]. cbn in *. destruct (Hm s Hc Hn Hs) as [Hsafe HQ]. unfold onm.
  destruct (m s) as [a s']. split; [|exact HQ]. destruct (Hsafe Hc Hn Hs) as (H1 & H2 & H3). cbn in *.
  repeat split; [done|done| | |done]; eapply trip_ok_mono; eassumption.
Qed.

Lemma p_modt c n f :
  (forall c' t, (c <= c')%nat -> trip_ok c' t -> trip_ok c' (f t)) -> steps (safe_t c n) (@modt X W f).
Proof. intros Hf [t s] Hc Hn [Ht Hs]. cbn in *. by repeat split; try apply (Hf _ _ Hc Ht). Qed.

Lemma p_gett c n : steps (safe_t c n) (@gett X W).
Proof. apply steps_gets. typeclasses eauto. Qed.

Lemma p_set_entry c n i f : (forall e, tc_cdev (f e) = tc_cdev e) -> steps (safe_t c n) (@set_entry X W i f).
Proof.
  intros Hf. apply p_modt. intros c' t Hc [H1 H2]. split; [|done]. apply Forall_alter; [done|].
  intros e _. by rewrite Hf.
Qed.

Hint Resolve p_onm g_onm p_gett : ptr.
Hint Extern 1 (steps _ (set_entry _ _)) => by apply p_set_entry : ptr.
Hint Extern 1 (steps _ (modt _)) => by apply p_modt : ptr.

Lemma p_set_dependency c n name st : steps (safe_t c n) (@set_dependency X W name st).
Proof.
  unfold set_dependency. ptr_tac.
  apply p_modt. intros c2 t Hc2 [Ht _]. split; [done|]. cbn. lia.
Qed.

Lemma p_drive c n i r st : steps (safe_t c n) (@drive X W _ _ i r st).
Proof. unfold drive. ptr_tac. Qed.
Lemma p_too_early c n i : steps (safe_t c n) (@too_early X W _ i).
Proof. unfold too_early. ptr_tac. Qed.
Hint Resolve p_drive p_too_early : ptr.

Lemma p_activate c n k i r : steps (safe_t c n) (@activate_cdevs X W _ _ k i r).
Proof. revert i. induction k as [|k IH]; intros i; cbn [activate_cdevs]; ptr_tac. Qed.
Lemma p_deactivate c n i r : steps (safe_t c n) (@deactivate_cdevs X W _ _ i r).
Proof. induction i as [|i IH]; cbn [deactivate_cdevs]; ptr_tac. Qed.
Lemma p_state_reset c n i force : steps (safe_t c n) (@cdev_state_reset X W _ _ i force).
Proof. induction i as [|i IH]; cbn [cdev_state_reset]; ptr_tac. Qed.
Hint Resolve p_activate p_deactivate p_state_reset : ptr.

Lemma p_count_event c n act : steps (safe_m c n) act -> steps (safe_t c n) (@count_event X W act).
Proof. intros Ha. unfold count_event. ptr_tac. Qed.
Lemma p_power_off c n : steps (safe_m c n) (@power_off X W).
Proof. intros s. by apply safe_same. Qed.
Lemma p_suspend c n : steps (safe_m c n) (@suspend X W _).
Proof. apply p_on_world. Qed.
Hint Resolve p_count_event p_power_off p_suspend : ptr.

Lemma p_emergency c n r : steps (safe_t c n) (@emergency_check X W _ r).
Proof. unfold emergency_check. ptr_tac. Qed.
Hint Resolve p_emergency : ptr.

Lemma p_trip_check c n id r pref : steps (safe_t c n) (@thd_trip_point_check X W _ _ id r pref).
Proof. unfold thd_trip_point_check, dependency_met, polling_check, control_check. ptr_tac. Qed.
Lemma p_trip_reset c n force : steps (safe_t c n) (@thd_trip_cdev_state_reset X W _ _ force).
Proof. unfold thd_trip_cdev_state_reset. ptr_tac. Qed.

(** ** Binding *)

Lemma Forall_sort {A} (P : A -> Prop) comp (l : list A) : Forall P l -> Forall P (std_sort comp l).
Proof. intros Hl. eapply Permutation_Forall; [apply std_sort_perm|done]. Qed.

Lemma p_trip_cdev_add c n e : (tc_cdev e < c)%nat -> steps (safe_t c n) (@trip_cdev_add X W e).
Proof.
  intros He [t s] Hc Hn [[H1 H2] H3]. cbn in *. repeat split; try done. apply Forall_sort.
  destruct (check_duplicate (tc_cdev e) t s) as [k|].
  - by apply Forall_alter.
  - apply Forall_app. split; [done|]. constructor; [cbn; lia|done].
Qed.

Lemma p_add_cdev c n p i sp tv ts pid mm mn mx : (p < c)%nat ->
  steps (safe_t c n) (@thd_trip_point_add_cdev X W p i sp tv ts pid mm mn mx).
Proof.
  intros Hp. unfold thd_trip_point_add_cdev. apply p_trip_cdev_add.
  destruct pid as [q|]; [destruct (truthy (pid_valid q))|]; cbn; by destruct (truthy mm).
Qed.
Hint Resolve p_trip_cdev_add p_add_cdev : ptr.

Lemma p_add_cdev_index c n idx i : steps (safe_t c n) (@thd_trip_point_add_cdev_index X W idx i).
Proof. unfold thd_trip_point_add_cdev_index. ptr_tac. Qed.
Hint Resolve p_set_dependency : ptr.

Lemma p_generic_cdevs c n l b : steps (safe_t c n) (@generic_cdevs X W l b).
Proof. revert c n b. induction l as [|x l IH]; intros c n b; cbn [generic_cdevs]; ptr_tac. Qed.
Hint Resolve p_generic_cdevs : ptr.
Lemma p_generic_trip c n x : steps (safe_t c n) (@generic_trip X W x).
Proof. unfold generic_trip. ptr_tac. Qed.

(** A trip under construction, run to its result. *)
Lemma g_build {A B} c n (m : TP A) (t0 : trip_point) (f : A -> trip_point -> B) :
  steps (safe_t c n) m -> trip_ok c t0 ->
  gives_m c n (fun c' _ b => exists a t, b = f a t /\ trip_ok c' t)
    (fun s => let '(a, (t, s')) := m (t0, s) in (f a t, s')).
Proof.
  intros Hm Ht s Hc Hn Hs. specialize (Hm (t0, s) Hc Hn).
  destruct (m (t0, s)) as [a [t s']]. destruct Hm as (H1 & H2 & H3 & H4).
  { split; [by eapply trip_ok_mono|done]. }
  cbn in *. split; [done|]. by exists a, t.
Qed.

Lemma new_trip_ok c i ty t h z sn ct : trip_ok c (new_trip i ty t h z sn ct).
Proof. by repeat constructor. Qed.

Lemma g_add_default_cdev c n p t0 : (p < c)%nat -> trip_ok c t0 ->
  gives_m c n (fun c' _ t => trip_ok c' t) (@add_default_cdev X W p t0).
Proof.
  intros Hp Ht s Hc Hn Hs. unfold add_default_cdev.
  destruct (g_build c n _ t0 (fun _ t => t)
    (p_add_cdev c n p default_influence 0 0 TRIP_PT_INVALID_TARGET_STATE None 0 0 0 Hp) Ht s Hc Hn Hs)
    as [H1 (? & t & -> & H2)]. by split.
Qed.

Lemma g_add_named_cdevs c n names t0 : trip_ok c t0 ->
  gives_m c n (fun c' _ t => trip_ok c' t) (@add_named_cdevs X W names t0).
Proof.
  revert c n t0. induction names as [|name names IH]; intros c n t0 Ht; cbn [add_named_cdevs].
  { apply gives_ret. intros. by eapply trip_ok_mono. }
  eapply gives_then; [apply g_search_cdev|]. intros p c1 n1 Hc1 Hn1 Hp. cbn in Hp.
  apply (gives_then _ _ _ _ (fun c' _ t => trip_ok c' t)); [|intros; by apply IH].
  destruct p; [apply g_add_default_cdev; [done|by eapply trip_ok_mono, Ht]|].
  apply gives_ret. intros. eapply trip_ok_mono, Ht. lia.
Qed.
End trip_ptr.

#[export] Hint Resolve p_onm g_onm p_gett p_set_dependency p_trip_check p_trip_reset p_trip_cdev_add p_add_cdev
  p_add_cdev_index p_generic_trip new_trip_ok g_add_default_cdev g_add_named_cdevs : ptr.

(** * Zones *)

Section zone_ptr.
Context {X W : Type} {HK : Kernel W} {HM : CdevMethods X W}.
Context (TDRUNDIR TDCONFDIR : string) (depth : nat).
Abbreviation ZM := (State (zone * machine X W)).

Lemma p_on_machine {A} c n (m : State (machine X W) A) : steps (safe_m c n) m -> steps (safe_z c n) (on_machine m).
Proof.
  intros Hm [z s] Hc Hn [Hz Hs]. cbn in *. specialize (Hm s Hc Hn Hs). unfold on_machine.
  destruct (m s) as [a s']. destruct Hm as (H1 & H2 & H3). cbn in *. split; [done|split; [done|]].
  split; [by eapply zone_ok_mono|done].
Qed.

Lemma g_on_machine {A} c n Q (m : State (machine X W) A) : gives_m c n Q m -> gives_z c n Q (on_machine m).
Proof.
  intros Hm [z s] Hc Hn [Hz Hs]. cbn in *. destruct (Hm s Hc Hn Hs) as [Hsafe HQ]. unfold on_machine.
  destruct (m s) as [a s']. split; [|exact HQ]. destruct (Hsafe Hc Hn Hs) as (H1 & H2 & H3). cbn in *.
  split; [done|split; [done|]]. split; [by eapply zone_ok_mono|done].
Qed.

Lemma p_modz c n f :
  (forall c' n' z, (c <= c')%nat -> (n <= n')%nat -> zone_ok c' n' z -> zone_ok c' n' (f z)) ->
  steps (safe_z c n) (@modz X W f).
Proof. intros Hf [z s] Hc Hn [Hz Hs]. cbn in *. split; [done|split; [done|]]. split; [by apply Hf|done]. Qed.

(** The zone's pointers are left alone. *)
Lemma p_modz_same c n f :
  (forall z, sensors (f z) = sensors z /\ trip_points (f z) = trip_points z) -> steps (safe_z c n) (@modz X W f).
Proof. intros Hf. apply p_modz. intros c' n' z _ _ [H1 H2]. destruct (Hf z) as [E1 E2]. split; by rewrite ?E1, ?E2. Qed.

Lemma p_getz c n : steps (safe_z c n) (@getz X W).
Proof. apply steps_gets. typeclasses eauto. Qed.
Lemma g_getz c n : gives_z c n zone_ok (@getz X W).
Proof. apply gives_gets. intros [z s] [Hz _]. exact Hz. Qed.

Lemma p_on_trip {A} c n i (dflt : A) (m : State (trip_point * machine X W) A) :
  steps (safe_t c n) m -> steps (safe_z c n) (on_trip i dflt m).
Proof.
  intros Hm [z s] Hc Hn [[Hz1 Hz2] Hs]. cbn in *. unfold on_trip.
  destruct (trip_points z !! i) as [t|] eqn:E; [|done]. specialize (Hm (t, s) Hc Hn).
  destruct (m (t, s)) as [a [t' s']]. destruct Hm as (H1 & H2 & H3 & H4).
  { split; [|done]. by eapply Forall_lookup in Hz2. }
  cbn in *. split; [done|split; [done|]]. split; [|done].
  destruct (zone_ok_mono _ (n_cdevs s') _ (n_sensors s') z H1 H2 (conj Hz1 Hz2)) as [G1 G2].
  split; [done|]. by apply Forall_insert.
Qed.

Hint Resolve p_on_machine g_on_machine p_getz p_on_trip : ptr.
Hint Extern 1 (steps _ (modz _)) => by apply p_modz_same : ptr.

Lemma p_sensor_index c n i : steps (safe_z c n) (@sensor_index X W i).
Proof. unfold sensor_index. ptr_tac. Qed.
Hint Resolve p_sensor_index : ptr.

Lemma p_reset_trips c n i force : steps (safe_z c n) (@reset_trips X W _ _ i force).
Proof. induction i as [|i IH]; cbn [reset_trips]; ptr_tac. Qed.
Hint Resolve p_reset_trips : ptr.
Lemma p_check_trips c n k i id t pref : steps (safe_z c n) (@check_trips X W _ _ k i id t pref).
Proof. revert i. induction k as [|k IH]; intros i; cbn [check_trips]; unfold zone_reset; ptr_tac. Qed.
Hint Resolve p_check_trips : ptr.

Lemma p_temp_change c n id t pref : steps (safe_z c n) (@thermal_zone_temp_change X W _ _ id t pref).
Proof. unfold thermal_zone_temp_change. ptr_tac. Qed.
Hint Resolve p_temp_change : ptr.

Lemma p_update_zone_preference c n : steps (safe_z c n) (@update_zone_preference X W _ _ depth).
Proof. unfold update_zone_preference. ptr_tac. Qed.

Lemma p_read_one c n sn : steps (safe_z c n) (@read_one X W _ _ depth sn).
Proof. unfold read_one. ptr_tac. apply p_modz_same. intros z. by destruct (zone_temp z <? a). Qed.
Hint Resolve p_read_one : ptr.

Lemma p_read_zone_temp c n : steps (safe_z c n) (@read_zone_temp X W _ _ depth).
Proof. unfold read_zone_temp. ptr_tac. Qed.

(** ** Trip points of a zone *)

Lemma p_mod_trips c n f :
  (forall c' l, (c <= c')%nat -> Forall (trip_ok c') l -> Forall (trip_ok c') (f l)) ->
  steps (safe_z c n) (@modz X W (fun z => z <| trip_points := f (trip_points z) |>)).
Proof. intros Hf. apply p_modz. intros c' n' z Hc Hn [H1 H2]. split; [done|]. by apply Hf. Qed.

Lemma Forall_erase (P : trip_point -> Prop) p l : Forall P l -> Forall P (erase_first p l).
Proof. induction 1 as [|t l Ht Hl IH]; cbn; [done|]. destruct (p t); [done|by constructor]. Qed.

Lemma Forall_update_first (P : trip_point -> Prop) p f l :
  (forall t, P t -> P (f t)) -> Forall P l -> Forall P (update_first p f l).
Proof. intros Hf. induction 1 as [|t l Ht Hl IH]; cbn; [done|]. destruct (p t); constructor; auto. Qed.

Lemma p_poll_trip c n : steps (safe_z c n) (@sort_and_update_poll_trip X W _).
Proof.
  unfold sort_and_update_poll_trip. ptr_tac.
  - apply p_mod_trips. intros. by apply Forall_erase.
  - apply p_mod_trips. intros. by apply Forall_sort.
  - apply p_modz. intros c' n' z Hc Hn [H1 H2]. split; [done|]. apply Forall_app. split; [done|].
    constructor; [apply new_trip_ok|done].
Qed.
Hint Resolve p_poll_trip : ptr.

Lemma p_add_trip c n t force : trip_ok c t -> steps (safe_z c n) (@add_trip X W _ t force).
Proof.
  intros Ht. unfold add_trip. ptr_tac.
  apply p_mod_trips with (f := fun l => if negb (truthy force) && existsb (same_type t) l
    then update_first (same_type t) (fun _ => t) l else l ++ [t]).
  intros c' l Hc Hl. assert (trip_ok c' t) by by eapply trip_ok_mono.
  destruct (negb _ && _); [by apply Forall_update_first|]. apply Forall_app. auto.
Qed.

Lemma p_update_highest c n t : steps (safe_z c n) (@update_highest_trip_temp X W _ t).
Proof.
  unfold update_highest_trip_temp. eapply safe_then; [apply g_getz|]. intros z c1 n1 Hc Hn [_ Hz].
  destruct (trip_points z) as [|t0 l] eqn:E; [ptr_tac|]. rewrite <- E in *. clear E.
  apply steps_bind; [typeclasses eauto| |ptr_tac].
  apply p_mod_trips with (f := fun _ => rev (update_first (same_type t) (retemp t) (rev (trip_points z)))).
  intros c' _ Hc' _. rewrite <- Permutation_rev. apply Forall_update_first; [done|].
  rewrite <- Permutation_rev. eapply Forall_impl; [exact Hz|]. intros x. by apply trip_ok_mono.
Qed.

Lemma p_update_trip_temp c n t : steps (safe_z c n) (@update_trip_temp X W _ t).
Proof. unfold update_trip_temp. ptr_tac. apply p_mod_trips. intros. by apply Forall_update_first. Qed.

Lemma p_push_trip c n t : trip_ok c t -> steps (safe_z c n) (@push_trip X W t).
Proof.
  intros Ht. apply p_mod_trips with (f := fun l => l ++ [t]). intros c' l Hc Hl. apply Forall_app.
  split; [done|]. constructor; [by eapply trip_ok_mono|done].
Qed.

Lemma p_bind_sensor c n i : (i < n)%nat -> steps (safe_z c n) (@modz X W (bind_sensor i)).
Proof.
  intros Hi. apply p_modz. intros c' n' z Hc Hn [H1 H2]. unfold bind_sensor.
  destruct (existsb _ _); [done|]. split; [|done]. apply Forall_app. split; [done|].
  constructor; [lia|done].
Qed.
Hint Resolve p_add_trip p_update_highest p_update_trip_temp p_push_trip p_bind_sensor : ptr.

Lemma p_bind_cooling c n ty tt p i sp tv ts mm mn mx : (p < c)%nat ->
  steps (safe_z c n) (@bind_cooling_device X W ty tt p i sp tv ts mm mn mx).
Proof. intros Hp. unfold bind_cooling_device. ptr_tac. Qed.

Lemma p_zone_update c n bs rt rc :
  (forall c n, steps (safe_z c n) bs) -> (forall c n, steps (safe_z c n) rt) -> (forall c n, steps (safe_z c n) rc) ->
  steps (safe_z c n) (@zone_update X W _ TDRUNDIR bs rt rc).
Proof. intros H1 H2 H3. unfold zone_update. ptr_tac. Qed.

Lemma p_write_setting c n path v : steps (safe_z c n) (@write_setting X W _ path v).
Proof. unfold write_setting. ptr_tac. Qed.
Hint Resolve p_write_setting : ptr.
Lemma p_update_psv c n t : steps (safe_z c n) (@update_psv_temperature X W _ TDRUNDIR t).
Proof. unfold update_psv_temperature. ptr_tac. Qed.
Lemma p_update_max c n t : steps (safe_z c n) (@update_max_temperature X W _ TDRUNDIR t).
Proof. unfold update_max_temperature. ptr_tac. Qed.

Lemma p_set_active c n created : steps (safe_z c n) (@set_zone_active X W created).
Proof. unfold set_zone_active. ptr_tac. Qed.
Lemma p_set_inactive c n : steps (safe_z c n) (@set_zone_inactive X W).
Proof. unfold set_zone_inactive. ptr_tac. Qed.
End zone_ptr.

#[export] Hint Resolve p_on_machine g_on_machine p_getz p_on_trip p_sensor_index p_temp_change
  p_update_zone_preference p_read_zone_temp p_poll_trip p_add_trip p_update_highest p_update_trip_temp p_push_trip
  p_bind_sensor p_bind_cooling p_zone_update p_update_psv p_update_max p_set_active p_set_inactive : ptr.
#[export] Hint Extern 1 (steps _ (modz _)) => by apply p_modz_same : ptr.
