(* ===== verification/PointersEngine.v ===== *)
(** Pointers stay valid in the kinds of zones (ZoneKinds.v), in the engine's
    thread (Engine.v) and under the requests of users (EngineUser.v).

    An engine's pointers are valid when those of its zones and sensors are. *)
From stdpp Require Import base gmap strings list.
From Stdlib Require Import ZArith Lia.
From Stdlib Require String.
From S2P Require Import Prelude CString SysFs CFloat Pid Cdev PowerMeter Machine Preference TripPoint Xml Parse Zone ZoneKinds Engine EngineUser Pointers.

Open Scope string_scope.
Open Scope list_scope.
Open Scope Z_scope.

(** * Kinds of zones *)

Section kinds_ptr.
Context {X W D : Type} {HK : Kernel W} {HM : CdevMethods X W} {HL : LibXml W D}.
Context (TDRUNDIR TDCONFDIR : string).
Abbreviation ZM := (State (zone * machine X W)).

(** A call through an accessor of the zone changes the accessor and the world. *)
Lemma safe_z_same c n (z z' : zone) (s s' : machine X W) :
  sensors z' = sensors z -> trip_points z' = trip_points z ->
  m_cdevs s' = m_cdevs s -> m_sensors s' = m_sensors s -> safe_z c n (z, s) (z', s').
Proof.
  intros E1 E2 E3 E4 Hc Hn [[H1 H2] H3]. unfold machine_ok, n_cdevs, n_sensors in *; cbn in *.
  rewrite E3, E4. split; [done|split; [done|]]. unfold zm_ok, zone_ok, machine_ok, n_cdevs, n_sensors; cbn.
  by rewrite E1, E2, E3, E4.
Qed.

Lemma p_on_zone_fs {A} c n (m : State (csys_fs * W) A) : steps (safe_z c n) (on_zone_fs (X := X) m).
Proof.
  intros [z s]. unfold on_zone_fs. destruct (m (zone_sysfs z, m_w s)) as [a [fs w]]. by apply safe_z_same.
Qed.
Lemma p_on_dts_fs {A} c n (m : State (csys_fs * W) A) : steps (safe_z c n) (on_dts_fs (X := X) m).
Proof.
  intros [z s]. unfold on_dts_fs. destruct (m (dts_sysfs (cpu_of z), m_w s)) as [a [fs w]]. by apply safe_z_same.
Qed.
Lemma p_mod_sysfs c n f : steps (safe_z c n) (@mod_sysfs X W f).
Proof. by apply p_modz_same. Qed.
Lemma p_mod_cpu c n f : steps (safe_z c n) (@mod_cpu X W f).
Proof. by apply p_modz_same. Qed.
Hint Resolve p_on_zone_fs p_on_dts_fs p_mod_sysfs p_mod_cpu : ptr.

Lemma p_bind_named c n name : steps (safe_z c n) (@bind_named X W name).
Proof. unfold bind_named. ptr_tac. Qed.
Hint Resolve p_bind_named : ptr.

Lemma p_set_async_sensor c n i b : steps (safe_m c n) (@set_sensor X W i (fun x => x <| async_capable := b |>)).
Proof. by apply p_set_sensor. Qed.
Hint Resolve p_set_async_sensor : ptr.

Lemma p_restore_trips c n i l : steps (safe_z c n) (@restore_trips X W _ i l).
Proof. revert i. induction l as [|v l IH]; intros i; cbn [restore_trips]; ptr_tac. Qed.

(** ** cthd_sysfs_zone *)

Lemma p_sysfs_bind c n : steps (safe_z c n) (@sysfs_bind_sensors X W).
Proof. unfold sysfs_bind_sensors. ptr_tac. Qed.

Lemma p_take_trip c n ty md t h : steps (safe_z c n) (@take_trip X W ty md t h).
Proof. unfold take_trip. ptr_tac. Qed.
Hint Resolve p_take_trip : ptr.

Lemma p_sysfs_read_trip c n i : steps (safe_z c n) (@sysfs_read_trip X W _ i).
Proof. unfold sysfs_read_trip, read_optional. ptr_tac. Qed.
Hint Resolve p_sysfs_read_trip : ptr.
Lemma p_sysfs_trips c n k i : steps (safe_z c n) (@sysfs_trips X W _ k i).
Proof. revert i. induction k as [|k IH]; intros i; cbn [sysfs_trips]; ptr_tac. Qed.
Hint Resolve p_sysfs_trips : ptr.
Lemma p_sysfs_read_trips c n : steps (safe_z c n) (@sysfs_read_trip_points X W _).
Proof. unfold sysfs_read_trip_points. ptr_tac. Qed.

Lemma p_sysfs_read_cdev c n i : steps (safe_z c n) (@sysfs_read_cdev X W _ i).
Proof. unfold sysfs_read_cdev, cdev_link. ptr_tac. Qed.
Hint Resolve p_sysfs_read_cdev : ptr.
Lemma p_sysfs_cdevs c n k i : steps (safe_z c n) (@sysfs_cdevs X W _ k i).
Proof. revert i. induction k as [|k IH]; intros i; cbn [sysfs_cdevs]; ptr_tac. Qed.
Hint Resolve p_sysfs_bind p_sysfs_read_trips p_sysfs_cdevs : ptr.

Lemma p_sysfs_update c n : steps (safe_z c n) (@sysfs_zone_update X W _ TDRUNDIR).
Proof. unfold sysfs_zone_update, sysfs_read_cdev_trip_points. apply p_zone_update; ptr_tac. Qed.

(** ** cthd_zone_cpu *)

Lemma p_cpu_init_sensor c n i t : steps (safe_z c n) (@cpu_init_sensor X W _ i t).
Proof. unfold cpu_init_sensor. ptr_tac. Qed.
Hint Resolve p_cpu_init_sensor : ptr.
Lemma p_cpu_init_sensors c n k i t f : steps (safe_z c n) (@cpu_init_sensors X W _ k i t f).
Proof. revert i t f. induction k as [|k IH]; intros i t f; cbn [cpu_init_sensors]; ptr_tac. Qed.
Hint Resolve p_cpu_init_sensors : ptr.

Lemma p_bind_cores c n k i b : steps (safe_z c n) (@bind_cores X W k i b).
Proof. revert i b. induction k as [|k IH]; intros i b; cbn [bind_cores]; ptr_tac. Qed.
Hint Resolve p_bind_cores : ptr.
Lemma p_cpu_bind c n rt : steps (safe_z c n) (@cpu_bind_sensors X W _ rt).
Proof. unfold cpu_bind_sensors, cpu_init. ptr_tac. Qed.

Lemma g_cpu_trip c n ty t names : gives_z c n (fun c' _ t => trip_ok c' t) (@cpu_trip X W ty t names).
Proof.
  unfold cpu_trip. eapply gives_then; [apply gives_steps, p_getz|]. intros z c' n' Hc Hn _. eauto with ptr.
Qed.
Hint Resolve g_cpu_trip : ptr.

Lemma p_push_cpu_trip c n t : trip_ok c t -> steps (safe_z c n) (@push_cpu_trip X W t).
Proof. intros Ht. unfold push_cpu_trip. ptr_tac. Qed.
Hint Resolve p_push_cpu_trip : ptr.

Lemma p_cpu_read_trips c n : steps (safe_z c n) (@cpu_read_trip_points X W D _ _ TDCONFDIR).
Proof. unfold cpu_read_trip_points, parse_cdev_order. ptr_tac. Qed.
Hint Resolve p_cpu_bind p_cpu_read_trips : ptr.

Lemma p_cpu_update c n rt : steps (safe_z c n) (@cpu_zone_update X W D _ _ TDRUNDIR TDCONFDIR rt).
Proof. unfold cpu_zone_update. apply p_zone_update; ptr_tac. Qed.

(** ** Zones of the configuration and of the package power *)

(** A trip under construction becomes a trip of the zone. *)
Lemma g_build_zone {A B} c n (m : State (trip_point * machine X W) A) t0 (f : A -> trip_point -> B) :
  steps (safe_t c n) m -> trip_ok c t0 ->
  gives_z c n (fun c' _ b => exists a t, b = f a t /\ trip_ok c' t)
    (on_machine (fun s => let '(a, (t, s')) := m (t0, s) in (f a t, s'))).
Proof. intros. by apply g_on_machine, g_build. Qed.

Lemma p_generic_bind_loop c n l b : steps (safe_z c n) (@generic_bind_loop X W l b).
Proof. revert b. induction l as [|t l IH]; intros b; cbn [generic_bind_loop]; ptr_tac. Qed.
Hint Resolve p_generic_bind_loop : ptr.

Lemma p_generic_trips c n l k : steps (safe_z c n) (@generic_trips X W l k).
Proof.
  revert c n k. induction l as [|t l IH]; intros c n k; cbn [generic_trips]; [ptr_tac|].
  apply steps_if; [ptr_tac|]. eapply safe_then; [eauto with ptr|]. intros [p|] c1 n1 Hc1 Hn1 Hp; [|ptr_tac].
  apply steps_bind; [typeclasses eauto|ptr_tac|]. intros z.
  apply steps_bind; [typeclasses eauto|ptr_tac|]. intros id.
  eapply safe_then; [apply (g_build_zone _ _ _ _ (fun b t => (b, t))); eauto with ptr|].
  intros ? c2 n2 Hc2 Hn2 (b & t' & -> & Ht). cbn. ptr_tac.
Qed.
Hint Resolve p_generic_trips : ptr.

Lemma p_generic_update c n conf : steps (safe_z c n) (@generic_zone_update X W _ TDRUNDIR conf).
Proof.
  unfold generic_zone_update, generic_bind_sensors, generic_read_trip_points. apply p_zone_update; ptr_tac.
Qed.

Lemma p_rapl_power_update c n : steps (safe_z c n) (@rapl_power_zone_update X W _ TDRUNDIR).
Proof.
  unfold rapl_power_zone_update, rapl_power_bind_sensors. apply p_zone_update; [ptr_tac| |ptr_tac].
  intros c1 n1. unfold rapl_power_read_trip_points. eapply safe_then; [eauto with ptr|].
  intros [p|] c2 n2 Hc2 Hn2 Hp; [|ptr_tac]. apply steps_bind; [typeclasses eauto|ptr_tac|]. intros z.
  apply (safe_then _ _ _ _ (fun c' _ t => trip_ok c' t)); [|ptr_tac]. apply g_on_machine.
  intros s Hc Hn Hs. destruct (g_build c2 n2 _ (new_trip 0 PASSIVE 100000 0 (z_index z) DEFAULT_SENSOR_ID PARALLEL) (fun _ t => t)
    (p_add_cdev c2 n2 p default_influence (m_poll_interval_sec s) 0 0 None 0 0 0 Hp) (new_trip_ok _ _ _ _ _ _ _ _) s Hc Hn Hs)
    as [Hsafe (? & t & -> & Ht)]. by split.
Qed.

(** Destroying a zone writes files and nothing else. *)
Lemma restore_trips_vectors i l :
  preserves (fun a : zone * machine X W => (m_cdevs (snd a), m_sensors (snd a))) (restore_trips i l).
Proof.
  assert (Hfs : forall A (m : State (csys_fs * W) A),
    preserves (fun a : zone * machine X W => (m_cdevs (snd a), m_sensors (snd a))) (on_zone_fs m)).
  { intros A m [z s]. unfold on_zone_fs. by destruct (m (zone_sysfs z, m_w s)) as [a [fs w]]. }
  revert i. induction l as [|v l IH]; intros i; cbn [restore_trips]; [by intros s|].
  apply preserves_bind; [by intros s|intros z]. apply preserves_bind; [|intros _; apply IH].
  apply preserves_if; [|by intros s]. apply preserves_bind; [apply Hfs|intros ex].
  apply preserves_if; [|by intros s]. apply preserves_bind; [apply Hfs|by intros ? s].
Qed.

Lemma p_destroy_zone c n z : steps (safe_m c n) (@destroy_zone X W _ z).
Proof.
  intros s. unfold destroy_zone.
  assert (Hr : forall r, r = match z_class z with
      | SysfsZone x => restore_trips 0 (initial_trip_values x) (z, s)
      | _ => (tt, (z, s)) end -> (m_cdevs (snd (snd r)), m_sensors (snd (snd r))) = (m_cdevs s, m_sensors s)).
  { intros r ->. destruct (z_class z) as [|x|x]; [done| |done]. apply (restore_trips_vectors 0 _ (z, s)). }
  destruct (match z_class z with SysfsZone _ => _ | _ => _ end) as [u [z1 s1]].
  injection (Hr _ eq_refl) as E1 E2. apply safe_same; [|done]. unfold n_cdevs. cbn in *. by rewrite E1.
Qed.
End kinds_ptr.

#[export] Hint Resolve p_on_zone_fs p_set_async_sensor p_bind_named p_sysfs_update p_cpu_update p_generic_update
  p_rapl_power_update p_destroy_zone : ptr.

(** * The engine *)

Definition engine_ok {X W} (e : engine X W) : Prop :=
  Forall (zone_ok (n_cdevs (mach e)) (n_sensors (mach e))) (zones e) /\ machine_ok (mach e).

Abbreviation safe_e := (safe mach engine_ok).
Abbreviation gives_e := (gives mach engine_ok).

(** What the engine's thread asks of the member functions a subclass defines. *)
Class EngineSafe (X W : Type) `{EngineMethods X W} := {
  safe_read_zones : forall c n, steps (safe_e c n) read_thermal_zones;
  safe_update_state : forall c n, steps (safe_e c n) update_engine_state;
  safe_workarounds : forall c n, steps (safe_e c n) workarounds;
}.

Section engine_ptr.
Context {X W : Type} {HK : Kernel W} {HM : CdevMethods X W}.
Abbreviation EM := (State (engine X W)).

Lemma zones_ok_mono c c' n n' (l : list zone) :
  (c <= c')%nat -> (n <= n')%nat -> Forall (zone_ok c n) l -> Forall (zone_ok c' n') l.
Proof. intros Hc Hn Hl. eapply Forall_impl; [exact Hl|]. intros z. by apply zone_ok_mono. Qed.

(** A machine that lost nothing keeps the engine's zones valid. *)
Lemma safe_e_mach c n (e : engine X W) s' :
  safe_m c n (mach e) s' -> safe_e c n e (e <| mach := s' |>).
Proof.
  intros Hm Hc Hn [Hz Hs]. destruct (Hm Hc Hn Hs) as (H1 & H2 & H3). cbn.
  split; [done|split; [done|]]. split; [by eapply zones_ok_mono|done].
Qed.

Lemma p_on_mach {A} c n (m : State (machine X W) A) : steps (safe_m c n) m -> steps (safe_e c n) (on_mach m).
Proof.
  intros Hm e. unfold on_mach. specialize (Hm (mach e)). destruct (m (mach e)). by apply safe_e_mach.
Qed.

Lemma g_on_mach {A} c n Q (m : State (machine X W) A) : gives_m c n Q m -> gives_e c n Q (on_mach m).
Proof.
  intros Hm e Hc Hn [Hz Hs]. destruct (Hm (mach e) Hc Hn Hs) as [Hsafe HQ]. unfold on_mach.
  destruct (m (mach e)) as [a s']. split; [|exact HQ]. by apply safe_e_mach.
Qed.

Lemma p_on_w {A} c n (m : State W A) : steps (safe_e c n) (on_w (X := X) m).
Proof. apply p_on_mach, p_on_world. Qed.

Lemma p_mode c n f : (forall e : engine X W, zones (f e) = zones e /\ mach (f e) = mach e) -> steps (safe_e c n) (mode f).
Proof.
  intros Hf e Hc Hn He. cbn. destruct (Hf e) as [E1 E2]. unfold engine_ok in *. rewrite E1, E2. done.
Qed.

Lemma p_on_zone {A} c n i (dflt : A) (m : State (zone * machine X W) A) :
  steps (safe_z c n) m -> steps (safe_e c n) (on_zone i dflt m).
Proof.
  intros Hm e Hc Hn [Hz Hs]. unfold on_zone. destruct (zones e !! i) as [z|] eqn:E; [|done].
  specialize (Hm (z, mach e) Hc Hn). destruct (m (z, mach e)) as [a [z' s']]. destruct Hm as (H1 & H2 & H3 & H4).
  { split; [by eapply Forall_lookup in Hz|done]. }
  cbn in *. split; [done|split; [done|]]. split; [|done]. apply Forall_insert; [by eapply zones_ok_mono|done].
Qed.

Lemma p_for_zones c n (m : State (zone * machine X W) unit) :
  (forall c n, steps (safe_z c n) m) -> steps (safe_e c n) (for_zones m).
Proof. intros Hm. unfold for_zones. ptr_tac. by apply p_on_zone. Qed.

Lemma p_on_pref {A} c n (m : State (preference_t * W) A) : steps (safe_e c n) (on_pref (X := X) m).
Proof.
  intros e Hc Hn He. unfold on_pref. destruct (m (thd_pref e, m_w (mach e))) as [a [p w]].
  split; [done|split; [done|exact He]].
Qed.

Lemma g_get c n : gives_e c n (fun c' n' e => engine_ok e /\ c' = n_cdevs (mach e) /\ n' = n_sensors (mach e))
  (get : EM (engine X W)).
Proof. intros e Hc Hn He. split; [reflexivity|done]. Qed.

(** A zone that was built on the side joins. *)
Lemma p_join {A B} c n (m : State (zone * machine X W) A) z (f : engine X W -> engine X W) (b : B) :
  steps (safe_z c n) m -> zone_ok c n z ->
  (forall e, zones (f e) = zones e /\ mach (f e) = mach e) ->
  steps (safe_e c n) (fun e : engine X W => let '(a, (z', s')) := m (z, mach e) in
    (b, f (e <| mach := s' |> <| zones := zones e ++ [z'] |>))).
Proof.
  intros Hm Hz Hf e Hc Hn [He Hs]. specialize (Hm (z, mach e) Hc Hn).
  destruct (m (z, mach e)) as [a [z' s']]. destruct Hm as (H1 & H2 & H3 & H4).
  { split; [by eapply zone_ok_mono|done]. }
  cbn [fst snd] in *. destruct (Hf (e <| mach := s' |> <| zones := zones e ++ [z'] |>)) as [E1 E2].
  unfold engine_ok. rewrite E1, E2. cbn. split; [done|split; [done|]]. split; [|done].
  apply Forall_app. split; [by eapply zones_ok_mono|]. by constructor.
Qed.

Hint Resolve p_on_mach g_on_mach p_on_w p_on_zone p_for_zones p_on_pref : ptr.
Hint Extern 1 (steps _ (mode _)) => by apply p_mode : ptr.

(** ** The kernel's thermal control *)

Lemma p_takeover c n : steps (safe_e c n) (@takeover_thermal_control X W _).
Proof. unfold takeover_thermal_control. ptr_tac. Qed.
Lemma p_giveup c n : steps (safe_e c n) (@giveup_thermal_control X W _).
Proof. unfold giveup_thermal_control. ptr_tac. Qed.
Hint Resolve p_takeover p_giveup : ptr.

(** ** The thread *)

Section thread_ptr.
Context {HE : EngineMethods X W} {HS : EngineSafe X W} (TDRUNDIR : string) (depth : nat).

Lemma p_pref_change c n : steps (safe_e c n) (@process_pref_change X W _ _ TDRUNDIR depth).
Proof.
  unfold process_pref_change. ptr_tac.
  intros e0 Hc Hn He. split; [done|split; [done|exact He]].
Qed.

Lemma p_zone_change c n : steps (safe_e c n) (@thermal_zone_change X W _ _ depth).
Proof. unfold thermal_zone_change. apply p_for_zones. ptr_tac. Qed.

Lemma p_poll_mask c n b i : steps (safe_e c n) (mode (@poll_enable_disable X W b i)).
Proof. apply p_mode. intros e. unfold poll_enable_disable. destruct b; [done|]. by destruct (truthy _). Qed.
Lemma p_fast_mask c n b i : steps (safe_e c n) (mode (@fast_poll_enable_disable X W b i)).
Proof.
  apply p_mode. intros e. unfold fast_poll_enable_disable. destruct b; [by destruct (truthy _)|].
  destruct (truthy _); [done|]. by destruct (truthy _).
Qed.

Lemma p_zones_emptied c n : steps (safe_e c n) (mode (fun e : engine X W => e <| zones := [] |>)).
Proof. intros e Hc Hn [_ Hs]. split; [done|split; [done|]]. by split; [constructor|]. Qed.

Lemma p_reload c n : steps (safe_e c n) (@thd_engine_reload_zones X W _ _).
Proof. unfold thd_engine_reload_zones. ptr_tac; [apply p_zones_emptied|apply safe_read_zones]. Qed.
Hint Resolve p_pref_change p_zone_change p_poll_mask p_fast_mask p_reload : ptr.

Lemma p_proc_message c n msg : steps (safe_e c n) (@proc_message X W _ _ _ TDRUNDIR depth msg).
Proof. unfold proc_message. destruct msg; ptr_tac. Qed.
Hint Resolve p_proc_message : ptr.

Lemma p_read_pipe c n : steps (safe_e c n) (@read_pipe X W).
Proof.
  intros e Hc Hn He. unfold read_pipe. destruct (m_pipe (mach e)); [done|].
  split; [done|split; [done|exact He]].
Qed.
Hint Resolve p_read_pipe : ptr.

Lemma p_iteration c n pi ps p : steps (safe_e c n) (@iteration X W _ _ _ TDRUNDIR depth pi ps p).
Proof.
  unfold iteration, measure, kobj_event, wakeup_event, update_event. ptr_tac;
    first [apply p_for_zones; intros; apply p_read_zone_temp|apply safe_update_state|apply safe_workarounds].
Qed.
End thread_ptr.
End engine_ptr.

#[export] Hint Resolve p_on_mach g_on_mach p_on_w p_on_zone p_for_zones p_on_pref p_takeover p_giveup
  p_iteration : ptr.
#[export] Hint Extern 1 (steps _ (mode _)) => by apply p_mode : ptr.

(** * Requests *)

Section user_ptr.
Context {X W : Type} {HK : Kernel W} {HM : CdevMethods X W} (TDRUNDIR : string) (depth : nat).
Abbreviation EM := (State (engine X W)).

(** ** An object tried and dropped *)

(** [sensor_update] changes the sensor it is asked for. *)
Lemma sensor_update_prefix i :
  preserves (fun s : machine X W => (m_cdevs s, take i (m_sensors s))) (sensor_update i).
Proof.
  assert (Hfs : forall A d (m : State (csys_fs * W) A),
    preserves (fun s : machine X W => (m_cdevs s, take i (m_sensors s))) (on_sensor_fs i d m)).
  { intros A d m s. unfold on_sensor_fs. destruct (m_sensors s !! i) as [sn|]; [|done].
    destruct (m (sensor_sysfs sn, m_w s)) as [a [fs w]]. cbn. by rewrite take_insert_ge. }
  unfold sensor_update. apply preserves_bind; [by intros s|intros sn].
  apply preserves_if; [|apply preserves_if; [|by intros s]].
  - apply preserves_bind; [apply Hfs|intros ex]. apply preserves_if; [by intros s|].
    apply preserves_bind; [apply Hfs|intros [r t]]. apply preserves_bind.
    + intros s. cbn. by rewrite take_alter_ge.
    + intros _. apply preserves_bind; [apply Hfs|by intros ? s].
  - apply preserves_bind; [apply Hfs|by intros ? s].
Qed.

(** A sensor without links is pushed. *)
Lemma machine_ok_push (s : machine X W) sn :
  sensor_ok (n_sensors s) sn -> machine_ok s -> machine_ok (s <| m_sensors := m_sensors s ++ [sn] |>).
Proof.
  intros Hsn Hs. unfold machine_ok, n_sensors in *. cbn. rewrite length_app. cbn.
  assert (forall x, sensor_ok (length (m_sensors s)) x -> sensor_ok (length (m_sensors s) + 1) x).
  { intros x. apply sensor_ok_mono. lia. }
  apply Forall_app. split; [eapply Forall_impl; [exact Hs|done]|]. constructor; auto.
Qed.

Lemma p_push_sensor c n sn :
  (forall n', (n <= n')%nat -> sensor_ok n' sn) ->
  steps (safe_m c n) (modify (fun m : machine X W => m <| m_sensors := m_sensors m ++ [sn] |>)).
Proof.
  intros Hsn s Hc Hn Hs. split; [done|split; [unfold here, n_sensors; cbn; rewrite length_app; lia|]].
  apply machine_ok_push; [by apply Hsn|done].
Qed.

Lemma p_try_sensor c n sn : s_virtual sn = None -> steps (safe_e c n) (@try_sensor X W _ sn).
Proof.
  intros Hv e. unfold try_sensor, bind at 1, on_mach at 1, modify. unfold bind at 1, get.
  set (s1 := (mach e) <| m_sensors := m_sensors (mach e) ++ [sn] |>). change (mach (e <| mach := s1 |>)) with s1.
  set (i := pred (length (m_sensors s1))). cbv zeta.
  assert (Ei : i = n_sensors (mach e)) by (unfold i, s1, n_sensors; cbn; rewrite length_app; cbn; lia).
  assert (H0 : safe_m c n (mach e) s1).
  { apply p_push_sensor. intros. unfold sensor_ok. by rewrite Hv. }
  pose proof (sensor_update_prefix i s1) as Hpre. pose proof (p_sensor_update c n i s1) as Hup.
  unfold bind at 1, on_mach at 1. change (mach (e <| mach := s1 |>)) with s1.
  destruct (sensor_update i s1) as [r s2]. cbn [fst snd] in Hpre, Hup. destruct (r =? THD_SUCCESS).
  { apply (safe_e_mach c n e s2). by transitivity s1. }
  apply (safe_e_mach c n e (s2 <| m_w := _ |> <| m_sensors := take i (m_sensors s2) |>)). apply safe_same.
  - unfold n_cdevs. cbn. by injection Hpre as ->.
  - cbn. injection Hpre as _ ->. unfold s1; cbn. rewrite Ei. apply take_app_length.
Qed.

Lemma p_try_cdev c n d : steps (safe_e c n) (@try_cdev X W _ _ d).
Proof.
  intros e. unfold try_cdev, bind at 1, on_mach at 1, modify. unfold bind at 1, get.
  set (s1 := (mach e) <| m_cdevs := m_cdevs (mach e) ++ [d] |>). change (mach (e <| mach := s1 |>)) with s1.
  set (i := pred (length (m_cdevs s1))). cbv zeta.
  assert (Ei : i = n_cdevs (mach e)) by (unfold i, s1, n_cdevs; cbn; rewrite length_app; cbn; lia).
  assert (H0 : m_sensors s1 = m_sensors (mach e)) by done.
  assert (H1 : n_cdevs s1 = S (n_cdevs (mach e))) by (unfold s1, n_cdevs; cbn; rewrite length_app; cbn; lia).
  unfold bind at 1, on_mach at 1. change (mach (e <| mach := s1 |>)) with s1.
  assert (H2 : let s2 := snd (on_cdev i THD_ERROR m_update s1) in m_sensors s2 = m_sensors s1 /\ n_cdevs s2 = n_cdevs s1).
  { unfold on_cdev. destruct (m_cdevs s1 !! i) as [d1|]; [|done].
    destruct (m_update (d1, m_w s1)) as [r [d2 w]]. split; [done|]. apply length_insert. }
  destruct (on_cdev i THD_ERROR m_update s1) as [r s2]. cbn [fst snd] in H2. destruct H2 as [H2 H3].
  destruct (r =? THD_SUCCESS).
  - apply (safe_e_mach c n e s2). intros Hc Hn Hs. unfold machine_ok, n_sensors, here in *.
    rewrite H2, H0. split; [lia|done].
  - apply (safe_e_mach c n e (s2 <| m_w := _ |> <| m_cdevs := take i (m_cdevs s2) |>)). apply safe_same.
    + unfold n_cdevs in *. cbn. rewrite length_take. lia.
    + cbn. by rewrite H2.
Qed.
Hint Resolve p_try_cdev : ptr.
Hint Extern 1 (steps _ (try_sensor _)) => by apply p_try_sensor : ptr.

(** ** Sensors and devices *)

Lemma sensor_named_below name (s : machine X W) : below (n_sensors s) (sensor_named name s).
Proof. apply find_below. Qed.
Lemma match_cdev_below name (s : machine X W) : below (n_cdevs s) (match_cdev name s).
Proof. apply find_below. Qed.
Lemma g_match_cdev c n name : gives_m c n (fun c' _ r => below c' r) (gets (@match_cdev X W name)).
Proof. apply gives_gets. intros s _. apply match_cdev_below. Qed.

Lemma p_update_path c n i path : steps (safe_m c n) (@set_sensor X W i (sensor_update_path path)).
Proof. apply p_set_sensor. intros n' x _. unfold sensor_update_path. by destruct (starts_with path "/sys/"). Qed.
Lemma p_bump c n : steps (safe_e c n) (@bump_sensor_index X W).
Proof. by apply p_mode. Qed.
Hint Resolve p_update_path p_bump : ptr.

Lemma p_user_add_sensor c n name path : steps (safe_e c n) (@user_add_sensor X W _ name path).
Proof. unfold user_add_sensor. ptr_tac. Qed.

Lemma new_virtual_ok n i ty link p u a b : below n p -> sensor_ok n (new_virtual i ty link p u a b).
Proof. intros Hp. unfold sensor_ok, new_virtual. cbn. destruct (String.eqb link ""); [done|]. by constructor. Qed.

Lemma p_user_add_virtual c n name dep a b : steps (safe_e c n) (@user_add_virtual_sensor X W name dep a b).
Proof.
  unfold user_add_virtual_sensor. ptr_tac. apply p_on_mach. intros s Hc Hn Hs.
  split; [done|split; [unfold here, n_sensors; cbn; rewrite length_app; lia|]].
  apply machine_ok_push; [|done]. apply new_virtual_ok, search_sensor_below.
Qed.

Lemma p_sensor_entries c n l k : steps (safe_e c n) (@sensor_entries X W _ l k).
Proof. revert k. induction l as [|x l IH]; intros k; cbn [sensor_entries]; ptr_tac. Qed.
Hint Resolve p_sensor_entries : ptr.
Lemma p_default_sensors c n : steps (safe_e c n) (@thd_read_default_thermal_sensors X W _).
Proof. unfold thd_read_default_thermal_sensors. ptr_tac. Qed.

Lemma p_set_range c n i a b st : steps (safe_e c n) (@set_range_of X W i a b st).
Proof. apply p_on_mach. intros s. apply safe_same; [|done]. apply length_alter. Qed.
Hint Resolve p_set_range : ptr.

Lemma p_user_add_cdev c n x name path a b st : steps (safe_e c n) (@user_add_cdev X W _ _ x name path a b st).
Proof. unfold user_add_cdev. ptr_tac. Qed.

Lemma p_cdev_entries c n x l k : steps (safe_e c n) (@cdev_entries X W _ _ x l k).
Proof. revert k. induction l as [|y l IH]; intros k; cbn [cdev_entries]; ptr_tac. Qed.
Hint Resolve p_cdev_entries : ptr.
Lemma p_default_cdevs c n x : steps (safe_e c n) (@thd_read_default_cooling_devices X W _ _ x).
Proof. unfold thd_read_default_cooling_devices. ptr_tac. Qed.

(** ** Zones *)

Lemma p_dynamic_update c n temp ty sn cd : steps (safe_z c n) (@dynamic_zone_update X W _ TDRUNDIR temp ty sn cd).
Proof.
  unfold dynamic_zone_update. apply p_zone_update; [unfold dynamic_bind_sensors; ptr_tac| |ptr_tac].
  intros c1 n1. unfold dynamic_read_trip_points. eapply safe_then; [eauto with ptr|].
  intros [p|] c2 n2 Hc2 Hn2 Hp; [|ptr_tac]. apply steps_bind; [typeclasses eauto|ptr_tac|]. intros z.
  apply steps_bind; [typeclasses eauto|ptr_tac|]. intros id. eapply safe_then; [eauto with ptr|].
  intros [q|] c3 n3 Hc3 Hn3 Hq; [|ptr_tac]. cbn [below from_option] in Hq.
  eapply safe_then; [apply (g_build_zone _ _ _ _ (fun _ t => t)); eauto with ptr|].
  intros ? c4 n4 Hc4 Hn4 (? & t & -> & Ht). apply steps_bind; [typeclasses eauto| |ptr_tac].
  apply p_modz. intros c' n' z' Hc' Hn' [G1 G2]. split; [done|]. cbn. apply Forall_app. split; [done|].
  constructor; [by eapply trip_ok_mono, Ht|done].
Qed.

(** A zone is built on the side, updated, and joins after a last step when the
    update succeeded; what becomes of it otherwise leaves the vectors alone. *)
Lemma p_try {A B} c n (make : State (machine X W) zone) (update : State (zone * machine X W) Z)
    (last : engine X W -> State (zone * machine X W) A) (f : engine X W -> engine X W) (drop : zone -> State (machine X W) unit)
    (yes no : B) :
  gives_m c n zone_ok make -> (forall c n, steps (safe_z c n) update) -> (forall e c n, steps (safe_z c n) (last e)) ->
  (forall e, zones (f e) = zones e /\ mach (f e) = mach e) -> (forall z c n, steps (safe_m c n) (drop z)) ->
  steps (safe_e c n) (fun e : engine X W =>
    let '(z, s) := make (mach e) in
    let '(r, (z, s)) := update (z, s) in
    if r =? THD_SUCCESS then
      let '(_, (z, s)) := last e (z, s) in (yes, f (e <| mach := s |> <| zones := zones e ++ [z] |>))
    else let '(_, s) := drop z s in (no, e <| mach := s |>)).
Proof.
  intros Hmake Hup Hlast Hf Hdrop e Hc Hn [Hz Hs]. destruct (Hmake (mach e) Hc Hn Hs) as [Hm Hz0].
  destruct (make (mach e)) as [z0 s0]. cbn [fst snd here] in *. destruct (Hm Hc Hn Hs) as (H1 & H2 & H3).
  specialize (Hup _ _ (z0, s0) (le_n _) (le_n _) (conj Hz0 H3)). destruct (update (z0, s0)) as [r [z1 s1]].
  destruct Hup as (H4 & H5 & H6 & H7). cbn [fst snd here] in *.
  destruct (r =? THD_SUCCESS).
  - specialize (Hlast e _ _ (z1, s1) (le_n _) (le_n _) (conj H6 H7)). destruct (last e (z1, s1)) as [a [z2 s2]].
    destruct Hlast as (H8 & H9 & H10 & H11). cbn [fst snd] in *. unfold here in *.
    destruct (Hf (e <| mach := s2 |> <| zones := zones e ++ [z2] |>)) as [E1 E2].
    unfold engine_ok. rewrite E1, E2. cbn. split; [lia|split; [lia|]]. split; [|done].
    apply Forall_app. split; [eapply zones_ok_mono, Hz; lia|by constructor].
  - specialize (Hdrop z1 _ _ s1 (le_n _) (le_n _) H7). destruct (drop z1 s1) as [u s2].
    destruct Hdrop as (H8 & H9 & H10). unfold here in *. cbn in *. split; [lia|split; [lia|]].
    split; [eapply zones_ok_mono, Hz; cbn; lia|done].
Qed.

Lemma new_zone_ok c n i path rel : zone_ok c n (new_zone i path rel).
Proof. by repeat constructor. Qed.

(** A zone without pointers, built at once. *)
Lemma g_plain_zone c n (z : zone) : (forall c n, zone_ok c n z) -> gives_m c n zone_ok (ret (S := machine X W) z).
Proof. intros Hz. by apply gives_ret. Qed.

Lemma g_new_sysfs_zone c n i path : gives_m c n zone_ok (@new_sysfs_zone X W _ i path).
Proof.
  intros s Hc Hn Hs. unfold new_sysfs_zone. set (z := (new_zone i path SENSOR_INDEPENDENT) <| z_class := _ |>).
  set (m := ex <- _ ;; _). assert (Hm : steps (safe_z c n) m).
  { unfold m. ptr_tac. }
  specialize (Hm (z, s) Hc Hn). destruct (m (z, s)) as [u [z1 s1]]. destruct Hm as (H1 & H2 & H3 & H4).
  { split; [by repeat constructor|done]. }
  split; [by split|done].
Qed.

Lemma p_user_add_zone c n created name temp sn cd :
  steps (safe_e c n) (@user_add_zone X W _ TDRUNDIR created name temp sn cd).
Proof.
  intros e. apply (p_try c n (ret (new_zone_dynamic (current_zone_index e) name))
    (dynamic_zone_update TDRUNDIR temp PASSIVE sn cd) (fun _ => set_zone_active created)
    (fun e' => e' <| current_zone_index := i32 (current_zone_index e + 1) |>) (fun _ => ret tt) THD_SUCCESS THD_ERROR).
  - apply g_plain_zone. by repeat constructor.
  - intros. apply p_dynamic_update.
  - intros. apply p_set_active.
  - done.
  - intros. ptr_tac.
Qed.

Lemma p_try_sysfs_zone c n created i : steps (safe_e c n) (@try_sysfs_zone X W _ TDRUNDIR created i).
Proof.
  unfold try_sysfs_zone. apply (p_try c n (new_sysfs_zone i "/sys/class/thermal/thermal_zone") (sysfs_zone_update TDRUNDIR)
    (fun e => if bool_decide (control_mode e = EXCLUSIVE) then set_zone_active created else ret tt)
    (fun e => e) destroy_zone tt tt); ptr_tac; first [apply g_new_sysfs_zone|done].
Qed.
Hint Resolve p_user_add_zone p_try_sysfs_zone : ptr.

Lemma p_zone_entries c n created l k : steps (safe_e c n) (@zone_entries X W _ TDRUNDIR created l k).
Proof. revert k. induction l as [|x l IH]; intros k; cbn [zone_entries]; ptr_tac. Qed.
Hint Resolve p_zone_entries : ptr.
Lemma p_default_zones c n created : steps (safe_e c n) (@thd_read_default_thermal_zones X W _ TDRUNDIR created).
Proof. unfold thd_read_default_thermal_zones. ptr_tac. Qed.

Lemma p_with_zone c n name m : (forall c n, steps (safe_z c n) m) -> steps (safe_e c n) (@with_zone X W name m).
Proof. intros Hm. unfold with_zone. ptr_tac. Qed.
Hint Resolve p_with_zone : ptr.

Lemma p_user_psv c n name t : steps (safe_e c n) (@user_set_psv_temp X W _ TDRUNDIR name t).
Proof. unfold user_set_psv_temp. ptr_tac. Qed.
Lemma p_user_max c n name t : steps (safe_e c n) (@user_set_max_temp X W _ TDRUNDIR name t).
Proof. unfold user_set_max_temp. ptr_tac. Qed.
Lemma p_user_zone_status c n created name st : steps (safe_e c n) (@user_set_zone_status X W created name st).
Proof. unfold user_set_zone_status. apply p_with_zone. ptr_tac. Qed.
Lemma p_get_zone_status c n name old : steps (safe_e c n) (@user_get_zone_status X W name old).
Proof. unfold user_get_zone_status. ptr_tac. Qed.

Lemma p_user_delete_zone c n name : steps (safe_e c n) (@user_delete_zone X W _ name).
Proof.
  unfold user_delete_zone. ptr_tac.
  intros e Hc Hn [Hz Hs]. split; [done|split; [done|]]. split; [|done]. by apply Forall_delete.
Qed.

Lemma p_get_temperature c n idx old : steps (safe_e c n) (@get_sensor_temperature X W _ depth idx old).
Proof. unfold get_sensor_temperature. ptr_tac. Qed.

Lemma p_terminate c n : steps (safe_e c n) (@thd_engine_terminate X W _).
Proof. unfold thd_engine_terminate, process_terminate. ptr_tac. Qed.
End user_ptr.

#[export] Hint Resolve p_try_cdev p_update_path p_bump p_user_add_sensor p_user_add_virtual p_default_sensors
  p_set_range p_user_add_cdev p_default_cdevs p_user_add_zone p_default_zones p_user_psv p_user_max
  p_user_zone_status p_get_zone_status p_user_delete_zone p_get_temperature p_terminate g_match_cdev : ptr.
#[export] Hint Extern 1 (steps _ (try_sensor _)) => by apply p_try_sensor : ptr.
