(* ===== verification/DefaultBinding.v ===== *)
(** The default CPU binding (src/thd_cpu_default_binding.cpp): zones that no
    configuration bound to a device are bound to the RAPL and power clamp devices
    between two pseudo devices, the gates.  The exit gate counts, in a file that
    outlives the daemon, how often the processor could not cool a zone.

    The file of counters holds C structures; it is modelled byte by byte.  A
    stream opened for update is the class [InPlace], over the kernel of SysFs.v.
    The gates are not in the engine's vector: here [m_cdevs] is the heap of
    devices, the engine's vector followed by the gates that are alive. *)
From stdpp Require Import base gmap strings list.
From Stdlib Require Import ZArith Lia Ascii.
From Stdlib Require String.
From S2P Require Import Prelude CString MeterData SysFs CFloat Pid Cdev PowerMeter Machine Preference TripPoint Zone Engine KobjUevent.

Open Scope string_scope.
Open Scope list_scope.
Open Scope Z_scope.

(** * The file of counters *)

(** A stream opened with [in | out | binary], and a write through it at a
    position ([None]: at the end), after which it is closed. *)
Class InPlace (W : Type) := {
  f_open_rw : string -> W -> bool * W;
  f_write : string -> option Z -> string -> W -> W;
}.

(** [cpu_zone_stat_t]: [char zone_name[51]], a byte of padding, [int failures]. *)
Definition name_size : nat := 51.
Definition stat_size : nat := 56.

Definition nul : ascii := ascii_of_N 0.
Fixpoint load_le (s : string) : Z :=
  match s with "" => 0 | String c s' => char_code c + 256 * load_le s' end.

Definition stat_zone_name (obj : string) : string := c_str (String.substring 0 name_size obj).
Definition stat_failures (obj : string) : Z := i32 (load_le (String.substring 52 4 obj)).

(** [strncpy] of [n] characters. *)
Fixpoint strncpy (n : nat) (s : string) : string :=
  match n with
  | O => ""
  | S n' => match c_str s with
            | "" => String nul (strncpy n' "")
            | String c s' => String c (strncpy n' s')
            end
  end.

(** Lines 185-187: the structure with a new name and count; the padding stays. *)
Definition set_stat (zone_name : string) (fail_cnt : Z) (obj : string) : string :=
  strncpy (name_size - 1) zone_name +:+ String nul (String.substring 51 1 obj +:+ store_le 4 (u32 fail_cnt)).

(** What a read of the structure leaves in it. *)
Definition fill (obj data : string) : string := data +:+ string_drop (String.length data) obj.

(** The loops of lines 129-135 and 154-161: from position [pos], [rest] is what
    the stream still holds.  The position of the structure with the name, when
    there is one, and the structure read last.  A short read ends the loop. *)
Fixpoint scan_stats (fuel : nat) (zone_name rest obj : string) (pos : Z) : option Z * string :=
  match fuel with
  | O => (None, obj)
  | S fuel' =>
      let data := String.substring 0 stat_size rest in
      let obj := fill obj data in
      if (String.length data <? stat_size)%nat then (None, obj)
      else if String.eqb zone_name (stat_zone_name obj) then (Some pos, obj)
      else scan_stats fuel' zone_name (string_drop stat_size rest) obj (pos + Z.of_nat stat_size)
  end.
Definition scan (zone_name content obj : string) : option Z * string :=
  scan_stats (S (String.length content)) zone_name content obj 0.

Section counters.
Context {W : Type} `{Kernel W} `{InPlace W}.
(** What the structure of line 146 or of the caller holds before it is read. *)
Context (TDRUNDIR : string) (uninit : string).

Definition stat_file : string := TDRUNDIR +:+ "/" +:+ "cpu_def_zone_bind.out".

(** [None]: THD_ERROR. *)
Definition read_zone_stat (zone_name : string) (w : W) : option Z :=
  match k_ifstream stat_file w with
  | None => None
  | Some content =>
      match scan zone_name content uninit with
      | (Some _, obj) => Some (stat_failures obj)
      | (None, _) => None
      end
  end.

(** Lines 165-178. *)
Definition open_for_update (w : W) : bool * W :=
  let '(opened, w) := f_open_rw stat_file w in
  if opened : bool then (true, w) else
  let '(created, w) := k_ofstream stat_file "" w in
  if created : bool then f_open_rw stat_file w else (false, w).

Definition update_zone_stat (zone_name : string) (fail_cnt : Z) (w : W) : W :=
  let '(current, obj) :=
    match k_ifstream stat_file w with
    | None => (None, uninit)
    | Some content => scan zone_name content uninit
    end in
  let '(opened, w) := open_for_update w in
  if opened : bool then f_write stat_file current (set_stat zone_name fail_cnt obj) w else w.
End counters.

(** * The gates *)

(** The members [cthd_gating_cdev] adds: which gate, and the zone. *)
Record gate_ext := mk_gate { start : bool; bind_zone : option nat }.
Definition gate_max_state : Z := 1.
Definition new_gate (_id : Z) (_bind_zone : option nat) (_start : bool) : cdev gate_ext :=
  new_cdev _id "" (mk_gate _start _bind_zone).

(** The gates of a zone, owned together. *)
Record cpu_zone_binding_t := mk_cpu_binding {
  b_zone_name : string;
  cdev_gate_entry : nat;
  cdev_gate_exit : nat;
  b_zone : nat;
}.

Record default_binding := mk_default_binding {
  cpu_package_max_power : Z;       (* unsigned int *)
  cdev_list : list cpu_zone_binding_t;
}.
#[export] Instance eta_default_binding : Eta default_binding := {| eta_of := fun x =>
  mk_default_binding (cpu_package_max_power x) (cdev_list x) |}.
Definition new_default_binding : default_binding := mk_default_binding 0 [].

Definition def_gating_cdev_sampling_period : Z := 30.
Definition def_starting_power_differential : Z := 4000000.

(** Lines 200-215, in unsigned arithmetic. *)
Definition significant_load (package_max power max_power min_power : Z) : bool :=
  let max_power := if negb (package_max =? 0) then package_max else max_power in
  if u32 (max_power - min_power) <? def_starting_power_differential then false
  else power >? u32 (max_power * 60) / 100.

(** Lines 77-90: the count after one more failure and whether the zone is given
    up, from the count that was read. *)
Definition count_exit (stat : option Z) : Z * bool :=
  match stat with
  | Some failures => let failures := i32 (failures + 1) in (failures, failures >? 3)
  | None => (0, false)
  end.

Definition blacklist_zones : list string :=
  ["cpu"; "acpitz"; "Surface"; "pkg-temp-0"; "x86_pkg_temp"; "soc_dts0"; "soc_dts1"; "B0D4"; "B0DB"].

Section binding.
Context {X W : Type} `{Kernel W} `{!CdevMethods X W} `{!InPlace W}.
(** [as_gate] makes a gate one of the devices; [garbage] is what an unassigned
    [int] holds. *)
Context (as_gate : gate_ext -> X) (TDRUNDIR uninit : string) (garbage : Z) (created : bool).

Definition check_cpu_load (package_max : Z) : State W bool :=
  r <- on_meter (rapl_action_get_power_range garbage PACKAGE 0 0) ;;
  let '(power, max_power, min_power) := r in
  ret (significant_load package_max power max_power min_power).

Abbreviation GM := (State (cdev gate_ext * engine X W)).
Definition on_engine {A} (m : State (engine X W) A) : GM A := fun '(d, e) =>
  let '(a, e') := m e in (a, (d, e')).
Definition set_gate (v : Z) : GM unit := modify (fun '(d, e) => (d <| curr_state := v |>, e)).

(** [cthd_gating_cdev::set_curr_state]. *)
Definition gate_set_curr_state (b : default_binding) (state arg : Z) : GM unit :=
  let* (d, e) := get in
  if negb (start (ext d)) && truthy state then
    match bind_zone (ext d) with
    | None => ret tt
    | Some i =>
        on_engine (on_zone i tt (zone_reset 0)) ;;
        on_engine (
          e <- get ;;
          let name := from_option z_type_str "" (zones e !! i) in
          let '(failures, inactive) := count_exit (read_zone_stat TDRUNDIR uninit name (m_w (mach e))) in
          on_w (fun w => (tt, update_zone_stat TDRUNDIR uninit name failures w)) ;;
          if inactive : bool then on_zone i tt set_zone_inactive else ret tt)
    end
  else if start (ext d) && truthy state then
    load <- on_engine (on_w (check_cpu_load (cpu_package_max_power b))) ;;
    set_gate (if load : bool then gate_max_state else 0)
  else set_gate 0.

Definition gate_get_curr_state : GM Z := gets (fun '(d, _) => curr_state d).
Definition gate_get_max_state : GM Z := ret gate_max_state.
Definition gate_update : GM Z := ret 0.

(** * The binding *)

Definition blacklist_match (name : string) (w : W) : bool :=
  existsb (String.eqb name) blacklist_zones
  || match read_zone_stat TDRUNDIR uninit name w with Some failures => failures >? 3 | None => false end.

Abbreviation BM := (State (default_binding * engine X W)).
Definition on_eng {A} (m : State (engine X W) A) : BM A := fun '(b, e) =>
  let '(a, e') := m e in (a, (b, e')).

(** A gate is allocated; its address. *)
Definition alloc_gate (id : Z) (i : nat) (_start : bool) (type : string) : State (engine X W) nat := fun e =>
  let d := (new_cdev id "" (as_gate (mk_gate _start (Some i)))) <| type_str := type |> in
  (length (m_cdevs (mach e)), e <| mach := (mach e) <| m_cdevs := m_cdevs (mach e) ++ [d] |> |>).

(** The two gates of a binding that is not kept are destroyed with it. *)
Definition free_gates (entry : nat) : State (engine X W) unit :=
  modify (fun e => e <| mach := (mach e) <| m_cdevs := take entry (m_cdevs (mach e)) |> |>).

Definition bind_passive (i c : nat) (influence sampling_period : Z) : State (engine X W) Z :=
  on_zone i THD_ERROR (bind_cooling_device PASSIVE 0 c influence sampling_period 0 0 0 0 0).
Definition bind_if (i : nat) (c : option nat) : State (engine X W) unit :=
  match c with Some p => bind_passive i p 20 0 ;; ret tt | None => ret tt end.

(** Lines 293-318: the four devices; whether the binding is kept. *)
Definition bind_zone_devices (rapl clamp : option nat) (i entry exit : nat) : State (engine X W) bool :=
  status <- bind_passive i entry 0 def_gating_cdev_sampling_period ;;
  if status =? THD_ERROR then ret false else
  bind_if i rapl ;;
  bind_if i clamp ;;
  status <- bind_passive i exit 0 def_gating_cdev_sampling_period ;;
  if status =? THD_ERROR then ret false else
  on_zone i tt (set_zone_active created) ;; ret true.

(** One round of the loop, lines 258-320, with the next id; whether a zone was bound. *)
Definition try_default_zone (rapl clamp : option nat) (i : nat) (id : Z) : BM (Z * bool) :=
  let* (b, e) := get in
  match zones e !! i with
  | None => ret (id, false)
  | Some z =>
      let name := z_type_str z in
      if blacklist_match name (m_w (mach e)) || zone_cdev_binded_status z then ret (id, false) else
      entry <- on_eng (alloc_gate id i true (name +:+ "_" +:+ "cpu_gate_entry")) ;;
      exit <- on_eng (alloc_gate (id + 1) i false (name +:+ "_" +:+ "cpu_gate_exit")) ;;
      kept <- on_eng (bind_zone_devices rapl clamp i entry exit) ;;
      if kept : bool then
        modify (fun '(b, e) => (b <| cdev_list := cdev_list b ++ [mk_cpu_binding name entry exit i] |>, e)) ;;
        ret (id + 2, true)
      else on_eng (free_gates entry) ;; ret (id + 2, false)
  end.

Fixpoint try_zones (rapl clamp : option nat) (l : list nat) (id : Z) (any : bool) : BM bool :=
  match l with
  | [] => ret any
  | i :: l' =>
      let* (id, bound) := try_default_zone rapl clamp i id in
      try_zones rapl clamp l' id (any || bound)
  end.

Definition do_default_binding : BM unit :=
  let* (_, e) := get in
  let rapl := search_cdev "rapl_controller" (mach e) in
  let clamp := search_cdev "intel_powerclamp" (mach e) in
  match rapl, clamp with
  | None, None => ret tt
  | _, _ =>
      any <- try_zones rapl clamp (seq 0 (length (zones e))) 4096 false ;;
      if any : bool then
        max <- on_eng (on_w (on_meter (
          modify (fun '(pm, w) => (rapl_start_measure_power pm, w)) ;;
          rapl_action_get_max_power garbage PACKAGE))) ;;
        modify (fun '(b, e) => (b <| cpu_package_max_power := max |>, e))
      else ret tt
  end.
End binding.
