(* ===== verification/DefaultBindingTheorems.v ===== *)
(** What the default CPU binding promises (src/thd_cpu_default_binding.cpp): the
    file of counters is a map from zone names to counts, the load test compares
    with 60 percent of the package power, the gates of a binding outlive the
    trip points that name them, and where in a trip the gates stand. *)
From stdpp Require Import base gmap strings list.
From Stdlib Require Import ZArith Lia Ascii.
From Stdlib Require String.
From S2P Require Import Prelude CString MeterData SysFs CFloat Pid Cdev CdevDevices PowerMeter Machine Preference TripPoint Zone ZoneKinds Engine KobjUevent Pointers PointersEngine DefaultBinding.

Open Scope string_scope.
Open Scope list_scope.
Open Scope Z_scope.

(** * Structures as bytes *)

Lemma sapp_cons c (s t : string) : String c s +:+ t = String c (s +:+ t).
Proof. reflexivity. Qed.

Lemma substring_all n s : (String.length s <= n)%nat -> String.substring 0 n s = s.
Proof. revert n. induction s as [|c s IH]; intros [|n] Hn; cbn in *; try done; [lia|]. f_equal. apply IH. lia. Qed.

Lemma substring_app n s t : (n <= String.length s)%nat -> String.substring 0 n (s +:+ t) = String.substring 0 n s.
Proof.
  revert n. induction s as [|c s IH]; intros [|n] Hn; rewrite ?sapp_cons; cbn in *; try done; [by destruct t|lia|].
  f_equal. apply IH. lia.
Qed.

Lemma substring_skip n m s t : String.length s = n -> String.substring n m (s +:+ t) = String.substring 0 m t.
Proof. intros <-. induction s as [|c s IH]; rewrite ?sapp_cons; cbn; [done|]. apply IH. Qed.

Lemma sapp_assoc (s t u : string) : (s +:+ t) +:+ u = s +:+ (t +:+ u).
Proof. induction s as [|c s IH]; [done|]. by rewrite !sapp_cons, IH. Qed.

Lemma c_str_idem s : c_str (c_str s) = c_str s.
Proof. induction s as [|c s IH]; cbn; [done|]. destruct (is_nul c) eqn:E; cbn; [done|]. by rewrite E, IH. Qed.

Lemma length_strncpy n s : String.length (strncpy n s) = n.
Proof. revert s. induction n as [|n IH]; intros s; cbn; [done|]. destruct (c_str s); cbn; by rewrite IH. Qed.

Lemma c_str_strncpy n s t : c_str s = s -> (String.length s <= n)%nat -> c_str (strncpy n s +:+ String nul t) = s.
Proof.
  revert s. induction n as [|n IH]; intros [|c s] Hc Hn; cbn in *; try done; [lia|].
  destruct (is_nul c) eqn:E; [done|]. injection Hc as Hc. rewrite sapp_cons. cbn. rewrite E, Hc. f_equal.
  apply IH; [done|lia].
Qed.

Lemma length_store_le n v : String.length (store_le n v) = n.
Proof. revert v. induction n as [|n IH]; intros v; cbn; [done|by rewrite IH]. Qed.

Lemma load_store n v : 0 <= v < 256 ^ Z.of_nat n -> load_le (store_le n v) = v.
Proof.
  revert v. induction n as [|n IH]; intros v Hv; [cbn in *; lia|]. cbn [store_le load_le].
  rewrite Nat2Z.inj_succ, Z.pow_succ_r in Hv by lia.
  rewrite IH by (split; [apply Z.div_pos; lia|apply Z.div_lt_upper_bound; lia]).
  unfold char_code, char_of. rewrite N_ascii_embedding by (pose proof (Z.mod_pos_bound v 256); lia).
  rewrite Z2N.id by (pose proof (Z.mod_pos_bound v 256); lia). pose proof (Z.div_mod v 256). lia.
Qed.

(** ** One structure *)

Definition is_stat (r : string) : Prop := String.length r = stat_size.

Lemma pad_length obj : is_stat obj -> String.length (String.substring 51 1 obj) = 1%nat.
Proof.
  unfold is_stat, stat_size. intros Hl. do 52 (destruct obj as [|? obj]; cbn in Hl |- *; [lia|]).
  cbn. by destruct obj.
Qed.

Lemma is_stat_set zone_name fail_cnt obj : is_stat obj -> is_stat (set_stat zone_name fail_cnt obj).
Proof.
  intros Ho. unfold is_stat, set_stat. rewrite string_length_app, length_strncpy. cbn [String.length].
  by rewrite string_length_app, pad_length, length_store_le.
Qed.

Lemma set_stat_parts zone_name fail_cnt obj :
  set_stat zone_name fail_cnt obj =
    (strncpy 50 zone_name +:+ String nul "") +:+ (String.substring 51 1 obj +:+ store_le 4 (u32 fail_cnt)).
Proof. unfold set_stat. by rewrite sapp_assoc, sapp_cons. Qed.

Lemma length_name_part zone_name : String.length (strncpy 50 zone_name +:+ String nul "") = name_size.
Proof. by rewrite string_length_app, length_strncpy. Qed.

Lemma zone_name_set zone_name fail_cnt obj :
  c_str zone_name = zone_name -> (String.length zone_name <= 50)%nat ->
  stat_zone_name (set_stat zone_name fail_cnt obj) = zone_name.
Proof.
  intros Hc Hl. unfold stat_zone_name. rewrite set_stat_parts.
  rewrite substring_app, substring_all by (by rewrite length_name_part). by apply c_str_strncpy.
Qed.

Lemma failures_set zone_name fail_cnt obj :
  is_stat obj -> is_i32 fail_cnt -> stat_failures (set_stat zone_name fail_cnt obj) = fail_cnt.
Proof.
  intros Ho Hi. unfold stat_failures. rewrite set_stat_parts, <- sapp_assoc.
  rewrite substring_skip by (by rewrite string_length_app, length_name_part, pad_length).
  rewrite substring_all by (by rewrite length_store_le).
  rewrite load_store, i32_u32; [by apply i32_id|].
  pose proof (u32_range fail_cnt) as Hr. unfold is_u32, UINT_MAX in Hr. cbn. lia.
Qed.

Lemma c_str_cut s : (String.length (c_str (s +:+ String nul "")) <= String.length s)%nat.
Proof.
  induction s as [|c s IH]; [done|]. rewrite sapp_cons. cbn [c_str].
  destruct (is_nul c); [apply Nat.le_0_l|]. apply le_n_S, IH.
Qed.

Lemma stored_name_short zone_name fail_cnt obj :
  (String.length (stat_zone_name (set_stat zone_name fail_cnt obj)) <= 50)%nat.
Proof.
  unfold stat_zone_name. rewrite set_stat_parts.
  rewrite substring_app, substring_all by (by rewrite length_name_part).
  etransitivity; [apply c_str_cut|]. by rewrite length_strncpy.
Qed.

(** ** The file *)

(** Structures one after the other. *)
Definition flat (rs : list string) : string := foldr (fun r s => r +:+ s) "" rs.

Lemma length_flat rs : Forall is_stat rs -> String.length (flat rs) = (stat_size * length rs)%nat.
Proof.
  induction 1 as [|r rs Hr _ IH]; [done|]. change (flat (r :: rs)) with (r +:+ flat rs).
  rewrite string_length_app, IH, Hr. cbn [length]. lia.
Qed.

(** The first structure with a name. *)
Definition find_stat (zone_name : string) (rs : list string) : option (nat * string) :=
  list_find (fun r => zone_name = stat_zone_name r) rs.

Lemma sapp_nil (s : string) : s +:+ "" = s.
Proof. induction s as [|c s IH]; [done|]. by rewrite sapp_cons, IH. Qed.

Lemma string_drop_all s : string_drop (String.length s) s = "".
Proof. induction s as [|c s IH]; [done|]. apply IH. Qed.

Lemma fill_stat obj r : is_stat obj -> is_stat r -> fill obj r = r.
Proof. intros Ho Hr. unfold fill. rewrite Hr, <- Ho, string_drop_all. apply sapp_nil. Qed.

(** The loop finds the first structure with the name, at its position. *)
Lemma scan_stats_flat zone_name rs obj pos fuel :
  Forall is_stat rs -> is_stat obj -> (length rs < fuel)%nat ->
  exists last, is_stat last /\ scan_stats fuel zone_name (flat rs) obj pos =
    match find_stat zone_name rs with
    | Some (i, r) => (Some (pos + Z.of_nat (stat_size * i)), r)
    | None => (None, last)
    end.
Proof.
  intros Hrs. revert obj pos fuel. induction Hrs as [|r rs Hr Hrs IH]; intros obj pos [|fuel] Ho Hf; cbn [length] in Hf; [lia| |lia|].
  - exists obj. split; [done|]. cbn. unfold fill. cbn. done.
  - cbn [scan_stats]. change (flat (r :: rs)) with (r +:+ flat rs).
    assert (E : String.substring 0 stat_size (r +:+ flat rs) = r).
    { rewrite substring_app by (rewrite Hr; lia). apply substring_all. by rewrite Hr. }
    rewrite E, fill_stat, Hr, Nat.ltb_irrefl by done. unfold find_stat. cbn [list_find].
    assert (Ed : string_drop stat_size (r +:+ flat rs) = flat rs) by (rewrite <- Hr; apply string_drop_app).
    rewrite Ed.
    destruct (String.eqb_spec zone_name (stat_zone_name r)) as [Hn|Hn].
    + exists obj. split; [done|]. rewrite decide_True by done. f_equal. f_equal. lia.
    + rewrite decide_False by done. destruct (IH r (pos + Z.of_nat stat_size) fuel Hr ltac:(lia)) as (last & Hl & IH').
      exists last. split; [done|]. rewrite IH'. unfold find_stat. destruct (list_find _ rs) as [[i r']|]; [|done].
      cbn [fmap option_fmap option_map prod_map]. f_equal. f_equal. unfold stat_size. cbn [fst snd]. lia.
Qed.

Lemma scan_flat zone_name rs obj :
  Forall is_stat rs -> is_stat obj ->
  exists last, is_stat last /\ scan zone_name (flat rs) obj =
    match find_stat zone_name rs with
    | Some (i, r) => (Some (Z.of_nat (stat_size * i)), r)
    | None => (None, last)
    end.
Proof.
  intros Hrs Ho. apply scan_stats_flat; [done|done|]. rewrite length_flat by done. unfold stat_size. lia.
Qed.

(** Writing over a structure, and behind the last one. *)
Definition splice (content : string) (pos : Z) (data : string) : string :=
  String.substring 0 (Z.to_nat pos) content +:+ data
  +:+ string_drop (Z.to_nat pos + String.length data) content.

Lemma substring_past s t n : String.substring 0 (String.length s + n) (s +:+ t) = s +:+ String.substring 0 n t.
Proof. induction s as [|c s IH]; [done|]. rewrite !sapp_cons. cbn. by rewrite IH. Qed.

Lemma string_drop_past s t n : string_drop (String.length s + n) (s +:+ t) = string_drop n t.
Proof. induction s as [|c s IH]; [done|]. rewrite !sapp_cons. apply IH. Qed.

Lemma splice_flat rs i r :
  Forall is_stat rs -> is_stat r -> (i < length rs)%nat ->
  splice (flat rs) (Z.of_nat (stat_size * i)) r = flat (<[i := r]> rs).
Proof.
  intros Hrs Hr. unfold splice. rewrite Nat2Z.id, Hr. revert i.
  induction Hrs as [|r0 rs H0 Hrs IH]; intros [|i] Hi; cbn [length] in Hi; [lia|lia| |].
  - change (flat (r0 :: rs)) with (r0 +:+ flat rs).
    replace (stat_size * 0)%nat with 0%nat by lia.
    replace (0 + stat_size)%nat with (String.length r0 + 0)%nat by (rewrite H0; lia).
    rewrite string_drop_past. by destruct (r0 +:+ flat rs).
  - change (flat (r0 :: rs)) with (r0 +:+ flat rs). change (flat (<[S i:=r]> (r0 :: rs))) with (r0 +:+ flat (<[i := r]> rs)).
    replace (stat_size * S i)%nat with (String.length r0 + stat_size * i)%nat by (rewrite H0; lia).
    rewrite substring_past, <- Nat.add_assoc, string_drop_past, <- IH by lia. by rewrite sapp_assoc.
Qed.

Lemma flat_snoc rs r : flat rs +:+ r = flat (rs ++ [r]).
Proof.
  induction rs as [|r0 rs IH]; [cbn; by rewrite sapp_nil|]. change (flat (r0 :: rs)) with (r0 +:+ flat rs).
  by rewrite sapp_assoc, IH.
Qed.

(** * The counters as a map *)

(** What [std::fstream] promises: opening does not change the file, a write
    replaces the bytes from its position on or is added at the end. *)
Class InPlaceLaws (W : Type) `{Kernel W} `{!InPlace W} := {
  open_rw_same path w ok w' : f_open_rw path w = (ok, w') -> k_ifstream path w' = k_ifstream path w;
  open_rw_exists path w w' : f_open_rw path w = (true, w') -> is_Some (k_ifstream path w);
  create_empty path w w' : k_ofstream path "" w = (true, w') -> k_ifstream path w' = Some "";
  write_at path pos data w content :
    k_ifstream path w = Some content -> 0 <= pos <= Z.of_nat (String.length content) ->
    k_ifstream path (f_write path (Some pos) data w) = Some (splice content pos data);
  write_end path data w content :
    k_ifstream path w = Some content -> k_ifstream path (f_write path None data w) = Some (content +:+ data);
}.

Section counters.
Context {W : Type} `{InPlaceLaws W} (TDRUNDIR uninit : string).
Abbreviation file := (stat_file TDRUNDIR).
Abbreviation read := (read_zone_stat TDRUNDIR uninit).
Abbreviation update := (update_zone_stat TDRUNDIR uninit).

(** The structures of the file; a file that is missing has none. *)
Definition file_holds (rs : list string) (w : W) : Prop :=
  Forall is_stat rs /\ match k_ifstream file w with None => rs = [] | Some content => content = flat rs end.

(** The file can be written: it opens for update, or it is missing and is created. *)
Definition writable (w : W) : Prop :=
  fst (open_for_update TDRUNDIR w) = true /\ (is_Some (k_ifstream file w) -> fst (f_open_rw file w) = true).

Lemma read_holds rs w zone_name :
  is_stat uninit -> file_holds rs w -> read zone_name w = stat_failures ∘ snd <$> find_stat zone_name rs.
Proof.
  intros Hu [Hrs Hf]. unfold read_zone_stat. destruct (k_ifstream file w) as [c|]; subst; [|done].
  destruct (scan_flat zone_name rs uninit Hrs Hu) as (last & _ & ->). by destruct (find_stat zone_name rs) as [[i r]|].
Qed.

Lemma open_holds rs w :
  writable w -> file_holds rs w ->
  exists w', open_for_update TDRUNDIR w = (true, w') /\ k_ifstream file w' = Some (flat rs).
Proof.
  intros [Ho Hs] [_ Hf]. unfold open_for_update in *. destruct (f_open_rw file w) as [ok w1] eqn:E1.
  pose proof (open_rw_same _ _ _ _ E1) as Hw1. destruct ok.
  - destruct (open_rw_exists _ _ _ E1) as [c Ec]. exists w1. split; [done|]. rewrite Hw1. rewrite Ec in Hf |- *. by subst.
  - destruct (k_ifstream file w) as [c|]; [by specialize (Hs ltac:(done))|]. subst.
    destruct (k_ofstream file "" w1) as [[] w2] eqn:E2; [|done]. pose proof (create_empty _ _ _ E2) as Hw2.
    destruct (f_open_rw file w2) as [ok w3] eqn:E3. cbn in Ho. subst. exists w3. split; [done|].
    by rewrite (open_rw_same _ _ _ _ E3).
Qed.

(** An update replaces the first structure with the name, or adds one. *)
Lemma update_holds rs w zone_name fail_cnt :
  is_stat uninit -> writable w -> file_holds rs w ->
  exists obj, is_stat obj /\
    file_holds (match find_stat zone_name rs with
                | Some (i, _) => <[i := set_stat zone_name fail_cnt obj]> rs
                | None => rs ++ [set_stat zone_name fail_cnt obj]
                end) (update zone_name fail_cnt w).
Proof.
  intros Hu Hw Hh. pose proof (open_holds _ _ Hw Hh) as (w' & Eo & Ef). destruct Hh as [Hrs Hf].
  destruct (scan_flat zone_name rs uninit Hrs Hu) as (last & Hl & Es). unfold update_zone_stat. rewrite Eo.
  assert (Ec : exists obj, is_stat obj /\ (match k_ifstream file w with
      | None => (None, uninit) | Some content => scan zone_name content uninit end)
    = (match find_stat zone_name rs with Some (i, _) => Some (Z.of_nat (stat_size * i)) | None => None end, obj)).
  { destruct (k_ifstream file w) as [c|]; subst; [|by exists uninit]. rewrite Es.
    destruct (find_stat zone_name rs) as [[i r]|] eqn:Er; [|by exists last].
    exists r. split; [|done]. apply list_find_Some in Er as (Er & _). by eapply Forall_lookup_1 in Hrs. }
  destruct Ec as (obj & Ho & ->). exists obj. split; [done|].
  pose proof (is_stat_set zone_name fail_cnt obj Ho) as Hset.
  destruct (find_stat zone_name rs) as [[i r]|] eqn:Er.
  - apply list_find_Some in Er as (Er & _). apply lookup_lt_Some in Er. split; [by apply Forall_insert|].
    rewrite (write_at _ _ _ _ _ Ef) by (rewrite length_flat by done; unfold stat_size; lia). by apply splice_flat.
  - split; [by apply Forall_app; auto|]. rewrite (write_end _ _ _ _ Ef). apply flat_snoc.
Qed.

(** ** Look-up after an update *)

Lemma find_other zone_name other rs i r r' :
  find_stat zone_name rs = Some (i, r) -> stat_zone_name r' = zone_name -> other <> zone_name ->
  find_stat other (<[i := r']> rs) = find_stat other rs.
Proof.
  intros Hi Hr' Hne. apply list_find_Some in Hi as (Hi & Hn & _). subst zone_name. revert i Hi.
  induction rs as [|r0 rs IH]; intros [|i] Hi; [done|done| |]; unfold find_stat in *; cbn.
  - cbn in Hi. simplify_eq. by rewrite !decide_False by congruence.
  - destruct (decide (other = stat_zone_name r0)); [done|]. by rewrite IH.
Qed.

Lemma find_replaced zone_name rs i r r' :
  find_stat zone_name rs = Some (i, r) -> stat_zone_name r' = zone_name ->
  find_stat zone_name (<[i := r']> rs) = Some (i, r').
Proof.
  intros Hi Hr'. apply list_find_Some in Hi as (Hi & _ & Hb). apply list_find_Some. split; [|split; [done|]].
  - apply list_lookup_insert_eq. by eapply lookup_lt_Some.
  - intros j y Hj Hlt. rewrite list_lookup_insert_ne in Hj by lia. by eapply Hb.
Qed.

Lemma find_added zone_name rs r :
  find_stat zone_name rs = None -> stat_zone_name r = zone_name ->
  find_stat zone_name (rs ++ [r]) = Some (length rs, r).
Proof.
  intros Hn Hr. unfold find_stat in *. rewrite list_find_app_r by done. cbn. by rewrite decide_True by done.
Qed.

Lemma find_not_added other rs r : stat_zone_name r <> other -> find_stat other (rs ++ [r]) = find_stat other rs.
Proof.
  intros Hr. unfold find_stat. destruct (list_find _ rs) as [[i x]|] eqn:E.
  - by eapply list_find_app_l.
  - rewrite list_find_app_r by done. cbn. by rewrite decide_False by congruence.
Qed.

Lemma counter_after rs zone_name fail_cnt w :
  is_stat uninit -> file_holds rs w -> writable w ->
  c_str zone_name = zone_name -> (String.length zone_name <= 50)%nat -> is_i32 fail_cnt ->
  read zone_name (update zone_name fail_cnt w) = Some fail_cnt /\
  (forall other, other <> zone_name -> read other (update zone_name fail_cnt w) = read other w) /\
  exists rs', file_holds rs' (update zone_name fail_cnt w).
Proof.
  intros Hu Hh Hw Hc Hl Hi. destruct (update_holds rs w zone_name fail_cnt Hu Hw Hh) as (obj & Ho & Hh').
  pose proof (zone_name_set zone_name fail_cnt obj Hc Hl) as Hn.
  pose proof (failures_set zone_name fail_cnt obj Ho Hi) as Hf.
  split; [|split; [|by eexists]]; [|intros other Hne]; rewrite (read_holds _ _ _ Hu Hh'), ?(read_holds _ _ _ Hu Hh).
  - destruct (find_stat zone_name rs) as [[i r]|] eqn:E.
    + by rewrite (find_replaced _ _ _ _ _ E Hn); cbn; rewrite Hf.
    + by rewrite (find_added _ _ _ E Hn); cbn; rewrite Hf.
  - f_equal. destruct (find_stat zone_name rs) as [[i r]|] eqn:E.
    + by eapply find_other.
    + apply find_not_added. congruence.
Qed.

(** C39: the file of counters is a map from zone names to counts.  Whatever
    structures it holds, and also when it does not exist yet: a count that is
    written for a zone (whose name has at most 50 characters) is the count read
    back for it, the counts of all other zones stay, and the file holds whole
    structures again, so that the next update finds them. *)
Theorem zone_stat_roundtrip rs zone_name fail_cnt w :
  is_stat uninit -> file_holds rs w -> writable w ->
  c_str zone_name = zone_name -> (String.length zone_name <= 50)%nat -> is_i32 fail_cnt ->
  read zone_name (update zone_name fail_cnt w) = Some fail_cnt /\
  (forall other, other <> zone_name -> read other (update zone_name fail_cnt w) = read other w) /\
  exists rs', file_holds rs' (update zone_name fail_cnt w).
Proof. exact (counter_after rs zone_name fail_cnt w). Qed.

(** A longer name is cut when it is stored and not found again: such a zone is
    never counted, and each update adds a structure. *)
Theorem long_names_not_counted rs zone_name fail_cnt w :
  is_stat uninit -> file_holds rs w -> writable w -> (50 < String.length zone_name)%nat ->
  read zone_name w = None ->
  read zone_name (update zone_name fail_cnt w) = None /\
  exists r, file_holds (rs ++ [r]) (update zone_name fail_cnt w).
Proof.
  intros Hu Hh Hw Hl Hr. destruct (update_holds rs w zone_name fail_cnt Hu Hw Hh) as (obj & Ho & Hh').
  rewrite (read_holds _ _ _ Hu Hh) in Hr. destruct (find_stat zone_name rs) eqn:E; [done|].
  split; [|by eexists]. rewrite (read_holds _ _ _ Hu Hh'), find_not_added; [by rewrite E|].
  intros Hn. pose proof (stored_name_short zone_name fail_cnt obj). rewrite Hn in *. lia.
Qed.
End counters.

(** * The gates *)

(** Below 71.58 W the load is compared with 60 percent of the package power. *)
Theorem load_is_sixty_percent package_max power max_power min_power :
  let m := if package_max =? 0 then max_power else package_max in
  0 <= min_power <= m -> m <= UINT_MAX / 60 ->
  significant_load package_max power max_power min_power = true <->
  m - min_power >= def_starting_power_differential /\ m * 60 / 100 < power.
Proof.
  intros m Hm Hb. unfold significant_load.
  replace (if negb (package_max =? 0) then package_max else max_power) with m by (subst m; by destruct (package_max =? 0)).
  unfold UINT_MAX in Hb. change (4294967295 / 60) with 71582788 in Hb.
  rewrite !u32_id by (unfold is_u32, UINT_MAX; lia).
  destruct (m - min_power <? _) eqn:E; rewrite ?Z.gtb_lt; [|lia]. split; [done|lia].
Qed.

(** Above it the product leaves 32 bits: 18 W of 100 W count as a significant
    load, and 11 mW of 71.6 W, whereas 42 W of 71.5 W do not. *)
Example load_threshold_wraps :
  significant_load 100000000 18000000 0 0 = true /\ significant_load 71600000 11000 0 0 = true /\
  significant_load 71500000 42000000 0 0 = false.
Proof. repeat split. Qed.

(** The count after [n] exits without a file. *)
Fixpoint after_exits (n : nat) : option Z :=
  match n with O => None | S n' => Some (fst (count_exit (after_exits n'))) end.

(** A zone is given up at its fifth exit: the first writes 0 and only a count
    above three deactivates it. *)
Theorem given_up_at_fifth_exit n :
  Z.of_nat n <= INT_MAX ->
  snd (count_exit (after_exits n)) = (4 <=? n)%nat /\ after_exits (S n) = Some (Z.of_nat n).
Proof.
  induction n as [|n IH]; intros Hn; [done|]. destruct IH as [_ E]; [lia|].
  rewrite E. change (after_exits (S (S n))) with (Some (fst (count_exit (after_exits (S n))))). rewrite E.
  cbn [count_exit fst snd]. rewrite i32_id by (unfold is_i32, INT_MIN, INT_MAX in *; lia).
  split; [|f_equal; lia].
  destruct (Nat.leb_spec 4 (S n)); destruct (Z.gtb_spec (Z.of_nat n + 1) 3); (done || lia).
Qed.

(** * The binding *)

Section binding.
Context {X W : Type} {HK : Kernel W} {HM : CdevMethods X W} {HP : InPlace W}.
Context (as_gate : gate_ext -> X) (TDRUNDIR uninit : string) (garbage : Z) (created : bool).
Abbreviation ENG := (engine X W).

(** The trip of zone [i] that takes a device: the first passive one that is set. *)
Definition passive_trip (i : nat) (e : ENG) : option (zone * nat * trip_point) :=
  match zones e !! i with
  | Some z => (fun '(k, t) => (z, k, t)) <$> list_find (fun t => binds PASSIVE 0 t = true) (trip_points z)
  | None => None
  end.

(** The devices of a trip after one more. *)
Definition with_device (s : machine X W) (c : nat) (_influence period : Z) (t : trip_point) : trip_point :=
  fst (snd (thd_trip_point_add_cdev c _influence period 0 0 None 0 0 0 (t, s))).

Lemma with_device_type s c inf per t :
  t_type (with_device s c inf per t) = t_type t /\ temp (with_device s c inf per t) = temp t.
Proof. done. Qed.

(** A device joins that trip and nothing else changes, or there is no such trip. *)
Lemma bind_passive_spec i c inf per (e : ENG) :
  match passive_trip i e with
  | None => bind_passive i c inf per e = (THD_ERROR, e)
  | Some (z, k, t) => exists e' z', bind_passive i c inf per e = (THD_SUCCESS, e') /\ mach e' = mach e /\
      passive_trip i e' = Some (z', k, with_device (mach e) c inf per t)
  end.
Proof.
  unfold passive_trip, bind_passive, on_zone. destruct (zones e !! i) as [z|] eqn:Ez; [|done].
  destruct (list_find _ (trip_points z)) as [[k t]|] eqn:Ef; cbn [fmap option_fmap option_map fst];
    unfold bind_cooling_device, bind at 1; cbn beta iota delta [getz gets fst]; rewrite Ef; cbn [fmap option_fmap option_map fst].
  2:{ cbn. rewrite list_insert_id by done. by destruct e. }
  apply list_find_Some in Ef as (Hk & Hb & Hbefore).
  assert (Hf : list_find (fun t => binds PASSIVE 0 t = true) (<[k := with_device (mach e) c inf per t]> (trip_points z))
    = Some (k, with_device (mach e) c inf per t)).
  { apply list_find_Some. split; [|split; [done|]].
    - apply list_lookup_insert_eq. by eapply lookup_lt_Some.
    - intros j y Hj Hlt. rewrite list_lookup_insert_ne in Hj by lia. by eapply Hbefore. }
  unfold bind, on_trip, modz, modify, ret. rewrite Hk.
  destruct (thd_trip_point_add_cdev c inf per 0 0 None 0 0 0 (t, mach e)) as [[] [t' s']] eqn:Et.
  unfold with_device in *. rewrite Et in *. cbn [fst snd] in *. injection Et as _ <-.
  do 2 eexists. split; [reflexivity|]. split; [done|]. cbn.
  rewrite list_lookup_insert_eq by (by eapply lookup_lt_Some). cbn. by rewrite Hf.
Qed.

Definition with_optional (s : machine X W) (c : option nat) (t : trip_point) : trip_point :=
  from_option (fun p => with_device s p 20 0 t) t c.

Lemma bind_if_spec i c (e : ENG) z k t :
  passive_trip i e = Some (z, k, t) ->
  exists e' z', bind_if i c e = (tt, e') /\ mach e' = mach e /\
    passive_trip i e' = Some (z', k, with_optional (mach e) c t).
Proof.
  intros Ht. destruct c as [p|]; [|by exists e, z].
  pose proof (bind_passive_spec i p 20 0 e) as Hb. rewrite Ht in Hb. destruct Hb as (e' & z' & E & Em & Et).
  exists e', z'. unfold bind_if, bind. by rewrite E.
Qed.

Lemma activated i (e : ENG) z k t :
  passive_trip i e = Some (z, k, t) ->
  exists z', passive_trip i (snd (on_zone i tt (set_zone_active created) e)) = Some (z', k, t) /\ zone_active z' = true.
Proof.
  unfold passive_trip, on_zone. destruct (zones e !! i) as [z0|] eqn:Ez; [|done]. intros Ht.
  destruct (list_find _ (trip_points z0)) as [[k' t']|] eqn:Ef; [|done]. cbn in Ht. simplify_eq.
  assert (Ha : exists s', set_zone_active created (z, mach e) = (tt, (z <| zone_active := true |>, s'))).
  { unfold set_zone_active, bind, getz, gets, on_machine, modz, modify, ret. cbn.
    destruct (first_virtual z (mach e)) as [v|]; [|by eexists].
    destruct (enable_periodic_timer created v (mach e)) as [[] s']. by eexists. }
  destruct Ha as [s' ->]. cbn. rewrite list_lookup_insert_eq by (by eapply lookup_lt_Some). cbn. rewrite Ef.
  by eexists.
Qed.

(** The trip after the four devices. *)
Definition with_binding (s : machine X W) (rapl clamp : option nat) (entry exit : nat) (t : trip_point) : trip_point :=
  with_device s exit 0 def_gating_cdev_sampling_period
    (with_optional s clamp (with_optional s rapl (with_device s entry 0 def_gating_cdev_sampling_period t))).

(** All four devices join one trip and the zone becomes active, or none does. *)
Lemma bind_zone_devices_spec rapl clamp i entry exit (e : ENG) :
  match passive_trip i e with
  | None => bind_zone_devices created rapl clamp i entry exit e = (false, e)
  | Some (z, k, t) => exists e' z', bind_zone_devices created rapl clamp i entry exit e = (true, e') /\
      passive_trip i e' = Some (z', k, with_binding (mach e) rapl clamp entry exit t) /\ zone_active z' = true
  end.
Proof.
  unfold bind_zone_devices. pose proof (bind_passive_spec i entry 0 def_gating_cdev_sampling_period e) as H1.
  destruct (passive_trip i e) as [[[z k] t]|] eqn:Ep; unfold bind at 1.
  2:{ by rewrite H1. }
  destruct H1 as (e1 & z1 & -> & M1 & T1). cbn [Z.eqb THD_SUCCESS THD_ERROR]. unfold bind at 1.
  destruct (bind_if_spec i rapl e1 z1 k _ T1) as (e2 & z2 & -> & M2 & T2). unfold bind at 1.
  destruct (bind_if_spec i clamp e2 z2 k _ T2) as (e3 & z3 & -> & M3 & T3). unfold bind at 1.
  pose proof (bind_passive_spec i exit 0 def_gating_cdev_sampling_period e3) as H4. rewrite T3 in H4.
  destruct H4 as (e4 & z4 & -> & M4 & T4). cbn [Z.eqb THD_SUCCESS THD_ERROR].
  destruct (activated i e4 z4 k _ T4) as (z5 & T5 & A5). unfold bind.
  destruct (on_zone i tt (set_zone_active created) e4) as [[] e5]. exists e5, z5. split; [done|]. split; [|done].
  cbn in T5. rewrite T5. unfold with_binding. by rewrite M3, M2, M1.
Qed.

(** ** Where the gates stand *)

Definition type_at (s : machine X W) (j : nat) : string := from_option type_str "" (m_cdevs s !! j).

Lemma with_device_new s c inf per t :
  Forall (fun x => type_at s (tc_cdev x) <> type_at s c) (cdevs t) ->
  cdevs (with_device s c inf per t) = std_sort trip_cdev_sort
    (cdevs t ++ [(new_trip_cdev c) <| influence := inf |> <| sampling_priod := per |>
       <| tc_target_state_valid := 0 |> <| target_state := 0 |> <| tc_min_max_valid := 0 |>]).
Proof.
  intros Hf. unfold with_device, thd_trip_point_add_cdev, trip_cdev_add. cbn -[std_sort].
  unfold check_duplicate. rewrite (proj2 (list_find_None _ _)); [done|exact Hf].
Qed.

(** The trip sorts its devices by influence, and the gates have none. *)
Lemma with_binding_order s r c entry exit t :
  cdevs t = [] -> NoDup (map (type_at s) [r; c; entry; exit]) ->
  map tc_cdev (cdevs (with_binding s (Some r) (Some c) entry exit t)) = [r; c; entry; exit].
Proof.
  intros Ht Hd. apply NoDup_cons in Hd as [H1 Hd]. apply NoDup_cons in Hd as [H2 Hd]. apply NoDup_cons in Hd as [H3 _].
  cbn in H1, H2, H3. assert (Hne : type_at s r <> type_at s c /\ type_at s r <> type_at s entry /\
    type_at s r <> type_at s exit /\ type_at s c <> type_at s entry /\ type_at s c <> type_at s exit /\
    type_at s entry <> type_at s exit).
  { repeat split; intros E; rewrite E in *; set_solver. }
  destruct Hne as (N1 & N2 & N3 & N4 & N5 & N6). unfold with_binding, with_optional. cbn [from_option].
  rewrite with_device_new; rewrite with_device_new; rewrite ?with_device_new; rewrite ?with_device_new; rewrite ?Ht;
    try (repeat constructor; cbn; congruence); reflexivity.
Qed.

(** The heap with the two gates of a zone. *)
Definition with_gates (id : Z) (i : nat) (name : string) (e : ENG) : ENG :=
  let '(_, e1) := alloc_gate as_gate id i true (name +:+ "_" +:+ "cpu_gate_entry") e in
  snd (alloc_gate as_gate (id + 1) i false (name +:+ "_" +:+ "cpu_gate_exit") e1).

Lemma length_with_gates id i name e : n_cdevs (mach (with_gates id i name e)) = S (S (n_cdevs (mach e))).
Proof. unfold n_cdevs. cbn. rewrite !length_app. cbn. lia. Qed.

Lemma free_with_gates id i name e : snd (free_gates (n_cdevs (mach e)) (with_gates id i name e)) = e.
Proof.
  unfold free_gates, n_cdevs. cbn. rewrite <- app_assoc, take_app_length. by destruct e as [? []].
Qed.

Definition skipped (z : zone) (e : ENG) : bool :=
  blacklist_match TDRUNDIR uninit (z_type_str z) (m_w (mach e)) || zone_cdev_binded_status z.

Lemma try_zone_eq rapl clamp i id b (e : ENG) z :
  zones e !! i = Some z -> skipped z e = false ->
  let n := n_cdevs (mach e) in
  try_default_zone as_gate TDRUNDIR uninit created rapl clamp i id (b, e) =
    let '(kept, e') := bind_zone_devices created rapl clamp i n (S n) (with_gates id i (z_type_str z) e) in
    if kept then ((id + 2, true), (b <| cdev_list := cdev_list b ++ [mk_cpu_binding (z_type_str z) n (S n) i] |>, e'))
    else ((id + 2, false), (b, snd (free_gates n e'))).
Proof.
  intros Ez Hs n. unfold try_default_zone, bind at 1, get. rewrite Ez. fold (skipped z e). rewrite Hs.
  assert (El : forall d : cdev X, length (m_cdevs (mach e) ++ [d]) = S n).
  { intros d. rewrite length_app. cbn. unfold n, n_cdevs. lia. }
  unfold bind, on_eng, with_gates, alloc_gate. cbn -[bind_zone_devices free_gates]. rewrite El.
  destruct (bind_zone_devices _ _ _ _ _ _ _) as [[] e']; [done|]. by destruct (free_gates _ e') as [[] ?].
Qed.

(** A zone that is skipped, one whose gates are destroyed again, one that is bound. *)
Lemma try_zone_spec rapl clamp i id b (e : ENG) :
  let r := try_default_zone as_gate TDRUNDIR uninit created rapl clamp i id (b, e) in
  (exists id', r = ((id', false), (b, e))) \/
  exists z k t e' z', zones e !! i = Some z /\ passive_trip i e = Some (z, k, t) /\
    let n := n_cdevs (mach e) in let g := with_gates id i (z_type_str z) e in
    bind_zone_devices created rapl clamp i n (S n) g = (true, e') /\
    passive_trip i e' = Some (z', k, with_binding (mach g) rapl clamp n (S n) t) /\ zone_active z' = true /\
    r = ((id + 2, true), (b <| cdev_list := cdev_list b ++ [mk_cpu_binding (z_type_str z) n (S n) i] |>, e')).
Proof.
  intros r. destruct (zones e !! i) as [z|] eqn:Ez.
  2:{ left. subst r. unfold try_default_zone, bind at 1, get. rewrite Ez. by eexists. }
  destruct (skipped z e) eqn:Es.
  { left. subst r. unfold try_default_zone, bind at 1, get. rewrite Ez. fold (skipped z e). rewrite Es. by eexists. }
  subst r. rewrite (try_zone_eq _ _ _ _ _ _ _ Ez Es).
  set (n := n_cdevs (mach e)). set (g := with_gates id i (z_type_str z) e).
  pose proof (bind_zone_devices_spec rapl clamp i n (S n) g) as Hb. change (passive_trip i g) with (passive_trip i e) in Hb.
  destruct (passive_trip i e) as [[[z0 k] t]|] eqn:Ep.
  - right. assert (z0 = z) as ->.
    { unfold passive_trip in Ep. rewrite Ez in Ep. destruct (list_find _ _) as [[]|]; [|done]. by simplify_eq/=. }
    destruct Hb as (e' & z' & E & T & A). rewrite E. by exists z, k, t, e', z'.
  - left. rewrite Hb. subst g n. rewrite free_with_gates. by eexists.
Qed.

(** ** The gates outlive the trips *)

Definition gates_live (b : default_binding) (e : ENG) : Prop :=
  Forall (fun x => cdev_gate_entry x < n_cdevs (mach e) /\ cdev_gate_exit x < n_cdevs (mach e))%nat (cdev_list b).

(** Valid pointers, no device lost, gates alive. *)
Definition keeps_gates (a a' : default_binding * ENG) : Prop :=
  engine_ok (snd a) -> gates_live (fst a) (snd a) ->
  (n_cdevs (mach (snd a)) <= n_cdevs (mach (snd a')))%nat /\ engine_ok (snd a') /\ gates_live (fst a') (snd a').

#[local] Instance keeps_gates_preorder : PreOrder keeps_gates.
Proof.
  split; [by intros a Ha Hg|]. intros a b c Hab Hbc Ha Hg. destruct (Hab Ha Hg) as (H1 & H2 & H3).
  destruct (Hbc H2 H3) as (H4 & H5 & H6). split; [lia|]. by split.
Qed.

Lemma gates_live_mono b (e e' : ENG) : (n_cdevs (mach e) <= n_cdevs (mach e'))%nat -> gates_live b e -> gates_live b e'.
Proof. intros Hn Hg. eapply Forall_impl; [exact Hg|]. cbn. lia. Qed.

Lemma p_bind_passive c n i p inf per : (p < c)%nat -> steps (safe_e c n) (@bind_passive X W i p inf per).
Proof. intros Hp. apply p_on_zone, p_bind_cooling. done. Qed.

Lemma p_bind_if c n i p : below c p -> steps (safe_e c n) (@bind_if X W i p).
Proof.
  intros Hp. destruct p as [p|]; [|apply steps_ret; typeclasses eauto].
  apply steps_bind; [typeclasses eauto|by apply p_bind_passive|]. intros. apply steps_ret. typeclasses eauto.
Qed.
Hint Resolve p_bind_passive p_bind_if : ptr.

Lemma p_bind_zone_devices c n rapl clamp i entry exit :
  below c rapl -> below c clamp -> (entry < c)%nat -> (exit < c)%nat ->
  steps (safe_e c n) (@bind_zone_devices X W created rapl clamp i entry exit).
Proof. intros H1 H2 H3 H4. unfold bind_zone_devices. ptr_tac. Qed.

Lemma with_gates_ok id i name (e : ENG) : engine_ok e -> engine_ok (with_gates id i name e).
Proof.
  intros [Hz Hs]. split; [|exact Hs]. rewrite length_with_gates. eapply zones_ok_mono; [| |exact Hz]; [lia|done].
Qed.

Lemma try_zone_keeps rapl clamp i id (a : default_binding * ENG) :
  below (n_cdevs (mach (snd a))) rapl -> below (n_cdevs (mach (snd a))) clamp ->
  keeps_gates a (snd (try_default_zone as_gate TDRUNDIR uninit created rapl clamp i id a)).
Proof.
  destruct a as [b e]. cbn [snd]. intros Hr Hc.
  destruct (try_zone_spec rapl clamp i id b e) as [[id' E]|(z & k & t & e' & z' & Ez & Ep & Eb & _ & _ & E)]; rewrite E.
  { reflexivity. }
  intros He Hg. cbn [fst snd] in *. set (n := n_cdevs (mach e)) in *.
  pose proof (length_with_gates id i (z_type_str z) e) as Hlen. fold n in Hlen.
  destruct (p_bind_zone_devices (S (S n)) 0 rapl clamp i n (S n)) with (s := with_gates id i (z_type_str z) e) as (H1 & _ & H2);
    try (by apply with_gates_ok); try (eapply below_mono; [|eassumption]); try lia.
  rewrite Eb in H1, H2. cbn [snd] in H1, H2. rewrite Hlen in H1. split; [lia|]. split; [done|].
  unfold gates_live. cbn. apply Forall_app. split; [eapply gates_live_mono; [|exact Hg]; unfold n in *; lia|].
  repeat constructor; cbn; lia.
Qed.

Lemma try_zones_keep rapl clamp l id any (a : default_binding * ENG) :
  engine_ok (snd a) -> gates_live (fst a) (snd a) ->
  below (n_cdevs (mach (snd a))) rapl -> below (n_cdevs (mach (snd a))) clamp ->
  keeps_gates a (snd (try_zones as_gate TDRUNDIR uninit created rapl clamp l id any a)).
Proof.
  revert id any a. induction l as [|i l IH]; intros id any a He Hg Hr Hc; [reflexivity|].
  cbn [try_zones]. unfold bind. pose proof (try_zone_keeps rapl clamp i id a Hr Hc) as H1.
  destruct (try_default_zone as_gate TDRUNDIR uninit created rapl clamp i id a) as [[id' bound] a1]. cbn [snd] in H1.
  destruct (H1 He Hg) as (Hn & He1 & Hg1). etransitivity; [exact H1|].
  apply IH; [done|done|by eapply below_mono|by eapply below_mono].
Qed.

Lemma on_w_keeps {A} (m : State W A) : steps keeps_gates (on_eng (on_w (X := X) m)).
Proof.
  intros [b e] He Hg. unfold on_eng, on_w, on_mach, on_world. destruct (m (m_w (mach e))) as [a w]. done.
Qed.

Lemma set_max_keeps mx :
  steps keeps_gates (modify (fun '(b, e) => ((b : default_binding) <| cpu_package_max_power := mx |>, e : ENG))).
Proof. by intros [b e] He Hg. Qed.

(** No trip is left with a pointer to a destroyed gate.  Whatever zones are
    bound, skipped or found to have no passive trip, every device pointer of
    every trip leads to a device afterwards, none of the engine's devices is
    lost, and the gates of the bindings that are kept are alive. *)
Theorem default_binding_keeps_gates (e : ENG) :
  engine_ok e ->
  let '(_, (b', e')) := do_default_binding as_gate TDRUNDIR uninit garbage created (new_default_binding, e) in
  engine_ok e' /\ gates_live b' e' /\ (n_cdevs (mach e) <= n_cdevs (mach e'))%nat.
Proof.
  intros He. enough (Hk : keeps_gates (new_default_binding, e)
    (snd (do_default_binding as_gate TDRUNDIR uninit garbage created (new_default_binding, e)))).
  { destruct (do_default_binding _ _ _ _ _ _) as [[] [b' e']]. destruct (Hk He ltac:(constructor)) as (H1 & H2 & H3). done. }
  pose proof (search_cdev_below "rapl_controller" (mach e)) as Hr.
  pose proof (search_cdev_below "intel_powerclamp" (mach e)) as Hc.
  unfold do_default_binding, bind at 1, get. set (l := seq 0 _).
  set (r := search_cdev "rapl_controller" _) in *. set (c := search_cdev "intel_powerclamp" _) in *.
  pose proof (try_zones_keep r c l 4096 false (new_default_binding, e) He ltac:(constructor) Hr Hc) as Ht.
  destruct r, c; try reflexivity; unfold bind at 1;
    (destruct (try_zones _ _ _ _ _ _ _ _ _ _) as [[] a1]; [|exact Ht]; etransitivity; [exact Ht|];
     apply steps_bind; [typeclasses eauto|apply on_w_keeps|intros; apply set_max_keeps]).
Qed.

(** The gates do not guard the coolers.  The comment at the top of the source has
    the entry gate open the way to RAPL and the power clamp, but the trip sorts
    its devices by influence, and the gates are bound with the least: in a zone
    that is bound to both, the trip drives the coolers first, then the gates. *)
Theorem gates_behind_coolers r c i id b (e : ENG) z k t :
  zones e !! i = Some z -> skipped z e = false -> passive_trip i e = Some (z, k, t) -> cdevs t = [] ->
  let n := n_cdevs (mach e) in
  NoDup (map (type_at (mach (with_gates id i (z_type_str z) e))) [r; c; n; S n]) ->
  exists e' z' t', passive_trip i e' = Some (z', k, t') /\ zone_active z' = true /\
    (exists coolers gates, map tc_cdev (cdevs t') = coolers ++ gates /\ coolers ≡ₚ [r; c] /\ gates ≡ₚ [n; S n]) /\
    try_default_zone as_gate TDRUNDIR uninit created (Some r) (Some c) i id (b, e) =
      ((id + 2, true), (b <| cdev_list := cdev_list b ++ [mk_cpu_binding (z_type_str z) n (S n) i] |>, e')).
Proof.
  intros Ez Es Ep Ht n Hd. rewrite (try_zone_eq _ _ _ _ _ _ _ Ez Es). fold n.
  set (g := with_gates id i (z_type_str z) e) in *.
  pose proof (bind_zone_devices_spec (Some r) (Some c) i n (S n) g) as Hb. change (passive_trip i g) with (passive_trip i e) in Hb.
  rewrite Ep in Hb. destruct Hb as (e' & z' & E & T & A). rewrite E.
  exists e', z'. eexists. split; [exact T|]. split; [done|]. split; [|done].
  exists [r; c], [n; S n]. split; [by apply with_binding_order|done].
Qed.
End binding.

(** ** The exit gate *)

Section exit_gate.
Context {X W : Type} `{InPlaceLaws W} {HM : CdevMethods X W} (TDRUNDIR uninit : string) (garbage : Z).

Lemma inactive_zone i (e : engine X W) z :
  zones e !! i = Some z ->
  let e' := snd (on_zone i tt set_zone_inactive e) in
  m_w (mach e') = m_w (mach e) /\ zones e' !! i = Some (z <| zone_active := false |>).
Proof.
  intros Ez. unfold on_zone. rewrite Ez. unfold set_zone_inactive, bind, getz, gets, on_machine, modz, modify, ret. cbn.
  destruct (first_virtual z (mach e)) as [v|]; cbn; (split; [done|]); apply list_lookup_insert_eq; by eapply lookup_lt_Some.
Qed.

(** The exit gate counts a failure.  When it is driven, the zone is reset, its
    count in the file goes up by one (a zone without a count gets 0), and the
    zone becomes inactive when the count is above three. *)
Theorem exit_gate_counts b d i state arg (e e1 : engine X W) z rs :
  start (ext d) = false -> bind_zone (ext d) = Some i -> truthy state = true ->
  on_zone i tt (zone_reset 0) e = (tt, e1) -> zones e1 !! i = Some z ->
  c_str (z_type_str z) = z_type_str z -> (String.length (z_type_str z) <= 50)%nat ->
  is_stat uninit -> file_holds TDRUNDIR rs (m_w (mach e1)) -> writable TDRUNDIR (m_w (mach e1)) ->
  let count := count_exit (read_zone_stat TDRUNDIR uninit (z_type_str z) (m_w (mach e1))) in
  let '(_, (d', e')) := gate_set_curr_state TDRUNDIR uninit garbage b state arg (d, e) in
  d' = d /\ read_zone_stat TDRUNDIR uninit (z_type_str z) (m_w (mach e')) = Some (fst count) /\
  zones e' !! i = Some (if snd count then z <| zone_active := false |> else z).
Proof.
  intros Hs Hb Ht He Hz Hc Hl Hu Hf Hw count. unfold gate_set_curr_state, bind at 1, get. rewrite Hs, Ht, Hb. cbn [negb andb].
  unfold bind, on_engine. rewrite He. cbn -[count_exit set_zone_inactive update_zone_stat]. rewrite Hz. cbn [from_option]. fold count.
  assert (Hi : is_i32 (fst count)).
  { unfold count, count_exit. destruct (read_zone_stat _ _ _ _); cbn; [apply i32_range|done]. }
  destruct count as [failures inactive]. cbn [fst snd] in *.
  destruct (counter_after TDRUNDIR uninit rs (z_type_str z) failures _ Hu Hf Hw Hc Hl Hi) as (Hr & _).
  destruct inactive.
  - match goal with |- context [on_zone i tt set_zone_inactive ?e2] =>
      destruct (inactive_zone i e2 z Hz) as [Ew Ezone]; destruct (on_zone i tt set_zone_inactive e2) as [[] e3] end.
    cbn in Ew, Ezone |- *. by rewrite Ew.
  - done.
Qed.
End exit_gate.

(** * A board with a skin sensor *)

#[export] Instance sim_in_place : InPlace sim := {
  f_open_rw := fun path w => (bool_decide (is_Some (sim_files w !! path)), w);
  f_write := fun path pos data w =>
    let content := default "" (sim_files w !! path) in
    w <| sim_files := <[path := match pos with Some p => splice content p data | None => content +:+ data end]> (sim_files w) |>;
}.

#[export] Instance sim_in_place_laws : InPlaceLaws sim.
Proof.
  split; cbn.
  - intros path w ok w' E. by simplify_eq.
  - intros path w w' E. injection E as E _. by apply bool_decide_eq_true in E.
  - intros path w w' E. simplify_eq. cbn. apply lookup_insert_eq.
  - intros path pos data w content E Hp. rewrite lookup_insert_eq. by rewrite E.
  - intros path data w content E. rewrite lookup_insert_eq. by rewrite E.
Qed.

Definition blank_stat : string := store_le 56 0.
Definition empty_run : sim := mk_sim ∅ [] 0.
(** The file after a skin zone was counted once and a battery zone twice. *)
Definition counted : sim :=
  update_zone_stat "/run" blank_stat "batt" 1 (update_zone_stat "/run" blank_stat "skin" 0 empty_run).

Lemma counted_holds :
  file_holds "/run" [set_stat "skin" 0 blank_stat; set_stat "batt" 1 blank_stat] counted.
Proof. split; [repeat constructor|vm_compute; reflexivity]. Qed.

(** A third count of the skin zone, beside the battery zone's. *)
Lemma zone_stat_roundtrip_witness :
  let w := update_zone_stat "/run" blank_stat "skin" 3 counted in
  read_zone_stat "/run" blank_stat "skin" w = Some 3 /\ read_zone_stat "/run" blank_stat "batt" w = Some 1.
Proof.
  destruct (zone_stat_roundtrip "/run" blank_stat _ "skin" 3 counted eq_refl counted_holds) as (H1 & H2 & _).
  - split; [vm_compute; reflexivity|]. intros _. vm_compute. reflexivity.
  - reflexivity.
  - cbn. lia.
  - unfold is_i32, INT_MIN, INT_MAX. lia.
  - split; [exact H1|]. rewrite (H2 "batt") by discriminate. vm_compute. reflexivity.
Defined.

(** An engine with RAPL and the power clamp and one zone nothing is bound to. *)
Definition named (name : string) : cdev gen_ext := (new_cdev 0 "" GenSysfsCdev) <| type_str := name |>.
Definition skin_zone : zone :=
  (new_zone 0 "" SENSOR_INDEPENDENT) <| z_type_str := "skin" |>
    <| trip_points := [new_trip 0 CRITICAL 99000 0 0 0 PARALLEL; new_trip 1 PASSIVE 45000 0 0 0 PARALLEL] |>.
Definition skin_engine : engine gen_ext sim :=
  (new_engine "" (mk_preference 0 0)
    (mk_machine counted [named "rapl_controller"; named "intel_powerclamp"] [] [] 0 0 false 0 0))
  <| zones := [skin_zone] |>.
Definition plain_gate (g : gate_ext) : gen_ext := GenSysfsCdev.

Lemma default_binding_keeps_gates_witness :
  let '(_, (b, e)) := do_default_binding plain_gate "/run" blank_stat 0 true (new_default_binding, skin_engine) in
  engine_ok e /\ gates_live b e /\ map cdev_gate_entry (cdev_list b) = [2%nat] /\
  map (fun t => map tc_cdev (cdevs t)) (mbind trip_points (zones e)) = [[]; [0; 1; 2; 3]%nat].
Proof.
  pose proof (default_binding_keeps_gates plain_gate "/run" blank_stat 0 true skin_engine) as H.
  assert (Hok : engine_ok skin_engine) by (repeat constructor).
  specialize (H Hok). destruct (do_default_binding _ _ _ _ _ _) as [u [b e]] eqn:E. destruct H as (H1 & H2 & _).
  split; [exact H1|]. split; [exact H2|].
  assert (Eb : b = fst (snd (do_default_binding plain_gate "/run" blank_stat 0 true (new_default_binding, skin_engine)))) by (by rewrite E).
  assert (Ee : e = snd (snd (do_default_binding plain_gate "/run" blank_stat 0 true (new_default_binding, skin_engine)))) by (by rewrite E).
  rewrite Eb, Ee. split; vm_compute; reflexivity.
Defined.
