(* ===== verification/PointersStart.v ===== *)
(** Pointers stay valid while the daemon starts (EngineStart.v), while the
    default engine gathers its objects (EngineDefault.v) and under the calls of
    the D-Bus interface (DBus.v). *)
From stdpp Require Import base gmap strings list.
From Stdlib Require Import ZArith Lia.
From Stdlib Require String.
From S2P Require Import Prelude CString MeterData SysFs CFloat Pid Cdev CdevDevices CdevCpufreq CdevRapl Devices PowerMeter Machine Preference TripPoint Xml Parse Zone ZoneKinds Engine EngineUser EngineStart EngineAdaptive EngineDefault Platform DBus Pointers PointersEngine.

Open Scope string_scope.
Open Scope list_scope.
Open Scope Z_scope.

(** An engine together with members that hold no pointers. *)
Definition setup_mach {X W T} (a : T * engine X W) : machine X W := mach (snd a).
Definition setup_ok {X W T} (a : T * engine X W) : Prop := engine_ok (snd a).
Abbreviation safe_s := (safe setup_mach setup_ok).
Abbreviation gives_s := (gives setup_mach setup_ok).

(** * Start *)

Section start_ptr.
Context {X W D : Type} {HK : Kernel W} {HM : CdevMethods X W} {HL : LibXml W D}.
Context (TDCONFDIR TDRUNDIR : string) (generate_conf : string -> State W Z) (uninit_pid : pid_control_t).
Context (created : bool).
Abbreviation EM := (State (engine X W)).
Abbreviation SM := (State (setup D * engine X W)).

Lemma p_start_engine {A} c n (m : EM A) : steps (safe_e c n) m -> steps (safe_s c n) (start_engine (D := D) m).
Proof. intros Hm [u e]. unfold start_engine. specialize (Hm e). destruct (m e). exact Hm. Qed.
Lemma g_start_engine {A} c n Q (m : EM A) : gives_e c n Q m -> gives_s c n Q (start_engine (D := D) m).
Proof. intros Hm [u e]. unfold start_engine. specialize (Hm e). destruct (m e). exact Hm. Qed.

Lemma p_set_setup c n f : steps (safe_s c n) (@set_setup X W D f).
Proof. intros [u e] Hc Hn He. done. Qed.
Lemma p_get_setup c n : steps (safe_s c n) (@get_setup X W D).
Proof. apply steps_gets. typeclasses eauto. Qed.

Lemma p_defined {A B} c n (m : SM (option A)) (k : A -> SM (option B)) :
  steps (safe_s c n) m -> (forall a, steps (safe_s c n) (k a)) -> steps (safe_s c n) (defined m k).
Proof. intros Hm Hk. unfold defined. ptr_tac. Qed.
Hint Resolve p_start_engine g_start_engine p_set_setup p_get_setup : ptr.

(** The code of the start, along [defined] as well. *)
Ltac start_tac := repeat first [progress ptr_tac | apply p_defined | apply p_start_engine].

Lemma p_configured c n : steps (safe_s c n) (@configured X W D _ _ TDCONFDIR TDRUNDIR generate_conf uninit_pid).
Proof. unfold configured, engine_parser_init, engine_platform_matched, feature. start_tac. Qed.
Hint Resolve p_configured : ptr.

Lemma p_check_profile c n : steps (safe_e c n) (@check_acpi_platform_profile X W _).
Proof. apply p_on_w. Qed.

Lemma p_add_pcie c n : steps (safe_z c n) (@add_pcie X W).
Proof. unfold add_pcie. ptr_tac. Qed.

Lemma p_power_floor_zone c n : steps (safe_e c n) (@power_floor_zone X W _ TDRUNDIR created).
Proof.
  intros e. apply (p_try c n (ret (new_zone_dynamic (current_zone_index e) "power_floor"))
    (dynamic_zone_update TDRUNDIR 1 PASSIVE "power_floor" "intel_powerclamp") (fun _ => add_pcie ;; set_zone_active created)
    (fun e' => e' <| current_zone_index := i32 (current_zone_index e + 1) |>) (fun _ => ret tt) tt tt).
  - apply g_plain_zone. by repeat constructor.
  - intros. apply p_dynamic_update.
  - intros e' c' n'. apply steps_bind; [typeclasses eauto|apply p_add_pcie|intros; apply p_set_active].
  - done.
  - intros. ptr_tac.
Qed.
Hint Resolve p_check_profile p_power_floor_zone : ptr.

Lemma p_power_floor c n : steps (safe_e c n) (@enable_power_floor_event X W _ TDRUNDIR created).
Proof. unfold enable_power_floor_event. ptr_tac. Qed.
Hint Resolve p_power_floor : ptr.

Lemma p_engine_init c n rs rc rz (check : SM bool) pf ign ad :
  (forall c n, steps (safe_s c n) rs) -> (forall c n, steps (safe_s c n) rc) -> (forall c n, steps (safe_s c n) rz) ->
  (forall c n, steps (safe_s c n) check) ->
  steps (safe_s c n) (@thd_engine_init X W D _ _ TDCONFDIR TDRUNDIR generate_conf uninit_pid created rs rc rz check pf ign ad).
Proof. intros. unfold thd_engine_init, must, platform_supported. start_tac. Qed.

Lemma p_set_poll_interval c n v : steps (safe_m c n) (modify (fun s : machine X W => s <| m_poll_interval_sec := v |>)).
Proof. intros s. by apply safe_same. Qed.
Lemma p_set_timeout c n v : steps (safe_e c n) (@set_timeout X W v).
Proof. by apply p_mode. Qed.
Hint Resolve p_set_poll_interval p_set_timeout : ptr.

Lemma p_apply_configuration c n : steps (safe_s c n) (@apply_configuration X W D _ _ TDCONFDIR TDRUNDIR generate_conf uninit_pid).
Proof. unfold apply_configuration. start_tac. Qed.

Lemma p_after_thread c n : steps (safe_e c n) (@after_thread X W _ TDRUNDIR).
Proof. unfold after_thread. ptr_tac. Qed.
Hint Resolve p_apply_configuration p_after_thread : ptr.

Lemma p_engine_start c n os : steps (safe_s c n) (@thd_engine_start X W D _ _ TDCONFDIR TDRUNDIR generate_conf uninit_pid os).
Proof.
  unfold thd_engine_start, check_for_rt_kernel, open_pipe, poll_interval, choose_events, open_uevent, feature. start_tac.
Qed.
End start_ptr.

Ltac start_tac := repeat first [progress ptr_tac | apply p_defined | apply p_start_engine].
#[export] Hint Resolve p_start_engine g_start_engine p_set_setup p_get_setup p_configured p_engine_start
  p_set_poll_interval : ptr.

(** * The default engine *)

Section default_ptr.
Context {W D : Type} {HK : Kernel W} {HR : RaplEngine W} {HL : LibXml W D} (garbage : Z).
#[local] Instance ptr_devices : CdevMethods device W := device_methods garbage.
Context (TDCONFDIR TDRUNDIR : string) (generate_conf : string -> State W Z) (uninit_pid : pid_control_t).
Context (created : bool).
Abbreviation EM := (State (engine device W)).
Abbreviation SM := (State (setup D * engine device W)).
Abbreviation ZM := (State (zone * machine device W)).

Lemma p_config_list {A} c n (f : thermal_info_t -> list A) :
  steps (safe_s c n) (@config_list W D _ _ TDCONFDIR TDRUNDIR generate_conf uninit_pid A f).
Proof. unfold config_list. start_tac. Qed.

(** ** Sensors *)

Lemma p_set_async c n name : steps (safe_e c n) (@set_async W name).
Proof. unfold set_async. ptr_tac. Qed.
Lemma p_dts_inputs c n path l i : steps (safe_e c n) (@dts_inputs W _ path l i).
Proof. revert i. induction l as [|x l IH]; intros i; cbn [dts_inputs]; ptr_tac. Qed.
Hint Resolve p_config_list p_set_async p_dts_inputs : ptr.
Lemma p_dts_directories c n base l i : steps (safe_e c n) (@dts_directories W _ base l i).
Proof. revert i. induction l as [|x l IH]; intros i; cbn [dts_directories]; ptr_tac. Qed.
Hint Resolve p_dts_directories : ptr.
Lemma p_dts_sensors c n l i : steps (safe_e c n) (@dts_sensors W _ l i).
Proof. revert i. induction l as [|x l IH]; intros i; cbn [dts_sensors]; ptr_tac. Qed.
Hint Resolve p_dts_sensors : ptr.

Lemma p_add_power_sensor c n i : steps (safe_e c n) (@add_power_sensor W _ i).
Proof. unfold add_power_sensor. ptr_tac. Qed.
Hint Resolve p_add_power_sensor : ptr.

(** The links of a virtual sensor lead to sensors. *)
Lemma g_link_targets c n l i :
  gives_e c n (fun _ n' r => Forall (fun x => below n' (link_to x)) (fst r)) (@link_targets W _ l i).
Proof.
  revert c n i. induction l as [|t l IH]; intros c n i; cbn [link_targets].
  { apply gives_ret. constructor. }
  eapply gives_then; [apply g_on_mach, g_search_sensor|]. intros p c1 n1 Hc1 Hn1 Hp.
  eapply gives_then; [apply gives_steps; ptr_tac|]. intros i' c2 n2 Hc2 Hn2 _.
  eapply gives_then; [apply g_on_mach, g_search_sensor|]. intros q c3 n3 Hc3 Hn3 Hq.
  eapply gives_then; [apply IH|]. intros [links j] c4 n4 Hc4 Hn4 Hl.
  apply gives_ret. intros c5 n5 Hc5 Hn5. cbn in *. constructor; [eapply below_mono, Hq; lia|].
  eapply Forall_impl; [exact Hl|]. intros x. by apply below_mono.
Qed.

Lemma g_virtual_object c n x i :
  gives_e c n (fun _ n' r => sensor_ok n' (fst r))
    (match ts_link_sensors x with
    | [] =>
        e <- get ;;
        let link := tl_name (ts_sensor_link x) in
        ret (new_virtual i (ts_name x) link (search_sensor link (mach e)) (m_uninit (mach e))
               (tl_multiplier (ts_sensor_link x)) (tl_offset (ts_sensor_link x)), i)
    | l =>
        let* (links, index') := @link_targets W _ l i in
        ret ((new_virtual i (ts_name x) "" None 0 (double_of_Z 0) (double_of_Z 0))
               <| s_virtual := Some (mk_virtual links (double_of_Z 0) (double_of_Z 0) false false false 0
                                       def_polling_period []) |>, index')
    end).
Proof.
  destruct (ts_link_sensors x) as [|l0 l].
  - eapply gives_then; [apply g_get|]. intros e c1 n1 Hc1 Hn1 (He & -> & ->). apply gives_ret.
    intros c2 n2 Hc2 Hn2. apply new_virtual_ok. eapply below_mono, search_sensor_below. done.
  - eapply gives_then; [apply g_link_targets|]. intros [links j] c1 n1 Hc1 Hn1 Hl. apply gives_ret.
    intros c2 n2 Hc2 Hn2. unfold sensor_ok. cbn in *. eapply Forall_impl; [exact Hl|]. intros y. by apply below_mono.
Qed.

Lemma p_add_virtual c n x i : steps (safe_e c n) (@add_virtual W _ x i).
Proof.
  unfold add_virtual. eapply safe_then; [apply g_virtual_object|]. intros [sn j] c1 n1 Hc1 Hn1 Hsn.
  apply steps_bind; [typeclasses eauto| |ptr_tac]. apply p_on_mach, p_push_sensor. intros n' Hn'.
  eapply sensor_ok_mono; [exact Hn'|]. unfold sensor_ok in *. cbn in *. by destruct (s_virtual sn).
Qed.

Hint Resolve p_add_virtual : ptr.

Lemma p_add_config_sensors c n l i : steps (safe_e c n) (@add_config_sensors W _ l i).
Proof.
  revert c n i. induction l as [|x l IH]; intros c n i; cbn [add_config_sensors]; [ptr_tac|].
  unfold add_config_sensor, add_raw. ptr_tac.
Qed.

Lemma p_sysfs_sensors c n : steps (safe_e c n) (@sysfs_sensors W _ TDRUNDIR).
Proof. unfold sysfs_sensors, set_sensor_count. ptr_tac. Qed.
Hint Resolve p_add_config_sensors p_sysfs_sensors : ptr.

Lemma p_default_read_sensors c n :
  steps (safe_s c n) (@default_read_sensors W D _ _ TDCONFDIR TDRUNDIR generate_conf uninit_pid).
Proof. unfold default_read_sensors, set_sensor_count. start_tac. Qed.

(** ** Zones *)

Lemma p_bind_processor c n name : steps (safe_z c n) (@bind_processor W name).
Proof. unfold bind_processor. ptr_tac. Qed.
Hint Resolve p_bind_processor : ptr.

Lemma p_int340x c n ign : steps (safe_e c n) (@add_int340x_processor_dev W _ created ign).
Proof.
  unfold add_int340x_processor_dev, processor_zone. ptr_tac. apply p_on_zone.
  eapply safe_then; [apply g_getz|]. intros z c1 n1 Hc1 Hn1 [_ Hz].
  destruct (list_find _ (trip_points z)) as [[k t]|] eqn:E; [|ptr_tac].
  apply list_find_Some in E as (E & _ & _). assert (Ht : trip_ok c1 t) by by eapply Forall_lookup in Hz.
  ptr_tac. apply p_mod_trips with (f := fun l => <[k := _]> l). intros c' l Hc' Hl.
  apply Forall_insert; [done|]. by eapply trip_ok_mono, Ht.
Qed.

Lemma p_try_zone c n z update : (forall c n, zone_ok c n z) -> (forall c n, steps (safe_z c n) update) ->
  steps (safe_e c n) (@try_zone W _ created z update).
Proof.
  intros Hz Hup. apply (p_try c n (ret z) update (fun _ => set_zone_active created) (fun e => e) destroy_zone true false).
  - by apply g_plain_zone.
  - done.
  - intros. apply p_set_active.
  - done.
  - intros. apply p_destroy_zone.
Qed.

Lemma p_cpu_zone_entries c n rt base l i b :
  steps (safe_e c n) (@cpu_zone_entries W D _ _ TDCONFDIR TDRUNDIR created rt base l i b).
Proof.
  revert i b. induction l as [|x l IH]; intros i b; cbn [cpu_zone_entries]; [ptr_tac|]. ptr_tac.
  apply p_try_zone; [by repeat constructor|intros; apply p_cpu_update].
Qed.
Hint Resolve p_cpu_zone_entries : ptr.
Lemma p_cpu_zones c n rt l i : steps (safe_e c n) (@cpu_zones W D _ _ TDCONFDIR TDRUNDIR created rt l i).
Proof. revert i. induction l as [|x l IH]; intros i; cbn [cpu_zones]; ptr_tac. Qed.

Lemma p_config_trip_cdevs c n l b : steps (safe_t c n) (@config_trip_cdevs W l b).
Proof. revert c n b. induction l as [|x l IH]; intros c n b; cbn [config_trip_cdevs]; ptr_tac. Qed.
Hint Resolve p_config_trip_cdevs : ptr.
Lemma p_config_trip c n x : steps (safe_t c n) (@config_trip W x).
Proof. unfold config_trip. ptr_tac. Qed.
Lemma p_bind_config_cdevs c n ty l b : steps (safe_z c n) (@bind_config_cdevs W ty l b).
Proof. revert c n b. induction l as [|x l IH]; intros c n b; cbn [bind_config_cdevs]; ptr_tac. Qed.
Hint Resolve p_config_trip p_bind_config_cdevs : ptr.

Lemma p_merge_trip c n x : steps (safe_z c n) (@merge_trip W _ x).
Proof.
  unfold merge_trip. eapply safe_then; [eauto with ptr|]. intros [p|] c1 n1 Hc1 Hn1 Hp; [|ptr_tac].
  cbn [below from_option] in Hp. apply steps_bind; [typeclasses eauto|by apply p_bind_sensor|intros _].
  apply steps_if; [|ptr_tac]. apply steps_bind; [typeclasses eauto|ptr_tac|]. intros z.
  apply steps_bind; [typeclasses eauto|ptr_tac|]. intros id.
  eapply safe_then; [apply (g_build_zone _ _ _ _ (fun b t => (b, t))); unfold new_config_trip; eauto with ptr|].
  intros ? c2 n2 Hc2 Hn2 (b & t & -> & Ht). ptr_tac.
Qed.
Hint Resolve p_merge_trip : ptr.
Lemma p_merge_trips c n l b : steps (safe_z c n) (@merge_trips W _ l b).
Proof. revert b. induction l as [|x l IH]; intros b; cbn [merge_trips]; ptr_tac. Qed.
Hint Resolve p_merge_trips : ptr.
Lemma p_merge_zone c n x : steps (safe_z c n) (@merge_zone W _ created x).
Proof. unfold merge_zone. ptr_tac. Qed.
Hint Resolve p_merge_zone : ptr.

Lemma p_inactivate_cpu c n : steps (safe_e c n) (@inactivate_cpu W).
Proof. unfold inactivate_cpu. ptr_tac. Qed.
Hint Resolve p_inactivate_cpu : ptr.
Lemma p_disable_cpu_zone c n auto x : steps (safe_e c n) (@disable_cpu_zone W auto x).
Proof. unfold disable_cpu_zone. ptr_tac. Qed.
Hint Resolve p_disable_cpu_zone : ptr.

Lemma p_add_config_zones c n auto l i : steps (safe_e c n) (@add_config_zones W _ TDRUNDIR created auto l i).
Proof.
  revert i. induction l as [|x l IH]; intros i; cbn [add_config_zones]; [ptr_tac|]. unfold add_config_zone. ptr_tac.
  apply p_try_zone; [by repeat constructor|intros; apply p_generic_update].
Qed.

Hint Resolve p_int340x p_cpu_zones : ptr.

Lemma p_sysfs_zones c n ign rt : steps (safe_e c n) (@sysfs_zones W D _ _ TDCONFDIR TDRUNDIR created ign rt).
Proof.
  unfold sysfs_zones, set_zone_count. ptr_tac.
Qed.

Lemma p_power_zone c n i : steps (safe_e c n) (@power_zone W _ TDRUNDIR created i).
Proof.
  unfold power_zone, set_zone_count. ptr_tac. apply p_try_zone; [by repeat constructor|intros; apply p_rapl_power_update].
Qed.
Hint Resolve p_add_config_zones p_sysfs_zones p_power_zone : ptr.

Lemma p_default_read_zones c n ign :
  steps (safe_s c n) (@default_read_zones W D _ _ TDCONFDIR TDRUNDIR generate_conf uninit_pid created ign).
Proof. unfold default_read_zones, set_zone_count. start_tac. Qed.

(** ** Cooling devices *)

Lemma p_on_device {A} c n i (d : A) m : steps (safe_e c n) (@on_device W A i d m).
Proof. apply p_on_mach, p_on_cdev. Qed.
Lemma p_add_device c n d : steps (safe_e c n) (@add_device W _ _ garbage d).
Proof. unfold add_device. ptr_tac. Qed.
Hint Resolve p_on_device p_add_device : ptr.
Lemma p_add_replace_cdev c n x : steps (safe_e c n) (@add_replace_cdev W _ _ garbage x).
Proof. unfold add_replace_cdev. ptr_tac. Qed.
Hint Resolve p_add_replace_cdev : ptr.

Lemma p_set_alias c n i a : steps (safe_e c n) (@set_alias W i a).
Proof. apply p_on_device. Qed.
Hint Resolve p_set_alias : ptr.
Lemma p_add_rapl c n : steps (safe_e c n) (@add_rapl W _ _ garbage).
Proof. unfold add_rapl. ptr_tac. Qed.
Lemma p_add_rapl_mmio c n r a : steps (safe_e c n) (@add_rapl_mmio W _ _ garbage r a).
Proof. unfold add_rapl_mmio. ptr_tac. Qed.
Lemma p_add_processor_devices c n : steps (safe_e c n) (@add_processor_devices W _ _ garbage).
Proof. unfold add_processor_devices, add_backlight, next_cdev. ptr_tac. Qed.
Hint Resolve p_add_rapl p_add_rapl_mmio p_add_processor_devices : ptr.

Lemma p_default_read_cdevs c n dis force :
  steps (safe_s c n) (@default_read_cdevs W D _ _ _ garbage TDCONFDIR TDRUNDIR generate_conf uninit_pid dis force).
Proof. unfold default_read_cdevs. start_tac. Qed.

(** ** Creation and workarounds *)

Lemma p_create c n ign dis pf poll (check : SM bool) os icc ex conf :
  (forall c n, steps (safe_s c n) check) ->
  steps (safe_s c n) (@thd_engine_create_default_engine W D _ _ _ garbage TDCONFDIR TDRUNDIR generate_conf uninit_pid
    created ign dis pf poll check os icc ex conf).
Proof.
  intros Hcheck. unfold thd_engine_create_default_engine, parse_engine_features, default_init. start_tac.
  apply p_engine_init; [intros; apply p_default_read_sensors|intros; apply p_default_read_cdevs
    |intros; apply p_default_read_zones|exact Hcheck].
Qed.

Lemma p_workarounds c n we dis (mmio : EM unit) m :
  (forall c n, steps (safe_e c n) mmio) -> steps (safe_s c n) (@default_workarounds W D _ we dis mmio m).
Proof. intros Hm. unfold default_workarounds. start_tac. Qed.
End default_ptr.

#[export] Hint Resolve p_create p_default_read_zones p_workarounds : ptr.

(** * Calls of the interface *)

(** Reinit makes a new engine, so that objects may disappear with all pointers
    to them; what every call keeps is that the pointers are valid. *)
Definition stays_ok {X W T} (a b : T * engine X W) : Prop := setup_ok a -> setup_ok b.
#[export] Instance stays_ok_preorder {X W T} : PreOrder (@stays_ok X W T).
Proof. split; [by intros a Ha|]. intros a b c Hab Hbc Ha. by apply Hbc, Hab. Qed.

Lemma safe_stays {X W T A} (m : State (T * engine X W) A) : steps (safe_s 0 0) m -> steps stays_ok m.
Proof. intros Hm a Ha. destruct (Hm a ltac:(lia) ltac:(lia) Ha) as (_ & _ & Hb). exact Hb. Qed.

Section dbus_ptr.
Context {W D : Type} {HK : Kernel W} {HR : RaplEngine W} {HL : LibXml W D} (garbage : Z).
#[local] Instance ptr_bus_devices : CdevMethods device W := device_methods garbage.
Context (TDCONFDIR TDRUNDIR : string) (generate_conf : string -> State W Z) (uninit_pid : pid_control_t).
Context (depth meter_depth : nat) (created : bool) (os : os_answers).
Context (ignore_default_control disable_active_power power_floor_enable : bool) (thd_poll_interval : Z).
Abbreviation EM := (State (engine device W)).
Abbreviation SM := (State (setup D * engine device W)).
Context (check_cpu_id : SM bool) (exit_callback : option (State W unit)).
Context (check_safe : forall c n, steps (safe_s c n) check_cpu_id).

Lemma p_granted c n (m : EM Z) : steps (safe_e c n) m -> steps (safe_e c n) (granted m).
Proof. intros Hm. unfold granted. ptr_tac. Qed.
Lemma p_set_temperature c n (m : EM Z) : steps (safe_e c n) m -> steps (safe_e c n) (set_temperature m).
Proof. intros Hm. unfold set_temperature. ptr_tac. Qed.
Lemma p_acknowledged c n (m : EM bool) : steps (safe_e c n) m -> steps (safe_s c n) (acknowledged (D := D) m).
Proof. intros Hm. unfold acknowledged. ptr_tac. Qed.
Lemma p_answered c n (m : EM bool) : steps (safe_e c n) m -> steps (safe_s c n) (answered (D := D) m).
Proof. intros Hm. unfold answered. ptr_tac. Qed.
Lemma p_values c n (m : EM (option (list gvalue))) : steps (safe_e c n) m -> steps (safe_s c n) (values (D := D) m).
Proof. intros Hm. unfold values. ptr_tac. Qed.
Hint Resolve p_granted p_set_temperature p_acknowledged p_answered p_values : ptr.

Lemma p_run_changes c n m l : steps (safe_s c n) (@run_changes W D _ _ garbage TDRUNDIR created m l).
Proof.
  unfold run_changes, add_cooling_device, add_sensor, add_virtual_sensor, add_zone_passive, delete_zone, add_trip_point,
    delete_trip_point, disable_cooling_device. ptr_tac; apply p_acknowledged; ptr_tac.
Qed.

Lemma p_run_lists c n m l : steps (safe_s c n) (@run_lists W D _ _ garbage TDRUNDIR depth m l).
Proof.
  unfold run_lists, get_cdev_information, get_current_preference, get_sensor_information, sensor_temperature. ptr_tac; apply p_values; ptr_tac.
Qed.

Lemma p_run_zones c n m l : steps (safe_s c n) (@run_zones W D m l).
Proof. unfold run_zones, get_zone_status. ptr_tac; apply p_values; ptr_tac. Qed.

(** A new engine has no objects and no pointers. *)
Lemma fresh_engine_ok s w : setup_ok (@fresh_engine W D _ TDRUNDIR meter_depth s w).
Proof. unfold fresh_engine. destruct (new_power_meter _ _ w). by repeat constructor. Qed.

Abbreviation reinit' := (reinit garbage TDCONFDIR TDRUNDIR generate_conf uninit_pid meter_depth created os
  ignore_default_control disable_active_power power_floor_enable thd_poll_interval check_cpu_id).

Lemma reinit_stays : steps stays_ok reinit'.
Proof.
  unfold reinit. apply steps_bind; [typeclasses eauto|apply safe_stays; ptr_tac|intros u].
  apply steps_bind; [typeclasses eauto|apply safe_stays; ptr_tac|intros md]. cbv zeta.
  apply steps_bind; [typeclasses eauto|apply safe_stays; ptr_tac|intros [r|]]; [|apply safe_stays; ptr_tac].
  apply steps_bind; [typeclasses eauto|apply safe_stays; ptr_tac|intros _].
  apply steps_bind; [typeclasses eauto| |intros _].
  { intros [u0 e] _. apply fresh_engine_ok. }
  apply safe_stays. apply steps_bind; [typeclasses eauto| |ptr_tac]. by apply p_create.
Qed.

Lemma settings_stay m l : steps stays_ok (run_settings garbage TDCONFDIR TDRUNDIR generate_conf uninit_pid meter_depth
  created os ignore_default_control disable_active_power power_floor_enable thd_poll_interval check_cpu_id
  exit_callback m l).
Proof.
  destruct m; cbn [run_settings];
    try (apply safe_stays; unfold set_current_preference, set_user_max_temperature, set_user_passive_temperature,
      set_zone_status, terminate_daemon, update_cooling_device, add_cooling_device; start_tac;
      apply p_answered; ptr_tac).
  destruct l; [|apply safe_stays; ptr_tac]. apply steps_bind; [typeclasses eauto|apply reinit_stays|].
  intros. apply safe_stays. ptr_tac.
Qed.

Lemma call_stays name l : steps stays_ok (thd_dbus_handle_method_call garbage TDCONFDIR TDRUNDIR generate_conf uninit_pid
  depth meter_depth created os ignore_default_control disable_active_power power_floor_enable thd_poll_interval
  check_cpu_id exit_callback name l).
Proof.
  unfold thd_dbus_handle_method_call. apply steps_bind; [typeclasses eauto|apply safe_stays; ptr_tac|intros u].
  destruct (check_feature _ _) as [v|]; [|apply safe_stays; ptr_tac].
  apply steps_if; [apply safe_stays; ptr_tac|]. destruct (method_called _ _) as [m|]; [|apply safe_stays; ptr_tac].
  destruct m; cbn [run_method]; first [apply settings_stay|apply safe_stays];
    first [apply p_run_changes|apply p_run_lists|apply p_run_zones].
Qed.
End dbus_ptr.
