(* ===== verification/PointersAdaptive.v ===== *)
(** Pointers stay valid in the adaptive engine: the passive and ITMT tables it
    installs, the targets it executes (EngineAdaptive.v), its initialization and
    creation (EngineAdaptiveInit.v). *)
From stdpp Require Import base gmap strings list.
From Stdlib Require Import ZArith Lia SpecFloat.
From Stdlib Require String.
From S2P Require Import Prelude CString SysFs CFloat Pid Cdev CdevRapl Devices PowerMeter Machine Preference TripPoint Xml Parse Zone ZoneKinds Engine EngineUser EngineStart Gddv GddvConditions EngineAdaptive EngineDefault EngineAdaptiveInit Pointers PointersEngine PointersStart.

Open Scope string_scope.
Open Scope list_scope.
Open Scope Z_scope.

Section adaptive_ptr.
Context {X W : Type} {HK : Kernel W} {HM : CdevMethods X W} {HA : AdaptiveCdev X W}.
Context (TDRUNDIR : string) (depth : nat) (created : bool).
Abbreviation EM := (State (engine X W)).
Abbreviation ZM := (State (zone * machine X W)).
Abbreviation AM := (State (adaptive * engine X W)).

(** ** Conditions only read *)

Lemma p_evaluate_state c n base p slider x : steps (safe_m c n) (@evaluate_state X W _ base p slider depth x).
Proof. unfold evaluate_state, evaluate_oem_condition, evaluate_temperature_condition. ptr_tac. Qed.
Hint Resolve p_evaluate_state : ptr.
Lemma p_evaluate_condition c n base p slider cur x :
  steps (safe_m c n) (@evaluate_condition X W _ base p slider depth cur x).
Proof. unfold evaluate_condition. ptr_tac. Qed.
Hint Resolve p_evaluate_condition : ptr.
Lemma p_evaluate_set c n base p slider cur l : steps (safe_m c n) (@evaluate_condition_set X W _ base p slider depth cur l).
Proof. induction l as [|x l IH]; cbn [evaluate_condition_set]; ptr_tac. Qed.
Hint Resolve p_evaluate_set : ptr.
Lemma p_evaluate_sets c n base p slider cur l : steps (safe_m c n) (@evaluate_sets X W _ base p slider depth cur l).
Proof. induction l as [|x l IH]; cbn [evaluate_sets]; ptr_tac. Qed.
Hint Resolve p_evaluate_sets : ptr.
Lemma p_evaluate_conditions c n base p g : steps (safe_m c n) (@evaluate_conditions X W _ base p depth g).
Proof. unfold evaluate_conditions. ptr_tac. Qed.

(** ** Tables *)

Lemma find_cdev_below name (e : engine X W) : below (n_cdevs (mach e)) (find_cdev name e).
Proof.
  unfold find_cdev. pose proof (search_cdev_below name (mach e)) as H1. destruct (search_cdev name (mach e)); [exact H1|].
  destruct (compare_prefix name 4 "TCPU"); [apply search_cdev_below|done].
Qed.

Lemma p_install_trip c n t h s add : steps (safe_t c n) add -> steps (safe_z c n) (@install_trip X W _ created t h s add).
Proof.
  intros Hadd. unfold install_trip. apply steps_bind; [typeclasses eauto|ptr_tac|]. intros z.
  eapply safe_then; [apply (g_build_zone _ _ _ _ (fun _ t => t)); eauto with ptr|].
  intros ? c' n' Hc Hn (? & t' & -> & Ht). ptr_tac.
Qed.

(** A trip is installed in a zone, for a device that a search of this state
    found. *)
Lemma p_install c n (z : nat) t h s p i sp tv ts pid mm mn mx : (p < c)%nat ->
  steps (safe_e c n) (on_zone z tt (@install_trip X W _ created t h s (thd_trip_point_add_cdev p i sp tv ts pid mm mn mx))).
Proof. intros Hp. apply p_on_zone, p_install_trip. by apply p_add_cdev. Qed.

Lemma p_install_passive c n p : steps (safe_e c n) (@install_passive X W _ created p).
Proof.
  unfold install_passive. eapply safe_then; [apply g_get|]. intros e c' n' Hc Hn (He & -> & ->).
  destruct (find_zone _ e) as [[z|] name]; [|ptr_tac]. pose proof (find_cdev_below (part_name (psv_source p)) e) as Hp.
  destruct (find_cdev _ e) as [d|]; [|ptr_tac]. destruct (search_sensor name (mach e)); [|ptr_tac].
  apply steps_bind; [typeclasses eauto| |ptr_tac]. by apply p_install.
Qed.

Lemma p_install_itmt c n it : steps (safe_e c n) (@install_itmt X W _ created it).
Proof.
  unfold install_itmt. eapply safe_then; [apply g_get|]. intros e c' n' Hc Hn (He & -> & ->).
  destruct (find_zone _ e) as [[z|] name]; [|ptr_tac]. pose proof (search_cdev_below "rapl_controller_mmio" (mach e)) as Hp.
  destruct (search_cdev _ (mach e)) as [d|]; [|ptr_tac]. destruct (search_sensor name (mach e)); [|ptr_tac].
  apply steps_bind; [typeclasses eauto| |ptr_tac]. by apply p_install.
Qed.

Lemma p_set_trip c n t a : steps (safe_e c n) (@set_trip X W t a).
Proof.
  unfold set_trip. destruct (stof a); ptr_tac. apply p_on_zone, p_mod_trips.
  intros. apply Forall_update_first; [|done]. intros x Hx. exact Hx.
Qed.
Hint Resolve p_install_passive p_install_itmt p_set_trip : ptr.

(** ** Consolidation *)

Lemma first_target_invalid_ok c t : trip_ok c t -> trip_ok c (snd (set_first_target_invalid t)).
Proof.
  intros [H1 H2]. unfold set_first_target_invalid. destruct (cdevs t) as [|x l] eqn:E; [split; cbn; [by rewrite E|done]|].
  split; [|done]. cbn. inversion H1. by constructor.
Qed.
Lemma first_target_ok c st t : trip_ok c t -> trip_ok c (snd (set_first_target st t)).
Proof.
  intros [H1 H2]. unfold set_first_target. destruct (cdevs t) as [|x l] eqn:E; [split; cbn; [by rewrite E|done]|].
  split; [|done]. cbn. inversion H1. by constructor.
Qed.

(** A trip of the zone is replaced by one made of it. *)
Lemma p_replace_trip c n j t : trip_ok c t ->
  steps (safe_z c n) (@modz X W (fun z => z <| trip_points := <[j := t]> (trip_points z) |>)).
Proof.
  intros Ht. apply p_mod_trips with (f := fun l => <[j := t]> l). intros c' l Hc Hl.
  apply Forall_insert; [done|]. by eapply trip_ok_mono, Ht.
Qed.

Lemma p_consolidate_trip c n k j : steps (safe_z c n) (@consolidate_trip X W k j).
Proof.
  unfold consolidate_trip. eapply safe_then; [apply g_getz|]. intros z c' n' Hc Hn [_ Hz].
  destruct (trip_points z !! j) as [t|] eqn:Et; [|ptr_tac].
  assert (Ht : trip_ok c' t) by by eapply Forall_lookup in Hz.
  assert (Hb : steps (safe_z c' n') (@modz X W (fun z => z <| trip_points := <[j := bump_trip t]> (trip_points z) |>))).
  { apply p_replace_trip. exact (first_target_invalid_ok c' t Ht). }
  destruct (is_target_valid t) as [r ts]. apply steps_if; [|ptr_tac]. cbv zeta. apply steps_if; [exact Hb|].
  destruct (trip_points z !! S j) as [next|]; [|ptr_tac].
  destruct (get_first_cdev next) as [p|]; [|exact Hb]. destruct (next_target t next) as [nts|]; [|exact Hb].
  apply steps_bind; [typeclasses eauto|ptr_tac|]. intros m. apply p_replace_trip. exact (first_target_ok c' _ t Ht).
Qed.
Hint Resolve p_consolidate_trip : ptr.

Lemma p_consolidate_zone c n : steps (safe_z c n) (@consolidate_zone X W _).
Proof.
  unfold consolidate_zone. eapply safe_then; [apply g_getz|]. intros z c' n' Hc Hn [_ Hz]. cbv zeta.
  destruct (trip_points z) as [|t l] eqn:Et; [ptr_tac|]. apply steps_if; [|ptr_tac].
  destruct (get_first_cdev t) as [p|] eqn:Ep; [|ptr_tac].
  assert (Hp : (p < c')%nat).
  { apply Forall_cons in Hz as [[Ht _] _]. unfold get_first_cdev in Ep. destruct (cdevs t); [done|].
    injection Ep as <-. by apply Forall_cons in Ht as [? _]. }
  eapply safe_then; [apply g_on_machine, g_add_default_cdev; [exact Hp|apply new_trip_ok]|]. ptr_tac.
Qed.

Lemma p_clear_zone c n : steps (safe_z c n) (@clear_zone X W _ _).
Proof.
  unfold clear_zone, zone_reset. ptr_tac; [apply p_reset_trips|].
  apply p_modz. intros c' n' z _ _ [H1 _]. by split; [|constructor].
Qed.
Hint Resolve p_clear_zone : ptr.
Hint Resolve p_consolidate_zone : ptr.

(** ** Targets *)

Lemma p_on_engine {A} c n (m : EM A) : steps (safe_e c n) m -> steps (safe_s c n) (on_engine m).
Proof. intros Hm [a e]. unfold on_engine. specialize (Hm e). destruct (m e). exact Hm. Qed.
Lemma p_geta c n : steps (safe_s c n) (@geta X W).
Proof. apply steps_gets. typeclasses eauto. Qed.
Lemma p_moda c n f : steps (safe_s c n) (@moda X W f).
Proof. intros [a e] Hc Hn He. done. Qed.
Lemma p_evaluate c n p : steps (safe_s c n) (@evaluate X W _ depth p).
Proof.
  intros [a e]. unfold evaluate.
  pose proof (p_on_mach c n _ (p_evaluate_conditions c n (adaptive_base_path a) p (the_gddv a)) e) as Hm.
  unfold on_mach in Hm. destruct (evaluate_conditions _ _ _ _ _) as [[t g] s]. exact Hm.
Qed.
Hint Resolve p_on_engine p_geta p_moda p_evaluate : ptr.

Lemma p_clear_zones c n keep : steps (safe_e c n) (@clear_zones X W _ _ keep).
Proof. unfold clear_zones. apply p_for_zones. ptr_tac. Qed.
Lemma p_psvt_consolidate c n : steps (safe_e c n) (@psvt_consolidate X W _).
Proof. unfold psvt_consolidate. apply p_for_zones. intros. apply p_consolidate_zone. Qed.
Hint Resolve p_clear_zones p_psvt_consolidate : ptr.

(** Loops over a table. *)
Lemma p_for_each {A B} c n (l : list A) (f : A -> EM B) :
  (forall a, steps (safe_e c n) (f a)) -> steps (safe_s c n) (on_engine (mfor l (fun a => f a ;; ret tt))).
Proof. intros Hf. apply p_on_engine. ptr_tac. Qed.
Hint Resolve p_for_each : ptr.

Lemma p_set_itmt_target c n t : steps (safe_s c n) (@set_itmt_target X W _ _ TDRUNDIR created t).
Proof. unfold set_itmt_target. ptr_tac. apply p_on_engine, p_for_zones. ptr_tac. Qed.
Lemma p_set_psvt_target c n t : steps (safe_s c n) (@set_psvt_target X W _ _ created t).
Proof. unfold set_psvt_target. ptr_tac. Qed.
Hint Resolve p_set_itmt_target p_set_psvt_target : ptr.
Lemma p_set_int3400_target c n t : steps (safe_s c n) (@set_int3400_target X W _ _ TDRUNDIR created t).
Proof. unfold set_int3400_target. ptr_tac. Qed.
Hint Resolve p_set_int3400_target : ptr.

Lemma p_passive_default c n : steps (safe_s c n) (@install_passive_default X W _ _ created).
Proof. unfold install_passive_default. ptr_tac. Qed.
Hint Resolve p_passive_default : ptr.

Lemma p_execute_target c n t : steps (safe_s c n) (@execute_target X W _ _ _ TDRUNDIR created t).
Proof. unfold execute_target. ptr_tac; apply p_on_engine, steps_gets; typeclasses eauto. Qed.
Hint Resolve p_execute_target : ptr.
Lemma p_execute_targets c n id l : steps (safe_s c n) (@execute_targets X W _ _ _ TDRUNDIR created id l).
Proof. induction l as [|t l IH]; cbn [execute_targets]; unfold unless_stopped; ptr_tac. Qed.
Hint Resolve p_execute_targets : ptr.

Lemma p_update_adaptive_state c n p : steps (safe_s c n) (@update_adaptive_state X W _ _ _ TDRUNDIR depth created p).
Proof. unfold update_adaptive_state, apply_target, exec_fallback_target, unless_stopped. ptr_tac. Qed.

Lemma p_prepare_start c n p : steps (safe_s c n) (@prepare_start X W _ _ depth created p).
Proof. unfold prepare_start, choose_fallback. ptr_tac. Qed.
End adaptive_ptr.

#[export] Hint Resolve p_update_adaptive_state p_prepare_start : ptr.

(** * Initialization *)

Definition tables_mach {X W D} (a : adaptive * (setup D * engine X W)) : machine X W := mach (snd (snd a)).
Definition tables_ok {X W D} (a : adaptive * (setup D * engine X W)) : Prop := engine_ok (snd (snd a)).
Abbreviation safe_i := (safe tables_mach tables_ok).

Section init_ptr.
Context {W D : Type} {HK : Kernel W} {HR : RaplEngine W} {HL : LibXml W D} (garbage : Z).
#[local] Instance ptr_vault_devices : CdevMethods device W := device_methods garbage.
Context (TDCONFDIR TDRUNDIR : string) (generate_conf : string -> State W Z) (uninit_pid : pid_control_t).
Context (created : bool) (LzmaDecode : list Z -> Z -> Z * list Z) (can_alloc : Z -> bool).
Context (ignore_default_control disable_active_power power_floor_enable : bool).
Context (check_cpu_id : State (setup D * engine device W) bool).
Context (check_safe : forall c n, steps (safe_s c n) check_cpu_id).
Abbreviation EM := (State (engine device W)).
Abbreviation SM := (State (setup D * engine device W)).

Lemma p_on_setup {A} c n (m : SM A) : steps (safe_s c n) m -> steps (safe_i c n) (on_setup m).
Proof. intros Hm [a s]. unfold on_setup. specialize (Hm s). destruct (m s). exact Hm. Qed.
Lemma p_adjust c n f : steps (safe_i c n) (@adjust W D f).
Proof. intros [a s] Hc Hn He. done. Qed.
Lemma p_on_world_of {A} c n (m : State W A) : steps (safe_i c n) (on_world_of (D := D) m).
Proof. apply p_on_setup, p_start_engine, p_on_w. Qed.
Lemma p_on_tables {A} c n (m : State (adaptive * engine device W) A) :
  steps (safe_s c n) m -> steps (safe_i c n) (on_tables (D := D) m).
Proof. intros Hm [a [u e]]. unfold on_tables. specialize (Hm (a, e)). destruct (m (a, e)) as [r [a' e']]. exact Hm. Qed.
Lemma p_returns c n r : steps (safe_i c n) (@returns_z W D r).
Proof. apply steps_ret. typeclasses eauto. Qed.
Hint Resolve p_on_setup p_adjust p_on_world_of p_on_tables p_returns : ptr.

Lemma p_locate_vault c n : steps (safe_i c n) (@locate_vault W D _ TDRUNDIR).
Proof. unfold locate_vault. ptr_tac. Qed.

Lemma g_vsct_links c n l :
  gives_e c n (fun _ n' r => from_option (Forall (fun x => below n' (link_to x))) True r) (@vsct_links W _ l).
Proof.
  revert c n. induction l as [|v l IH]; intros c n; cbn [vsct_links]; [apply gives_ret; constructor|]. cbv zeta.
  eapply gives_then; [apply g_on_mach, g_search_sensor|]. intros p c1 n1 Hc1 Hn1 _.
  eapply gives_then; [apply gives_steps; ptr_tac|]. intros [] c2 n2 Hc2 Hn2 _; cbn [negb]; [|by apply gives_ret].
  eapply gives_then; [apply g_on_mach, g_search_sensor|]. intros q c3 n3 Hc3 Hn3 Hq.
  eapply gives_then; [apply IH|]. intros [links|] c4 n4 Hc4 Hn4 Hl; [|by apply gives_ret].
  apply gives_ret. intros c5 n5 Hc5 Hn5. cbn in *. constructor; [eapply below_mono, Hq; lia|].
  eapply Forall_impl; [exact Hl|]. intros x. by apply below_mono.
Qed.

Lemma p_virtual_zone c n name : steps (safe_e c n) (@virtual_zone W _ TDRUNDIR created name).
Proof.
  intros e. apply (p_try c n (ret (new_zone_dynamic (current_zone_index e) name))
    (dynamic_zone_update TDRUNDIR 4294967295 PASSIVE name "intel_powerclamp") (fun _ => set_zone_active created)
    (fun e' => e' <| current_zone_index := i32 (current_zone_index e + 1) |>) (fun _ => ret tt) tt tt).
  - apply g_plain_zone. by repeat constructor.
  - intros. apply p_dynamic_update.
  - intros. apply p_set_active.
  - done.
  - intros. ptr_tac.
Qed.
Hint Resolve p_locate_vault p_virtual_zone : ptr.

Lemma p_vault_sensor c n g : steps (safe_e c n) (@vault_sensor W _ TDRUNDIR created g).
Proof.
  unfold vault_sensor. destruct (vscts g) as [|v l]; [ptr_tac|]. cbv zeta. apply steps_if; [ptr_tac|].
  apply steps_bind; [typeclasses eauto|apply steps_get; typeclasses eauto|]. intros e.
  eapply safe_then; [apply g_vsct_links|]. intros [links|] c1 n1 Hc1 Hn1 Hl; [|ptr_tac]. cbv zeta.
  apply steps_bind; [typeclasses eauto| |ptr_tac]. apply p_on_mach, p_push_sensor. intros n' Hn'.
  unfold sensor_ok. cbn in *. eapply Forall_impl; [exact Hl|]. intros x. by apply below_mono.
Qed.

Lemma p_processor_listed c n b : steps (safe_i c n) (@processor_listed W D check_cpu_id b).
Proof. unfold processor_listed. ptr_tac. Qed.
Lemma p_load_vault c n : steps (safe_i c n) (@load_vault W D _ LzmaDecode can_alloc).
Proof. unfold load_vault. ptr_tac. Qed.
Hint Resolve p_vault_sensor p_processor_listed p_load_vault : ptr.

Lemma p_default_init c n force icc ad :
  steps (safe_s c n) (@default_init W D _ _ _ garbage TDCONFDIR TDRUNDIR generate_conf uninit_pid created
    ignore_default_control disable_active_power power_floor_enable check_cpu_id force icc ad).
Proof.
  unfold default_init. apply p_engine_init; [intros; apply p_default_read_sensors|intros; apply p_default_read_cdevs
    |intros; apply p_default_read_zones|exact check_safe].
Qed.
Lemma p_parse_features c n : steps (safe_s c n) (@parse_engine_features W D _ _ TDCONFDIR).
Proof. unfold parse_engine_features. ptr_tac. Qed.
Hint Resolve p_default_init p_parse_features : ptr.

Lemma p_adaptive_init c n icc ad :
  steps (safe_i c n) (@thd_adaptive_init W D _ _ _ garbage TDCONFDIR TDRUNDIR generate_conf uninit_pid created LzmaDecode
    can_alloc ignore_default_control disable_active_power power_floor_enable check_cpu_id icc ad).
Proof. unfold thd_adaptive_init. ptr_tac; apply p_on_setup; ptr_tac; apply p_check_profile. Qed.
Hint Resolve p_adaptive_init : ptr.

Lemma p_create_adaptive c n poll depth p os icc test :
  steps (safe_i c n) (@thd_engine_create_adaptive_engine W D _ _ _ garbage TDCONFDIR TDRUNDIR generate_conf uninit_pid created
    LzmaDecode can_alloc ignore_default_control disable_active_power power_floor_enable check_cpu_id poll depth p os icc test).
Proof. unfold thd_engine_create_adaptive_engine, start_adaptive. ptr_tac. Qed.
End init_ptr.
