(* ===== verification/Daemon.v ===== *)
(** The running daemon: its engine as a transition system.

    After [thd_engine_create_default_engine], or the function for the adaptive
    engine, the object is changed by three threads: the engine's own
    ([iteration], fed with what [poll] returns), the GLib loop with the method
    calls of the D-Bus interface, and the sampling threads of virtual sensors
    ([sampling_round]).  The first two take the engine's lock around every walk
    over zones, sensors and devices ([thd_engine_lock] in
    src/thd_engine.cpp, the lock guards of the [user_] functions), so a step here
    is one iteration, one call or one sample; a data race of a sampling thread
    is not a state of this model.

    The whole object travels with the world: [object] holds the members the
    start and the subclasses add, so that the virtual functions, which act on an
    [engine], reach them. *)
From stdpp Require Import base gmap strings list relations.
From Stdlib Require Import ZArith Lia.
From Stdlib Require String.
From S2P Require Import Prelude CString MeterData SysFs CFloat Pid Cdev CdevDevices CdevCpufreq CdevRapl Devices PowerMeter Machine Preference TripPoint Xml Parse ParseCodec Zone ZoneKinds ZoneFrame Engine EngineUser EngineTheorems Emergency EngineStart Gddv GddvConditions EngineAdaptive EngineDefault EngineAdaptiveInit Platform EngineCalm DBus Pointers PointersEngine PointersStart PointersAdaptive.

Open Scope string_scope.
Open Scope list_scope.
Open Scope Z_scope.

(** * The object and its world *)

(** Without tables it is a [cthd_engine_default], with tables a
    [cthd_engine_adaptive].  [o_ended]: an update of the policy ended the process. *)
Record object (D : Type) := mk_object {
  o_setup : setup D;
  o_members : default_members;
  o_tables : option adaptive;
  o_ended : option stop;
}.
Arguments mk_object {D}. Arguments o_setup {D}. Arguments o_members {D}. Arguments o_tables {D}. Arguments o_ended {D}.
#[export] Instance eta_object {D} : Eta (object D) := {| eta_of := fun x =>
  mk_object (o_setup x) (o_members x) (o_tables x) (o_ended x) |}.
Definition new_object {D} (tables : option adaptive) : object D := mk_object (new_setup "") new_default tables None.

(** What the libraries and the hardware answer does not depend on the object. *)
Section pairs.
Context {W D O : Type}.
#[local] Instance pair_xml {HL : LibXml W D} : LibXml (W * O) D := {|
  xmlReadFile := fun f w => xmlReadFile f (fst w);
  xmlDocGetRootElement := xmlDocGetRootElement;
  xmlNodeListGetString := xmlNodeListGetString |}.
#[local] Instance pair_rapl {HR : RaplEngine W} : RaplEngine (W * O) := {|
  eng_uninit := fun w => eng_uninit (fst w);
  eng_get_ppcc_param := fun s w => eng_get_ppcc_param s (fst w);
  eng_search_idsp := fun s w => eng_search_idsp s (fst w) |}.
#[local] Instance pair_hardware {HH : Hardware W} : Hardware (W * O) := {|
  k_uname := fun w => k_uname (fst w);
  k_cpuid := fun l w => k_cpuid l (fst w);
  k_mmap := fun fd off w => let '(ok, w') := k_mmap fd off (fst w) in (ok, (w', snd w));
  k_munmap := fun a w => (k_munmap a (fst w), snd w);
  k_load := fun a w => k_load a (fst w);
  k_store := fun a v w => (k_store a v (fst w), snd w) |}.

Definition lift_world {A} (m : State W A) : State (W * O) A := fun w =>
  let '(a, w') := m (fst w) in (a, (w', snd w)).
End pairs.

Section daemon.
Context {W D : Type} {HK : Kernel W} {HR : RaplEngine W} {HL : LibXml W D} {HH : Hardware W} (garbage : Z).
Context (TDCONFDIR TDRUNDIR : string) (generate_conf : string -> State W Z) (uninit_pid : pid_control_t).
Context (depth meter_depth : nat) (created : bool) (os : os_answers).
Context (LzmaDecode : list Z -> Z -> Z * list Z) (can_alloc : Z -> bool).
(** The global options of src/main.cpp. *)
Context (ignore_default_control disable_active_power power_floor_enable workaround_enabled : bool) (thd_poll_interval : Z).
Context (exit_callback : option (State W unit)).

Abbreviation world := (W * object D)%type.
#[local] Existing Instances pair_xml pair_rapl pair_hardware.
#[local] Instance daemon_devices : CdevMethods device world := device_methods garbage.
#[local] Instance daemon_adaptive : AdaptiveCdev device world := {| m_set_adaptive_target := Devices.set_adaptive_target |}.

Abbreviation daemon := (engine device world).
Abbreviation DM := (State daemon).

Definition members (d : daemon) : object D := snd (m_w (mach d)).
Definition set_members (o : object D) (d : daemon) : daemon :=
  d <| mach := (mach d) <| m_w := (fst (m_w (mach d)), o) |> |>.

(** Code of the engine class runs on the object's members. *)
Definition on_object {A} (m : State (setup D * daemon) A) : DM A := fun d =>
  let '(a, (u, d')) := m (o_setup (members d), d) in
  (a, set_members ((members d') <| o_setup := u |>) d').

(** [update_engine_state]: the base class does nothing, the adaptive engine
    evaluates its conditions; [switches] is the platform at this time. *)
Definition update_state (switches : platform) : DM unit := fun d =>
  match o_tables (members d) with
  | None => (tt, d)
  | Some a =>
      let '(r, (a', d')) := update_adaptive_state TDRUNDIR depth created switches (a, d) in
      (tt, set_members ((members d') <| o_tables := Some a' |> <| o_ended := r |>) d')
  end.

Definition run_workarounds : DM unit := fun d =>
  let '(x, d') := on_object (default_workarounds workaround_enabled disable_active_power
    (workaround_rapl_mmio_power workaround_enabled true) (o_members (members d))) d in
  (tt, set_members ((members d') <| o_members := x |>) d').

(** The overrides of the subclasses.  The message that reloads the zones is never
    sent; its run has no result to speak of when it is undefined. *)
Definition engine_methods (switches : platform) : EngineMethods device world := {|
  read_thermal_zones :=
    r <- on_object (default_read_zones TDCONFDIR TDRUNDIR (fun s => lift_world (generate_conf s)) uninit_pid created
                      ignore_default_control) ;;
    ret (default THD_ERROR r);
  update_engine_state := update_state switches;
  workarounds := run_workarounds |}.

(** ** What the thread relies on *)

Lemma h_on_object {A} (m : State (setup D * daemon) A) : steps calm_s m -> steps calm (on_object m).
Proof.
  intros Hm d. unfold on_object. specialize (Hm (o_setup (members d), d)).
  destruct (m (o_setup (members d), d)) as [a [u' d']]. destruct Hm as [H1 H2]. split; [exact H1|].
  etrans; [exact H2|]. by apply quiet_same.
Qed.

(** The overrides leave the members and the settings of the thread alone. *)
#[local] Instance engine_methods_laws switches : @EngineLaws device world (engine_methods switches).
Proof.
  split; cbn [read_thermal_zones update_engine_state workarounds engine_methods].
  - apply steps_bind; [apply _|apply h_on_object, h_default_read_zones|intros r; apply steps_ret, _].
  - intros d. unfold update_state. destruct (o_tables (members d)) as [a|]; [|reflexivity].
    pose proof (h_update_adaptive_state TDRUNDIR depth created switches (a, d)) as Hs.
    destruct (update_adaptive_state _ _ _ _ (a, d)) as [r [a' d']]. destruct Hs as [H1 H2]. split; [exact H1|].
    etrans; [exact H2|]. by apply quiet_same.
  - intros d. unfold run_workarounds.
    pose proof (h_on_object _ (h_workarounds workaround_enabled disable_active_power _ (o_members (members d)) (h_mmio workaround_enabled true)) d) as Hs.
    destruct (on_object _ d) as [x d']. destruct Hs as [H1 H2]. split; [exact H1|].
    etrans; [exact H2|]. by apply quiet_same.
Qed.

(** The default engine, whose policy is never updated. *)
Definition default_methods (switches : platform) : EngineMethods device world := {|
  read_thermal_zones := @read_thermal_zones device world (engine_methods switches);
  update_engine_state := ret tt;
  workarounds := run_workarounds |}.

Lemma default_update switches d : o_tables (members d) = None ->
  @update_engine_state device world (engine_methods switches) d = @update_engine_state device world (default_methods switches) d.
Proof. intros E. cbn. unfold update_state. by rewrite E. Qed.

Lemma workarounds_zones : preserves zones run_workarounds.
Proof.
  assert (Hw : forall A (m : State world A), preserves zones (on_w (X := device) m)).
  { intros A m d. unfold on_w, on_mach. by destruct (on_world m (mach d)). }
  assert (Hs : forall A (m : DM A), preserves zones m -> preserves (fun s => zones (snd s)) (start_engine (D := D) m)).
  { intros A m Hm [u d]. unfold start_engine. specialize (Hm d). by destruct (m d). }
  assert (Hm : preserves zones (@workaround_rapl_mmio_power world _ _ device workaround_enabled true)).
  { unfold workaround_rapl_mmio_power, intel_workaround_rapl_mmio_power. apply preserves_bind; [apply Hw|]. intros [v| |]; try done.
    apply preserves_if; [done|]. apply preserves_bind; [done|]. intros e.
    destruct (search_cdev _ _); [done|]. apply preserves_bind; [apply Hw|]. intros off. apply preserves_if; [done|apply Hw]. }
  intros d. unfold run_workarounds, on_object.
  assert (Hd : preserves (fun s : setup D * daemon => zones (snd s)) (default_workarounds workaround_enabled disable_active_power
    (workaround_rapl_mmio_power workaround_enabled true) (o_members (members d)))).
  { unfold default_workarounds. apply preserves_if; [done|]. apply preserves_if; [|done].
    apply preserves_bind; [by apply Hs|]. intros _. apply preserves_bind; [done|]. intros u.
    apply preserves_bind; [apply Hs, Hw|done]. }
  specialize (Hd (o_setup (members d), d)). by destruct (default_workarounds _ _ _ _ _) as [x [u d']].
Qed.

#[local] Instance default_methods_still switches : @EngineStill device world (default_methods switches).
Proof.
  split; intros i; [apply steps_ret, _|]. intros d. split; [by rewrite workarounds_zones|].
  apply calm_steady. apply (law_workarounds (EngineLaws := engine_methods_laws switches)).
Qed.

(** * Start *)

Definition blank (ignore_critical : bool) (uninit : Z) (w : W) (tables : option adaptive) : machine device world :=
  mk_machine (w, new_object tables) [] [] [] 0 0 ignore_critical 0 uninit.

(** What happens to the world behind the engine. *)
Definition on_outside (f : W -> W) (d : daemon) : daemon :=
  d <| mach := (mach d) <| m_w := (f (fst (m_w (mach d))), members d) |> |>.

(** [thd_engine_create_default_engine] of src/main.cpp's start.  [release] is
    the destructor of the engine the new one replaces, if there is one; it runs
    when the new object has been constructed. *)
Definition start (ignore_critical : bool) (uninit : Z) (w : W) (release : W -> W) (ignore_cpuid_check exclusive_control : bool)
    (conf_file : option string) : option Z * daemon :=
  let s := blank ignore_critical uninit w None in
  let '(_, d) := fresh_engine (D := D) TDRUNDIR meter_depth s (m_w s) in
  on_object (thd_engine_create_default_engine garbage TDCONFDIR TDRUNDIR (fun s => lift_world (generate_conf s)) uninit_pid
    created ignore_default_control disable_active_power power_floor_enable thd_poll_interval checked_cpu os
    ignore_cpuid_check exclusive_control conf_file) (on_outside release d).

(** [thd_engine_create_adaptive_engine]. *)
Definition start_with_tables (ignore_critical : bool) (uninit : Z) (w : W) (switches : platform)
    (ignore_cpuid_check test_mode : bool) : ends * daemon :=
  let s := blank ignore_critical uninit w None in
  let '(u, d) := fresh_engine (D := D) TDRUNDIR meter_depth s (m_w s) in
  let '(r, (a, (u, d))) := thd_engine_create_adaptive_engine garbage TDCONFDIR TDRUNDIR
    (fun s => lift_world (generate_conf s)) uninit_pid created LzmaDecode can_alloc ignore_default_control
    disable_active_power power_floor_enable checked_cpu thd_poll_interval depth switches os ignore_cpuid_check test_mode
    (new_adaptive, (u, d <| Engine.uuid := adaptive_uuid |>)) in
  (r, set_members ((members d) <| o_setup := u |> <| o_tables := Some a |>) d).

(** * Steps *)

(** A call; Reinit, when it is not refused, leaves the members of a new object,
    and of the default class. *)
Definition call (name : string) (parameters : list gvalue) : DM (option reply) := fun d =>
  let renewed := String.eqb name "Reinit"
    && negb (bool_decide (check_feature DBUS_CONTROL (features_parser (o_setup (members d))) = Some 0)) in
  let '(r, d') := on_object (thd_dbus_handle_method_call garbage TDCONFDIR TDRUNDIR
    (fun s => lift_world (generate_conf s)) uninit_pid depth meter_depth created os ignore_default_control
    disable_active_power power_floor_enable thd_poll_interval checked_cpu
    (option_map lift_world exit_callback) name parameters) d in
  (r, if renewed then set_members ((members d') <| o_members := new_default |> <| o_tables := None |>) d' else d').

(** The pace of polling is fixed when the thread starts, from the timeout then. *)
Inductive step : daemon -> daemon -> Prop :=
| step_poll (switches : platform) (p : poll_in) (poll_timeout_sec : Z) d :
    terminate d = false -> o_ended (members d) = None ->
    step d (snd (iteration (EngineMethods0 := engine_methods switches) TDRUNDIR depth thd_poll_interval poll_timeout_sec p d))
| step_call name parameters d r d' :
    o_ended (members d) = None -> call name parameters d = (Some r, d') -> step d d'
| step_sample i d : o_ended (members d) = None -> step d (snd (on_mach (sampling_round depth i) d)).

(** An engine that was created, and what it becomes. *)
Definition started (d : daemon) : Prop :=
  (exists ignore_critical uninit w release ignore_cpuid_check exclusive_control conf_file,
    start ignore_critical uninit w release ignore_cpuid_check exclusive_control conf_file = (Some THD_SUCCESS, d)) \/
  (exists ignore_critical uninit w switches ignore_cpuid_check test_mode,
    start_with_tables ignore_critical uninit w switches ignore_cpuid_check test_mode = (inl THD_SUCCESS, d)).
Definition reachable (d : daemon) : Prop := exists d0, started d0 /\ rtc step d0 d.

(** * The pointers of a reachable state *)

Lemma set_members_ok o d : engine_ok d -> engine_ok (set_members o d).
Proof. done. Qed.

Lemma on_object_stays {A} (m : State (setup D * daemon) A) d :
  steps stays_ok m -> engine_ok d -> engine_ok (snd (on_object m d)).
Proof.
  intros Hm Hd. unfold on_object. specialize (Hm (o_setup (members d), d) Hd).
  destruct (m (o_setup (members d), d)) as [a [u' d']]. exact Hm.
Qed.

Lemma p_on_object {A} c n (m : State (setup D * daemon) A) :
  steps (safe_s c n) m -> steps (safe_e c n) (on_object m).
Proof.
  intros Hm d. unfold on_object. specialize (Hm (o_setup (members d), d)).
  destruct (m (o_setup (members d), d)) as [a [u' d']]. exact Hm.
Qed.

Lemma checked_cpu_safe c n : steps (safe_s c n) (@checked_cpu world _ _ device D).
Proof. unfold checked_cpu. ptr_tac. Qed.

Lemma mmio_safe c n b b' : steps (safe_e c n) (@workaround_rapl_mmio_power world _ _ device b b').
Proof. unfold workaround_rapl_mmio_power, intel_workaround_rapl_mmio_power. ptr_tac. Qed.

Lemma p_update_state c n switches : steps (safe_e c n) (update_state switches).
Proof.
  intros d. unfold update_state. destruct (o_tables (members d)) as [a|]; [|reflexivity].
  pose proof (p_update_adaptive_state TDRUNDIR depth created c n switches (a, d)) as Hs.
  destruct (update_adaptive_state _ _ _ _ (a, d)) as [r [a' d']]. exact Hs.
Qed.

Lemma p_run_workarounds c n : steps (safe_e c n) run_workarounds.
Proof.
  intros d. unfold run_workarounds. pose proof (p_on_object c n _ (p_workarounds c n workaround_enabled disable_active_power
    (workaround_rapl_mmio_power workaround_enabled true) (o_members (members d)) (fun c n => mmio_safe c n _ _)) d) as Hs.
  destruct (on_object _ d) as [x d']. exact Hs.
Qed.

(** The overrides keep what the engine's thread relies on. *)
#[local] Instance engine_methods_safe switches : @EngineSafe device world (engine_methods switches).
Proof.
  split; intros c n; cbn [read_thermal_zones update_engine_state workarounds engine_methods].
  - apply steps_bind; [typeclasses eauto| |ptr_tac]. apply p_on_object, p_default_read_zones.
  - apply p_update_state.
  - apply p_run_workarounds.
Qed.

Lemma start_ok ic un w rel icc ex conf : engine_ok (snd (start ic un w rel icc ex conf)).
Proof.
  unfold start. cbv zeta. pose proof (fresh_engine_ok (D := D) TDRUNDIR meter_depth (blank ic un w None) (m_w (blank ic un w None))) as Hf.
  destruct (fresh_engine _ _ _ _) as [u d]. apply on_object_stays; [|exact Hf].
  apply safe_stays, p_create. intros. apply checked_cpu_safe.
Qed.

Lemma start_with_tables_ok ic un w sw icc tm : engine_ok (snd (start_with_tables ic un w sw icc tm)).
Proof.
  unfold start_with_tables. cbv zeta.
  pose proof (fresh_engine_ok (D := D) TDRUNDIR meter_depth (blank ic un w None) (m_w (blank ic un w None))) as Hf.
  destruct (fresh_engine _ _ _ _) as [u d].
  pose proof (p_create_adaptive (D := D) garbage TDCONFDIR TDRUNDIR (fun s => lift_world (generate_conf s)) uninit_pid created
    LzmaDecode can_alloc ignore_default_control disable_active_power power_floor_enable checked_cpu (fun c n => checked_cpu_safe c n)
    0 0 thd_poll_interval depth sw os icc tm (new_adaptive, (u, d <| Engine.uuid := adaptive_uuid |>))) as Hs.
  destruct (thd_engine_create_adaptive_engine _ _ _ _ _ _ _ _ _ _ _ _ _ _ _ _ _ _ _) as [r [a [u' d']]].
  destruct (Hs ltac:(lia) ltac:(lia) Hf) as (_ & _ & Ho). exact Ho.
Qed.

Lemma started_ok d : started d -> engine_ok d.
Proof.
  intros [(ic & un & w & rel & icc & ex & conf & E)|(ic & un & w & sw & icc & tm & E)].
  - pose proof (start_ok ic un w rel icc ex conf) as Ho. by rewrite E in Ho.
  - pose proof (start_with_tables_ok ic un w sw icc tm) as Ho. by rewrite E in Ho.
Qed.

Lemma step_ok d d' : step d d' -> engine_ok d -> engine_ok d'.
Proof.
  intros Hs Hd. destruct Hs as [sw p sec d Ht Hr|name l d r d' Hr Hc|i d Hr].
  - by destruct (p_iteration (HE := engine_methods sw) TDRUNDIR depth 0 0 thd_poll_interval sec p d ltac:(lia) ltac:(lia) Hd)
      as (_ & _ & Ho).
  - assert (Ho : engine_ok (snd (call name l d))); [|by rewrite Hc in Ho].
    unfold call. cbv zeta.
    match goal with |- context [on_object ?m d] => pose proof (on_object_stays m d) as Ho; destruct (on_object m d) as [r0 d0] end.
    cbn [snd] in *. destruct (_ && _); [apply set_members_ok|]; apply Ho, Hd; apply call_stays; intros; apply checked_cpu_safe.
  - by destruct (p_on_mach 0 0 _ (p_sampling_round 0 0 depth i) d ltac:(lia) ltac:(lia) Hd) as (_ & _ & Ho).
Qed.

(** C3: no dangling pointer.  In every state that a daemon with the default or
    the adaptive engine can reach, by iterations of its thread, method calls and
    samples in any order, every sensor
    of a zone, every device of a trip point, the device a trip point depends on
    and every sensor behind a virtual sensor is an object the engine has. *)
Theorem no_dangling_pointer d : reachable d ->
  (forall z, z ∈ zones d ->
     (forall i, i ∈ sensors z -> is_Some (m_sensors (mach d) !! i)) /\
     (forall t, t ∈ trip_points z ->
        (forall c, c ∈ cdevs t -> is_Some (m_cdevs (mach d) !! tc_cdev c)) /\
        (forall p, depend_cdev t = Some p -> is_Some (m_cdevs (mach d) !! p)))) /\
  (forall sn v l i, sn ∈ m_sensors (mach d) -> s_virtual sn = Some v -> l ∈ link_sensors v -> link_to l = Some i ->
     is_Some (m_sensors (mach d) !! i)).
Proof.
  intros (d0 & Hs & Hr). apply started_ok in Hs.
  assert (Hd : engine_ok d) by (induction Hr as [|d1 d2 d3 H12 _ IH]; [done|by eapply IH, step_ok]).
  destruct Hd as [Hz Hm]. split.
  - intros z Hin. rewrite Forall_forall in Hz. destruct (Hz z Hin) as [H1 H2]. rewrite Forall_forall in H1. rewrite Forall_forall in H2.
    split; [intros i Hi; by apply lookup_lt_is_Some, H1|]. intros t Ht. destruct (H2 t Ht) as [H3 H4].
    rewrite Forall_forall in H3. split; [intros c Hc; by apply lookup_lt_is_Some, H3|].
    intros p Hp. rewrite Hp in H4. by apply lookup_lt_is_Some.
  - intros sn v l i Hsn Hv Hl Hi. unfold machine_ok in Hm. rewrite Forall_forall in Hm. specialize (Hm sn Hsn).
    unfold sensor_ok in Hm. rewrite Hv in Hm. cbn in Hm. rewrite Forall_forall in Hm. specialize (Hm l Hl).
    rewrite Hi in Hm. by apply lookup_lt_is_Some.
Qed.
End daemon.

(** * A run *)

(** A laptop with one thermal zone and one cooling device. *)
Definition laptop : sim :=
  mk_sim {[ "/etc/thermald/thermald-features.xml" := "x";
            "/sys/class/thermal/thermal_zone0/type" := "x86_pkg_temp";
            "/sys/class/thermal/thermal_zone0/temp" := "45000";
            "/sys/class/thermal/cooling_device0/type" := "Processor";
            "/sys/class/thermal/cooling_device0/cur_state" := "0";
            "/sys/class/thermal/cooling_device0/max_state" := "10" ]} [] 0.
Definition laptop_docs : documents :=
  {[ "/etc/thermald/thermald-features.xml" := [XML_ELEMENT_NODE "ThermaldFeatures" [elem "DbusControl" "1"]] ]}.
Definition laptop_world : sim * board := (laptop, mk_board (Some "x86_64") intel_vendor (signature 9 0xe 6 0 8 0) ∅).

#[local] Instance board_rapl : RaplEngine (sim * board) := {|
  eng_uninit := fun _ => 0; eng_get_ppcc_param := fun _ _ => None; eng_search_idsp := fun _ _ => THD_ERROR |}.
#[local] Instance board_xml : LibXml (sim * board) (list xmlNode) := pair_xml (HL := sim_xml laptop_docs).

Abbreviation laptop_start := (start (W := sim * board) (D := list xmlNode) 0 "/etc/thermald" "/run" (fun _ => ret THD_ERROR)
  (mk_pid_control zero_double zero_double zero_double) 2 true (mk_os 0 0 0 0 0 "") false false false 4).
Abbreviation laptop_call := (call (W := sim * board) (D := list xmlNode) 0 "/etc/thermald" "/run" (fun _ => ret THD_ERROR)
  (mk_pid_control zero_double zero_double zero_double) 3 2 true (mk_os 0 0 0 0 0 "") false false false 4 None).
Abbreviation laptop_reachable := (reachable (W := sim * board) (D := list xmlNode) 0 "/etc/thermald" "/run" (fun _ => ret THD_ERROR)
  (mk_pid_control zero_double zero_double zero_double) 3 2 true (mk_os 0 0 0 0 0 "")
  (fun _ _ => (1, [])) (fun _ => true) false false false true 4 None).

(** A virtual sensor is added, and a zone over it that drives the device. *)
Definition laptop_0 := snd (laptop_start false 0 laptop_world (fun w => w) false false None).
Definition laptop_1 := snd (laptop_call "AddVirtualSensor"
  [GString "skin"; GString "x86_pkg_temp"; GDouble (double_of_Z 1); GDouble (double_of_Z 0)] laptop_0).
Definition laptop_2 := snd (laptop_call "AddZonePassive"
  [GString "lap"; GUint32 40000; GString "skin"; GString "Processor"] laptop_1).

Lemma laptop_runs : laptop_reachable laptop_2.
Proof.
  exists laptop_0. split.
  - left. exists false, 0, laptop_world, (fun w => w), false, false, None. unfold laptop_0.
    assert (E : fst (laptop_start false 0 laptop_world (fun w => w) false false None) = Some THD_SUCCESS)
      by (vm_compute; reflexivity). by destruct (laptop_start _ _ _ _ _ _ _) as [r d]; cbn in E; subst r.
  - apply (rtc_l _ _ laptop_1); [|apply rtc_once].
    + apply step_call with (name := "AddVirtualSensor") (r := Returned [])
        (parameters := [GString "skin"; GString "x86_pkg_temp"; GDouble (double_of_Z 1); GDouble (double_of_Z 0)]);
        [vm_compute; reflexivity|].
      rewrite (surjective_pairing (laptop_call _ _ laptop_0)). apply (f_equal2 pair); [vm_compute; reflexivity|reflexivity].
    + apply step_call with (name := "AddZonePassive") (r := Returned [])
        (parameters := [GString "lap"; GUint32 40000; GString "skin"; GString "Processor"]); [vm_compute; reflexivity|].
      rewrite (surjective_pairing (laptop_call _ _ laptop_1)). apply (f_equal2 pair); [vm_compute; reflexivity|reflexivity].
Qed.

Lemma no_dangling_pointer_witness :
  laptop_reachable laptop_2 /\ (length (zones laptop_2), length (m_sensors (mach laptop_2))) = (2%nat, 2%nat) /\
  is_Some (m_sensors (mach laptop_2) !! 0%nat) /\ is_Some (m_cdevs (mach laptop_2) !! 0%nat).
Proof.
  split; [exact laptop_runs|]. split; [vm_compute; reflexivity|].
  destruct (no_dangling_pointer _ _ _ _ _ _ _ _ _ _ _ _ _ _ _ _ _ laptop_2 laptop_runs) as [Hz Hs]. split.
  - destruct (m_sensors (mach laptop_2) !! 1%nat) as [sn|] eqn:E; [|vm_compute in E; discriminate].
    destruct (s_virtual sn) as [v|] eqn:Ev.
    + refine (Hs sn v (default (mk_link None zero_double zero_double zero_double 0) (head (link_sensors v))) 0%nat
        (list_elem_of_lookup_2 _ _ _ E) Ev _ _); vm_compute in E; injection E as <-; injection Ev as <-; [left|reflexivity].
    + vm_compute in E. injection E as <-. discriminate.
  - assert (Hx : exists z t c, zones laptop_2 !! 1%nat = Some z /\ trip_points z !! 0%nat = Some t /\
      cdevs t !! 0%nat = Some c /\ tc_cdev c = 0%nat).
    { do 3 eexists. split; [vm_compute; reflexivity|]. split; [reflexivity|]. split; reflexivity. }
    destruct Hx as (z & t & c & E1 & E2 & E3 & E4). rewrite <- E4.
    exact (proj1 (proj2 (Hz z (list_elem_of_lookup_2 _ _ _ E1)) t (list_elem_of_lookup_2 _ _ _ E2)) c
      (list_elem_of_lookup_2 _ _ _ E3)).
Defined.
