(* ===== verification/Main.v ===== *)
(** The start of the process (src/main.cpp): the command line, the lock file
    that keeps a second instance out, the creation of the engine and the exit
    codes; with the theorems about them.

    GLib's option parser is not part of the program: [main] is given the options
    it recognised, in their order on the command line ([None]: it refused one),
    and does with each what the table of [main] tells GLib to do.  Four of the
    variables of that table are C++ [bool]s that GLib writes as [gboolean]s of
    four bytes, so their memory is modelled byte by byte, at addresses the
    compiler chose. *)
From stdpp Require Import base gmap strings list relations.
From Stdlib Require Import ZArith Lia.
From Stdlib Require String.
From S2P Require Import Prelude CString MeterData SysFs CFloat Pid Cdev CdevDevices CdevCpufreq CdevRapl Devices PowerMeter Machine Preference TripPoint Xml Parse ParseCodec Zone ZoneKinds Engine EngineUser EngineStart Gddv GddvConditions EngineAdaptive EngineDefault EngineAdaptiveInit Platform DBus DBusServer Pointers PointersEngine PointersStart Daemon.

Open Scope string_scope.
Open Scope list_scope.
Open Scope Z_scope.

Definition EXIT_SUCCESS : Z := 0.
Definition EXIT_FAILURE : Z := 1.
Definition EXIT_UNSUPPORTED : Z := 2.
(** The status of a process is a byte. *)
Definition exit_status (code : Z) : Z := code mod 256.

(** * Messages *)

Definition G_LOG_LEVEL_ERROR : Z := 4.
Definition G_LOG_LEVEL_CRITICAL : Z := 8.
Definition G_LOG_LEVEL_WARNING : Z := 16.
Definition G_LOG_LEVEL_MESSAGE : Z := 32.
Definition G_LOG_LEVEL_INFO : Z := 64.
Definition G_LOG_LEVEL_DEBUG : Z := 128.
Definition default_log_level : Z :=
  Z.lor (Z.lor (Z.lor G_LOG_LEVEL_ERROR G_LOG_LEVEL_CRITICAL) G_LOG_LEVEL_WARNING) G_LOG_LEVEL_MESSAGE.

Inductive log_output :=
| Syslog (priority : Z) (message : string)
| Printed (text : string).

(** The prefix and the priority of a level. *)
Definition log_severity (log_level : Z) : string * Z :=
  if log_level =? G_LOG_LEVEL_ERROR then ("[CRIT]", 2)
  else if log_level =? G_LOG_LEVEL_CRITICAL then ("[ERR]", 3)
  else if log_level =? G_LOG_LEVEL_WARNING then ("[WARN]", 4)
  else if log_level =? G_LOG_LEVEL_MESSAGE then ("[MSG]", 5)
  else if log_level =? G_LOG_LEVEL_DEBUG then ("[DEBUG]", 7)
  else ("[INFO]", 6).

Definition thd_logger (thd_log_level : Z) (use_syslog : bool) (seconds log_level : Z) (message : string)
    : option log_output :=
  if negb (truthy (Z.land thd_log_level log_level)) then None else
  let '(prefix, priority) := log_severity log_level in
  Some (if use_syslog then Syslog priority message
        else Printed ("[" +:+ string_of_Z seconds +:+ "]" +:+ prefix +:+ message)).

(** * The command line *)

(** The variables that are [bool]s. *)
Inductive flag := WorkaroundEnabled | DisableActivePower | IgnoreCritical | PowerFloorEnable.
#[export] Instance flag_eq : EqDecision flag.
Proof. solve_decision. Defined.

(** The rows of the table of options. *)
Inductive command_option :=
| Version | NoDaemon | Systemd | LogInfo | LogDebug | Adaptive
| PollInterval (v : Z)
| DbusEnable | ExclusiveControl | IgnoreCpuidCheck
| ConfigFile (f : string)
| IgnoreDefaultControl
| SetFlag (f : flag).

Definition memory : Type := Z -> Z.

(** [*(gboolean * ) arg_data = TRUE], little endian. *)
Definition store_gboolean (a : Z) (m : memory) : memory := fun x =>
  if (a <=? x) && (x <? a + 4) then (if x =? a then 1 else 0) else m x.

Record options := mk_options {
  show_version : bool; no_daemon : bool; systemd : bool; log_info : bool; log_debug : bool; o_adaptive : bool;
  poll_interval_option : Z; dbus_enable : bool; exclusive_control : bool; ignore_cpuid_check : bool;
  conf_file : option string; ignore_default : bool;
  flags : memory;
}.
#[export] Instance eta_options : Eta options := {| eta_of := fun x =>
  mk_options (show_version x) (no_daemon x) (systemd x) (log_info x) (log_debug x) (o_adaptive x)
    (poll_interval_option x) (dbus_enable x) (exclusive_control x) (ignore_cpuid_check x) (conf_file x)
    (ignore_default x) (flags x) |}.
Definition default_options : options :=
  mk_options false false false false false false (-1) false false false None false (fun _ => 0).

Section options.
(** Where the linker put the variables. *)
Context (address : flag -> Z).

Definition set_option (o : options) (c : command_option) : options :=
  match c with
  | Version => o <| show_version := true |>
  | NoDaemon => o <| no_daemon := true |>
  | Systemd => o <| systemd := true |>
  | LogInfo => o <| log_info := true |>
  | LogDebug => o <| log_debug := true |>
  | Adaptive => o <| o_adaptive := true |>
  | PollInterval v => o <| poll_interval_option := v |>
  | DbusEnable => o <| dbus_enable := true |>
  | ExclusiveControl => o <| exclusive_control := true |>
  | IgnoreCpuidCheck => o <| ignore_cpuid_check := true |>
  | ConfigFile f => o <| conf_file := Some f |>
  | IgnoreDefaultControl => o <| ignore_default := true |>
  | SetFlag f => o <| flags := store_gboolean (address f) (flags o) |>
  end.
Definition parse_options (l : list command_option) : options := foldl set_option default_options l.

Definition flag_set (f : flag) (o : options) : bool := truthy (flags o (address f)).

(** ** The flags *)

Lemma set_option_flags l o :
  flags (foldl set_option o l) =
  foldl (fun m f => store_gboolean (address f) m) (flags o) (omap (fun c => match c with SetFlag f => Some f | _ => None end) l).
Proof. revert o. induction l as [|c l IH]; intros o; cbn [foldl omap list_omap]; [done|]. rewrite IH. by destruct c. Qed.

(** A store reaches the variable itself and what lies in the three bytes after. *)
Lemma store_here a m : store_gboolean a m a = 1.
Proof. unfold store_gboolean. rewrite Z.eqb_refl, (proj2 (Z.leb_le a a)), (proj2 (Z.ltb_lt a (a + 4))) by lia. done. Qed.
Lemma store_after a m x : a < x < a + 4 -> store_gboolean a m x = 0.
Proof.
  intros Hx. unfold store_gboolean. rewrite (proj2 (Z.leb_le a x)), (proj2 (Z.ltb_lt x (a + 4))) by lia. cbn.
  by rewrite (proj2 (Z.eqb_neq x a)) by lia.
Qed.
Lemma store_away a m x : x < a \/ a + 4 <= x -> store_gboolean a m x = m x.
Proof.
  intros Hx. unfold store_gboolean. destruct (Z.leb_spec a x); [|done]. destruct (Z.ltb_spec x (a + 4)); [lia|done].
Qed.

(** An option [g] whose variable lies up to three bytes before that of [f] takes
    [f] back. *)
Definition erases (g f : flag) : Prop := address g < address f < address g + 4.
#[export] Instance erases_dec g f : Decision (erases g f).
Proof. unfold erases. apply _. Defined.

(** Whether [f] is set after the options of [l]: named, and not taken back. *)
Fixpoint survives (f : flag) (l : list flag) (now : bool) : bool :=
  match l with
  | [] => now
  | g :: l' => survives f l' (if decide (g = f) then true else if decide (erases g f) then false else now)
  end.

Lemma flags_survive (inj : forall f g, address f = address g -> f = g) f l m :
  truthy (foldl (fun m f => store_gboolean (address f) m) m l (address f)) = survives f l (truthy (m (address f))).
Proof.
  revert m. induction l as [|g l IH]; intros m; cbn [foldl survives]; [done|]. rewrite IH. f_equal.
  destruct (decide (g = f)) as [->|Hne]; [by rewrite store_here|].
  destruct (decide (erases g f)) as [He|He]; [by rewrite store_after|]. rewrite store_away; [done|].
  unfold erases in He. assert (address f <> address g) by (intros E; by apply inj in E). lia.
Qed.

Definition flag_of (c : command_option) : option flag := match c with SetFlag f => Some f | _ => None end.

Lemma survives_named f l : (forall g, ~ erases g f) -> forall now, survives f l now = true <-> now = true \/ f ∈ l.
Proof.
  intros Hn. induction l as [|g l IH]; intros now; cbn [survives].
  - rewrite elem_of_nil. tauto.
  - rewrite IH, elem_of_cons. destruct (decide (g = f)) as [->|Hne]; [tauto|].
    destruct (decide (erases g f)) as [He|He]; [by destruct (Hn g)|].
    split; [tauto|]. intros [H|[H|H]]; [tauto|congruence|tauto].
Qed.

Lemma survives_lost f l now : f ∉ l -> now = false -> survives f l now = false.
Proof.
  revert now. induction l as [|g l IH]; intros now Hf Hn; cbn [survives]; [done|].
  apply not_elem_of_cons in Hf as [Hg Hl]. apply IH; [done|]. rewrite decide_False by done.
  by destruct (decide (erases g f)).
Qed.

Lemma survives_app f l1 l2 now : survives f (l1 ++ l2) now = survives f l2 (survives f l1 now).
Proof. revert now. induction l1 as [|g l1 IH]; intros now; cbn [survives app]; [done|]. apply IH. Qed.

Lemma flag_set_survives (inj : forall f g, address f = address g -> f = g) f l :
  flag_set f (parse_options l) = survives f (omap flag_of l) false.
Proof. unfold flag_set, parse_options. rewrite set_option_flags. by rewrite (flags_survive inj). Qed.

End options.

(** The four variables next to each other, in the order of their declaration:
    the option for the workarounds switches the one before it off. *)
Definition adjacent (f : flag) : Z :=
  match f with WorkaroundEnabled => 0 | DisableActivePower => 1 | IgnoreCritical => 2 | PowerFloorEnable => 3 end.


(** * The process *)

(** What [main] asks of the operating system and of GLib, beside the files. *)
Class Process (W : Type) := {
  p_module_supported : W -> bool;          (* g_module_supported() *)
  p_getuid : W -> Z;
  p_mkdir : string -> W -> Z * W;          (* g_mkdir_with_parents() *)
  p_open_lock : string -> W -> Z * W;      (* open(O_RDWR | O_CREAT | O_NOFOLLOW) *)
  p_lockf : Z -> W -> Z * W;               (* lockf(F_TLOCK) *)
  p_unlink : string -> W -> W;
  p_main_loop_new : W -> bool;
  p_daemon : W -> Z * W;                   (* daemon(): the child goes on *)
}.

Record process (W : Type) := mk_process {
  pw : W;
  lock_file_handle : Z;
  signal_handlers : bool;
  bus_server : server;
}.
Arguments mk_process {W}. Arguments pw {W}. Arguments lock_file_handle {W}. Arguments signal_handlers {W}.
Arguments bus_server {W}.
#[export] Instance eta_process {W} : Eta (process W) := {| eta_of := fun x =>
  mk_process (pw x) (lock_file_handle x) (signal_handlers x) (bus_server x) |}.

(** The end of the process: a code, an exception nobody caught, or a run without
    defined behaviour. *)
Inductive ending := Exits (code : Z) | Terminated | Lost.

(** The global variables the options decide. *)
Definition thd_log_level (o : options) : Z :=
  let l := default_log_level in
  let l := if log_info o then Z.lor l G_LOG_LEVEL_INFO else l in
  if log_debug o then Z.lor l (Z.lor G_LOG_LEVEL_INFO G_LOG_LEVEL_DEBUG) else l.
Definition thd_poll_interval (o : options) : Z :=
  if poll_interval_option o >=? 0 then poll_interval_option o else 4.
Definition thd_daemonize (o : options) : bool := negb (no_daemon o) && negb (systemd o).
Definition use_syslog (o : options) : bool := negb (no_daemon o) || systemd o.

Section process.
Context {W D : Type} {HK : Kernel W} {HR : RaplEngine W} {HL : LibXml W D} {HH : Hardware W} {HP : Process W} {HB : Bus W}.
Context (garbage uninit : Z).
Context (TDCONFDIR TDRUNDIR : string) (generate_conf : string -> State W Z) (uninit_pid : pid_control_t).
Context (depth meter_depth : nat) (created : bool) (os : os_answers) (address : flag -> Z).
Context (LzmaDecode : list Z -> Z -> Z * list Z) (can_alloc : Z -> bool) (switches : platform).

Abbreviation PM A := (State (process W) (ending + A)).

Definition and_then {A B} (m : PM A) (k : A -> PM B) : PM B :=
  r <- m ;; match r with inl e => ret (inl e) | inr a => k a end.
Definition exits {A} (code : Z) : PM A := ret (inl (Exits code)).
Definition goes_on : PM unit := ret (inr tt).
Definition on_pw {A} (m : State W A) : State (process W) A := fun p =>
  let '(a, w) := m (pw p) in (a, p <| pw := w |>).

(** ** The lock file *)

Definition lock_file : string := TDRUNDIR +:+ "/thermald.pid".

Definition clean_up_lockfile : State (process W) unit := fun p =>
  if lock_file_handle p =? -1 then (tt, p)
  else (tt, p <| pw := p_unlink lock_file (k_close (lock_file_handle p) (pw p)) |>).

Definition check_thermald_running : State (process W) bool :=
  h <- on_pw (p_open_lock lock_file) ;;
  modify (fun p => p <| lock_file_handle := h |>) ;;
  if h =? -1 then ret false else
  r <- on_pw (p_lockf h) ;;
  if r =? -1 then on_pw (fun w => (tt, k_close h w)) ;; ret true else ret false.

(** ** The stages of [main] *)

(** Lines 246-298: what must hold before anything is changed. *)
Definition check_call (cmd : option (list command_option)) : PM options :=
  supported <- gets (fun p => p_module_supported (pw p)) ;;
  if negb supported then exits EXIT_FAILURE else
  match cmd with
  | None => exits EXIT_FAILURE
  | Some l =>
      let o := parse_options address l in
      if show_version o then exits EXIT_SUCCESS else
      uid <- gets (fun p => p_getuid (pw p)) ;;
      if negb (uid =? 0) then exits EXIT_FAILURE else
      r <- on_pw (p_mkdir TDRUNDIR) ;;
      if negb (r =? 0) then exits EXIT_FAILURE else
      on_pw (p_mkdir TDCONFDIR) ;;
      ret (inr o)
  end.

Definition take_lock : PM unit :=
  running <- check_thermald_running ;;
  if running : bool then exits EXIT_FAILURE else goes_on.

(** The result of [thd_dbus_server_init] is not looked at. *)
Definition set_up_bus : State (process W) unit := fun p =>
  let '(_, (b, w)) := thd_dbus_server_init (bus_server p, pw p) in (tt, p <| bus_server := b |> <| pw := w |>).

(** Lines 326-353: signals, the loop, the bus and the background. *)
Definition settle (o : options) : PM unit :=
  (if thd_daemonize o then ret tt else modify (fun p => p <| signal_handlers := true |>)) ;;
  loop <- gets (fun p => p_main_loop_new (pw p)) ;;
  if negb loop then clean_up_lockfile ;; exits (exit_status THD_FATAL_ERROR) else
  (if dbus_enable o then set_up_bus else ret tt) ;;
  if thd_daemonize o then
    r <- on_pw p_daemon ;;
    if negb (r =? 0) then clean_up_lockfile ;; exits (exit_status THD_FATAL_ERROR) else goes_on
  else goes_on.

(** ** The engine *)

Abbreviation daemon := (engine device (W * object D)).

Definition create_adaptive (o : options) (w : W) : ends * daemon :=
  start_with_tables garbage TDCONFDIR TDRUNDIR generate_conf uninit_pid depth meter_depth created os LzmaDecode can_alloc
    (ignore_default o) (flag_set address DisableActivePower o) (flag_set address PowerFloorEnable o) (thd_poll_interval o)
    (flag_set address IgnoreCritical o) uninit w switches (ignore_cpuid_check o) false.

Definition create_default (o : options) (w : W) (release : W -> W) : option Z * daemon :=
  start garbage TDCONFDIR TDRUNDIR generate_conf uninit_pid meter_depth created os (ignore_default o)
    (flag_set address DisableActivePower o) (flag_set address PowerFloorEnable o) (thd_poll_interval o)
    (flag_set address IgnoreCritical o) uninit w release (ignore_cpuid_check o) (exclusive_control o) (conf_file o).

(** The world behind an engine. *)
Definition world_of (d : daemon) : W := fst (m_w (mach d)).

(** Lines 367-375: an engine that was not created ends the process. *)
Definition created_or_exit (r : Z) (d : daemon) : PM daemon :=
  if r =? THD_SUCCESS then ret (inr d) else
  clean_up_lockfile ;;
  exits (if r =? THD_ERROR then EXIT_UNSUPPORTED else EXIT_FAILURE).

Definition default_or_exit (o : options) (release : W -> W) : PM daemon := fun p =>
  let '(r, d) := create_default o (pw p) release in
  let p := p <| pw := world_of d |> in
  match r with
  | None => (inl Lost, p)
  | Some r => created_or_exit r d p
  end.

(** The destructor of an engine, in the world of the moment. *)
Definition release (d : daemon) (w : W) : W := fst (destroy_engine (on_outside (fun _ => w) d)).

Definition create_engine (o : options) : PM daemon := fun p =>
  if o_adaptive o then
    let '(r, d) := create_adaptive o (pw p) in
    let p := p <| pw := world_of d |> in
    match r with
    | inr Exited => (inl (Exits EXIT_SUCCESS), p)
    | inr Threw => (inl Terminated, p)
    | inr Undefined => (inl Lost, p)
    | inl r => if r =? THD_SUCCESS then (inr d, p) else default_or_exit o (release d) p
    end
  else default_or_exit o (fun w => w) p.

(** Up to the engine: the options and the process. *)
Definition until_engine (cmd : option (list command_option)) : PM options :=
  and_then (check_call cmd) (fun o =>
  and_then take_lock (fun _ =>
  and_then (settle o) (fun _ => ret (inr o)))).

Definition main (cmd : option (list command_option)) : PM (options * daemon) :=
  and_then (until_engine cmd) (fun o =>
  and_then (create_engine o) (fun d => ret (inr (o, d)))).

(** ** The end *)

(** [sig_int_handler]; [None] of the first step: the policies are given back from
    an empty vector. *)
Definition sig_int_handler (d : daemon) : PM unit := fun p =>
  let '(r, d) := thd_engine_terminate d in
  match r with
  | None => (inl Lost, p)
  | Some _ => (clean_up_lockfile ;; exits EXIT_SUCCESS) (p <| pw := release d (k_sleep 1 (world_of d)) |>)
  end.

(** * Theorems *)

Lemma and_then_inr {A B} (m : PM A) (k : A -> PM B) p b p' :
  and_then m k p = (inr b, p') -> exists a p1, m p = (inr a, p1) /\ k a p1 = (inr b, p').
Proof. unfold and_then, bind. destruct (m p) as [[e|a] p1]; cbn; [done|]. intros E. by exists a, p1. Qed.

Lemma check_call_inr cmd p o p' : check_call cmd p = (inr o, p') ->
  exists l, cmd = Some l /\ o = parse_options address l /\ show_version o = false /\ p_getuid (pw p) = 0 /\
    signal_handlers p' = signal_handlers p.
Proof.
  unfold check_call, bind, gets, exits, ret, on_pw. destruct (p_module_supported (pw p)); [|done].
  destruct cmd as [l|]; [|done]. cbn [negb]. cbv zeta. destruct (show_version (parse_options address l)) eqn:Ev; [done|].
  destruct (Z.eqb_spec (p_getuid (pw p)) 0) as [Eu|]; [|done]. cbn [negb].
  destruct (p_mkdir TDRUNDIR (pw p)) as [r w1]. destruct (r =? 0); [|done]. cbn.
  destruct (p_mkdir TDCONFDIR w1) as [r2 w2]. cbn. intros [= <- <-]. by exists l.
Qed.

Lemma take_lock_inr p p' : take_lock p = (inr tt, p') -> signal_handlers p' = signal_handlers p.
Proof.
  unfold take_lock, check_thermald_running, bind, on_pw, modify, ret, exits, goes_on.
  destruct (p_open_lock lock_file (pw p)) as [h w1]. destruct (h =? -1); [by intros [= <-]|]. cbn.
  destruct (p_lockf h w1) as [r w2]. destruct (r =? -1); cbn; by intros [= <-].
Qed.

(** Setting up the bus leaves the handlers and the lock alone. *)
Lemma bus_step o p :
  let p1 := snd ((if dbus_enable o then set_up_bus else ret tt) p) in
  signal_handlers p1 = signal_handlers p /\ lock_file_handle p1 = lock_file_handle p.
Proof.
  destruct (dbus_enable o); [|done]. unfold set_up_bus.
  destruct (thd_dbus_server_init (bus_server p, pw p)) as [r [b w]]. done.
Qed.

(** What [settle] comes to when the process goes on. *)
Lemma settle_unfold o p p' : settle o p = (inr tt, p') ->
  let p0 := if thd_daemonize o then p else p <| signal_handlers := true |> in
  let p1 := snd ((if dbus_enable o then set_up_bus else ret tt) p0) in
  if thd_daemonize o then exists w, p_daemon (pw p1) = (0, w) /\ p' = p1 <| pw := w |> else p' = p1.
Proof.
  unfold settle. unfold bind at 1 2, gets at 1.
  assert (E : (if thd_daemonize o then ret tt else modify (fun p => p <| signal_handlers := true |>)) p =
    (tt, if thd_daemonize o then p else p <| signal_handlers := true |>)) by by destruct (thd_daemonize o).
  rewrite E. cbv zeta. set (p0 := if thd_daemonize o then p else _).
  destruct (p_main_loop_new (pw p0)); cbn [negb]; [|unfold bind, clean_up_lockfile; by destruct (lock_file_handle p0 =? -1)].
  unfold bind at 1. destruct ((if dbus_enable o then set_up_bus else ret tt) p0) as [u p1]. cbn [snd].
  destruct (thd_daemonize o); [|by intros [= <-]]. unfold bind at 1, on_pw. destruct (p_daemon (pw p1)) as [r w].
  destruct (Z.eqb_spec r 0) as [->|]; cbn [negb].
  - unfold goes_on, ret. intros [= <-]. by exists w.
  - unfold bind, clean_up_lockfile. by destruct (lock_file_handle _ =? -1).
Qed.

Lemma settle_inr o p p' : settle o p = (inr tt, p') ->
  (signal_handlers p' = if thd_daemonize o then signal_handlers p else true) /\ lock_file_handle p' = lock_file_handle p.
Proof.
  intros Hs. apply settle_unfold in Hs. cbv zeta in Hs.
  pose proof (bus_step o (if thd_daemonize o then p else p <| signal_handlers := true |>)) as [H1 H2].
  destruct (thd_daemonize o); [destruct Hs as (w & _ & ->)|subst p']; (split; [etrans; [exact H1|done]|etrans; [exact H2|done]]).
Qed.

Abbreviation reachable_with o := (reachable garbage TDCONFDIR TDRUNDIR generate_conf uninit_pid depth meter_depth created os
  LzmaDecode can_alloc (ignore_default o) (flag_set address DisableActivePower o) (flag_set address PowerFloorEnable o)
  (flag_set address WorkaroundEnabled o) (thd_poll_interval o)).

Lemma default_or_exit_inr o rel p d p' : default_or_exit o rel p = (inr d, p') ->
  create_default o (pw p) rel = (Some THD_SUCCESS, d) /\ signal_handlers p' = signal_handlers p.
Proof.
  unfold default_or_exit, created_or_exit, bind, clean_up_lockfile, exits, ret.
  destruct (create_default o (pw p) rel) as [[r|] d1]; [|done].
  destruct (Z.eqb_spec r THD_SUCCESS) as [->|]; [|by destruct (lock_file_handle _ =? -1)].
  by intros [= <- <-].
Qed.

(** The engine of [main] started, and has the handlers of the process before. *)
Lemma create_engine_inr o p d p' exit_callback : create_engine o p = (inr d, p') ->
  reachable_with o exit_callback d /\ signal_handlers p' = signal_handlers p.
Proof.
  assert (Hd : forall rel q q', default_or_exit o rel q = (inr d, q') ->
    reachable_with o exit_callback d /\ signal_handlers q' = signal_handlers q).
  { intros rel q q' E. apply default_or_exit_inr in E as [E E']. split; [|done]. exists d. split; [|apply rtc_refl].
    left. exists (flag_set address IgnoreCritical o), uninit, (pw q), rel, (ignore_cpuid_check o), (exclusive_control o), (conf_file o).
    exact E. }
  unfold create_engine. destruct (o_adaptive o); [|by apply Hd].
  destruct (create_adaptive o (pw p)) as [[r|[]] d1] eqn:E; [|done..].
  destruct (Z.eqb_spec r THD_SUCCESS) as [->|]; [|intros Hr; by apply Hd in Hr]. intros [= <- <-]. split; [|done].
  exists d1. split; [|apply rtc_refl]. right.
  exists (flag_set address IgnoreCritical o), uninit, (pw p), switches, (ignore_cpuid_check o), false. exact E.
Qed.


(** What the end leaves: the lock file is closed and removed. *)
Definition released (h : Z) (w w' : W) : Prop :=
  w' = if h =? -1 then w else p_unlink lock_file (k_close h w).

Lemma default_or_exit_exits o rel p code p' : default_or_exit o rel p = (inl (Exits code), p') ->
  exists r d, create_default o (pw p) rel = (Some r, d) /\ r <> THD_SUCCESS /\
    code = (if r =? THD_ERROR then EXIT_UNSUPPORTED else EXIT_FAILURE) /\
    released (lock_file_handle p) (world_of d) (pw p').
Proof.
  unfold default_or_exit, created_or_exit, bind, clean_up_lockfile, exits, ret, released.
  destruct (create_default o (pw p) rel) as [[r|] d]; [|done].
  destruct (Z.eqb_spec r THD_SUCCESS) as [|Hr]; [done|]. cbn.
  destruct (lock_file_handle p =? -1); cbn; intros [= <- <-]; exists r, d; done.
Qed.


(** ** The lock *)

(** Documented of record locks: [lockf] on a descriptor of the file takes the
    lock for the calling process, and a child process does not inherit it. *)
Class LockLaws := {
  p_holds : string -> W -> bool;
  lock_taken path w h w1 r w2 : p_open_lock path w = (h, w1) -> h <> -1 -> p_lockf h w1 = (r, w2) -> r <> -1 ->
    p_holds path w2 = true;
  daemon_drops path w w1 : p_daemon w = (0, w1) -> p_holds path w1 = false;
  object_keeps path w : p_holds path (snd (g_object_new w)) = p_holds path w;
  name_keeps path name w : p_holds path (snd (g_bus_own_name name w)) = p_holds path w;
}.

Lemma take_lock_holds `{!LockLaws} p p' : take_lock p = (inr tt, p') ->
  lock_file_handle p' = -1 \/ p_holds lock_file (pw p') = true.
Proof.
  unfold take_lock, check_thermald_running, bind, on_pw, modify, ret, exits, goes_on.
  destruct (p_open_lock lock_file (pw p)) as [h w1] eqn:Eo. destruct (Z.eqb_spec h (-1)) as [->|Hh].
  { intros [= <-]. by left. }
  cbn. destruct (p_lockf h w1) as [r w2] eqn:El. destruct (Z.eqb_spec r (-1)) as [|Hr]; cbn; intros [= <-]. right.
  cbn. by eapply lock_taken.
Qed.

Lemma bus_holds `{!LockLaws} o p path :
  p_holds path (pw (snd ((if dbus_enable o then set_up_bus else ret tt) p))) = p_holds path (pw p).
Proof.
  destruct (dbus_enable o); [|done]. unfold set_up_bus, thd_dbus_server_init, bind, mods, modify, on_bus, ret.
  pose proof (object_keeps path (pw p)) as H1. destruct (g_object_new (pw p)) as [[] w1]; cbn in *; [|done].
  pose proof (name_keeps path THD_SERVICE_NAME w1) as H2. destruct (g_bus_own_name THD_SERVICE_NAME w1) as [id w2].
  cbn in *. congruence.
Qed.

Lemma settle_holds `{!LockLaws} o p p' : settle o p = (inr tt, p') ->
  p_holds lock_file (pw p') = if thd_daemonize o then false else p_holds lock_file (pw p).
Proof.
  intros Hs. apply settle_unfold in Hs. cbv zeta in Hs.
  pose proof (bus_holds o (if thd_daemonize o then p else p <| signal_handlers := true |>) lock_file) as Hb.
  destruct (thd_daemonize o); [destruct Hs as (w & Hd & ->); by eapply daemon_drops|by subst p'; rewrite Hb].
Qed.

(** C14: the lock when the engine is about to be created.  In the foreground,
    and under systemd, the process holds it, unless the file could not be opened;
    in the background it never does: the child that goes on has not inherited the
    lock its parent took. *)
Theorem lock_until_engine `{!LockLaws} cmd p o p' :
  until_engine cmd p = (inr o, p') ->
  (thd_daemonize o = false -> lock_file_handle p' = -1 \/ p_holds lock_file (pw p') = true) /\
  (thd_daemonize o = true -> p_holds lock_file (pw p') = false).
Proof.
  unfold until_engine. intros H1. apply and_then_inr in H1 as (o2 & p2 & Hc & H3).
  apply and_then_inr in H3 as ([] & p3 & Hl & H4). apply and_then_inr in H4 as ([] & p4 & Hs & H5).
  unfold ret in H5. injection H5 as -> ->. pose proof (settle_holds _ _ _ Hs) as Hh.
  apply settle_inr in Hs as [_ Eh]. apply take_lock_holds in Hl. rewrite Hh, Eh. split; intros ->; [exact Hl|done].
Qed.

(** A lock file that cannot be opened is taken for a free one, whatever the
    message says. *)
Theorem unopened_lock_goes_on p w : p_open_lock lock_file (pw p) = (-1, w) -> fst (take_lock p) = inr tt.
Proof. intros E. unfold take_lock, check_thermald_running, bind, on_pw. by rewrite E. Qed.
End process.

(** * Runs *)

(** The rest of a machine: the user, and the locks the process holds. *)
Record desk := mk_desk { d_uid : Z; d_held : list string }.
#[export] Instance eta_desk : Eta desk := {| eta_of := fun x => mk_desk (d_uid x) (d_held x) |}.
Abbreviation office := (sim * board * desk)%type.
Definition lock_handle : Z := 99.
Definition office_lock : string := "/run/thermald.pid".

#[local] Instance office_process : Process office := {|
  p_module_supported := fun _ => true;
  p_getuid := fun w => d_uid (snd w);
  p_mkdir := fun _ w => (0, w);
  p_open_lock := fun path w => if String.eqb path office_lock then (lock_handle, w) else (-1, w);
  p_lockf := fun h w => if h =? lock_handle then (0, (fst w, (snd w) <| d_held := [office_lock] |>)) else (-1, w);
  p_unlink := fun _ w => w;
  p_main_loop_new := fun _ => true;
  p_daemon := fun w => (0, (fst w, (snd w) <| d_held := [] |>)) |}.

#[local] Instance office_bus : Bus office := {|
  g_object_new := fun w => (true, w);
  g_bus_own_name := fun _ w => (1, w);
  g_resources_lookup_data := fun _ _ => Some "<node>";
  g_dbus_node_info_new_for_xml := fun _ => Some ["org.freedesktop.thermald"];
  g_dbus_connection_register_object := fun _ _ w => (1, w);
  g_dbus_proxy_new_sync := fun _ w => (true, w);
  dbus_g_bus_get := fun w => (true, w);
  dbus_g_proxy_new_for_name := fun w => (true, w);
  dbus_request_name := fun _ w => (Some DBUS_REQUEST_NAME_REPLY_PRIMARY_OWNER, w);
  dbus_g_connection_register_g_object := fun _ w => w |}.

#[local] Instance office_locks : @LockLaws office office_process office_bus.
Proof.
  refine {| p_holds := fun path w => bool_decide (path ∈ d_held (snd w)) |}; cbn.
  - intros path w h w1 r w2. destruct (String.eqb_spec path office_lock) as [->|]; intros [= <- <-] Hh; [|done].
    cbn. intros [= <- <-] _. cbn. apply bool_decide_eq_true. left.
  - intros path w w1 [= <-]. cbn. apply bool_decide_eq_false, not_elem_of_nil.
  - done.
  - done.
Defined.

#[local] Instance office_rapl : RaplEngine office := pair_rapl (HR := board_rapl).
#[local] Instance office_xml : LibXml office (list xmlNode) := pair_xml (HL := board_xml).
#[local] Instance office_hardware : Hardware office := pair_hardware.

Definition at_desk (uid : Z) (signature : Z) : process office :=
  mk_process (laptop, mk_board (Some "x86_64") intel_vendor signature ∅, mk_desk uid []) (-1) false no_server.
Definition kaby_lake : Z := signature 9 0xe 6 0 8 0.

Definition no_switches : GddvConditions.platform := GddvConditions.mk_platform None None false false.

Abbreviation office_main := (main (W := office) (D := list xmlNode) 0 0 "/etc/thermald" "/run" (fun _ => ret THD_ERROR)
  (mk_pid_control zero_double zero_double zero_double) 3 2 true (mk_os 0 0 0 0 0 "") adjacent (fun _ _ => (1, [])) (fun _ => true)
  no_switches).
Abbreviation office_create := (create_engine (W := office) (D := list xmlNode) 0 0 "/etc/thermald" "/run" (fun _ => ret THD_ERROR)
  (mk_pid_control zero_double zero_double zero_double) 3 2 true (mk_os 0 0 0 0 0 "") adjacent (fun _ _ => (1, [])) (fun _ => true)
  no_switches).
Abbreviation office_until := (until_engine (W := office) "/etc/thermald" "/run" adjacent).

Definition ending_of {A B C} (r : (ending + A * B) * C) : option Z :=
  match fst r with inl (Exits c) => Some c | _ => None end.

(** Not root, another processor, and a second run as the first one goes on. *)
Example not_root : ending_of (office_main (Some [NoDaemon]) (at_desk 1000 kaby_lake)) = Some 1.
Proof. vm_compute. reflexivity. Qed.
Example unsupported : ending_of (office_main (Some [NoDaemon]) (at_desk 0 0)) = Some 2.
Proof. vm_compute. reflexivity. Qed.

(** Without a data vault --adaptive comes to the default engine; on a processor
    that is not listed it ends the process with success, and the lock is kept. *)
Example adaptive_falls_back :
  match fst (office_main (Some [NoDaemon; Adaptive]) (at_desk 0 kaby_lake)) with
  | inr (o, d) => o_adaptive o = true /\ o_tables (members d) = None
  | _ => False
  end.
Proof. vm_compute. split; reflexivity. Qed.
Example adaptive_exits :
  let '(r, p') := office_main (Some [NoDaemon; Adaptive]) (at_desk 0 0) in
  ending_of (r, p') = Some 0 /\ p_holds office_lock (pw p') = true.
Proof. vm_compute. split; reflexivity. Qed.



Lemma lock_until_engine_witness :
  exists o p', office_until (Some []) (at_desk 0 kaby_lake) = (inr o, p') /\ p_holds (lock_file "/run") (pw p') = false.
Proof.
  destruct (office_until (Some []) (at_desk 0 kaby_lake)) as [r p'] eqn:E.
  assert (Hr : match r with inr o => thd_daemonize o = true | _ => False end).
  { change r with (fst (r, p')). rewrite <- E. vm_compute. reflexivity. }
  destruct r as [|o]; [destruct Hr|]. exists o, p'. split; [reflexivity|].
  exact (proj2 (lock_until_engine _ _ _ _ _ _ _ E) Hr).
Defined.
