(* ===== verification/AndroidMain.v ===== *)
(** The start of the process on Android (src/android_main.cpp): the command
    line, the background process with its lock file and signal handlers, the
    creation of the engine and the end.

    The results of [getopt_long] are the input of [main], in their order.  That
    build compiles a few functions of the engine differently (the [ANDROID]
    switch in src/), so [main] is written against what it asks of an engine,
    the class [Engines]; [daemon_engines] below discharges it with the engines
    of Daemon.v. *)
From stdpp Require Import base gmap strings list relations.
From Stdlib Require Import ZArith Lia.
From Stdlib Require String.
From S2P Require Import Prelude CString MeterData SysFs CFloat Pid Cdev CdevRapl Devices PowerMeter Machine Preference TripPoint Xml Parse ParseCodec Zone ZoneKinds Engine EngineUser EngineStart Gddv GddvConditions EngineAdaptive EngineDefault EngineAdaptiveInit Platform DBus Pointers PointersEngine PointersStart Daemon Main.

Open Scope string_scope.
Open Scope list_scope.
Open Scope Z_scope.

(** * The command line *)

(** What [getopt_long] returned, with [optarg]; [Other] is every other value. *)
Inductive getopt_result :=
| OptHelp | OptVersion | OptNoDaemon
| OptPoll (optarg : string)
| OptExclusive | OptTest
| OptConf (optarg : string)
| OptIgnoreCpuid | OptIgnoreDefault | OptAdaptive
| OptOther.

(** The variables of [main] and the global ones it sets. *)
Record settings := mk_settings {
  a_no_daemon : bool;
  a_exclusive_control : bool;
  a_test_mode : bool;
  a_conf_file : option string;
  a_ignore_cpuid_check : bool;
  a_adaptive : bool;
  a_poll_interval : Z;
  a_ignore_default_control : bool;
}.
#[export] Instance eta_settings : Eta settings := {| eta_of := fun x =>
  mk_settings (a_no_daemon x) (a_exclusive_control x) (a_test_mode x) (a_conf_file x) (a_ignore_cpuid_check x)
    (a_adaptive x) (a_poll_interval x) (a_ignore_default_control x) |}.
Definition initial_settings : settings := mk_settings false false false None false false 4 false.

Definition set_one (o : settings) (c : getopt_result) : settings :=
  match c with
  | OptNoDaemon => o <| a_no_daemon := true |>
  | OptPoll arg => o <| a_poll_interval := atoi arg |>
  | OptExclusive => o <| a_exclusive_control := true |>
  | OptTest => o <| a_test_mode := true |>
  | OptConf arg => o <| a_conf_file := Some arg |>
  | OptIgnoreCpuid => o <| a_ignore_cpuid_check := true |>
  | OptIgnoreDefault => o <| a_ignore_default_control := true |>
  | OptAdaptive => o <| a_adaptive := true |>
  | _ => o
  end.

(** The loop of [main]; help and the version end the process. *)
Fixpoint read_options (l : list getopt_result) (o : settings) : ending + settings :=
  match l with
  | [] => inr o
  | OptHelp :: _ => inl (Exits EXIT_SUCCESS)
  | OptVersion :: _ => inl (Exits EXIT_SUCCESS)
  | c :: rest => read_options rest (set_one o c)
  end.

(** * The process *)

Definition SIGHUP : Z := 1.
Definition SIGINT : Z := 2.
Definition SIGTERM : Z := 15.
Definition SIGCHLD : Z := 17.
Definition SIGTSTP : Z := 20.
Definition SIGTTIN : Z := 21.
Definition SIGTTOU : Z := 22.
Definition AID_SYSTEM : Z := 1000.
Definition EEXIST : Z := 17.

(** What the process asks of the operating system, beside the files. *)
Class Bionic (W : Type) := {
  b_getuid : W -> Z;
  b_getpid : W -> Z;
  b_getppid : W -> Z;
  b_mkdir : string -> W -> option Z * W;    (* mkdir(): [errno] of a failure *)
  b_sigprocmask : list Z -> W -> W;         (* SIG_BLOCK *)
  b_fork : W -> Z * W;
  b_umask : Z -> W -> W;
  b_setsid : W -> Z * W;
  b_dup : Z -> W -> W;
  b_chdir : string -> W -> W;
  b_flock : Z -> W -> Z * W;                (* the lock of the build, not waited for *)
}.

(** What [main] and the signal handler ask of the engines: the two functions
    that create one, which replace the object behind the global pointer and
    destroy the one before, [thd_engine_terminate] and the destructor. *)
Class Engines (W E : Type) := {
  create_adaptive_engine : settings -> bool -> bool -> State (option E * W) (ending + Z);
  create_default_engine : settings -> bool -> bool -> option string -> State (option E * W) (ending + Z);
  terminate_engine : E -> State W (ending + E);
  destroy : E -> W -> W;
}.

Record android (W E : Type) := mk_android {
  aw : W;
  pid_file_handle : Z;
  handlers : list Z;
  thd_engine : option E;
}.
Arguments mk_android {W E}. Arguments aw {W E}. Arguments pid_file_handle {W E}.
Arguments handlers {W E}. Arguments thd_engine {W E}.
#[export] Instance eta_android {W E} : Eta (android W E) := {| eta_of := fun x =>
  mk_android (aw x) (pid_file_handle x) (handlers x) (thd_engine x) |}.

Section android.
Context {W E : Type} {HK : Kernel W} {HB : Bionic W} {HE : Engines W E}.
Context (TDCONFDIR TDRUNDIR : string) (dtablesize : nat).
Abbreviation AP A := (State (android W E) (ending + A)).

Definition on_aw {A} (m : State W A) : State (android W E) A := fun p =>
  let '(a, w) := m (aw p) in (a, p <| aw := w |>).
Definition does (f : W -> W) : State (android W E) unit := on_aw (fun w => (tt, f w)).
Definition ends_with {A} (code : Z) : AP A := ret (inl (Exits code)).
Definition continues : AP unit := ret (inr tt).
Definition followed {A B} (m : AP A) (k : A -> AP B) : AP B :=
  r <- m ;; match r with inl e => ret (inl e) | inr a => k a end.

(** ** The end *)

(** [daemonShutdown]; the handler may run before there is an engine, and then
    the global pointer is null. *)
Definition daemonShutdown : AP unit := fun p =>
  let p := if truthy (pid_file_handle p) then p <| aw := k_close (pid_file_handle p) (aw p) |> else p in
  match thd_engine p with
  | None => (inl Lost, p)
  | Some e =>
      match terminate_engine e (aw p) with
      | (inl x, w) => (inl x, p <| aw := w |>)
      | (inr e, w) => (inr tt, p <| aw := destroy e (k_sleep 1 w) |> <| thd_engine := None |>)
      end
  end.

Definition signal_handler (sig : Z) : AP unit :=
  if (sig =? SIGINT) || (sig =? SIGTERM) then followed daemonShutdown (fun _ => ends_with EXIT_SUCCESS)
  else continues.

(** ** The background *)

(** Descriptors [n] down to 0. *)
Fixpoint close_down (n : nat) (w : W) : W :=
  let w := k_close (Z.of_nat n) w in
  match n with O => w | S n' => close_down n' w end.

Definition open_or (path : string) : State W Z := fun w =>
  let '(r, w) := k_open_rw path w in (match r with inl _ => -1 | inr fd => fd end, w).

(** [snprintf] into a buffer of ten bytes. *)
Definition pid_line (pid : Z) : string := String.substring 0 9 (string_of_Z pid +:+ String (char_of 10) "").

Definition daemonize (rundir pidfile : string) : AP unit :=
  ppid <- gets (fun p => b_getppid (aw p)) ;;
  if ppid =? 1 then continues else
  does (b_sigprocmask [SIGCHLD; SIGTSTP; SIGTTOU; SIGTTIN]) ;;
  modify (fun p => p <| handlers := [SIGHUP; SIGTERM; SIGINT] |>) ;;
  pid <- on_aw b_fork ;;
  if pid <? 0 then ends_with EXIT_FAILURE else
  if pid >? 0 then ends_with EXIT_SUCCESS else
  does (b_umask 23) ;;
  sid <- on_aw b_setsid ;;
  if sid <? 0 then ends_with EXIT_FAILURE else
  does (close_down dtablesize) ;;
  i <- on_aw (open_or "/dev/null") ;;
  does (b_dup i) ;;
  does (b_dup i) ;;
  does (b_chdir rundir) ;;
  r <- on_aw (with_fs pidfile create) ;;
  if r =? -1 then ends_with EXIT_FAILURE else
  h <- on_aw (open_or pidfile) ;;
  modify (fun p => p <| pid_file_handle := h |>) ;;
  if h =? -1 then ends_with EXIT_FAILURE else
  l <- on_aw (b_flock h) ;;
  if l <? 0 then ends_with EXIT_FAILURE else
  pid <- gets (fun p => b_getpid (aw p)) ;;
  on_aw (k_write h (pid_line pid)) ;;
  continues.

(** ** [main] *)

Definition data_dir : string := "/data/vendor/thermal-daemon".
Definition android_pid_file : string := "/data/vendor/thermal-daemon/thermald.pid".

(** Lines 248-262. *)
Definition prepare (o : settings) : AP unit :=
  uid <- gets (fun p => b_getuid (aw p)) ;;
  if negb ((uid =? 0) || (uid =? AID_SYSTEM)) && negb (a_test_mode o) then ends_with 1 else
  r <- on_aw (b_mkdir TDRUNDIR) ;;
  match r with
  | Some errno => if negb (errno =? EEXIST) then ends_with EXIT_FAILURE else on_aw (b_mkdir TDCONFDIR) ;; continues
  | None => on_aw (b_mkdir TDCONFDIR) ;; continues
  end.

(** Lines 263-267. *)
Definition background (o : settings) : AP unit :=
  if a_no_daemon o then modify (fun p => p <| handlers := SIGINT :: handlers p |>) ;; continues
  else daemonize data_dir android_pid_file.

Definition on_engines (m : State (option E * W) (ending + Z)) : AP Z := fun p =>
  let '(r, (e, w)) := m (thd_engine p, aw p) in (r, p <| thd_engine := e |> <| aw := w |>).

(** Lines 272-291. *)
Definition make_engine (o : settings) : AP unit :=
  followed
    (if a_adaptive o then
       followed (on_engines (create_adaptive_engine o true (a_test_mode o))) (fun r =>
       if negb (r =? THD_SUCCESS)
       then on_engines (create_default_engine o true (a_exclusive_control o) (a_conf_file o))
       else ret (inr r))
     else on_engines (create_default_engine o (a_ignore_cpuid_check o) (a_exclusive_control o) (a_conf_file o)))
  (fun r =>
  if negb (r =? THD_SUCCESS) then ends_with (if r =? THD_ERROR then EXIT_UNSUPPORTED else EXIT_FAILURE)
  else continues).

(** Everything before the engine. *)
Definition android_until_engine (l : list getopt_result) : AP settings :=
  match read_options l initial_settings with
  | inl e => ret (inl e)
  | inr o =>
      followed (prepare o) (fun _ =>
      followed (background o) (fun _ => ret (inr o)))
  end.

(** Up to the loop that only sleeps. *)
Definition android_main (l : list getopt_result) : AP settings :=
  followed (android_until_engine l) (fun o =>
  followed (make_engine o) (fun _ => ret (inr o))).

(** * Theorems *)

Lemma followed_inr {A B} (m : AP A) (k : A -> AP B) p b p' :
  followed m k p = (inr b, p') -> exists a p1, m p = (inr a, p1) /\ k a p1 = (inr b, p').
Proof. unfold followed, bind. destruct (m p) as [[e|a] p1]; cbn; [done|]. intros H. by exists a, p1. Qed.

(** Help and the version are asked for by no option of a call that goes on, and
    the variables are set by the options in their order. *)
Lemma read_options_inr l o o' : read_options l o = inr o' ->
  (OptHelp ∉ l) /\ (OptVersion ∉ l) /\ o' = foldl set_one o l.
Proof.
  revert o. induction l as [|c l IH]; intros o.
  { cbn. intros [= <-]. split; [apply not_elem_of_nil|]. split; [apply not_elem_of_nil|done]. }
  assert (Hc : read_options (c :: l) o = inr o' -> c <> OptHelp /\ c <> OptVersion /\ read_options l (set_one o c) = inr o').
  { destruct c; cbn; intros; try done; repeat split; done. }
  intros Hr. destruct (Hc Hr) as (H1 & H2 & H3). destruct (IH _ H3) as (I1 & I2 & I3).
  rewrite !not_elem_of_cons. split; [by split; [|done]; congruence|]. split; [by split; [|done]; congruence|exact I3].
Qed.

Lemma prepare_inr o p p' : prepare o p = (inr tt, p') ->
  (b_getuid (aw p) = 0 \/ b_getuid (aw p) = AID_SYSTEM \/ a_test_mode o = true) /\
  handlers p' = handlers p /\ pid_file_handle p' = pid_file_handle p /\ thd_engine p' = thd_engine p.
Proof.
  unfold prepare, bind, gets, ends_with, ret, on_aw, continues.
  destruct (negb _ && negb (a_test_mode o)) eqn:Eu; [done|]. intros Hm. split.
  - apply andb_false_iff in Eu as [Eu|Eu]; apply negb_false_iff in Eu; [|by right; right].
    apply orb_true_iff in Eu as [Eu|Eu]; apply Z.eqb_eq in Eu; auto.
  - destruct (b_mkdir TDRUNDIR (aw p)) as [[errno|] w1]; [destruct (negb (errno =? EEXIST)); [done|]|];
      cbn in Hm; destruct (b_mkdir TDCONFDIR w1) as [r w2]; injection Hm as <-; done.
Qed.

(** Documented of [flock]: it locks the file the descriptor was opened on, and
    the holder may write to it. *)
Class FlockLaws := {
  b_holds : string -> W -> bool;
  flock_held path w h w1 l w2 : open_or path w = (h, w1) -> h <> -1 -> b_flock h w1 = (l, w2) -> 0 <= l ->
    b_holds path w2 = true;
  write_holds path h s w : b_holds path (snd (k_write h s w)) = b_holds path w;
}.

(** The process goes on as the child in a session of its own, with its handlers
    and the lock; a process whose parent is init skips all that. *)
Lemma daemonize_inr `{!FlockLaws} dir file p p' : daemonize dir file p = (inr tt, p') ->
  thd_engine p' = thd_engine p /\
  if b_getppid (aw p) =? 1 then p' = p
  else handlers p' = [SIGHUP; SIGTERM; SIGINT] /\ pid_file_handle p' <> -1 /\ b_holds file (aw p') = true.
Proof.
  unfold daemonize, bind at 1, gets at 1. destruct (b_getppid (aw p) =? 1).
  { unfold continues, ret. by intros [= <-]. }
  unfold does, on_aw, modify, gets, ends_with, continues, ret, bind.
  destruct (b_fork _) as [pid w1]. destruct (pid <? 0); [done|]. destruct (pid >? 0); [done|]. cbn [aw field_set].
  destruct (b_setsid _) as [sid w2]. destruct (sid <? 0); [done|]. cbn.
  destruct (open_or "/dev/null" _) as [i w3]. cbn. destruct (with_fs file create _) as [r w4].
  destruct (r =? -1); [done|]. cbn. destruct (open_or file w4) as [h w5] eqn:Eo.
  destruct (Z.eqb_spec h (-1)) as [|Hh]; [done|]. cbn. destruct (b_flock h w5) as [l w6] eqn:El.
  destruct (Z.ltb_spec l 0) as [|Hl]; [done|]. cbn.
  pose proof (write_holds file h (pid_line (b_getpid w6)) w6) as Hw. destruct (k_write h _ w6) as [n w7].
  intros [= <-]. cbn in *. split; [done|]. split; [done|]. split; [done|]. rewrite Hw. by eapply flock_held.
Qed.

(** An engine was created, by the function the options ask for or by the other
    one after it failed. *)
Definition engine_made (o : settings) (p p' : android W E) : Prop :=
  (if a_adaptive o then create_adaptive_engine o true (a_test_mode o)
   else create_default_engine o (a_ignore_cpuid_check o) (a_exclusive_control o) (a_conf_file o)) (thd_engine p, aw p)
    = (inr THD_SUCCESS, (thd_engine p', aw p')) \/
  a_adaptive o = true /\ exists r e w, create_adaptive_engine o true (a_test_mode o) (thd_engine p, aw p) = (inr r, (e, w)) /\
    r <> THD_SUCCESS /\
    create_default_engine o true (a_exclusive_control o) (a_conf_file o) (e, w) = (inr THD_SUCCESS, (thd_engine p', aw p')).

Lemma on_engines_eq m p r p' : on_engines m p = (r, p') ->
  m (thd_engine p, aw p) = (r, (thd_engine p', aw p')) /\ handlers p' = handlers p /\ pid_file_handle p' = pid_file_handle p.
Proof. unfold on_engines. destruct (m (thd_engine p, aw p)) as [x [e w]]. by intros [= <- <-]. Qed.

Lemma make_engine_inr o p p' : make_engine o p = (inr tt, p') ->
  engine_made o p p' /\ handlers p' = handlers p /\ pid_file_handle p' = pid_file_handle p.
Proof.
  unfold make_engine. intros H0. apply followed_inr in H0 as (r & p1 & H1 & H2).
  destruct (Z.eqb_spec r THD_SUCCESS) as [->|]; [|done]. cbn in H2. injection H2 as ->. unfold engine_made.
  destruct (a_adaptive o).
  - apply followed_inr in H1 as (r1 & p2 & H3 & H4). apply on_engines_eq in H3 as (E3 & F3 & G3).
    destruct (Z.eqb_spec r1 THD_SUCCESS) as [->|Hr].
    + cbn in H4. injection H4 as ->. split; [|done]. by left.
    + cbn in H4. apply on_engines_eq in H4 as (E4 & F4 & G4). split; [|split; congruence].
      right. split; [done|]. by exists r1, (thd_engine p2), (aw p2).
  - apply on_engines_eq in H1 as (E3 & F3 & G3). split; [|done]. by left.
Qed.

(** C16: what the start on Android comes to.  When the process serves, no option
    asked for help or the version and the others were applied in their order; it
    runs as root or as the system user, or for a test; an engine was created as
    the options say.  In the foreground only SIGINT is handled, and no lock is
    taken.  In the background SIGHUP, SIGTERM and SIGINT are handled and the lock
    is held before there is an engine, unless the parent is init: then the
    process has neither handlers nor the lock. *)
Theorem android_start `{!FlockLaws} l p o p' : android_main l p = (inr o, p') ->
  ((OptHelp ∉ l) /\ (OptVersion ∉ l) /\ o = foldl set_one initial_settings l) /\
  (b_getuid (aw p) = 0 \/ b_getuid (aw p) = AID_SYSTEM \/ a_test_mode o = true) /\
  exists p1 p2, prepare o p = (inr tt, p1) /\ engine_made o p2 p' /\ thd_engine p2 = thd_engine p /\
    if a_no_daemon o then handlers p' = SIGINT :: handlers p /\ aw p2 = aw p1
    else if b_getppid (aw p1) =? 1 then handlers p' = handlers p /\ p2 = p1
    else handlers p' = [SIGHUP; SIGTERM; SIGINT] /\ pid_file_handle p' <> -1 /\
         b_holds android_pid_file (aw p2) = true.
Proof.
  unfold android_main, android_until_engine. intros H0. apply followed_inr in H0 as (o1 & p2 & H1 & H2).
  destruct (read_options l initial_settings) as [e|o2] eqn:Er; [done|].
  apply followed_inr in H1 as ([] & p1 & Hp & H3). apply followed_inr in H3 as ([] & p3 & Hb & H4).
  cbn in H4. injection H4 as -> ->. apply followed_inr in H2 as ([] & p4 & Hm & H5). cbn in H5. injection H5 as -> ->.
  split; [by apply read_options_inr in Er|]. pose proof (prepare_inr _ _ _ Hp) as (Hu & Hh & Hf & He). split; [exact Hu|].
  apply make_engine_inr in Hm as (Hm & Fh & Fp). exists p1, p2. split; [done|]. split; [done|].
  unfold background in Hb. destruct (a_no_daemon o).
  - cbn in Hb. injection Hb as <-. rewrite Fh. split; [done|]. split; [cbn; by rewrite Hh|done].
  - apply daemonize_inr in Hb as [Hd Hb]. split; [congruence|]. destruct (b_getppid (aw p1) =? 1).
    + subst p2. split; [congruence|done].
    + by rewrite Fh, Fp.
Qed.

(** A signal that arrives between the handlers and the engine meets a null
    pointer. *)
Theorem early_signal_is_lost p : thd_engine p = None ->
  fst (signal_handler SIGTERM p) = inl Lost /\ fst (signal_handler SIGINT p) = inl Lost.
Proof.
  intros Ht. assert (Hd : fst (daemonShutdown p) = inl Lost).
  { unfold daemonShutdown. destruct (truthy (pid_file_handle p)); cbn; by rewrite Ht. }
  unfold signal_handler, followed, bind. cbn. destruct (daemonShutdown p) as [r q]. cbn in Hd. by subst r.
Qed.
End android.

(** * The engines *)

Section engines.
Context {W D : Type} {HK : Kernel W} {HR : RaplEngine W} {HL : LibXml W D} {HH : Hardware W} (garbage uninit : Z).
Context (TDCONFDIR TDRUNDIR : string) (generate_conf : string -> State W Z) (uninit_pid : pid_control_t).
Context (depth meter_depth : nat) (created : bool) (os : os_answers).
Context (LzmaDecode : list Z -> Z -> Z * list Z) (can_alloc : Z -> bool) (switches : platform).
Abbreviation daemon := (engine device (W * object D)).

(** The destructor of what the global pointer held. *)
Definition release_old (old : option daemon) (w : W) : W :=
  match old with Some d => release d w | None => w end.

(** The global options that have no switch on Android are off. *)
Definition daemon_engines : Engines W daemon := {|
  create_adaptive_engine := fun o ignore_cpuid_check test_mode '(old, w) =>
    let '(r, d) := start_with_tables garbage TDCONFDIR TDRUNDIR generate_conf uninit_pid depth meter_depth created os LzmaDecode
      can_alloc (a_ignore_default_control o) false false (a_poll_interval o) false uninit (release_old old w) switches
      ignore_cpuid_check test_mode in
    (match r with
     | inl r => inr r
     | inr Exited => inl (Exits EXIT_SUCCESS)
     | inr Threw => inl Terminated
     | inr Undefined => inl Lost
     end, (Some d, world_of d));
  create_default_engine := fun o ignore_cpuid_check exclusive_control conf_file '(old, w) =>
    let '(r, d) := start garbage TDCONFDIR TDRUNDIR generate_conf uninit_pid meter_depth created os
      (a_ignore_default_control o) false false (a_poll_interval o) false uninit w (release_old old)
      ignore_cpuid_check exclusive_control conf_file in
    (match r with Some r => inr r | None => inl Lost end, (Some d, world_of d));
  terminate_engine := fun d w =>
    let '(r, d) := thd_engine_terminate (on_outside (fun _ => w) d) in
    (match r with Some _ => inr d | None => inl Lost end, world_of d);
  destroy := release |}.

(** An engine that was made is a state of the running daemon. *)
Lemma made_engine_runs {HB : Bionic W} exit_callback o p p' : engine_made (HE := daemon_engines) o p p' ->
  exists d, thd_engine p' = Some d /\
    reachable garbage TDCONFDIR TDRUNDIR generate_conf uninit_pid depth meter_depth created os LzmaDecode can_alloc
      (a_ignore_default_control o) false false false (a_poll_interval o) exit_callback d.
Proof.
  assert (Hd : forall icc ex conf q (e' : option daemon) w', create_default_engine (Engines := daemon_engines) o icc ex conf q = (inr THD_SUCCESS, (e', w')) ->
    exists d, e' = Some d /\ reachable garbage TDCONFDIR TDRUNDIR generate_conf uninit_pid depth meter_depth created os LzmaDecode can_alloc
      (a_ignore_default_control o) false false false (a_poll_interval o) exit_callback d).
  { intros icc ex conf [old w] e' w'. cbn. destruct (start _ _ _ _ _ _ _ _ _ _ _ _ _ _ _ _ _ _ _) as [[r|] d] eqn:E; [|done].
    intros [= -> <- <-]. exists d. split; [done|]. exists d. split; [|apply rtc_refl]. left. by eexists _, _, _, _, _, _, _. }
  intros [Hm|(_ & r & e & w & _ & _ & Hm)]; [|by eapply Hd]. destruct (a_adaptive o); [|by eapply Hd].
  cbn in Hm. destruct (start_with_tables _ _ _ _ _ _ _ _ _ _ _ _ _ _ _ _ _ _ _ _ _) as [[r|[]] d] eqn:E; try done.
  injection Hm as -> E1 E2. exists d. split; [done|]. exists d. split; [|apply rtc_refl]. right. by eexists _, _, _, _, _, _.
Qed.
End engines.

(** * A run *)

#[local] Existing Instances office_rapl office_xml office_hardware.

Definition hold (path : string) (w : office) : office := (fst w, (snd w) <| d_held := [path] |>).

(** A phone: the daemon is started by a shell whose process is 500. *)
#[local] Instance phone : Bionic office := {|
  b_getuid := fun w => d_uid (snd w);
  b_getpid := fun _ => 77;
  b_getppid := fun _ => 500;
  b_mkdir := fun _ w => (Some EEXIST, w);
  b_sigprocmask := fun _ w => w;
  b_fork := fun w => (0, w);
  b_umask := fun _ w => w;
  b_setsid := fun w => (77, w);
  b_dup := fun _ w => w;
  b_chdir := fun _ w => w;
  b_flock := fun h w =>
    match sim_fds (fst (fst w)) !! Z.to_nat h with Some p => (0, hold p w) | None => (-1, w) end |}.

#[local] Instance phone_locks : @FlockLaws office _ phone.
Proof.
  refine {| b_holds := fun path w => bool_decide (path ∈ d_held (snd w)) |}.
  - intros path [[w b] dk] h w1 l w2. unfold open_or. cbn. unfold sim_open. destruct (sim_files w !! path); [|by intros [= <- <-]].
    intros [= <- <-] _. cbn. rewrite Nat2Z.id, list_lookup_middle by done. intros [= <- <-] _. cbn.
    apply bool_decide_eq_true. left.
  - intros path h s [[w b] dk]. cbn. unfold sim_write. by destruct (sim_fds w !! Z.to_nat h).
Defined.

#[local] Instance phone_engines : Engines office (engine device (office * object (list xmlNode))) :=
  daemon_engines 0 0 "/etc/thermald" "/data/vendor/thermal-daemon" (fun _ => ret THD_ERROR)
    (mk_pid_control zero_double zero_double zero_double) 3 2 true (mk_os 0 0 0 0 0 "") (fun _ _ => (1, [])) (fun _ => true) no_switches.

Definition switched_on (uid : Z) : android office (engine device (office * object (list xmlNode))) :=
  mk_android (pw (at_desk uid kaby_lake)) 0 [] None.
Abbreviation phone_main := (android_main (E := engine device (office * object (list xmlNode)))
  "/etc/thermald" "/data/vendor/thermal-daemon" 20).

(** The system user starts it in the background. *)
Lemma android_start_witness :
  exists o p', phone_main [OptPoll "2"; OptAdaptive] (switched_on 1000) = (inr o, p') /\
    o = foldl set_one initial_settings [OptPoll "2"; OptAdaptive] /\
    handlers p' = [SIGHUP; SIGTERM; SIGINT] /\ pid_file_handle p' <> -1 /\
    exists p2, engine_made o p2 p' /\ b_holds android_pid_file (aw p2) = true.
Proof.
  destruct (phone_main [OptPoll "2"; OptAdaptive] (switched_on 1000)) as [r p'] eqn:E.
  assert (Hr : match r with inr _ => True | _ => False end).
  { change r with (fst (r, p')). rewrite <- E. vm_compute. exact I. }
  destruct r as [|o]; [destruct Hr|]. exists o, p'. split; [reflexivity|].
  destruct (android_start _ _ _ _ _ _ _ E) as ((_ & _ & Ho) & _ & p1 & p2 & _ & Hm & _ & Hb).
  split; [exact Ho|]. rewrite Ho in Hb. change (b_getppid (aw p1) =? 1) with false in Hb. cbn in Hb.
  destruct Hb as (H1 & H2 & H3). split; [exact H1|]. split; [exact H2|]. exists p2. split; [exact Hm|exact H3].
Defined.
