(* ===== verification/AndroidConditions.v ===== *)
(** The conditions that src/thd_gddv.cpp evaluates differently on Android, where
    there is no libevdev and no UPower: the lid and the kind of the platform are
    constants, and the power supply is a file.  They are those of
    GddvConditions.v on a tablet whose lid is open. *)
From stdpp Require Import base gmap strings list.
From Stdlib Require Import ZArith Lia.
From Stdlib Require String.
From S2P Require Import Prelude CString SysFs CFloat Pid Cdev PowerMeter Machine Gddv GddvConditions.

Open Scope string_scope.
Open Scope list_scope.
Open Scope Z_scope.

Definition android_lid_condition (c : condition_t) : Z := compare_condition c 1.
Definition android_platform_type_condition (c : condition_t) : Z := compare_condition c 2.

Section ac.
Context {X W : Type} `{Kernel W}.

Definition ac_online : string := "/sys/class/power_supply/AC/online".

(** A read that fails is the result; no file counts as a battery. *)
Definition android_ac_condition (c : condition_t) : State (machine X W) Z :=
  on_world (with_fs ac_online (
    ex <- exists_path "" ;;
    if ex : bool then
      let* (n, status) := read_int "" 0 in
      ret (if n <? 0 then n else compare_condition c (b2z (negb (status =? 1))))
    else ret (compare_condition c 1))).

(** What the file says, if it can be read. *)
Definition supply (m : machine X W) : bool * (Z * Z) :=
  fst (on_world (with_fs ac_online (ex <- exists_path "" ;; r <- (if ex : bool then read_int "" 0 else ret (0, 0)) ;; ret (ex, r))) m).

(** The platform that stands for an Android device. *)
Definition android_platform (battery : bool) : platform := mk_platform (Some 0) (Some 1) true battery.

(** The conditions of the Android build are those of the other build on a
    tablet with an open lid; the power source is the one the file tells, a
    missing file meaning a battery, and only a file that exists and cannot be
    read gives a result of its own. *)
Theorem android_conditions_agree c battery (m : machine X W) :
  android_lid_condition c = evaluate_lid_condition (android_platform battery) c /\
  android_platform_type_condition c = evaluate_platform_type_condition (android_platform battery) c /\
  let '(ex, (n, status)) := supply m in
  fst (android_ac_condition c m) =
    if ex && (n <? 0) then n
    else evaluate_ac_condition (android_platform (negb ex || negb (status =? 1))) c.
Proof.
  split; [done|]. split; [done|]. unfold supply, android_ac_condition, on_world, with_fs, bind, ret.
  destruct (exists_path "" (new_csys_fs ac_online, m_w m)) as [[] [fs w]]; [|done].
  destruct (read_int "" 0 (fs, w)) as [[n status] [fs' w']]. cbn. by destruct (n <? 0).
Qed.
End ac.
